(* ===== verification/_CoqProject ===== *)
-Q . S2P
Prelude.v
Str.v
Float.v
Metrics.v
Exposition.v
Net.v
Vrrp.v
VrrpLoop.v
Cluster.v
Timing.v
Pool.v
Balancer.v
Config.v
Bgp.v
Anycast.v
Peering.v
Netlink.v
Arp.v
Controller.v
Ownership.v
Health.v
Checks.v
Drain.v
Vips.v
VipMap.v
Takedown.v
Serving.v
Tls.v
Http.v
Api.v
Router.v
Routes.v
Routing.v
Front.v
MetricsPage.v
Main.v
UnitTests.v
IntegrationTests.v
RouterTests.v
