(* ===== verification/Prelude.v ===== *)
(** * stormlb: a verification library

    stormlb is the load balancer in front of a cluster's control plane: a VIP
    that moves between nodes (VRRP, or BGP to the fabric), an L4 proxy on it over
    health-checked backends, named VIPs changed at run time over an HTTP API, and
    an L7 router that demuxes HTTP connections by Host.  This library models the
    program's own logic, file by file under [src/src], and proves what makes each
    part correct.  All definitions are executable; the examples after the
    theorems evaluate them.

    ** The parts and where they are

    - [Prelude]: machine integers, byte buffers and slices, shared tactics and
      hints.  [Str]: Rust strings and UTF-8, the string operations the sources
      use, [BTreeMap]'s order.  [Float]: [f64], its arithmetic, parser and
      printer.  [Net]: addresses, their parser and printer.  These three stand
      for the standard library.
    - [Vrrp] ([vrrp.rs]): [VirtualRouter] and its transitions, the codec of
      advertisements with the checksum.  [VrrpLoop] ([run], [run_loop]): the
      thread around it; a [Turn] is what one pass reads (clock, stop flag, health,
      socket), the list of [Act]s what it does (claim, release, send).  [Cluster]
      puts any number of these loops on one network, which may lose, delay,
      reorder and repeat what they send; nothing else is shared.  [Timing] gives
      the turns a clock that keeps time up to a slack.
    - [Netlink] ([vip.rs]): claiming and releasing the address on an interface,
      rtnetlink messages byte for byte, the kernel's answers an argument.  [Arp]:
      its sockets and the announcing thread, as traces of system calls.
      [Controller] is the trait they implement: the class [Claims], the promise
      [Lawful] its user relies on, the proof that the netlink controller keeps it
      over a kernel as documented ([Rtnetlink]).  [Ownership] runs each node of a
      [Cluster] over its own machine's controller.
    - [Pool] ([pool.rs]): backends shared by pools, snapshots and connections, in
      a heap.  [Health] ([health.rs]): probes and the round that sets the marks.
      [Checks]: the health loop in time, its probes and its sleeps, with changes
      of the spec and of the members between.  [Drain]: the loop, the VRRP thread
      and the BGP task that follow the marks, on one clock.
      [Balancer] ([balancer.rs]): the connection's task over [Pool.pick].
    - [Bgp] ([bgp.rs]): messages, the reader, the session as a step function.
      [Anycast]: a peer's task, which connects again after every session, and the
      health task of [main.rs] that feeds it.  [Peering]: a session and the RFC
      4271 peer it has dialled, with the lines between them and both hold timers, in
      time.
    - [Config] ([config.rs], and the tables of [router.rs], [tls.rs] and
      [metrics.rs]): the configuration, serde's defaults, [load].
    - [Vips] ([vips.rs]): the registry of named VIPs, what it starts, stops and
      shares ([Core], [Serve], [VrrpTask] under their indices), the state file.
      [VipMap]: the map from names to specs that a client of the registry is
      promised.  [Takedown]: the registry with the VRRP threads it stops and
      starts.  [Serving]: the registry with its health loops and the balancer.
    - [Metrics] ([metrics.rs]): counters, gauges, histograms, label texts.
      [Exposition]: a reader of the text exposition format, for the specification.
      [MetricsPage]: the series of a scrape, the text page and its server.
    - [Tls] ([tls.rs]): the router's certificates, reloaded and picked by SNI.
    - [Http]: heads of HTTP messages, shared by [Api] ([api.rs]), the VIP API
      over the registry, and [Router] ([router.rs]), which reads one request head
      and decides.  [Routes] ([router.rs]) keeps the table [Router] looks up;
      [Routing] puts a poll and a connection together.
      [Front] ([router.rs]): the listeners and their accept loops, and the two
      halves of [splice] after the head, under any schedule.
    - [Main] ([main.rs]): what is started, in which order, the errors of the fronts
      that are opened last included, and what ends it.
    - [UnitTests]: the sources' own unit tests, evaluated on the model.
      [IntegrationTests] and [RouterTests]: the tests of [src/tests], likewise.

    They meet as the code does: [Vips] starts a [Pool] with a [Health] checker, an
    L4 listener ([Balancer]) and a VRRP thread ([VrrpLoop], whose health is the
    pool's); [Api] calls [Vips]; [Bgp] follows the feed of [Main] from the pool's
    health; [Front] serves connections through [Router], which reads the table
    [Routes] polls; what they count ([Metrics.Count]) is on the page of
    [MetricsPage].  Foreign code is an interface
    or an argument: [Health.Reqwest], [Vips.StateJson], [Routes.Json],
    [Routes.Clients], [Tls.Pki], and the environments [Health.NetEnv], [Vips.Env], [Api.ApiEnv],
    [Router.Dial], [Routes.PollEnv], [Tls.Files], [Netlink.Exchange],
    [Arp.Kernel], [MetricsPage.Proc], [Front.Arrival], [Main.World].

    ** How the code is modelled

    - Integers keep their width where it matters; overflow wraps, as the release
      profile does.  Time is in nanoseconds.
    - A [&mut self] method takes and returns the state; a fallible one returns an
      [option] or a sum with the error's cause; an outer [option] is a panic
      (slices and index operations are checked, and the theorems show which
      operations never panic).
    - Loops over outside events ([run_loop], [session], [read_request],
      [serve_vip], [poll_routes]) run over the list of what they meet, so every
      statement quantifies over all interleavings of those events.  Tasks that run
      concurrently ([Front.splice], [Cluster]) take their steps in the order of an
      arbitrary schedule.
    - Locks are held for one operation at a time in the code, so an operation is
      one function on the state; poisoned locks are not modelled.  Errors that
      the code logs and drops (claim, release and send failures of the VRRP
      thread) do not change its acts.  Log lines are left out.
    - Fuel: [Vrrp.fold_carries] two rounds, enough for a 32-bit sum
      ([fold_carries_done]); the attribute and message scans of [Netlink] and the
      reader of [Bgp] the length of the buffer, as each round consumes a header;
      [Str.dec] the number of bits; the digits of an [f64] at most 17
      ([Float.show_digits]).  The theorems on them show the result is never
      for want of fuel.

    ** What the theorems show

    - End to end: once the best node is Master and heard, the VIP is on the
      interface of its machine and on no other's ([Ownership.vip_on_one_machine]);
      a silent Master is replaced between three and four advertisement intervals
      after it was last heard ([Timing.failover_time]); on each machine the
      interface carries the address exactly while its thread is Master, and after
      a socket error if it was Master then ([Controller.interface_follows_state]); a removed VIP is off the air within
      half a second, and a change of its VRRP settings hands the address over in
      order ([Takedown]); a connection to a VIP reaches a backend that its spec
      names and that passed the checks its spec asks for
      ([Serving.vip_serves_checked_backends]); a mark is
      never older than an interval and the time of the probes
      ([Checks.health_is_fresh]), so when every backend is down the VIP is
      released ([Drain.backends_down_release_vip]) and the route withdrawn
      ([Drain.backends_down_withdraw_route]) within a bounded time; a request reaches what the
      HTTPRoutes of the last poll ask for ([Routing.routes_are_served]).
    - Failover: the controller is called alternately and a loop that is told to stop
      leaves the VIP released, one that ends with a socket error only if it was not
      Master ([VrrpLoop.run_vip_discipline]); a node without healthy backends gives the
      VIP up ([no_vip_without_backend]); two Masters resolve to one
      ([two_masters_resolve]); a preempting Backup takes over
      ([preempting_backup_takes_over]).  In a cluster ([Cluster]) the best Master
      in service stays, everyone it reaches yields, and a Backup bears the loss of
      two advertisements.  The checksum is RFC 1071's, the codec round-trips and
      detects damage; the timers of a reachable router are in range.
    - Fabric: a BGP session sends BGP and nothing else ([session_speaks_bgp]), ends
      up announcing exactly while healthy ([session_tracks_health]), so the peer's
      route follows the pool over any number of sessions
      ([Anycast.route_follows_pool]); it is only Established after the handshake,
      and with a peer that keeps writing, on lines that deliver in time, stays so at
      both ends ([Peering.session_stays_up]); the reader recovers the messages from
      any chunks.
    - Kernel: the answers are read message by message, the interface's address is
      the one wanted, claim and release do what they say ([Netlink]); a claim is
      announced at most three times and leaks no descriptor ([Arp.announcements]).
    - Serving: picks are healthy members, in turn ([Pool]); checks mark what they
      probed ([Health.round_marks_members]); each connection is accounted for
      ([Balancer.connections_accounted]).
    - The registry: an invariant of everything reachable (no listener, loop or
      VRRP thread without its VIP, none shared or leaked,
      [Vips.reachable_registry_inv]); for its clients it is a map
      ([VipMap.registry_refines_map]); the state file restores what was saved, and
      no more; the configured VIP is read-only over the API.  [Vips.reaches] has the
      environments that may occur as a parameter: with any of them, a CA file that
      changes during an update may leave a refused one half made (the listener and
      the backends of another valid spec in force, see [Vips.in_force]), and the
      invariant, the map and the state file are stated over those too; where they do
      not ([Vips.stable]) a refusal changes nothing.
    - The API: a request means the same however it is cut, only the token opens
      it, one that other hosts reach is never without a token
      ([Api.exposed_api_is_closed]), every answer is one whole HTTP message.
    - The router: a request reaches the backend of its Host byte for byte, with
      one truthful X-Forwarded-Proto; only the table's backends are ever dialled,
      verified when https; own answers cannot be split by the client's text; after
      the head both directions are copied whole, independently of each other, and
      end ([Front.splice_copies], [halves_are_independent], [splice_ends]); a
      request is counted once; plain HTTP redirects exactly while a certificate is
      loaded and a TLS listener bound ([Front.plain_http_redirects]); the table is
      the last one fetched, the backends' CA and the apiserver's client the last that
      loaded ([Routes.poll_keeps_last_good]); a handshake gets the right certificate
      and a reload never loses a good one ([Tls]).
    - Metrics: labels are unambiguous, active gauges count open connections,
      histograms are cumulative; a reader of the format parses the page back into
      the recorded series with their labels, and it is answered whole and holds what
      every part counted ([MetricsPage]).
    - The process: a start fails for six reasons only and never panics; only a router
      that is alone ends it later; BGP hears of changes of health only ([Main]).

    Some theorems state where the code falls short of its documentation: the last
    ones of [VrrpLoop] (a socket error keeps the VIP; a busy socket starves the
    advertisements) and of [Vips] (a saved VIP replaces the configured one; a late
    failure leaves an update half made), the last ones of [Takedown] (a restart
    of the address owner deletes the address under the new thread; a process that
    ends leaves its address behind), [Peering.hold_zero_expires] (the session of
    a peer whose hold time is zero expires after a year), [Api.separator_is_not_checked],
    [Routes.flapping_service_takes_route_down], and of [Front] (a TLS listener that
    is bound on one address only is redirected to from all; an accept error closes a
    plain listener; a head that is lost is not counted).

    ** What is not modelled

    TLS and X.509, HTTP clients, TOML and JSON texts (parameters, with the laws
    used of them), [copy_bidirectional] of the L4 balancer, buffer sizes, log
    lines and the command line: input and output, or libraries.  Timeouts are
    outcomes of what they guard, not clocks, except in [VrrpLoop], [Timing],
    [Checks], [Drain], [Bgp] and [Peering].  The set-up of the VRRP socket is a
    result ([VrrpLoop.Setup]), and the [Display] of errors is their cause.  Of the
    sources' tests, the script over network namespaces ([src/tests/vrrp-netns.sh])
    and the harness for a deployed cluster ([src/test]) are left out. *)

From Stdlib Require Export ZArith Lia.
From stdpp Require Export prelude list gmap strings option numbers.

Global Open Scope Z_scope.

(** ** Tactics *)

(** Linear arithmetic with Euclidean division by constants. *)
Ltac zdiv := intros; Z.to_euclidean_division_equations; lia.

(** Case analysis on the scrutinee of a [match] or an [if], goal first. *)
Ltac dmatch :=
  match goal with
  | |- context [match ?x with _ => _ end] => destruct x eqn:?
  | H : context [match ?x with _ => _ end] |- _ => destruct x eqn:?
  end.

(** Turn the boolean guards of a definition into propositions. *)
Ltac bool_to_prop :=
  repeat match goal with
  | H : _ && _ = true |- _ => apply andb_prop in H as [? ?]
  | H : _ && _ = false |- _ => apply andb_false_iff in H
  | H : _ || _ = true |- _ => apply orb_true_iff in H
  | H : _ || _ = false |- _ => apply orb_false_iff in H as [? ?]
  | H : negb _ = true |- _ => apply negb_true_iff in H
  | H : negb _ = false |- _ => apply negb_false_iff in H
  | H : (_ =? _)%Z = true |- _ => apply Z.eqb_eq in H
  | H : (_ =? _)%Z = false |- _ => apply Z.eqb_neq in H
  | H : (_ <? _)%Z = true |- _ => apply Z.ltb_lt in H
  | H : (_ <? _)%Z = false |- _ => apply Z.ltb_ge in H
  | H : (_ <=? _)%Z = true |- _ => apply Z.leb_le in H
  | H : (_ <=? _)%Z = false |- _ => apply Z.leb_gt in H
  | H : (_ =? _)%nat = true |- _ => apply Nat.eqb_eq in H
  | H : (_ =? _)%nat = false |- _ => apply Nat.eqb_neq in H
  | H : (_ <? _)%nat = true |- _ => apply Nat.ltb_lt in H
  | H : (_ <? _)%nat = false |- _ => apply Nat.ltb_ge in H
  | H : (_ <=? _)%nat = true |- _ => apply Nat.leb_le in H
  | H : (_ <=? _)%nat = false |- _ => apply Nat.leb_gt in H
  | H : bool_decide _ = true |- _ => apply bool_decide_eq_true in H
  | H : bool_decide _ = false |- _ => apply bool_decide_eq_false in H
  end.

(** A decidable closed proposition, by evaluation. *)
Ltac decided := apply (bool_decide_unpack _); vm_compute; exact I.

(** ** Machine integers

    An unsigned Rust integer of width [w] is a [Z]; arithmetic that may leave
    its range is followed by the wrap the release profile performs. *)
Definition wrap8 (x : Z) : Z := x mod 256.
Definition wrap16 (x : Z) : Z := x mod 65536.
Definition wrap32 (x : Z) : Z := x mod 4294967296.
Definition wrap64 (x : Z) : Z := x mod 18446744073709551616.

Definition is_u8 (x : Z) : Prop := 0 <= x < 256.
Definition is_u16 (x : Z) : Prop := 0 <= x < 65536.
Definition is_u32 (x : Z) : Prop := 0 <= x < 4294967296.
Definition is_u64 (x : Z) : Prop := 0 <= x < 18446744073709551616.

(** [Duration::from_secs], in nanoseconds. *)
Definition secs (s : Z) : Z := s * 1000000000.

(** A buffer of bytes. *)
Definition bytes_ok (b : list Z) : Prop := Forall is_u8 b.

#[export] Instance is_u8_dec x : Decision (is_u8 x).
Proof. unfold is_u8. apply _. Defined.
#[export] Instance is_u16_dec x : Decision (is_u16 x).
Proof. unfold is_u16. apply _. Defined.
#[export] Instance is_u32_dec x : Decision (is_u32 x).
Proof. unfold is_u32. apply _. Defined.
#[export] Instance is_u64_dec x : Decision (is_u64 x).
Proof. unfold is_u64. apply _. Defined.
#[export] Instance bytes_ok_dec b : Decision (bytes_ok b).
Proof. unfold bytes_ok. apply _. Defined.

(** [u16::to_be_bytes], [u32::to_be_bytes] and their inverses. *)
Definition be16 (x : Z) : list Z := [x / 256 mod 256; x mod 256].
Definition of_be16 (hi lo : Z) : Z := hi * 256 + lo.
Definition be32 (x : Z) : list Z :=
  [x / 16777216 mod 256; x / 65536 mod 256; x / 256 mod 256; x mod 256].
Definition of_be32 (a b c d : Z) : Z := a * 16777216 + b * 65536 + c * 256 + d.

(** ** Slices

    [&b[i..j]]: [None] is the panic of an index out of range. *)
Definition slice {A} (b : list A) (i j : nat) : option (list A) :=
  if bool_decide (i <= j)%nat && bool_decide (j <= length b)%nat
  then Some (take (j - i) (drop i b)) else None.

(** [&b[i..]]. *)
Definition slice_from {A} (b : list A) (i : nat) : option (list A) :=
  if bool_decide (i <= length b)%nat then Some (drop i b) else None.

Create HintDb stormlb.

(** ** Integers *)

Lemma wrap8_id x : is_u8 x -> wrap8 x = x.
Proof. unfold is_u8, wrap8. intros. by apply Z.mod_small. Qed.
Lemma wrap16_id x : is_u16 x -> wrap16 x = x.
Proof. unfold is_u16, wrap16. intros. by apply Z.mod_small. Qed.
Lemma wrap32_id x : is_u32 x -> wrap32 x = x.
Proof. unfold is_u32, wrap32. intros. by apply Z.mod_small. Qed.
Lemma wrap64_id x : is_u64 x -> wrap64 x = x.
Proof. unfold is_u64, wrap64. intros. by apply Z.mod_small. Qed.

Lemma wrap8_u8 x : is_u8 (wrap8 x).
Proof. unfold is_u8, wrap8. by apply Z.mod_pos_bound. Qed.
Lemma wrap16_u16 x : is_u16 (wrap16 x).
Proof. unfold is_u16, wrap16. by apply Z.mod_pos_bound. Qed.

Lemma be16_bytes x : bytes_ok (be16 x).
Proof. unfold bytes_ok, be16, is_u8. repeat constructor; zdiv. Qed.
Lemma be32_bytes x : bytes_ok (be32 x).
Proof. unfold bytes_ok, be32, is_u8. repeat constructor; zdiv. Qed.

Lemma of_be16_be16 x : is_u16 x -> of_be16 (x / 256 mod 256) (x mod 256) = x.
Proof. unfold is_u16, of_be16. zdiv. Qed.

Lemma of_be16_u16 a b : is_u8 a -> is_u8 b -> is_u16 (of_be16 a b).
Proof. unfold is_u8, is_u16, of_be16. lia. Qed.

(** [x & 0x0fff] on a non-negative integer. *)
Lemma land_0fff x : Z.land x 4095 = x mod 4096.
Proof. change 4095 with (Z.ones 12). by rewrite Z.land_ones by lia. Qed.

#[export] Hint Resolve wrap8_u8 wrap16_u16 be16_bytes be32_bytes of_be16_u16 : stormlb.

(** ** Byte buffers *)

Lemma bytes_ok_app a b : bytes_ok (a ++ b) <-> bytes_ok a /\ bytes_ok b.
Proof. apply Forall_app. Qed.
Lemma bytes_ok_cons x b : bytes_ok (x :: b) <-> is_u8 x /\ bytes_ok b.
Proof. apply Forall_cons_iff. Qed.
Lemma bytes_ok_nil : bytes_ok [].
Proof. constructor. Qed.
Lemma bytes_ok_drop n b : bytes_ok b -> bytes_ok (drop n b).
Proof. apply Forall_drop. Qed.
Lemma bytes_ok_take n b : bytes_ok b -> bytes_ok (take n b).
Proof. apply Forall_take. Qed.
Lemma bytes_ok_lookup b i x : bytes_ok b -> b !! i = Some x -> is_u8 x.
Proof. intros H Hi. by eapply Forall_lookup_1 in Hi. Qed.

#[export] Hint Resolve bytes_ok_nil bytes_ok_drop bytes_ok_take : stormlb.

(** Split a goal about a buffer into its parts; each byte is left or is a constant. *)
Ltac solve_bytes :=
  repeat match goal with
  | |- bytes_ok (_ ++ _) => apply bytes_ok_app; split
  | |- bytes_ok (_ :: _) => apply bytes_ok_cons; split
  | |- bytes_ok [] => apply bytes_ok_nil
  | |- bytes_ok (be16 _) => apply be16_bytes
  | |- bytes_ok (be32 _) => apply be32_bytes
  | |- is_u8 (wrap8 _) => apply wrap8_u8
  | |- is_u8 _ => first [assumption | unfold is_u8; lia | unfold is_u8; zdiv]
  | |- bytes_ok _ => assumption
  end.

(** ** Slices *)

Lemma slice_Some {A} (b : list A) i j :
  (i <= j)%nat -> (j <= length b)%nat -> slice b i j = Some (take (j - i) (drop i b)).
Proof. intros. unfold slice. by rewrite !bool_decide_true. Qed.

Lemma slice_from_Some {A} (b : list A) i :
  (i <= length b)%nat -> slice_from b i = Some (drop i b).
Proof. intros. unfold slice_from. by rewrite bool_decide_true. Qed.

Lemma lookup_lt_ex {A} (l : list A) i : (i < length l)%nat -> exists x, l !! i = Some x.
Proof. intros H. by apply lookup_lt_is_Some_2 in H. Qed.

Lemma Forall_mjoin_inv {A} (P : A -> Prop) ls : Forall P (mjoin ls) -> Forall (Forall P) ls.
Proof.
  induction ls as [|l ls IH]; intros H; [constructor|].
  change (mjoin (l :: ls)) with (l ++ mjoin ls) in H. apply Forall_app in H as [? ?].
  constructor; auto.
Qed.

Lemma rev_reverse {A} (l : list A) : rev l = reverse l.
Proof. apply rev_alt. Qed.
