(* ===== verification/Str.v ===== *)
(** * Strings of the standard library

    A Rust [str] is its list of characters (Unicode scalar values, [Z]); a byte
    buffer is a list of bytes.  [utf8_decode] is [std::str::from_utf8],
    [utf8_encode] is [as_bytes].  The operations that only look at ASCII
    characters ([split_on], [split_once], [lower], ...) serve both. *)

From S2P Require Import Prelude.
From Stdlib Require Import Ascii String.
From stdpp Require Import strings sorting.

Local Open Scope Z_scope.

Abbreviation str := (list Z) (only parsing).

(** A literal. *)
Fixpoint lit (s : string) : str :=
  match s with
  | EmptyString => []
  | String c s => Z.of_N (N_of_ascii c) :: lit s
  end.

(** ** UTF-8 *)

Definition is_cont (y : Z) : bool := (128 <=? y) && (y <=? 191).

(** The second byte of a three-byte sequence headed by [x]. *)
Definition second3 (x y : Z) : bool :=
  if x =? 224 then (160 <=? y) && (y <=? 191)
  else if x =? 237 then (128 <=? y) && (y <=? 159)
  else is_cont y.

(** The second byte of a four-byte sequence headed by [x]. *)
Definition second4 (x y : Z) : bool :=
  if x =? 240 then (144 <=? y) && (y <=? 191)
  else if x =? 244 then (128 <=? y) && (y <=? 143)
  else is_cont y.

Fixpoint utf8_decode (b : list Z) : option str :=
  match b with
  | [] => Some []
  | x :: b =>
      if x <? 128 then cons x <$> utf8_decode b
      else if (194 <=? x) && (x <=? 223) then
        match b with
        | y :: b =>
            if is_cont y then cons ((x - 192) * 64 + (y - 128)) <$> utf8_decode b else None
        | _ => None
        end
      else if (224 <=? x) && (x <=? 239) then
        match b with
        | y :: z :: b =>
            if second3 x y && is_cont z
            then cons ((x - 224) * 4096 + (y - 128) * 64 + (z - 128)) <$> utf8_decode b else None
        | _ => None
        end
      else if (240 <=? x) && (x <=? 244) then
        match b with
        | y :: z :: w :: b =>
            if second4 x y && is_cont z && is_cont w
            then cons ((x - 240) * 262144 + (y - 128) * 4096 + (z - 128) * 64 + (w - 128))
                   <$> utf8_decode b
            else None
        | _ => None
        end
      else None
  end.

(** [String::from_utf8_lossy]: what is no UTF-8 becomes U+FFFD, one for each
    maximal prefix of a sequence. *)
Fixpoint utf8_lossy (b : list Z) : str :=
  match b with
  | [] => []
  | x :: b =>
      if x <? 128 then x :: utf8_lossy b
      else if (194 <=? x) && (x <=? 223) then
        match b with
        | y :: b1 =>
            if is_cont y then (x - 192) * 64 + (y - 128) :: utf8_lossy b1 else 65533 :: utf8_lossy b
        | [] => [65533]
        end
      else if (224 <=? x) && (x <=? 239) then
        match b with
        | y :: b1 =>
            if second3 x y then
              match b1 with
              | z :: b2 =>
                  if is_cont z
                  then (x - 224) * 4096 + (y - 128) * 64 + (z - 128) :: utf8_lossy b2
                  else 65533 :: utf8_lossy b1
              | [] => [65533]
              end
            else 65533 :: utf8_lossy b
        | [] => [65533]
        end
      else if (240 <=? x) && (x <=? 244) then
        match b with
        | y :: b1 =>
            if second4 x y then
              match b1 with
              | z :: b2 =>
                  if is_cont z then
                    match b2 with
                    | w :: b3 =>
                        if is_cont w
                        then (x - 240) * 262144 + (y - 128) * 4096 + (z - 128) * 64 + (w - 128) :: utf8_lossy b3
                        else 65533 :: utf8_lossy b2
                    | [] => [65533]
                    end
                  else 65533 :: utf8_lossy b1
              | [] => [65533]
              end
            else 65533 :: utf8_lossy b
        | [] => [65533]
        end
      else 65533 :: utf8_lossy b
  end.

Definition utf8_char (c : Z) : list Z :=
  if c <? 128 then [c]
  else if c <? 2048 then [192 + c / 64; 128 + c mod 64]
  else if c <? 65536 then [224 + c / 4096; 128 + c / 64 mod 64; 128 + c mod 64]
  else [240 + c / 262144; 128 + c / 4096 mod 64; 128 + c / 64 mod 64; 128 + c mod 64].

Definition utf8_encode (s : str) : list Z := concat (map utf8_char s).

(** A scalar value: no surrogates. *)
Definition is_char (c : Z) : Prop := 0 <= c < 55296 \/ 57344 <= c < 1114112.

(** ** Characters *)

Definition is_digit (c : Z) : bool := (48 <=? c) && (c <=? 57).
Definition is_lower (c : Z) : bool := (97 <=? c) && (c <=? 122).
Definition is_upper (c : Z) : bool := (65 <=? c) && (c <=? 90).

(** [to_ascii_lowercase]. *)
Definition lower_char (c : Z) : Z := if is_upper c then c + 32 else c.
Definition lower (s : str) : str := map lower_char s.

Definition eq_ignore_ascii_case (a b : str) : bool := bool_decide (lower a = lower b).

(** [char::is_whitespace]: the Unicode property White_Space. *)
Definition is_whitespace (c : Z) : bool :=
  ((9 <=? c) && (c <=? 13)) || (c =? 32) || (c =? 133) || (c =? 160) || (c =? 5760)
  || ((8192 <=? c) && (c <=? 8202)) || (c =? 8232) || (c =? 8233) || (c =? 8239)
  || (c =? 8287) || (c =? 12288).

(** ** Searching and splitting *)

Fixpoint trim_start_by (p : Z -> bool) (s : str) : str :=
  match s with
  | [] => []
  | c :: s' => if p c then trim_start_by p s' else s
  end.

Definition trim_end_by (p : Z -> bool) (s : str) : str := rev (trim_start_by p (rev s)).

(** [str::trim]. *)
Definition trim (s : str) : str := trim_end_by is_whitespace (trim_start_by is_whitespace s).

(** [split(c)]: the pieces between the separators; at least one. *)
Fixpoint split_by (p : Z -> bool) (s : str) : list str :=
  match s with
  | [] => [[]]
  | c :: s =>
      if p c then [] :: split_by p s
      else match split_by p s with
           | w :: ws => (c :: w) :: ws
           | [] => [[c]]
           end
  end.

Definition split_on (c : Z) (s : str) : list str := split_by (Z.eqb c) s.

(** [split_whitespace]. *)
Definition split_whitespace (s : str) : list str :=
  List.filter (fun w => negb (bool_decide (w = []))) (split_by is_whitespace s).

(** [split_inclusive(c)]: each piece keeps its separator; no empty last piece. *)
Fixpoint split_inclusive (c : Z) (s : str) : list str :=
  match s with
  | [] => []
  | x :: s =>
      if x =? c then [x] :: split_inclusive c s
      else match split_inclusive c s with
           | w :: ws => (x :: w) :: ws
           | [] => [[x]]
           end
  end.

Fixpoint split_once (c : Z) (s : str) : option (str * str) :=
  match s with
  | [] => None
  | x :: s =>
      if x =? c then Some ([], s)
      else match split_once c s with
           | Some (a, b) => Some (x :: a, b)
           | None => None
           end
  end.

Definition rsplit_once (c : Z) (s : str) : option (str * str) :=
  match split_once c (rev s) with
  | Some (a, b) => Some (rev b, rev a)
  | None => None
  end.

Fixpoint strip_prefix (p s : str) : option str :=
  match p, s with
  | [], _ => Some s
  | a :: p, b :: s => if a =? b then strip_prefix p s else None
  | _, [] => None
  end.

Definition starts_with (p s : str) : bool :=
  match strip_prefix p s with Some _ => true | None => false end.

(** ** [BTreeMap] *)

(** The order of keys: the bytes of the names, the order of their characters. *)
Fixpoint str_leb (a b : str) : bool :=
  match a, b with
  | [], _ => true
  | _ :: _, [] => false
  | x :: a, y :: b => (x <? y) || ((x =? y) && str_leb a b)
  end.

Definition key_le {A} (x y : str * A) : Prop := str_leb x.1 y.1 = true.

#[export] Instance key_le_dec {A} : RelDecision (@key_le A).
Proof. intros x y. unfold key_le. apply _. Defined.

(** The entries in the map's order. *)
Definition btree {A} (m : gmap str A) : list (str * A) := merge_sort key_le (map_to_list m).

(** ** Decimal numbers *)

(** [n]'s digits before [acc]; [fuel] at least the number of digits. *)
Fixpoint dec_loop (fuel : nat) (n : Z) (acc : str) : str :=
  match fuel with
  | O => acc
  | S fuel =>
      let acc := (48 + n mod 10) :: acc in
      if n / 10 =? 0 then acc else dec_loop fuel (n / 10) acc
  end.

(** [n.to_string()] for an unsigned [n]: [log2 n + 1] digits are enough. *)
Definition dec (n : Z) : str := dec_loop (S (Z.to_nat (Z.log2 n))) n [].

(** [str::parse] for an unsigned type of maximum [max]: an optional [+], then
    digits only, at least one, no overflow. *)
Fixpoint digits_value (s : str) (acc : Z) : option Z :=
  match s with
  | [] => Some acc
  | c :: s => if is_digit c then digits_value s (acc * 10 + (c - 48)) else None
  end.

Definition parse_uint (max : Z) (s : str) : option Z :=
  let s := match s with 43 :: s' => s' | _ => s end in
  if bool_decide (s = []) then None
  else v ← digits_value s 0; if v <=? max then Some v else None.

(** ** Lemmas *)

Lemma lit_inj a b : lit a = lit b -> a = b.
Proof.
  revert b. induction a as [|x a IH]; intros [|y b]; cbn [lit]; [done..|]. intros [= E H].
  apply (f_equal Z.to_N) in E. rewrite !N2Z.id in E. apply (f_equal ascii_of_N) in E.
  rewrite !ascii_N_embedding in E. by rewrite E, (IH b H).
Qed.

Lemma strip_prefix_Some p : forall s r, strip_prefix p s = Some r <-> s = p ++ r.
Proof.
  induction p as [|a p IH]; intros s r; simpl; [by split; [intros [= ->]|intros ->]|].
  destruct s as [|b s]; [by split|]. destruct (Z.eqb_spec a b) as [->|]; [|by split; [|intros [=]]].
  rewrite IH. split; [by intros ->|by intros [= ->]].
Qed.

Lemma starts_with_true p s : starts_with p s = true <-> exists r, s = p ++ r.
Proof.
  unfold starts_with. split.
  - destruct (strip_prefix p s) as [r|] eqn:E; [|done]. intros _. exists r. by apply strip_prefix_Some.
  - intros [r E]. apply strip_prefix_Some in E. by rewrite E.
Qed.

Lemma digits_value_nonneg s : forall acc v, 0 <= acc -> digits_value s acc = Some v -> 0 <= v.
Proof.
  induction s as [|c s IH]; intros acc v Ha; simpl; [by intros [= <-]|].
  destruct (is_digit c) eqn:E; [|done]. apply IH. unfold is_digit in E. bool_to_prop. lia.
Qed.

Lemma parse_uint_nonneg max s v : parse_uint max s = Some v -> 0 <= v.
Proof.
  unfold parse_uint. set (s' := match s with 43 :: s' => s' | _ => s end).
  case_bool_decide; [done|]. destruct (digits_value s' 0) as [n|] eqn:E; [|done].
  cbn. destruct (n <=? max); [|done]. intros [= <-]. by eapply digits_value_nonneg in E.
Qed.

Lemma split_by_absent p s : (forall c, c ∈ s -> p c = false) -> split_by p s = [s].
Proof.
  induction s as [|c s IH]; intros H; [done|]. cbn. rewrite (H c) by set_solver.
  rewrite IH by set_solver. done.
Qed.

Lemma split_on_absent c s : c ∉ s -> split_on c s = [s].
Proof.
  intros H. apply split_by_absent. intros x Hx. apply Z.eqb_neq. intros ->. done.
Qed.

(** ASCII text: UTF-8 is the identity on it. *)
Definition is_ascii (s : str) : Prop := Forall (fun c => 0 <= c < 128) s.

#[export] Instance is_ascii_dec s : Decision (is_ascii s).
Proof. unfold is_ascii. apply _. Defined.

Lemma is_ascii_app a b : is_ascii (a ++ b) <-> is_ascii a /\ is_ascii b.
Proof. apply Forall_app. Qed.

Lemma ascii_chars s : is_ascii s -> Forall is_char s.
Proof.
  unfold is_ascii, is_char. rewrite !list.Forall_forall. intros H c Hc. specialize (H c Hc).
  cbn beta in H. lia.
Qed.

Lemma utf8_encode_ascii s : is_ascii s -> utf8_encode s = s.
Proof.
  unfold utf8_encode. induction 1 as [|c s Hc _ IH]; [done|]. cbn [map concat]. rewrite IH.
  unfold utf8_char. destruct (Z.ltb_spec c 128); [done|lia].
Qed.

Lemma utf8_decode_ascii s : is_ascii s -> utf8_decode s = Some s.
Proof.
  induction 1 as [|c s Hc _ IH]; [done|]. cbn [utf8_decode]. rewrite IH.
  destruct (Z.ltb_spec c 128); [done|lia].
Qed.

Lemma utf8_encode_app a b : utf8_encode (a ++ b) = utf8_encode a ++ utf8_encode b.
Proof. unfold utf8_encode. by rewrite map_app, concat_app. Qed.

(** Decimal numbers: digits only, and the parser inverts [dec]. *)
Definition all_digits (s : str) : Prop := s <> [] /\ Forall (fun c => is_digit c = true) s.

Lemma dec_loop_digits fuel : forall n acc,
  0 <= n -> Forall (fun c => is_digit c = true) acc -> Forall (fun c => is_digit c = true) (dec_loop fuel n acc).
Proof.
  induction fuel as [|fuel IH]; intros n acc Hn Ha; [done|]. cbn [dec_loop].
  assert (Forall (fun c => is_digit c = true) ((48 + n mod 10) :: acc)) as H.
  { constructor; [|done]. unfold is_digit. apply andb_true_intro. split; apply Z.leb_le; zdiv. }
  destruct (n / 10 =? 0); [done|]. apply IH; [zdiv|done].
Qed.

Lemma dec_loop_nonempty fuel : forall n acc, acc <> [] -> dec_loop fuel n acc <> [].
Proof.
  induction fuel as [|fuel IH]; intros n acc Ha; [done|]. cbn [dec_loop].
  destruct (n / 10 =? 0); [done|]. by apply IH.
Qed.

Lemma dec_digits n : 0 <= n -> all_digits (dec n).
Proof.
  intros Hn. split; [|by apply dec_loop_digits; [|constructor]].
  unfold dec. cbn [dec_loop]. destruct (n / 10 =? 0); [done|]. by apply dec_loop_nonempty.
Qed.

Lemma dec_loop_value fuel : forall n acc,
  0 <= n < 2 ^ Z.of_nat fuel -> digits_value (dec_loop fuel n acc) 0 = digits_value acc n.
Proof.
  induction fuel as [|fuel IH]; intros n acc Hn.
  { replace n with 0 by (simpl in Hn; lia). done. }
  cbn [dec_loop]. rewrite Nat2Z.inj_succ, Z.pow_succ_r in Hn by lia.
  assert (is_digit (48 + n mod 10) = true) as Hd.
  { unfold is_digit. apply andb_true_intro. split; apply Z.leb_le; zdiv. }
  destruct (Z.eqb_spec (n / 10) 0) as [E|E].
  - cbn [digits_value]. rewrite Hd. f_equal. zdiv.
  - rewrite IH by zdiv. cbn [digits_value]. rewrite Hd. f_equal. zdiv.
Qed.

Lemma parse_dec max n : 0 <= n <= max -> parse_uint max (dec n) = Some n.
Proof.
  intros Hn. destruct (dec_digits n) as [Hne Hd]; [lia|]. unfold parse_uint.
  assert (match dec n with 43 :: s' => s' | _ => dec n end = dec n) as ->.
  { destruct (dec n) as [|c s]; [done|]. apply Forall_cons_iff in Hd as [Hc _].
    destruct (decide (c = 43)) as [->|Hc']; [done|].
    destruct c as [|p|]; try done. repeat (destruct p; try done). }
  rewrite bool_decide_false by done. unfold dec. rewrite dec_loop_value.
  - cbn. destruct (Z.leb_spec n max); [done|lia].
  - rewrite Nat2Z.inj_succ, Z2Nat.id by apply Z.log2_nonneg.
    destruct (Z.eq_dec n 0) as [->|]; [done|]. pose proof (Z.log2_spec n). lia.
Qed.

(** Enough fuel changes nothing. *)
Lemma dec_loop_fuel f : forall g n acc, 0 <= n < 2 ^ Z.of_nat f -> 0 <= n < 2 ^ Z.of_nat g -> (0 < f)%nat
  -> (0 < g)%nat ->
  dec_loop f n acc = dec_loop g n acc.
Proof.
  induction f as [|f IH]; intros g n acc Hf Hg Pf Pg; [lia|].
  destruct g as [|g]; [lia|]. cbn [dec_loop].
  rewrite Nat2Z.inj_succ, Z.pow_succ_r in Hf, Hg by lia.
  destruct (Z.eqb_spec (n / 10) 0) as [E|E]; [done|].
  destruct f as [|f]; [simpl in Hf; zdiv|]. destruct g as [|g]; [simpl in Hg; zdiv|].
  apply IH; [zdiv|zdiv|lia|lia].
Qed.

Lemma dec_loop_acc f : forall n acc, dec_loop f n acc = dec_loop f n [] ++ acc.
Proof.
  induction f as [|f IH]; intros n acc; [done|]. cbn [dec_loop].
  destruct (n / 10 =? 0); [done|]. rewrite (IH _ (_ :: acc)), (IH _ [_]), <- app_assoc. done.
Qed.

Lemma log2_fuel n : 0 <= n -> 0 <= n < 2 ^ Z.of_nat (S (Z.to_nat (Z.log2 n))).
Proof.
  intros Hn. rewrite Nat2Z.inj_succ, Z2Nat.id by apply Z.log2_nonneg.
  destruct (Z.eq_dec n 0) as [->|]; [done|]. pose proof (Z.log2_spec n). lia.
Qed.

Lemma dec_step n : 10 <= n -> dec n = dec (n / 10) ++ [48 + n mod 10].
Proof.
  intros Hn. unfold dec at 1. cbn [dec_loop].
  destruct (Z.eqb_spec (n / 10) 0) as [E|E]; [exfalso; zdiv|].
  rewrite dec_loop_acc. f_equal. unfold dec.
  pose proof (log2_fuel n ltac:(lia)) as H. rewrite Nat2Z.inj_succ, Z.pow_succ_r in H by lia.
  apply dec_loop_fuel.
  - zdiv.
  - apply log2_fuel. zdiv.
  - pose proof (Z.log2_le_mono 2 n ltac:(lia)) as Hl. change (Z.log2 2) with 1 in Hl. lia.
  - lia.
Qed.

Lemma dec_small n : 0 <= n < 10 -> dec n = [48 + n].
Proof.
  intros Hn. unfold dec. cbn [dec_loop]. rewrite Z.div_small, Z.mod_small by lia. done.
Qed.

(** A number of [j + 1] digits. *)
Lemma dec_length n (j : nat) : 10 ^ Z.of_nat j <= n < 10 ^ (Z.of_nat j + 1) -> length (dec n) = S j.
Proof.
  revert n. induction j as [|j IH]; intros n Hn; [by rewrite dec_small by (simpl in Hn; lia)|].
  rewrite Nat2Z.inj_succ, !Z.pow_add_r, Z.pow_succ_r in Hn by lia.
  assert (0 < 10 ^ Z.of_nat j) by lia.
  rewrite dec_step, length_app, IH by (rewrite ?Z.pow_add_r; zdiv). cbn. lia.
Qed.

Lemma dec_zeros n (j : nat) : 0 < n -> dec (n * 10 ^ Z.of_nat j) = dec n ++ replicate j 48.
Proof.
  intros Hn. induction j as [|j IH]; [by rewrite Z.mul_1_r, app_nil_r|].
  rewrite Nat2Z.inj_succ, Z.pow_succ_r by lia.
  replace (n * (10 * 10 ^ Z.of_nat j)) with (n * 10 ^ Z.of_nat j * 10) by lia.
  assert (0 < 10 ^ Z.of_nat j) by lia.
  rewrite dec_step by nia. rewrite Z.div_mul, Z.mod_mul by lia. rewrite IH, <- app_assoc.
  f_equal. change [48 + 0] with (replicate 1 48). rewrite <- replicate_add. f_equal. lia.
Qed.

Lemma digit_not s c : Forall (fun c => is_digit c = true) s -> is_digit c = false -> c ∉ s.
Proof. rewrite list.Forall_forall. intros H Hc Hin. apply H in Hin. congruence. Qed.

Lemma digits_ascii s : Forall (fun c => is_digit c = true) s -> is_ascii s.
Proof.
  unfold is_ascii. rewrite !list.Forall_forall. intros H c Hc. apply H in Hc.
  unfold is_digit in Hc. bool_to_prop. lia.
Qed.

Lemma trim_start_by_nop p s : match s with c :: _ => p c = false | [] => True end -> trim_start_by p s = s.
Proof. destruct s as [|c s]; [done|]. cbn. by intros ->. Qed.

(** Digits after a blank, trimmed. *)
Lemma trim_digits s : all_digits s -> trim (32 :: s) = s.
Proof.
  intros [Hne Hd]. unfold trim, trim_end_by. cbn [trim_start_by].
  assert (forall c, is_digit c = true -> is_whitespace c = false) as Hw.
  { intros c Hc. unfold is_digit in Hc. bool_to_prop. unfold is_whitespace.
    repeat rewrite orb_false_iff || rewrite andb_false_iff.
    rewrite ?Z.leb_gt, ?Z.eqb_neq. lia. }
  change (is_whitespace 32) with true. cbn iota.
  rewrite (trim_start_by_nop _ s).
  2:{ destruct s; [done|]. apply Forall_cons_iff in Hd as [Hc _]. by apply Hw. }
  rewrite trim_start_by_nop; [apply rev_involutive|].
  assert (Forall (fun c => is_digit c = true) (rev s)) as Hr by (by apply Forall_rev).
  destruct (rev s); [done|]. apply Forall_cons_iff in Hr as [Hc _]. by apply Hw.
Qed.

Lemma split_once_line c a b : c ∉ a -> split_once c (a ++ c :: b) = Some (a, b).
Proof.
  induction a as [|x a IH]; intros H; cbn [app split_once]; [by rewrite Z.eqb_refl|].
  destruct (Z.eqb_spec x c); [set_solver|]. by rewrite IH by set_solver.
Qed.

Lemma split_on_line c l s : c ∉ l -> split_on c (l ++ c :: s) = l :: split_on c s.
Proof.
  intros H. unfold split_on. induction l as [|x l IH]; cbn [app split_by].
  - by rewrite Z.eqb_refl.
  - destruct (Z.eqb_spec c x); [set_solver|]. by rewrite IH by set_solver.
Qed.


(** Encoding and decoding agree on scalar values. *)
Ltac zbool :=
  repeat match goal with
  | |- context [?a <? ?b] => first
      [ rewrite (proj2 (Z.ltb_lt a b)) by zdiv | rewrite (proj2 (Z.ltb_ge a b)) by zdiv ]
  | |- context [?a <=? ?b] => first
      [ rewrite (proj2 (Z.leb_le a b)) by zdiv | rewrite (proj2 (Z.leb_gt a b)) by zdiv ]
  end; cbn [andb].

Lemma is_cont_low x : is_cont (128 + x mod 64) = true.
Proof. unfold is_cont. by zbool. Qed.

Lemma second3_ok c : 2048 <= c < 65536 -> is_char c ->
  second3 (224 + c / 4096) (128 + c / 64 mod 64) = true.
Proof.
  unfold is_char, second3. intros H Hc.
  destruct (Z.eqb_spec (224 + c / 4096) 224); [by zbool|].
  destruct (Z.eqb_spec (224 + c / 4096) 237); [by zbool|apply is_cont_low].
Qed.

Lemma second4_ok c : 65536 <= c < 1114112 ->
  second4 (240 + c / 262144) (128 + c / 4096 mod 64) = true.
Proof.
  unfold second4. intros H.
  destruct (Z.eqb_spec (240 + c / 262144) 240); [by zbool|].
  destruct (Z.eqb_spec (240 + c / 262144) 244); [by zbool|apply is_cont_low].
Qed.

Lemma utf8_decode_char c b : is_char c -> utf8_decode (utf8_char c ++ b) = cons c <$> utf8_decode b.
Proof.
  intros Hc. assert (0 <= c < 1114112) as Hr by (unfold is_char in Hc; lia). unfold utf8_char.
  destruct (Z.ltb_spec c 128); [|destruct (Z.ltb_spec c 2048); [|destruct (Z.ltb_spec c 65536)]];
    cbn [app utf8_decode].
  - by zbool.
  - rewrite is_cont_low. zbool. f_equal. f_equal. zdiv.
  - rewrite second3_ok, is_cont_low by done. zbool. f_equal. f_equal. zdiv.
  - rewrite second4_ok, !is_cont_low by lia. zbool. f_equal. f_equal. zdiv.
Qed.

Lemma utf8_decode_encode_app s b : Forall is_char s -> utf8_decode (utf8_encode s ++ b) = app s <$> utf8_decode b.
Proof.
  unfold utf8_encode. induction 1 as [|c s Hc _ IH]; cbn [map concat app].
  - by destruct (utf8_decode b).
  - rewrite <- app_assoc, utf8_decode_char, IH by done. by destruct (utf8_decode b).
Qed.

Lemma utf8_decode_encode s : Forall is_char s -> utf8_decode (utf8_encode s) = Some s.
Proof. intros H. rewrite <- (app_nil_r (utf8_encode s)), utf8_decode_encode_app by done. cbn. by rewrite app_nil_r. Qed.

(** No encoded byte is an ASCII byte that is not a character of the text. *)
Lemma utf8_encode_ascii_byte c s : c < 128 -> Forall is_char s -> c ∈ utf8_encode s -> c ∈ s.
Proof.
  unfold utf8_encode. intros Hc. induction 1 as [|x s Hx _ IH]; [done|]. cbn [map concat].
  rewrite elem_of_app. intros [H|H]; [|set_solver]. unfold utf8_char in H.
  assert (0 <= x < 1114112) by (unfold is_char in Hx; lia).
  repeat case_match; bool_to_prop; rewrite !elem_of_cons, elem_of_nil in H; [set_solver|exfalso..];
    zdiv.
Qed.

(** ** Keys and values *)

Lemma split_once_Some c s a b : split_once c s = Some (a, b) <-> s = a ++ c :: b /\ c ∉ a.
Proof.
  split; [|intros [-> H]; by apply split_once_line].
  revert a. induction s as [|x s IH]; intros a; cbn [split_once]; [done|].
  destruct (Z.eqb_spec x c) as [->|Hx].
  - intros [= <- <-]. split; [done|apply not_elem_of_nil].
  - destruct (split_once c s) as [[a' b']|] eqn:E; [|done]. intros [= <- <-].
    destruct (IH a' eq_refl) as [-> ?]. split; [done|set_solver].
Qed.

Lemma trim_start_by_app p a c b : p c = false -> trim_start_by p (a ++ c :: b) = trim_start_by p a ++ c :: b.
Proof.
  intros Hc. induction a as [|x a IH]; cbn [app trim_start_by]; [by rewrite Hc|].
  destruct (p x); [done|]. done.
Qed.

Lemma trim_end_by_app p a c b : p c = false -> trim_end_by p (a ++ c :: b) = a ++ c :: trim_end_by p b.
Proof.
  intros Hc. unfold trim_end_by. rewrite rev_app_distr. cbn [rev]. rewrite <- app_assoc.
  change ([c] ++ rev a) with (c :: rev a). rewrite trim_start_by_app by done.
  rewrite rev_app_distr. cbn [rev]. by rewrite rev_involutive, <- app_assoc.
Qed.

Lemma utf8_decode_app_ascii a b : is_ascii a -> utf8_decode (a ++ b) = app a <$> utf8_decode b.
Proof.
  intros H. rewrite <- (utf8_encode_ascii a H) at 1. rewrite utf8_decode_encode_app; [done|].
  by apply ascii_chars.
Qed.

(** A name that is an ASCII literal up to case is ASCII without blanks. *)
Lemma lower_eq_ascii a b : Forall (fun c => 33 <= c < 127) (lower a) -> lower a = lower b ->
  Forall (fun c => 33 <= c < 127) b.
Proof.
  intros H E. rewrite E in H. unfold lower in H. rewrite list.Forall_forall in H |- *.
  intros c Hc. specialize (H (lower_char c)).
  assert (lower_char c ∈ map lower_char b) as Hin
    by (rewrite list_elem_of_In; apply in_map; by rewrite <- list_elem_of_In).
  specialize (H Hin). cbn beta in H. unfold lower_char, is_upper in H.
  destruct (_ && _) eqn:Ec in H; bool_to_prop; lia.
Qed.

Lemma trim_graphic s : Forall (fun c => 33 <= c < 127) s -> trim s = s.
Proof.
  intros H. assert (forall c, 33 <= c < 127 -> is_whitespace c = false) as Hw.
  { intros c Hc. unfold is_whitespace.
    repeat rewrite orb_false_iff || rewrite andb_false_iff. rewrite ?Z.leb_gt, ?Z.eqb_neq. lia. }
  unfold trim, trim_end_by.
  assert (forall t, Forall (fun c => 33 <= c < 127) t -> trim_start_by is_whitespace t = t) as Ht.
  { intros [|c t] Hc; [done|]. apply Forall_cons_iff in Hc as [Hc _]. cbn. by rewrite Hw. }
  rewrite (Ht s H), Ht; [apply rev_involutive|by apply Forall_rev].
Qed.

(** ** Decoded text *)

Lemma utf8_decode_inv n : forall b s, (length b <= n)%nat -> bytes_ok b -> utf8_decode b = Some s ->
  Forall is_char s /\ utf8_encode s = b.
Proof.
  induction n as [|n IH]; intros b s Hl Hb.
  { destruct b; [|simpl in Hl; lia]. intros [= <-]. split; [constructor|done]. }
  destruct b as [|x b]; [intros [= <-]; split; [constructor|done]|]. cbn [length] in Hl.
  assert (forall c b' s', (length b' <= n)%nat -> bytes_ok b' -> is_char c -> x :: b = utf8_char c ++ b' ->
            cons c <$> utf8_decode b' = Some s' -> Forall is_char s' /\ utf8_encode s' = x :: b) as Hk.
  { intros c b' s' Hl' Hb' Hc E. destruct (utf8_decode b') as [t|] eqn:Et; [|done]. intros [= <-].
    destruct (IH b' t Hl' Hb' Et) as [Ht He]. split; [by constructor|].
    unfold utf8_encode in *. cbn [map concat]. by rewrite He. }
  apply bytes_ok_cons in Hb as [Hx Hb]. cbn [utf8_decode]. unfold is_u8 in Hx.
  destruct (Z.ltb_spec x 128).
  { apply Hk; [lia|done|unfold is_char; lia|]. unfold utf8_char. by rewrite (proj2 (Z.ltb_lt _ _)) by lia. }
  destruct (_ && _) eqn:E2.
  { destruct b as [|y b]; [done|]. destruct (is_cont y) eqn:Ey; [|done]. unfold is_cont in Ey. bool_to_prop.
    apply bytes_ok_cons in Hb as [_ Hb]. cbn [length] in Hl. apply Hk; [lia|done|unfold is_char; lia|].
    unfold utf8_char. zbool. cbn [app]. repeat f_equal; zdiv. }
  clear E2. destruct (_ && _) eqn:E3.
  { destruct b as [|y [|z b]]; [done..|]. destruct (second3 x y && is_cont z) eqn:Ey; [|done]. bool_to_prop.
    rewrite !bytes_ok_cons in Hb. destruct Hb as (_ & _ & Hb). cbn [length] in Hl.
    assert (128 <= y <= 191 /\ (x = 224 -> 160 <= y) /\ (x = 237 -> y <= 159)) as (? & ? & ?).
    { match goal with H : second3 x y = true |- _ => revert H end. unfold second3, is_cont.
      destruct (Z.eqb_spec x 224); [|destruct (Z.eqb_spec x 237)]; intros; bool_to_prop; lia. }
    unfold is_cont in *. bool_to_prop. apply Hk; [lia|done|unfold is_char; lia|].
    unfold utf8_char. zbool. cbn [app]. repeat f_equal; zdiv. }
  clear E3. destruct (_ && _) eqn:E4; [|done].
  destruct b as [|y [|z [|w b]]]; [done..|].
  destruct (second4 x y && is_cont z && is_cont w) eqn:Ey; [|done]. bool_to_prop.
  rewrite !bytes_ok_cons in Hb. destruct Hb as (_ & _ & _ & Hb). cbn [length] in Hl.
  assert (128 <= y <= 191 /\ (x = 240 -> 144 <= y) /\ (x = 244 -> y <= 143)) as (? & ? & ?).
  { match goal with H : second4 x y = true |- _ => revert H end. unfold second4, is_cont.
      destruct (Z.eqb_spec x 240); [|destruct (Z.eqb_spec x 244)]; intros; bool_to_prop; lia. }
  unfold is_cont in *. bool_to_prop. apply Hk; [lia|done|unfold is_char; lia|].
  unfold utf8_char. zbool. cbn [app]. repeat f_equal; zdiv.
Qed.

Lemma utf8_decode_chars b s : bytes_ok b -> utf8_decode b = Some s -> Forall is_char s.
Proof. intros Hb H. by destruct (utf8_decode_inv (length b) b s (le_n _) Hb H). Qed.

Lemma utf8_encode_mem c s : 0 <= c < 128 -> c ∈ s -> c ∈ utf8_encode s.
Proof.
  intros Hc. unfold utf8_encode. induction s as [|x s IH]; [by intros ?%not_elem_of_nil|].
  cbn [map concat]. rewrite elem_of_cons, elem_of_app. intros [<-|H]; [left|right; auto].
  unfold utf8_char. rewrite (proj2 (Z.ltb_lt _ _)) by lia. set_solver.
Qed.

Lemma utf8_decode_mem c b s : 0 <= c < 128 -> bytes_ok b -> utf8_decode b = Some s -> c ∈ s -> c ∈ b.
Proof.
  intros Hc Hb H Hin. destruct (utf8_decode_inv (length b) b s (le_n _) Hb H) as [_ <-].
  by apply utf8_encode_mem.
Qed.

(** ** Parts of a text *)

Lemma trim_start_by_sub p s c : c ∈ trim_start_by p s -> c ∈ s.
Proof. induction s as [|x s IH]; cbn; [done|]. destruct (p x); set_solver. Qed.

Lemma trim_sub s c : c ∈ trim s -> c ∈ s.
Proof.
  unfold trim, trim_end_by. rewrite rev_reverse, elem_of_reverse. intros H%trim_start_by_sub.
  rewrite rev_reverse, elem_of_reverse in H. by apply trim_start_by_sub in H.
Qed.

Lemma split_by_sub p s w c : w ∈ split_by p s -> c ∈ w -> c ∈ s.
Proof.
  revert w. induction s as [|x s IH]; intros w; cbn [split_by].
  - rewrite list_elem_of_singleton. intros ->. by intros ?%not_elem_of_nil.
  - destruct (p x).
    + rewrite elem_of_cons. intros [->|H]; [by intros ?%not_elem_of_nil|]. intros Hc. right. by eapply IH.
    + destruct (split_by p s) as [|v vs]; rewrite elem_of_cons; intros [->|H] Hc.
      * set_solver.
      * set_solver.
      * apply elem_of_cons in Hc as [->|Hc]; [set_solver|]. right. eapply IH; [|done]. set_solver.
      * right. eapply IH; [|done]. set_solver.
Qed.

(** The pieces do not have the separator. *)
Lemma split_by_sep p s w c : w ∈ split_by p s -> c ∈ w -> p c = false.
Proof.
  revert w. induction s as [|x s IH]; intros w; cbn [split_by].
  - rewrite list_elem_of_singleton. intros ->. by intros ?%not_elem_of_nil.
  - destruct (p x) eqn:Ex.
    + rewrite elem_of_cons. intros [->|H]; [by intros ?%not_elem_of_nil|]. by apply IH.
    + destruct (split_by p s) as [|v vs]; rewrite elem_of_cons; intros [->|H] Hc.
      * by apply list_elem_of_singleton in Hc as ->.
      * set_solver.
      * apply elem_of_cons in Hc as [->|Hc]; [done|]. eapply IH; [|done]. set_solver.
      * eapply IH; [|done]. set_solver.
Qed.

Lemma rsplit_once_sub c s a b x : rsplit_once c s = Some (a, b) -> x ∈ a -> x ∈ s.
Proof.
  unfold rsplit_once. destruct (split_once c (rev s)) as [[u v]|] eqn:E; [|done]. intros [= <- <-].
  apply split_once_Some in E as [E _]. intros H.
  rewrite rev_reverse, elem_of_reverse in H. rewrite <- elem_of_reverse, <- rev_reverse, E. set_solver.
Qed.

(** ** Lengths *)

Lemma utf8_encode_length s : (length s <= length (utf8_encode s) <= 4 * length s)%nat.
Proof.
  unfold utf8_encode. induction s as [|c s IH]; cbn [map concat length]; [done|].
  rewrite length_app. assert (1 <= length (utf8_char c) <= 4)%nat; [|lia].
  unfold utf8_char. repeat case_match; cbn [length]; lia.
Qed.

Lemma trim_start_by_length p s : (length (trim_start_by p s) <= length s)%nat.
Proof. induction s as [|c s IH]; cbn [trim_start_by length]; [done|]. destruct (p c); cbn [length]; lia. Qed.

Lemma trim_length s : (length (trim s) <= length s)%nat.
Proof.
  unfold trim, trim_end_by. rewrite length_rev. etransitivity; [apply trim_start_by_length|].
  rewrite length_rev. apply trim_start_by_length.
Qed.

Lemma split_by_length p s w : w ∈ split_by p s -> (length w <= length s)%nat.
Proof.
  revert w. induction s as [|x s IH]; intros w; cbn [split_by].
  - rewrite list_elem_of_singleton. by intros ->.
  - destruct (p x).
    + rewrite elem_of_cons. intros [->|H]; cbn [length]; [lia|]. apply IH in H. lia.
    + destruct (split_by p s) as [|v vs]; rewrite elem_of_cons; intros [->|H]; cbn [length]; try lia.
      * by apply not_elem_of_nil in H.
      * specialize (IH v). pose proof (IH ltac:(set_solver)). lia.
      * specialize (IH w). pose proof (IH ltac:(set_solver)). lia.
Qed.

Lemma rsplit_once_length c s a b : rsplit_once c s = Some (a, b) -> (length a <= length s)%nat.
Proof.
  unfold rsplit_once. destruct (split_once c (rev s)) as [[u v]|] eqn:E; [|done]. intros [= <- <-].
  apply split_once_Some in E as [E _]. apply (f_equal length) in E.
  rewrite length_rev, length_app in E. cbn [length] in E. rewrite length_rev. lia.
Qed.

Lemma rsplit_once_last c a b : c ∉ b -> rsplit_once c (a ++ c :: b) = Some (a, b).
Proof.
  intros H. unfold rsplit_once. rewrite rev_app_distr. cbn [rev]. rewrite <- app_assoc. cbn [app].
  rewrite split_once_line by (rewrite rev_reverse, elem_of_reverse; done).
  by rewrite !rev_involutive.
Qed.

Lemma rsplit_once_Some c s a b : rsplit_once c s = Some (a, b) -> s = a ++ c :: b /\ c ∉ b.
Proof.
  unfold rsplit_once. destruct (split_once c (rev s)) as [[x y]|] eqn:E; [|done]. intros [= <- <-].
  apply split_once_Some in E as [E H]. split; [|by rewrite rev_reverse, elem_of_reverse].
  apply (f_equal (@rev Z)) in E. rewrite rev_involutive in E. rewrite E, rev_app_distr. cbn [rev].
  by rewrite <- app_assoc.
Qed.

Lemma rsplit_once_None c s : rsplit_once c s = None -> c ∉ s.
Proof.
  unfold rsplit_once. destruct (split_once c (rev s)) as [[x y]|] eqn:E; [done|]. intros _ H.
  apply elem_of_reverse in H. rewrite <- rev_reverse in H. apply list_elem_of_split_l in H as (u & v & Hs & Hu).
  by rewrite Hs, split_once_line in E.
Qed.

(** ** [BTreeMap] *)

Lemma elem_of_btree {A} (m : gmap str A) k v : (k, v) ∈ btree m <-> m !! k = Some v.
Proof. unfold btree. rewrite merge_sort_Permutation. apply elem_of_map_to_list. Qed.

