(* ===== verification/Float.v ===== *)
(** * [f64] of the standard library

    A float is a [spec_float] of binary64 (Rocq's reference floats, no
    primitive types): conversion from integers, arithmetic, [Display] and
    [FromStr].  [show_f64] is the shortest decimal that reads back as the same
    float, found as the standard library's fallback algorithm finds it, and
    printed without an exponent.  An integer below 2^53 prints as its digits
    ([show_f64_int]). *)

From Stdlib Require Export Floats.SpecFloat.
From S2P Require Import Prelude Str.

Definition prec : Z := 53.
Definition emax : Z := 1024.

(** An integer, or its nearest float ([as f64]). *)
Definition f64_of_Z (n : Z) : spec_float := binary_normalize prec emax n 0 false.
Definition f64_add : spec_float -> spec_float -> spec_float := SFadd prec emax.
Definition f64_mul : spec_float -> spec_float -> spec_float := SFmul prec emax.
Definition f64_div : spec_float -> spec_float -> spec_float := SFdiv prec emax.

(** A decimal literal of [n] thousandths. *)
Definition f64_milli (n : Z) : spec_float := f64_div (f64_of_Z n) (f64_of_Z 1000).

(** ** [Display] *)

(** The digits of the shortest decimal (Steele, White, Dragon): [mant/scale] is
    what is left, in units of the next digit; an end is reached when cutting, or
    cutting and adding one, stays within half a unit in the last place. *)
Fixpoint shortest (fuel : nat) (inclusive : bool) (mant minus plus scale : Z) (acc : Z) (n : Z) : Z * Z :=
  match fuel with
  | O => (acc, n)
  | S fuel =>
      let d := mant / scale in
      let mant := mant mod scale in
      let acc := acc * 10 + d in
      let n := n + 1 in
      let down := if inclusive then mant <=? minus else mant <? minus in
      let up := if inclusive then scale <=? mant + plus else scale <? mant + plus in
      if down || up then
        (if up && (negb down || (scale <=? 2 * mant)) then acc + 1 else acc, n)
      else shortest fuel inclusive (mant * 10) (minus * 10) (plus * 10) scale acc n
  end.

(** The least [k] from [k] on with [num / den] below [10^k] (at most, when the
    ends do not count): where the decimal point goes. *)
Fixpoint decimal_point (fuel : nat) (inclusive : bool) (num den : Z) (k : Z) : Z :=
  match fuel with
  | O => k
  | S fuel =>
      let l := num * 10 ^ Z.max (- k) 0 in
      let r := den * 10 ^ Z.max k 0 in
      if (if inclusive then r <=? l else r <? l)
      then decimal_point fuel inclusive num den (k + 1) else k
  end.

(** A lower bound of the decimal logarithm of a number with [bits] bits. *)
Definition log10_below (bits : Z) : Z := (bits - 1) * 1292913986 / 4294967296 - 1.

(** The digits of [d] with the decimal point after the [k]-th of [n], trailing
    zeros of the fraction dropped. *)
Definition place (d n k : Z) : str :=
  let s := dec d in
  let s := replicate (Z.to_nat n - length s) 48 ++ s in
  let k := k + (Z.of_nat (length s) - n) in
  if k <=? 0 then
    let frac := replicate (Z.to_nat (- k)) 48 ++ s in
    lit "0." ++ rev (trim_start_by (Z.eqb 48) (rev frac))
  else if Z.of_nat (length s) <=? k then s ++ replicate (Z.to_nat k - length s) 48
  else
    let frac := rev (trim_start_by (Z.eqb 48) (rev (drop (Z.to_nat k) s))) in
    take (Z.to_nat k) s ++ (if bool_decide (frac = []) then [] else 46 :: frac).

(** The digits of [mant * 2^e], whose neighbours' midpoints are [minus] below and
    [plus] above: the decimal point, the digits.  Seventeen digits always tell
    two floats apart. *)
Definition show_digits (inclusive : bool) (mant minus plus e : Z) : str :=
  let up := 2 ^ Z.max e 0 in let down := 2 ^ Z.max (- e) 0 in
  let k := decimal_point 4 inclusive ((mant + plus) * up) down (log10_below (Z.log2 mant + 1 + e)) in
  let s10 := 10 ^ Z.max (k - 1) 0 in let m10 := 10 ^ Z.max (1 - k) 0 in
  let '(d, n) := shortest 18 inclusive (mant * up * m10) (minus * up * m10) (plus * up * m10) (down * s10) 0 0 in
  place d n k.

(** A positive float [m * 2^e]. *)
Definition show_pos (m : positive) (e : Z) : str :=
  let m := Z.pos m in
  let inclusive := Z.even m in
  if m <? 2 ^ 52 then show_digits inclusive (m * 2) 1 1 (e - 1)                (* subnormal *)
  else if m =? 2 ^ 52 then show_digits inclusive (m * 4) 1 2 (e - 2)
  else show_digits inclusive (m * 2) 1 1 (e - 1).

Definition show_f64 (x : spec_float) : str :=
  match x with
  | S754_zero s => if s then lit "-0" else lit "0"
  | S754_infinity s => if s then lit "-inf" else lit "inf"
  | S754_nan => lit "NaN"
  | S754_finite s m e => (if s then lit "-" else []) ++ show_pos m e
  end.

(** ** [FromStr] *)

(** The leading digits of a text, and the rest. *)
Fixpoint span_digits (s : str) : str * str :=
  match s with
  | c :: t => if is_digit c then let '(d, r) := span_digits t in (c :: d, r) else ([], s)
  | [] => ([], [])
  end.

(** Digits as a number, after [acc]. *)
Definition digits_Z (s : str) (acc : Z) : Z := foldl (fun n c => n * 10 + (c - 48)) acc s.

(** [m * 10^x], correctly rounded. *)
Definition decimal (m x : Z) : spec_float :=
  match m with
  | Z.pos p => if 0 <=? x then f64_of_Z (m * 10 ^ x)
               else f64_div (S754_finite false p 0) (S754_finite false (Z.to_pos (10 ^ (- x))) 0)
  | _ => S754_zero false
  end.

(** An exponent: nothing, or [e] with a sign and at least one digit. *)
Definition exponent (s : str) : option Z :=
  match s with
  | [] => Some 0
  | e :: s =>
      if (e =? 101) || (e =? 69) then
        let '(neg, s) := match s with
                         | 45 :: s => (true, s)
                         | 43 :: s => (false, s)
                         | _ => (false, s)
                         end in
        let '(d, r) := span_digits s in
        if bool_decide (d = []) || negb (bool_decide (r = [])) then None
        else Some (if neg then - digits_Z d 0 else digits_Z d 0)
      else None
  end.

Definition parse_number (s : str) : option spec_float :=
  let '(i, r) := span_digits s in
  let '(f, r) := match r with 46 :: r => span_digits r | _ => ([], r) end in
  if bool_decide (i = []) && bool_decide (f = []) then None else
  x ← exponent r; Some (decimal (digits_Z (i ++ f) 0) (x - Z.of_nat (length f))).

Definition parse_f64 (s : str) : option spec_float :=
  let '(neg, s) := match s with
                   | 45 :: s => (true, s)
                   | 43 :: s => (false, s)
                   | _ => (false, s)
                   end in
  x ← (if eq_ignore_ascii_case s (lit "inf") || eq_ignore_ascii_case s (lit "infinity")
       then Some (S754_infinity false)
       else if eq_ignore_ascii_case s (lit "nan") then Some S754_nan
       else parse_number s);
  Some (if neg then SFopp x else x).

(** ** Integers print as integers *)

(** The digits of an integer: they stop at the last that is not zero. *)
Lemma compare_true (incl : bool) a b : a < b -> (if incl then a <=? b else a <? b) = true.
Proof. destruct incl; intros; [apply Z.leb_le|apply Z.ltb_lt]; lia. Qed.

Lemma compare_false (incl : bool) a b : b < a -> (if incl then a <=? b else a <? b) = false.
Proof. destruct incl; intros; [apply Z.leb_gt|apply Z.ltb_ge]; lia. Qed.

Lemma shortest_int incl F minus plus (q : nat) : 0 < F -> 0 < minus < F -> 0 <= plus < F ->
  forall fuel i r acc, (q < fuel)%nat -> 0 <= r < 10 ^ (Z.of_nat q + 1) -> 0 <= i -> 0 <= acc ->
  exists D (j : nat), (j <= q)%nat /\ D * 10 ^ Z.of_nat j = acc * 10 ^ (Z.of_nat q + 1) + r
    /\ shortest fuel incl (F * 10 ^ i * r) (minus * 10 ^ i) (plus * 10 ^ i) (F * 10 ^ (i + Z.of_nat q)) acc i
       = (D, i + 1 + Z.of_nat (q - j)).
Proof.
  intros HF Hm Hp. induction q as [|q IH]; intros fuel i r acc Hf Hr Hi Ha; (destruct fuel as [|fuel]; [lia|]).
  - exists (acc * 10 + r), 0%nat. split; [lia|]. split; [simpl in *; lia|].
    cbn [shortest]. rewrite Z.add_0_r.
    assert (0 < 10 ^ i) as Hi10 by lia. assert (0 < F * 10 ^ i) by nia.
    rewrite (Z.mul_comm (F * 10 ^ i) r), Z.div_mul, Z.mod_mul by lia.
    rewrite (compare_true incl 0), (compare_false incl (F * 10 ^ i)) by nia.
    cbn [orb andb]. f_equal. lia.
  - set (Q := 10 ^ (Z.of_nat q + 1)).
    assert (10 ^ (Z.of_nat (S q) + 1) = 10 * Q) as EQ by (unfold Q; rewrite <- Z.pow_succ_r by lia; f_equal; lia).
    assert (0 < Q) by (unfold Q; lia). rewrite EQ in Hr |- *.
    pose proof (Z.div_mod r Q) as Hdm. pose proof (Z.mod_pos_bound r Q) as Hmb.
    cbn [shortest]. replace (F * 10 ^ (i + Z.of_nat (S q))) with (F * 10 ^ i * Q)
      by (unfold Q; rewrite Nat2Z.inj_succ, <- Z.mul_assoc, <- Z.pow_add_r by lia; do 2 f_equal; lia).
    assert (0 < 10 ^ i) as Hi10 by lia. assert (0 < F * 10 ^ i) by nia.
    rewrite Z.div_mul_cancel_l, Z.mul_mod_distr_l by lia.
    rewrite (compare_false incl (F * 10 ^ i * Q)) by nia. rewrite orb_false_r.
    destruct (Z.eq_dec (r mod Q) 0) as [E0|E0].
    + rewrite E0, (compare_true incl (F * 10 ^ i * 0)) by nia.
      exists (acc * 10 + r / Q), (S q). split; [lia|]. split; [|cbn [andb]; f_equal; lia].
      replace (Z.of_nat (S q)) with (Z.of_nat q + 1) by lia. fold Q. nia.
    + rewrite (compare_false incl (F * 10 ^ i * (r mod Q))) by nia.
      destruct (IH fuel (i + 1) (r mod Q) (acc * 10 + r / Q)) as (D & j & Hj & HD & E); [lia|unfold Q in *; lia|lia| |].
      { pose proof (Z.div_pos r Q). nia. }
      exists D, j. split; [lia|]. split; [rewrite HD; fold Q; nia|].
      rewrite Z.pow_add_r in E by lia. change (10 ^ 1) with 10 in E.
      replace (F * 10 ^ i * (r mod Q) * 10) with (F * (10 ^ i * 10) * (r mod Q)) by lia.
      replace (minus * 10 ^ i * 10) with (minus * (10 ^ i * 10)) by lia.
      replace (plus * 10 ^ i * 10) with (plus * (10 ^ i * 10)) by lia.
      replace (F * 10 ^ i * Q) with (F * 10 ^ (i + 1 + Z.of_nat q))
        by (unfold Q; rewrite <- Z.mul_assoc, <- Z.pow_add_r by lia; do 2 f_equal; lia).
      rewrite E. f_equal. lia.
Qed.

(** ** Integers below 2^53 *)

Lemma digits2_log2 p : Z.pos (digits2_pos p) = Z.log2 (Z.pos p) + 1.
Proof. destruct p; cbn [digits2_pos Z.log2]; change digits2_pos with Pos.size; lia. Qed.

Lemma iter_xO m d : Z.pos (Pos.iter xO m d) = Z.pos m * 2 ^ Z.pos d.
Proof.
  induction d as [|d IH] using Pos.peano_ind; [cbn; lia|].
  rewrite Pos.iter_succ, Pos2Z.inj_xO, IH, Pos2Z.inj_succ, Z.pow_succ_r by lia. lia.
Qed.

Lemma shl_align_0 p e : e <= 0 -> exists q, Z.pos q = Z.pos p * 2 ^ (- e) /\ shl_align p 0 e = (q, e).
Proof.
  intros He. unfold shl_align. rewrite Z.sub_0_r. destruct e as [|e|e]; [|lia|].
  - exists p. split; [lia|done].
  - eexists. split; [|done]. by rewrite iter_xO.
Qed.

(** The float of an integer is the integer, its mantissa of 53 bits. *)
Lemma f64_of_Z_int n : 0 < n < 2 ^ 53 ->
  exists q, Z.pos q = n * 2 ^ (52 - Z.log2 n) /\ f64_of_Z n = S754_finite false q (Z.log2 n - 52).
Proof.
  intros Hn. destruct n as [|p|p]; [lia| |lia].
  pose proof (Z.log2_spec (Z.pos p) ltac:(lia)) as Hl. set (b := Z.log2 (Z.pos p)) in *.
  assert (0 <= b) by apply Z.log2_nonneg.
  assert (b < 53) by (apply (Z.pow_lt_mono_r_iff 2); lia).
  unfold f64_of_Z, binary_normalize, binary_round, fexp, emin, emax, prec. rewrite digits2_log2. fold b.
  replace (Z.max _ _) with (b - 52) by lia.
  destruct (shl_align_0 p (b - 52)) as (q & Hq & ->); [lia|]. exists q.
  split; [rewrite Hq; do 2 f_equal; lia|].
  assert (Z.log2 (Z.pos q) = 52) as Hlq.
  { rewrite Hq, <- Z.shiftl_mul_pow2, Z.log2_shiftl by lia. fold b. lia. }
  unfold binary_round_aux, shr_fexp, fexp, emin, shr, Zdigits2. rewrite digits2_log2, Hlq.
  replace (Z.max _ _ - (b - 52)) with 0 by lia. cbn [shr_record_of_loc shr_m loc_of_shr_record round_nearest_even].
  rewrite digits2_log2, Hlq. replace (Z.max _ _ - (b - 52)) with 0 by lia. cbn [shr_m].
  destruct (Z.leb_spec (b - 52) (1024 - 53)); [done|lia].
Qed.

(** For each number of bits, the guess is at most four short of the place of
    the decimal point. *)
Lemma log10_below_ok b : 0 <= b < 53 ->
  let l := log10_below (b + 1) in -1 <= l /\ 10 ^ Z.max (l - 1) 0 <= 2 ^ b /\ 2 ^ (b + 1) <= 10 ^ (l + 4).
Proof.
  intros Hb l. subst l.
  assert (forallb (fun b => let b := Z.of_nat b in let l := log10_below (b + 1) in
    (-1 <=? l) && (10 ^ Z.max (l - 1) 0 <=? 2 ^ b) && (2 ^ (b + 1) <=? 10 ^ (l + 4))) (seq 0 53) = true) as H
    by (vm_compute; reflexivity).
  rewrite forallb_forall in H. specialize (H (Z.to_nat b)). rewrite Z2Nat.id in H by lia.
  rewrite <- list_elem_of_In, elem_of_seq, !andb_true_iff, !Z.leb_le in H. destruct H as [[? ?] ?]; [lia|done].
Qed.

Lemma digits_count n : 0 < n -> exists j : nat, 10 ^ Z.of_nat j <= n < 10 ^ (Z.of_nat j + 1).
Proof.
  induction (Z.lt_wf 0 n) as [n _ IH]. intros Hn.
  destruct (Z.lt_ge_cases n 10) as [H|H]; [exists 0%nat; simpl; lia|].
  destruct (IH (n / 10)) as [j Hj]; [zdiv|zdiv|]. exists (S j).
  rewrite Nat2Z.inj_succ, Z.add_1_r, !Z.pow_succ_r in * by lia. zdiv.
Qed.

(** The loop stops at the number of digits. *)
Lemma decimal_point_int incl n F plus (j : nat) : 0 < F -> 0 < plus < F ->
  10 ^ Z.of_nat j <= n < 10 ^ (Z.of_nat j + 1) ->
  forall fuel k, k <= Z.of_nat j + 1 <= k + Z.of_nat fuel ->
  decimal_point fuel incl (n * F + plus) F k = Z.of_nat j + 1.
Proof.
  intros HF Hp Hn. induction fuel as [|fuel IH]; intros k Hk; cbn [decimal_point]; [lia|].
  assert (0 < 10 ^ Z.of_nat j) by lia.
  destruct (Z.eq_dec k (Z.of_nat j + 1)) as [->|Hne].
  - rewrite (Z.max_r (- _)), (Z.max_l (Z.of_nat j + 1)) by lia.
    assert ((n * F + plus) * 10 ^ 0 < F * 10 ^ (Z.of_nat j + 1)) by (simpl; nia).
    replace (if incl then _ else _) with false; [done|].
    destruct incl; symmetry; [apply Z.leb_gt|apply Z.ltb_ge]; lia.
  - assert (F * 10 ^ Z.max k 0 < (n * F + plus) * 10 ^ Z.max (- k) 0).
    { destruct (Z.le_gt_cases k 0).
      - rewrite (Z.max_r k), (Z.max_l (- k)) by lia. assert (0 < 10 ^ (- k)) as Hk0 by (apply Z.pow_pos_nonneg; lia).
        rewrite Z.pow_0_r. assert (F < n * F + plus) by nia. nia.
      - rewrite (Z.max_l k), (Z.max_r (- k)) by lia.
        assert (10 ^ k <= 10 ^ Z.of_nat j) by (apply Z.pow_le_mono_r; lia). rewrite Z.pow_0_r. nia. }
    replace (if incl then _ else _) with true; [apply IH; lia|].
    destruct incl; symmetry; [apply Z.leb_le|apply Z.ltb_lt]; lia.
Qed.

Lemma place_int D (N j : nat) : 10 ^ Z.of_nat N <= D < 10 ^ (Z.of_nat N + 1) ->
  place D (Z.of_nat (S N)) (Z.of_nat (S N + j)) = dec (D * 10 ^ Z.of_nat j).
Proof.
  intros HD. pose proof (dec_length _ _ HD) as Hl. assert (0 < D) by lia.
  unfold place. rewrite Nat2Z.id, Hl, Nat.sub_diag. cbn [replicate app].
  rewrite Hl, Z.sub_diag, Z.add_0_r, Nat2Z.id, dec_zeros by done.
  destruct (Z.leb_spec (Z.of_nat (S N + j)) 0); [lia|].
  destruct (Z.leb_spec (Z.of_nat (S N)) (Z.of_nat (S N + j))); [|lia].
  do 2 f_equal. lia.
Qed.

(** Whatever is within half a unit of an integer, the integer is shown. *)
Lemma show_digits_int incl n c plus : 0 < n < 2 ^ 53 -> 0 < c -> 0 < plus < 2 ^ c ->  1 < 2 ^ c ->
  show_digits incl (n * 2 ^ c) 1 plus (- c) = dec n.
Proof.
  intros Hn Hc Hp H1. unfold show_digits. rewrite (Z.max_r (- c)), (Z.max_l (- - c)), Z.opp_involutive by lia.
  rewrite Z.log2_mul_pow2 by lia. set (F := 2 ^ c) in *.
  pose proof (Z.log2_spec n ltac:(lia)) as Hb. set (b := Z.log2 n) in *.
  assert (0 <= b) by apply Z.log2_nonneg. assert (b < 53) by (apply (Z.pow_lt_mono_r_iff 2); lia).
  destruct (log10_below_ok b) as (Hl1 & Hl2 & Hl3); [lia|].
  replace (c + b + 1 + - c) with (b + 1) by lia. set (l := log10_below (b + 1)) in *.
  destruct (digits_count n) as [j Hj]; [lia|]. rewrite <- Z.add_1_r in Hb.
  assert (Z.max (l - 1) 0 < Z.of_nat j + 1) by (apply (Z.pow_lt_mono_r_iff 10); lia).
  assert (Z.of_nat j < l + 4) by (apply (Z.pow_lt_mono_r_iff 10); lia).
  rewrite Z.pow_0_r, !Z.mul_1_r, (decimal_point_int incl n F plus j) by lia.
  rewrite Z.add_simpl_r, (Z.max_l (Z.of_nat j)), (Z.max_r (1 - _)) by lia.
  destruct (shortest_int incl F 1 plus j ltac:(lia) ltac:(lia) ltac:(lia) 18 0 n 0) as (D & i & Hi & HD & E);
    [assert (Z.of_nat j < 16) by (apply (Z.pow_lt_mono_r_iff 10); lia); lia|lia..|].
  rewrite !Z.pow_0_r, !Z.mul_1_r, !Z.add_0_l in E.
  replace (F * n) with (n * F) in E by lia. rewrite !Z.pow_0_r, !Z.mul_1_r, E. cbn [Z.mul] in HD.
    rewrite Z.add_0_l in HD.
  assert (0 < 10 ^ Z.of_nat i) by lia.
  replace (1 + Z.of_nat (j - i)) with (Z.of_nat (S (j - i))) by lia.
  replace (Z.of_nat j + 1) with (Z.of_nat (S (j - i) + i)) by lia.
  rewrite place_int; [by rewrite HD|].
  replace (Z.of_nat j) with (Z.of_nat (j - i) + Z.of_nat i) in Hj by lia.
  replace (Z.of_nat (j - i) + Z.of_nat i + 1) with (Z.of_nat (j - i) + 1 + Z.of_nat i) in Hj by lia.
  rewrite !(Z.pow_add_r _ _ (Z.of_nat i)) in Hj by lia. nia.
Qed.

(** Integers below 2^53 print as themselves, with no fraction or exponent. *)
Lemma show_f64_int n : 0 <= n < 2 ^ 53 -> show_f64 (f64_of_Z n) = dec n.
Proof.
  intros Hn. destruct (Z.eq_dec n 0) as [->|]; [done|].
  destruct (f64_of_Z_int n) as (q & Hq & ->); [lia|]. cbn [show_f64 app]. unfold show_pos.
  pose proof (Z.log2_spec n ltac:(lia)) as Hb. set (b := Z.log2 n) in *.
  assert (0 <= b) by apply Z.log2_nonneg. assert (b < 53) by (apply (Z.pow_lt_mono_r_iff 2); lia).
  assert (2 ^ 52 <= Z.pos q).
  { rewrite Hq. replace 52 with (b + (52 - b)) at 1 by lia. rewrite Z.pow_add_r by lia. nia. }
  destruct (Z.ltb_spec (Z.pos q) (2 ^ 52)); [lia|]. destruct (Z.eqb_spec (Z.pos q) (2 ^ 52)) as [E|E].
  - replace (Z.pos q * 4) with (n * 2 ^ (54 - b))
      by (rewrite Hq; replace (54 - b) with (52 - b + 2) by lia; rewrite (Z.pow_add_r 2 (52 - b)) by lia; lia).
    replace (b - 52 - 2) with (- (54 - b)) by lia.
    assert (2 ^ 2 <= 2 ^ (54 - b)) by (apply Z.pow_le_mono_r; lia). apply show_digits_int; lia.
  - replace (Z.pos q * 2) with (n * 2 ^ (53 - b))
      by (rewrite Hq; replace (53 - b) with (52 - b + 1) by lia; rewrite (Z.pow_add_r 2 (52 - b)) by lia; lia).
    replace (b - 52 - 1) with (- (53 - b)) by lia.
    assert (2 ^ 1 <= 2 ^ (53 - b)) by (apply Z.pow_le_mono_r; lia). apply show_digits_int; lia.
Qed.
