(* ===== verification/Metrics.v ===== *)
(** * Metrics ([src/src/metrics.rs])

    The process's counters, gauges and histograms, each a map from a name and
    the text of its labels, and the guard that counts an open connection.  A
    float is a [spec_float] of binary64, so buckets compare what the code
    compares.  The page and its server are in [MetricsPage]. *)

From Stdlib Require Import Sorting.Sorted.
From S2P Require Import Prelude Str Float.

(** ** Labels *)

(** The characters of one escaped label value. *)
Definition escape_char (c : Z) : str :=
  if c =? 92 then [92; 92] else if c =? 34 then [92; 34] else if c =? 10 then [92; 110] else [c].

Definition escape (v : str) : str := mjoin (escape_char <$> v).

Definition label_pair (p : str * str) : str := p.1 ++ lit "=" ++ [34] ++ escape p.2 ++ [34].

(** The loop over [pairs]: a comma before each but the first. *)
Fixpoint label_pairs (first : bool) (pairs : list (str * str)) : str :=
  match pairs with
  | [] => []
  | p :: pairs => (if first then [] else [44]) ++ label_pair p ++ label_pairs false pairs
  end.

Definition labels_text (pairs : list (str * str)) : str :=
  match pairs with
  | [] => []
  | _ => [123] ++ label_pairs true pairs ++ [125]
  end.

(** ** Durations in seconds, as [f64] *)

(** [Duration::as_secs_f64] of [ns] nanoseconds. *)
Definition as_secs_f64 (ns : Z) : spec_float :=
  f64_add (f64_of_Z (ns / 1000000000)) (f64_div (f64_of_Z (ns mod 1000000000)) (f64_of_Z 1000000000)).

(** The bounds, in milliseconds. *)
Definition BUCKETS : list Z := [5; 10; 25; 50; 100; 250; 500; 1000; 2500; 5000; 10000].

(** ** The registry *)

Record Hist := { buckets : list Z; sum : spec_float; count : Z }.

Definition Hist_default : Hist := {| buckets := replicate (length BUCKETS) 0; sum := S754_zero false; count := 0 |}.

Abbreviation Key := (prod (list Z) (list Z)) (only parsing).

Record Metrics := { counters : gmap Key Z; gauges : gmap Key Z; hists : gmap Key Hist }.

Definition Metrics_default : Metrics := {| counters := ∅; gauges := ∅; hists := ∅ |}.

(** [i64] arithmetic of the release profile. *)
Definition wrap_i64 (x : Z) : Z := wrap64 (x + 9223372036854775808) - 9223372036854775808.

Definition inc (name : str) (l : list (str * str)) (m : Metrics) : Metrics :=
  let k := (name, labels_text l) in
  {| counters := <[k := wrap64 (default 0 (counters m !! k) + 1)]> (counters m);
     gauges := gauges m; hists := hists m |}.

Definition set_gauges (g : gmap Key Z) (m : Metrics) : Metrics :=
  {| counters := counters m; gauges := g; hists := hists m |}.

Definition gauge_add (name : str) (l : list (str * str)) (d : Z) (m : Metrics) : Metrics :=
  let k := (name, labels_text l) in
  set_gauges (<[k := wrap_i64 (default 0 (gauges m !! k) + d)]> (gauges m)) m.

Definition gauge_set (name : str) (l : list (str * str)) (v : Z) (m : Metrics) : Metrics :=
  set_gauges (<[(name, labels_text l) := v]> (gauges m)) m.

(** The loop over the buckets. *)
Definition bump (secs : spec_float) (bs : list Z) : list Z :=
  zip_with (fun b n => if SFleb secs (f64_milli b) then wrap64 (n + 1) else n) BUCKETS bs.

Definition observe_hist (ns : Z) (h : Hist) : Hist :=
  let secs := as_secs_f64 ns in
  {| buckets := bump secs (buckets h); sum := f64_add (sum h) secs; count := wrap64 (count h + 1) |}.

Definition observe (name : str) (l : list (str * str)) (ns : Z) (m : Metrics) : Metrics :=
  let k := (name, labels_text l) in
  {| counters := counters m; gauges := gauges m;
     hists := <[k := observe_hist ns (default Hist_default (hists m !! k))]> (hists m) |}.

(** [active]: the registry and the guard, which is the key. *)
Definition active (name : str) (l : list (str * str)) (m : Metrics) : Metrics * Key :=
  let k := (name, labels_text l) in
  (set_gauges (<[k := wrap_i64 (default 0 (gauges m !! k) + 1)]> (gauges m)) m, k).

(** [ActiveGuard::drop]. *)
Definition guard_drop (k : Key) (m : Metrics) : Metrics :=
  set_gauges (alter (fun v => wrap_i64 (v - 1)) k (gauges m)) m.

(** ** What the parts of the process record *)

(** An increment: the metric and its labels, as the call names them. *)
Record Count := { metric : string; labels : list (string * str) }.

Definition record (c : Count) (m : Metrics) : Metrics :=
  inc (lit (metric c)) ((fun p => (lit p.1, p.2)) <$> labels c) m.

(** Connections open and close: what [active] and its guards do to a gauge.
    [guards] are those alive. *)
Inductive GuardEvent := Opens (name : str) (l : list (str * str)) | Closes (i : nat).

Definition guard_step (e : GuardEvent) (s : Metrics * list Key) : Metrics * list Key :=
  match e with
  | Opens name l => let '(m, k) := active name l s.1 in (m, s.2 ++ [k])
  | Closes i => match s.2 !! i with
                | Some k => (guard_drop k s.1, take i s.2 ++ drop (S i) s.2)
                | None => s
                end
  end.

Definition guards (es : list GuardEvent) (s : Metrics * list Key) : Metrics * list Key :=
  foldl (fun s e => guard_step e s) s es.

(** How many of [ks] are [k]. *)
Definition occ (k : Key) (ks : list Key) : Z := Z.of_nat (length (List.filter (fun x => bool_decide (x = k)) ks)).

(** The durations observed that are within the [i]-th bound, as the code
    compares them. *)
Definition within (ds : list Z) (b : Z) : Z :=
  Z.of_nat (length (List.filter (fun d => SFleb (as_secs_f64 d) (f64_milli b)) ds)).

(** ** Labels are unambiguous *)

(** A label name as the code has them: no equals sign. *)
Definition name_ok (k : str) : Prop := 61 ∉ k.

#[export] Instance name_ok_dec k : Decision (name_ok k).
Proof. unfold name_ok. apply _. Defined.

Lemma escape_cons c v : escape (c :: v) = escape_char c ++ escape v.
Proof. done. Qed.

Lemma escape_char_head c r : exists x t, escape_char c ++ r = x :: t /\ x <> 34.
Proof.
  unfold escape_char. destruct (Z.eqb_spec c 92); [by eexists _, _|]. destruct (Z.eqb_spec c 34); [by eexists _, _|].
  destruct (Z.eqb_spec c 10); by eexists _, _.
Qed.

Lemma escape_char_inj c d r s : escape_char c ++ r = escape_char d ++ s -> c = d /\ r = s.
Proof.
  unfold escape_char.
  repeat match goal with |- context [?a =? ?b] => destruct (Z.eqb_spec a b) end; subst; cbn [app];
    intros E; by simplify_eq.
Qed.

Lemma escape_inj v w r s : escape v ++ 34 :: r = escape w ++ 34 :: s -> v = w /\ r = s.
Proof.
  revert w. induction v as [|c v IH]; intros [|d w]; rewrite ?escape_cons, <- ?app_assoc.
  - by intros [= ->].
  - destruct (escape_char_head d (escape w ++ 34 :: s)) as (x & t & -> & Hx). by intros [= ? _].
  - destruct (escape_char_head c (escape v ++ 34 :: r)) as (x & t & -> & Hx). by intros [= ? _].
  - intros [-> E]%escape_char_inj. by destruct (IH w E) as [-> ->].
Qed.

Lemma name_inj k k' r s : name_ok k -> name_ok k' -> k ++ 61 :: r = k' ++ 61 :: s -> k = k' /\ r = s.
Proof.
  intros Hk Hk' E. pose proof (split_once_line 61 k r Hk) as H. rewrite E, split_once_line in H by done.
  by injection H as -> ->.
Qed.

Lemma label_pair_inj p q r s : name_ok p.1 -> name_ok q.1 ->
  label_pair p ++ r = label_pair q ++ s -> p = q /\ r = s.
Proof.
  intros Hp Hq. unfold label_pair. rewrite <- !app_assoc. intros [Ek E]%name_inj; [|done..].
  cbn [app] in E. injection E as E. rewrite <- ?app_assoc in E. apply escape_inj in E as [Ev ->].
  destruct p, q; simpl in *; by subst.
Qed.

Lemma label_pairs_inj ps qs b : Forall (fun p => name_ok p.1) ps -> Forall (fun p => name_ok p.1) qs ->
  (b = true -> (ps = [] <-> qs = [])) ->
  label_pairs b ps ++ [125] = label_pairs b qs ++ [125] -> ps = qs.
Proof.
  intros Hp. revert qs b. induction Hp as [|p ps Hp _ IH]; intros [|q qs] b Hq Hb; cbn [label_pairs]; [done|..].
  - destruct b; [by pose proof (proj1 (Hb eq_refl) eq_refl)|]. by intros [=].
  - destruct b; [by pose proof (proj2 (Hb eq_refl) eq_refl)|]. by intros [=].
  - apply Forall_cons_iff in Hq as [Hq Hqs]. rewrite <- !app_assoc. intros E.
    assert (label_pair p ++ label_pairs false ps ++ [125] = label_pair q ++ label_pairs false qs ++ [125]) as E'
      by (destruct b; [exact E|by injection E]).
    apply label_pair_inj in E' as [-> E']; [|done..]. f_equal. by apply (IH qs false).
Qed.

Lemma labels_text_inj ps qs :
  Forall (fun p => name_ok p.1) ps -> Forall (fun p => name_ok p.1) qs ->
  labels_text ps = labels_text qs -> ps = qs.
Proof.
  intros Hp Hq. destruct ps as [|p ps], qs as [|q qs]; try done.
  unfold labels_text. intros E. apply (app_inv_head [123]) in E. by apply label_pairs_inj in E.
Qed.

(** Different labels are different series.  Label names without an equals
    sign (all of them are the code's own) and any values, quotes, backslashes and
    newlines included: two label lists with the same text are the same, so a
    count never lands on another series. *)
Theorem labels_text_injective ps qs :
  Forall (fun p => name_ok p.1) ps -> Forall (fun p => name_ok p.1) qs ->
  labels_text ps = labels_text qs -> ps = qs.
Proof. apply labels_text_inj. Qed.

Lemma labels_text_injective_witness :
  let ps := [(lit "host", [34; 44; 98; 61; 34]); (lit "code", [92])] in
  labels_text ps = lit "{host=" ++ [34; 92; 34; 44; 98; 61; 92; 34; 34] ++ lit ",code=" ++ [34; 92; 92; 34; 125]
  /\ forall qs, Forall (fun p => name_ok p.1) qs -> labels_text ps = labels_text qs -> ps = qs.
Proof.
  intros ps. split; [reflexivity|]. intros qs Hq. apply labels_text_injective; [decided|exact Hq].
Defined.

(** ** Gauges of open connections *)

Lemma occ_app k a b : occ k (a ++ b) = occ k a + occ k b.
Proof. unfold occ. rewrite List.filter_app, length_app. lia. Qed.

Lemma occ_one k k' : occ k [k'] = if bool_decide (k' = k) then 1 else 0.
Proof. unfold occ. cbn. by destruct (bool_decide _). Qed.

Lemma occ_bound k ks : 0 <= occ k ks <= Z.of_nat (length ks).
Proof. unfold occ. pose proof (List.filter_length_le (fun x => bool_decide (x = k)) ks). lia. Qed.

Lemma wrap_i64_id x : -9223372036854775808 <= x < 9223372036854775808 -> wrap_i64 x = x.
Proof. intros H. unfold wrap_i64, wrap64. rewrite Z.mod_small by lia. lia. Qed.

Lemma guards_length es s : (length (guards es s).2 <= length s.2 + length es)%nat.
Proof.
  unfold guards. revert s. induction es as [|e es IH]; intros s; cbn [foldl length]; [lia|].
  etransitivity; [apply IH|]. destruct e as [name l|i]; cbn [guard_step].
  - destruct (active name l s.1). cbn [snd]. rewrite length_app. cbn [length]. lia.
  - destruct (s.2 !! i); cbn [snd]; [rewrite length_app, length_take, length_drop|]; lia.
Qed.

(** An active gauge is the number of open connections.  Whatever connections
    open and close, in any order, under any labels, each gauge the guards touch
    equals the number of guards alive for it: closing is never missed, counted
    twice or counted elsewhere.  (Fewer than 2^63 connections.) *)
Theorem active_counts_open es k :
  Z.of_nat (length es) < 9223372036854775808 ->
  default 0 (gauges (guards es (Metrics_default, [])).1 !! k) = occ k (guards es (Metrics_default, [])).2.
Proof.
  revert k. induction es as [|e es IH] using rev_ind; intros k Hn; [done|].
  rewrite length_app in Hn. cbn [length] in Hn. unfold guards in *. rewrite foldl_app. cbn [foldl].
  pose proof (guards_length es (Metrics_default, [])) as Hl. unfold guards in Hl. cbn [snd length] in Hl.
  set (s := foldl _ _ es) in *. clearbody s. destruct s as [m ks]; cbn [fst snd] in *.
  assert (forall k, default 0 (gauges m !! k) = occ k ks) as Hg by (intros; apply IH; lia). clear IH.
  destruct e as [name l|i]; cbn [guard_step fst snd].
  - unfold active. cbn [fst snd]. rewrite occ_app, occ_one. unfold set_gauges. cbn [gauges].
    rewrite Hg. set (k' := (name, labels_text l)). pose proof (occ_bound k' ks).
    rewrite wrap_i64_id by lia. destruct (decide (k' = k)) as [<-|Hk].
    + rewrite lookup_insert_eq, bool_decide_true by done. done.
    + rewrite lookup_insert_ne, bool_decide_false, Hg by done. lia.
  - destruct (ks !! i) as [k'|] eqn:Ei; cbn [fst snd]; [|apply Hg].
    pose proof (take_drop_middle ks i k' Ei) as Hks.
    assert (forall k, occ k ks = occ k (take i ks ++ drop (S i) ks) + if bool_decide (k' = k) then 1 else 0) as Ho.
    { intros k0. rewrite <- Hks at 1. change (k' :: drop (S i) ks) with ([k'] ++ drop (S i) ks).
      rewrite !occ_app, occ_one. lia. }
    unfold guard_drop, set_gauges. cbn [gauges]. specialize (Hg k). rewrite (Ho k) in Hg.
    pose proof (occ_bound k (take i ks ++ drop (S i) ks)) as Hb. rewrite length_app, length_take, length_drop in Hb.
    destruct (decide (k' = k)) as [<-|Hk].
    + rewrite bool_decide_true in Hg by done. rewrite lookup_alter_eq.
      destruct (gauges m !! k') as [v|]; [|simpl in Hg; lia].
      cbn in Hg |- *. rewrite wrap_i64_id by lia. lia.
    + rewrite bool_decide_false in Hg by done. rewrite lookup_alter_ne by done. lia.
Qed.

Lemma active_counts_open_witness :
  let http := [(lit "listener", lit "http")] in
  let es := [Opens (lit "connections") http; Opens (lit "connections") []; Opens (lit "connections") http; Closes 0] in
  default 0 (gauges (guards es (Metrics_default, [])).1 !! (lit "connections", labels_text http)) = 1.
Proof. intros http es. rewrite (active_counts_open es); [vm_compute; reflexivity|reflexivity]. Defined.

(** ** Histograms *)

Lemma SFleb_trans a b c : SFleb a b = true -> SFleb b c = true -> SFleb a c = true.
Proof.
  unfold SFleb, SFcompare.
  destruct a as [sa|sa| |sa ma ea], b as [sb|sb| |sb mb eb], c as [sc|sc| |sc mc ec]; try done;
    repeat match goal with s : bool |- _ => destruct s end; try done.
  all: destruct (Z.compare_spec ea eb); try done; destruct (Z.compare_spec eb ec); try done; subst;
    rewrite ?Z.compare_refl;
    try (match goal with |- context [?x ?= ?y] => destruct (Z.compare_spec x y) end;
         intros _ _; done || (exfalso; lia)).
  all: change (Pos.compare_cont Eq) with Pos.compare;
    destruct (Pos.compare_spec ma mb); try done; destruct (Pos.compare_spec mb mc); try done;
    destruct (Pos.compare_spec ma mc); intros _ _; done || (exfalso; lia).
Qed.

(** The bounds increase, also as floats. *)
Lemma buckets_sorted : StronglySorted (fun a b => SFleb (f64_milli a) (f64_milli b) = true) BUCKETS.
Proof. repeat constructor. Qed.

Definition observed (ds : list Z) : Hist := foldl (fun h d => observe_hist d h) Hist_default ds.

Lemma within_snoc ds d b :
  within (ds ++ [d]) b = within ds b + if SFleb (as_secs_f64 d) (f64_milli b) then 1 else 0.
Proof. unfold within. rewrite List.filter_app, length_app. cbn. destruct (SFleb _ _); cbn; lia. Qed.

Lemma within_bound ds b : 0 <= within ds b <= Z.of_nat (length ds).
Proof. unfold within. pose proof (List.filter_length_le (fun d => SFleb (as_secs_f64 d) (f64_milli b)) ds). lia. Qed.

Lemma within_mono ds a b : SFleb (f64_milli a) (f64_milli b) = true -> within ds a <= within ds b.
Proof.
  intros H. induction ds as [|d ds IH] using rev_ind; [done|]. rewrite !within_snoc.
  destruct (SFleb (as_secs_f64 d) (f64_milli a)) eqn:E; [by rewrite (SFleb_trans _ _ _ E H); lia|].
  destruct (SFleb (as_secs_f64 d) (f64_milli b)); lia.
Qed.

Lemma bump_within ds d bs : Z.of_nat (length ds) + 1 < 18446744073709551616 ->
  zip_with (fun b n => if SFleb (as_secs_f64 d) (f64_milli b) then wrap64 (n + 1) else n) bs (within ds <$> bs)
  = within (ds ++ [d]) <$> bs.
Proof.
  intros Hn. induction bs as [|b bs IH]; [done|]. rewrite !fmap_cons. cbn [zip_with]. rewrite IH, within_snoc.
  f_equal. pose proof (within_bound ds b). destruct (SFleb _ _); [|lia].
  unfold wrap64. by rewrite Z.mod_small by lia.
Qed.

Lemma observed_spec ds : Z.of_nat (length ds) < 18446744073709551616 ->
  buckets (observed ds) = within ds <$> BUCKETS /\ count (observed ds) = Z.of_nat (length ds).
Proof.
  unfold observed. induction ds as [|d ds IH] using rev_ind; intros Hn; [done|].
  rewrite length_app in *. cbn [length] in *. destruct IH as [Hb Hc]; [lia|].
  rewrite foldl_app. cbn [foldl]. unfold observe_hist at 1 3. cbn [buckets count].
  rewrite Hb, Hc. split; [apply bump_within; lia|]. unfold wrap64. rewrite Z.mod_small by lia. lia.
Qed.

Lemma observe_many name l ds m : ds <> [] -> hists m !! (name, labels_text l) = None ->
  hists (foldl (fun m d => observe name l d m) m ds) !! (name, labels_text l) = Some (observed ds).
Proof.
  intros Hne Hm. induction ds as [|d ds IH] using rev_ind; [done|]. rewrite foldl_app. cbn [foldl].
  unfold observe at 1. cbn [hists]. rewrite lookup_insert_eq. unfold observed. rewrite foldl_app. cbn [foldl].
  do 2 f_equal. destruct ds as [|d' ds]; [cbn; by rewrite Hm|]. rewrite IH by done. done.
Qed.

(** A histogram is cumulative and complete.  After any observations of a
    series, each bucket holds the number of durations within its bound, no
    bucket holds more than a later one, and the count, which is the [+Inf]
    bucket, is the number of observations. *)
Theorem histogram_cumulative name l ds m :
  ds <> [] -> Z.of_nat (length ds) < 18446744073709551616 -> hists m !! (name, labels_text l) = None ->
  exists h, hists (foldl (fun m d => observe name l d m) m ds) !! (name, labels_text l) = Some h
    /\ buckets h = within ds <$> BUCKETS /\ count h = Z.of_nat (length ds)
    /\ StronglySorted Z.le (buckets h) /\ Forall (fun n => 0 <= n <= count h) (buckets h).
Proof.
  intros Hne Hn Hm. exists (observed ds). split; [by apply observe_many|].
  destruct (observed_spec ds Hn) as [-> ->]. split; [done|]. split; [done|]. split.
  - pose proof buckets_sorted as H. induction H as [|b bs _ IH Hall]; [constructor|].
    rewrite fmap_cons. constructor; [done|]. apply Forall_fmap. rewrite list.Forall_forall in Hall |- *.
    intros c Hc. by apply within_mono, Hall.
  - apply Forall_fmap, list.Forall_forall. intros b _. apply within_bound.
Qed.

Lemma histogram_cumulative_witness :
  exists h, hists (foldl (fun m d => observe (lit "d") [] d m) Metrics_default [30000000; 5000000; 20000000000])
              !! (lit "d", labels_text []) = Some h
    /\ buckets h = [1; 1; 1; 2; 2; 2; 2; 2; 2; 2; 2] /\ count h = 3.
Proof.
  destruct (histogram_cumulative (lit "d") [] [30000000; 5000000; 20000000000] Metrics_default)
    as (h & Hh & Hb & Hc & _); [done|reflexivity|reflexivity|].
  exists h. split; [exact Hh|]. split; [rewrite Hb; vm_compute; reflexivity|exact Hc].
Defined.
