(* ===== verification/Exposition.v ===== *)
(** * A reader of the text exposition format

    Specification only: no code of the repository reads a page.  Prometheus' format
    is, a line at a time, a comment, nothing, or a sample: a metric's name, its
    labels in braces, quoted and escaped, and a value.  [read_page] refuses a page
    with any other line.  The lemmas read back what [labels_text] of [Metrics]
    writes. *)

From S2P Require Import Prelude Str Metrics.

Local Open Scope Z_scope.

(** [[a-zA-Z_][a-zA-Z0-9_]*], with colons in a metric's name. *)
Definition name_start (c : Z) : bool := (97 <=? c) && (c <=? 122) || (65 <=? c) && (c <=? 90) || (c =? 95).
Definition name_char (c : Z) : bool := name_start c || is_digit c.
Definition metric_char (c : Z) : bool := name_char c || (c =? 58).

Definition label_name (k : str) : bool :=
  match k with [] => false | c :: _ => name_start c && forallb name_char k end.
Definition metric_name (n : str) : bool :=
  match n with [] => false | c :: _ => (name_start c || (c =? 58)) && forallb metric_char n end.

(** ** Reading *)

Record Sample := { s_name : str; s_labels : list (str * str); s_value : str }.

(** The longest prefix of [p]'s characters. *)
Fixpoint span (p : Z -> bool) (s : str) : str * str :=
  match s with
  | c :: t => if p c then let '(a, b) := span p t in (c :: a, b) else ([], s)
  | [] => ([], [])
  end.

(** A quoted value up to its closing quote; the escapes are those of the backslash,
    the quote and the newline. *)
Fixpoint unquote (s : str) : option (str * str) :=
  match s with
  | [] => None
  | c :: t =>
      if c =? 34 then Some ([], t)
      else if c =? 92 then
        match t with
        | e :: t =>
            x ← (if (e =? 92) || (e =? 34) then Some e else if e =? 110 then Some 10 else None);
            '(v, r) ← unquote t; Some (x :: v, r)
        | [] => None
        end
      else '(v, r) ← unquote t; Some (c :: v, r)
  end.

(** [name="value"] pairs, with commas between, up to the closing brace. *)
Fixpoint read_pairs (fuel : nat) (s : str) : option (list (str * str) * str) :=
  match fuel with
  | O => None
  | S fuel =>
      let '(k, s) := span name_char s in
      if negb (label_name k) then None else
      match s with
      | eq :: quote :: s =>
          if negb ((eq =? 61) && (quote =? 34)) then None else
          '(v, s) ← unquote s;
          match s with
          | c :: s =>
              if c =? 44 then '(ps, r) ← read_pairs fuel s; Some ((k, v) :: ps, r)
              else if c =? 125 then Some ([(k, v)], s) else None
          | [] => None
          end
      | _ => None
      end
  end.

Definition read_labels (s : str) : option (list (str * str) * str) :=
  match s with
  | c :: t => if c =? 123 then read_pairs (length t) t else Some ([], s)
  | [] => Some ([], [])
  end.

(** A sample is all of its line: a name, labels, a blank, and a value without one. *)
Definition read_sample (line : str) : option Sample :=
  let '(n, s) := span metric_char line in
  if negb (metric_name n) then None else
  '(ls, s) ← read_labels s;
  match s with
  | c :: v => if (c =? 32) && forallb (fun x => negb (x =? 32)) v
              then Some {| s_name := n; s_labels := ls; s_value := v |} else None
  | [] => None
  end.

Definition no_sample (line : str) : bool := match line with [] => true | c :: _ => c =? 35 end.

Fixpoint read_lines (ls : list str) : option (list Sample) :=
  match ls with
  | [] => Some []
  | l :: ls =>
      if no_sample l then read_lines ls else
      s ← read_sample l; ss ← read_lines ls; Some (s :: ss)
  end.

Definition read_page (t : str) : option (list Sample) := read_lines (split_on 10 t).

(** ** Names *)

Lemma label_name_ok k : label_name k = true -> name_ok k /\ 10 ∉ k /\ Forall (fun c => name_char c = true) k.
Proof.
  destruct k as [|c k]; [done|]. unfold label_name. intros [_ H]%andb_prop. rewrite forallb_forall in H.
  assert (Forall (fun c => name_char c = true) (c :: k)) as Hf
    by (apply list.Forall_forall; intros x Hx; by apply H, list_elem_of_In).
  rewrite list.Forall_forall in Hf. split_and!; [intros Hx%Hf; by vm_compute in Hx..|by apply list.Forall_forall].
Qed.

Lemma metric_name_ok n : metric_name n = true ->
  n <> [] /\ 10 ∉ n /\ 35 ∉ n /\ Forall (fun c => metric_char c = true) n.
Proof.
  destruct n as [|c n]; [done|]. unfold metric_name. intros [_ H]%andb_prop. rewrite forallb_forall in H.
  assert (Forall (fun c => metric_char c = true) (c :: n)) as Hf
    by (apply list.Forall_forall; intros x Hx; by apply H, list_elem_of_In).
  rewrite list.Forall_forall in Hf. split_and!; [done|intros Hx%Hf; by vm_compute in Hx..|by apply list.Forall_forall].
Qed.

(** A name goes on with more of its characters. *)
Lemma metric_name_app n s : metric_name n = true -> forallb metric_char s = true -> metric_name (n ++ s) = true.
Proof.
  destruct n as [|c n]; [done|]. cbn [metric_name app]. rewrite !andb_true_iff. intros [? H] Hs. split; [done|].
  change (c :: n ++ s) with ((c :: n) ++ s). by rewrite forallb_app, H.
Qed.

Lemma span_app p a c b : Forall (fun x => p x = true) a -> p c = false -> span p (a ++ c :: b) = (a, c :: b).
Proof. intros H Hc. induction H as [|x a Hx _ IH]; cbn [app span]; [by rewrite Hc|]. by rewrite Hx, IH. Qed.

(** ** Reading labels back *)

Lemma unquote_escape v r : unquote (escape v ++ 34 :: r) = Some (v, r).
Proof.
  induction v as [|c v IH]; [done|]. rewrite escape_cons, <- app_assoc. unfold escape_char.
  destruct (Z.eqb_spec c 92) as [->|H1]; [|destruct (Z.eqb_spec c 34) as [->|H2];
    [|destruct (Z.eqb_spec c 10) as [->|H3]]]; cbn [app unquote].
  1-3: cbn [mbind option_bind Z.eqb Pos.eqb orb]; by rewrite IH.
  rewrite (proj2 (Z.eqb_neq c 34)), (proj2 (Z.eqb_neq c 92)), IH by done. done.
Qed.

Lemma label_pairs_length b ps : (length ps <= length (label_pairs b ps))%nat.
Proof.
  revert b. induction ps as [|p ps IH]; intros b; [done|]. cbn [label_pairs length]. unfold label_pair.
  rewrite !length_app. cbn [length]. specialize (IH false). lia.
Qed.

Lemma read_pairs_text ps : Forall (fun p => label_name p.1 = true) ps -> ps <> [] -> forall fuel r,
  (length ps <= fuel)%nat -> read_pairs fuel (label_pairs true ps ++ 125 :: r) = Some (ps, r).
Proof.
  induction 1 as [|[k v] ps Hk Hps IH]; [done|]. intros _ [|fuel] r Hf; [cbn in Hf; lia|].
  cbn [fst] in Hk. destruct (label_name_ok k Hk) as (_ & _ & Hc).
  cbn [label_pairs read_pairs app]. unfold label_pair. cbn [fst snd]. rewrite <- !app_assoc.
  change (lit "=" ++ [34] ++ ?x) with (61 :: 34 :: x). cbn [app].
  rewrite span_app, Hk by done. cbn [negb Z.eqb Pos.eqb andb]. cbn [app].
  rewrite unquote_escape. cbn [mbind option_bind]. destruct ps as [|q qs]; [done|].
  change (label_pairs false (q :: qs)) with (44 :: label_pairs true (q :: qs)). cbn [app].
  cbn [Z.eqb Pos.eqb]. rewrite IH by (done || (cbn [length] in Hf |- *; lia)). done.
Qed.

Lemma read_labels_text ps c r : Forall (fun p => label_name p.1 = true) ps -> c <> 123 ->
  read_labels (labels_text ps ++ c :: r) = Some (ps, c :: r).
Proof.
  intros Hps Hc. destruct ps as [|p ps].
  { cbn [labels_text app read_labels]. by rewrite (proj2 (Z.eqb_neq c 123)). }
  unfold labels_text. set (qs := p :: ps) in *. cbn [app read_labels Z.eqb Pos.eqb]. rewrite <- app_assoc. cbn [app].
  apply read_pairs_text; [done|done|]. rewrite length_app. pose proof (label_pairs_length true qs). lia.
Qed.

(** A line as it is meant reads as the sample it says. *)
Lemma read_sample_text n ps v : metric_name n = true -> Forall (fun p => label_name p.1 = true) ps -> 32 ∉ v ->
  read_sample (n ++ labels_text ps ++ 32 :: v) = Some {| s_name := n; s_labels := ps; s_value := v |}.
Proof.
  intros Hn Hps Hv. destruct (metric_name_ok n Hn) as (_ & _ & _ & Hc). unfold read_sample.
  assert (exists c t, labels_text ps ++ 32 :: v = c :: t /\ metric_char c = false) as (c & t & E & Hct)
    by (destruct ps; by eexists _, _).
  rewrite E, span_app, Hn, <- E by done. cbn [negb]. rewrite read_labels_text by done.
  cbn [mbind option_bind Z.eqb Pos.eqb andb]. rewrite (proj2 (forallb_forall _ v)); [done|].
  intros x Hx%list_elem_of_In. apply negb_true_iff, Z.eqb_neq. by intros ->.
Qed.
