(* ===== verification/Net.v ===== *)
(** * Internet addresses of the standard library ([std::net])

    [Ipv4Addr] with its octets and its derived (lexicographic) order, the
    socket addresses the pools and listeners are named by, and the standard
    library's parser and printer for them. *)

From S2P Require Import Prelude Str.

Record Ipv4Addr := Ipv4 { oct0 : Z; oct1 : Z; oct2 : Z; oct3 : Z }.

#[export] Instance Ipv4Addr_eq_dec : EqDecision Ipv4Addr.
Proof. solve_decision. Defined.

Definition octets (a : Ipv4Addr) : list Z := [oct0 a; oct1 a; oct2 a; oct3 a].
Definition ipv4_ok (a : Ipv4Addr) : Prop := bytes_ok (octets a).

#[export] Instance ipv4_ok_dec a : Decision (ipv4_ok a).
Proof. unfold ipv4_ok. apply _. Defined.

(** [a > b]: octets compared left to right. *)
Definition ipv4_gtb (a b : Ipv4Addr) : bool :=
  (oct0 b <? oct0 a) || (oct0 b =? oct0 a) && (
  (oct1 b <? oct1 a) || (oct1 b =? oct1 a) && (
  (oct2 b <? oct2 a) || (oct2 b =? oct2 a) && (oct3 b <? oct3 a))).

(** An address of either family; an IPv6 address is its eight segments. *)
Inductive IpAddr :=
| V4 (a : Ipv4Addr)
| V6 (segments : list Z).

#[export] Instance IpAddr_eq_dec : EqDecision IpAddr.
Proof. solve_decision. Defined.

(** [SocketAddr::new(ip, port)] (flow label and scope zero). *)
Record SocketAddr := SockAddr { sa_ip : IpAddr; sa_port : Z }.

#[export] Instance SocketAddr_eq_dec : EqDecision SocketAddr.
Proof. solve_decision. Defined.

(** ** Parsing ([core::net::parser])

    A reader takes the remaining characters and returns a value and what is
    left; [None] leaves the input where it was. *)

(** [char::to_digit(radix)] for radix 10 and 16. *)
Definition to_digit (radix c : Z) : option Z :=
  let d := if is_digit c then c - 48
           else if (97 <=? c) && (c <=? 102) then c - 87
           else if (65 <=? c) && (c <=? 70) then c - 55
           else 99 in
  if d <? radix then Some d else None.

Fixpoint read_digits (radix : Z) (s : str) (acc : Z) : Z * nat * str :=
  match s with
  | c :: s' =>
      match to_digit radix c with
      | Some d => let '(v, n, rest) := read_digits radix s' (acc * radix + d) in (v, S n, rest)
      | None => (acc, O, s)
      end
  | [] => (acc, O, s)
  end.

(** [read_number] into a type of maximum [max]. *)
Definition read_number (radix : Z) (max_digits : nat) (allow_zero_prefix : bool) (max : Z)
    (s : str) : option (Z * str) :=
  let '(v, n, rest) := read_digits radix s 0 in
  let leading_zero := match s with 48 :: _ => true | _ => false end in
  if bool_decide (max_digits < n)%nat || bool_decide (n = 0)%nat
     || (negb allow_zero_prefix && leading_zero && bool_decide (1 < n)%nat) || (max <? v)
  then None else Some (v, rest).

Definition read_char (c : Z) (s : str) : option str :=
  match s with x :: s => if x =? c then Some s else None | [] => None end.

(** [read_separator]: the separator before every item but the first. *)
Definition read_separator {A} (sep : Z) (index : nat) (inner : str -> option (A * str))
    (s : str) : option (A * str) :=
  match index with
  | O => inner s
  | S _ => match read_char sep s with Some s => inner s | None => None end
  end.

Definition read_ipv4_addr (s : str) : option (Ipv4Addr * str) :=
  let octet i := read_separator 46 i (read_number 10 3 false 255) in
  '(a, s) ← octet 0%nat s; '(b, s) ← octet 1%nat s;
  '(c, s) ← octet 2%nat s; '(d, s) ← octet 3%nat s;
  Some (Ipv4 a b c d, s).

(** [read_groups], at index [i] with [k] groups of the [limit = i + k] left:
    the groups read, whether the last two came from an IPv4 address, the rest. *)
Fixpoint read_groups (i k : nat) (s : str) : list Z * bool * str :=
  match k with
  | O => ([], false, s)
  | S k' =>
      let ipv4 := match k' with O => None | S _ => read_separator 58 i read_ipv4_addr s end in
      match ipv4 with
      | Some (a, s) => ([of_be16 (oct0 a) (oct1 a); of_be16 (oct2 a) (oct3 a)], true, s)
      | None =>
          match read_separator 58 i (read_number 16 4 true 65535) s with
          | Some (g, s) => let '(gs, v4, s) := read_groups (S i) k' s in (g :: gs, v4, s)
          | None => ([], false, s)
          end
      end
  end.

Definition read_ipv6_addr (s : str) : option (list Z * str) :=
  let '(head, head_ipv4, s) := read_groups 0 8 s in
  if bool_decide (length head = 8)%nat then Some (head, s)
  else if head_ipv4 then None
  else
    s ← read_char 58 s; s ← read_char 58 s;
    let '(tail, _, s) := read_groups 0 (8 - (length head + 1)) s in
    Some (head ++ replicate (8 - length head - length tail) 0 ++ tail, s).

Definition parse_ipv4 (s : str) : option Ipv4Addr :=
  match read_ipv4_addr s with Some (a, []) => Some a | _ => None end.

Definition parse_ip (s : str) : option IpAddr :=
  match read_ipv4_addr s with
  | Some (a, []) => Some (V4 a)
  | Some _ => None
  | None => match read_ipv6_addr s with Some (g, []) => Some (V6 g) | _ => None end
  end.

(** [read_port]: any number of digits. *)
Definition read_port (s : str) : option (Z * str) :=
  s ← read_char 58 s; read_number 10 (length s) true 65535 s.

(** [read_scope_id]: absent, or a [%] and a number. *)
Definition read_scope_id (s : str) : Z * str :=
  match (s ← read_char 37 s; read_number 10 (length s) true 4294967295 s) with
  | Some r => r
  | None => (0, s)
  end.

Definition read_sockaddr_v6 (s : str) : option (SocketAddr * Z * str) :=
  s ← read_char 91 s; '(g, s) ← read_ipv6_addr s;
  let '(scope, s) := read_scope_id s in
  s ← read_char 93 s; '(p, s) ← read_port s; Some (SockAddr (V6 g) p, scope, s).

(** [SocketAddr::from_str], with the scope of an IPv6 address. *)
Definition parse_sockaddr (s : str) : option (SocketAddr * Z) :=
  match ('(a, s) ← read_ipv4_addr s; '(p, s) ← read_port s; Some (SockAddr (V4 a) p, 0, s)) with
  | Some (a, []) => Some a
  | Some _ => None
  | None => match read_sockaddr_v6 s with Some (a, []) => Some a | _ => None end
  end.

(** ** Display *)

Definition show_ipv4 (a : Ipv4Addr) : str :=
  dec (oct0 a) ++ [46] ++ dec (oct1 a) ++ [46] ++ dec (oct2 a) ++ [46] ++ dec (oct3 a).

Definition hex_digit (d : Z) : Z := if d <? 10 then 48 + d else 87 + d.

(** [{:x}] of a segment. *)
Definition hex16 (g : Z) : str :=
  let ds := [g / 4096; g / 256 mod 16; g / 16 mod 16; g mod 16] in
  match trim_start_by (Z.eqb 0) ds with [] => [48] | ds => map hex_digit ds end.

Fixpoint join_hex (gs : list Z) : str :=
  match gs with
  | [] => []
  | [g] => hex16 g
  | g :: gs => hex16 g ++ [58] ++ join_hex gs
  end.

(** The first longest run of zero segments, as start and length. *)
Fixpoint zero_run (i : nat) (cur longest : nat * nat) (gs : list Z) : nat * nat :=
  match gs with
  | [] => longest
  | g :: gs =>
      if g =? 0 then
        let cur := (if bool_decide (cur.2 = 0)%nat then i else cur.1, S cur.2) in
        zero_run (S i) cur (if bool_decide (longest.2 < cur.2)%nat then cur else longest) gs
      else zero_run (S i) (0, 0)%nat longest gs
  end.

Definition show_ipv6 (gs : list Z) : str :=
  match gs with
  | [0; 0; 0; 0; 0; 65535; g6; g7] =>
      lit "::ffff:" ++ show_ipv4 (Ipv4 (g6 / 256) (g6 mod 256) (g7 / 256) (g7 mod 256))
  | _ =>
      let '(start, len) := zero_run 0 (0, 0)%nat (0, 0)%nat gs in
      if bool_decide (1 < len)%nat
      then join_hex (take start gs) ++ [58; 58] ++ join_hex (drop (start + len) gs)
      else join_hex gs
  end.

Definition show_ip (a : IpAddr) : str :=
  match a with V4 a => show_ipv4 a | V6 gs => show_ipv6 gs end.

Definition show_sockaddr (a : SocketAddr) : str :=
  match sa_ip a with
  | V4 ip => show_ipv4 ip ++ [58] ++ dec (sa_port a)
  | V6 gs => [91] ++ show_ipv6 gs ++ [93; 58] ++ dec (sa_port a)
  end.

(** [IpAddr::is_loopback]. *)
Definition is_loopback (a : IpAddr) : bool :=
  match a with
  | V4 a => oct0 a =? 127
  | V6 gs => bool_decide (gs = [0; 0; 0; 0; 0; 0; 0; 1])
  end.

Lemma length_octets a : length (octets a) = 4%nat.
Proof. reflexivity. Qed.

(** The order is total: of two addresses, equal or one above the other. *)
Lemma ipv4_gtb_total a b : a <> b -> ipv4_gtb a b = negb (ipv4_gtb b a).
Proof.
  destruct a as [a0 a1 a2 a3], b as [b0 b1 b2 b3]; unfold ipv4_gtb; simpl; intros Hne.
  destruct (Z.ltb_spec b0 a0), (Z.ltb_spec a0 b0), (Z.eqb_spec a0 b0), (Z.eqb_spec b0 a0);
    simpl; try lia; [reflexivity..|].
  destruct (Z.ltb_spec b1 a1), (Z.ltb_spec a1 b1), (Z.eqb_spec a1 b1), (Z.eqb_spec b1 a1);
    simpl; try lia; [reflexivity..|].
  destruct (Z.ltb_spec b2 a2), (Z.ltb_spec a2 b2), (Z.eqb_spec a2 b2), (Z.eqb_spec b2 a2);
    simpl; try lia; [reflexivity..|].
  destruct (Z.ltb_spec b3 a3), (Z.ltb_spec a3 b3); simpl; try lia; try reflexivity.
  exfalso. apply Hne. f_equal; lia.
Qed.

Lemma ipv4_gtb_irrefl a : ipv4_gtb a a = false.
Proof. unfold ipv4_gtb. by rewrite !Z.ltb_irrefl, !Z.eqb_refl. Qed.

Example parse_ip_examples :
  parse_ip (lit "192.168.8.50") = Some (V4 (Ipv4 192 168 8 50))
  /\ parse_ip (lit "192.168.08.50") = None
  /\ parse_ip (lit "fd00::1:0:0:9") = Some (V6 [64768; 0; 0; 0; 1; 0; 0; 9])
  /\ parse_ip (lit "::ffff:10.0.0.1") = Some (V6 [0; 0; 0; 0; 0; 65535; 2560; 1])
  /\ parse_ip (lit "::") = Some (V6 [0; 0; 0; 0; 0; 0; 0; 0])
  /\ parse_ip (lit "node.lo") = None
  /\ parse_sockaddr (lit "127.0.0.1:9103") = Some (SockAddr (V4 (Ipv4 127 0 0 1)) 9103, 0)
  /\ parse_sockaddr (lit "[::1%4]:080") = Some (SockAddr (V6 [0; 0; 0; 0; 0; 0; 0; 1]) 80, 4)
  /\ parse_sockaddr (lit "127.0.0.1:65536") = None
  /\ parse_sockaddr (lit "localhost:80") = None
  /\ show_ip (V6 [64768; 0; 0; 0; 1; 0; 0; 9]) = lit "fd00::1:0:0:9"
  /\ show_sockaddr (SockAddr (V6 [0; 0; 0; 0; 0; 0; 0; 1]) 6443) = lit "[::1]:6443".
Proof. vm_compute. repeat split. Qed.

(** ** What the parser returns is in range *)

Lemma read_digits_nonneg radix s : forall acc v n r,
  0 <= radix -> 0 <= acc -> read_digits radix s acc = (v, n, r) -> 0 <= v.
Proof.
  induction s as [|c s IH]; intros acc v n r Hr Hacc; simpl.
  - by intros [= <- _ _].
  - destruct (to_digit radix c) as [d|] eqn:Hd; [|by intros [= <- _ _]].
    destruct (read_digits _ _ _) as [[v' n'] r'] eqn:E. intros [= <- _ _].
    apply (IH _ _ _ _ Hr) in E; [done|].
    unfold to_digit in Hd. repeat case_match; simplify_eq; bool_to_prop; try lia.
    unfold is_digit in *. bool_to_prop. nia.
Qed.

Lemma read_number_range radix k z max s v r :
  0 <= radix -> read_number radix k z max s = Some (v, r) -> 0 <= v <= max.
Proof.
  unfold read_number. intros Hr. destruct (read_digits radix s 0) as [[v' n] r'] eqn:E.
  apply read_digits_nonneg in E; [|done..].
  match goal with |- context [if ?b then _ else _] => destruct b eqn:? end; [done|].
  intros [= <- <-]. bool_to_prop. lia.
Qed.

Lemma read_ipv4_addr_ok s a r : read_ipv4_addr s = Some (a, r) -> ipv4_ok a.
Proof.
  unfold read_ipv4_addr. cbn beta zeta.
  destruct (read_separator 46 0 _ s) as [[a0 s0]|] eqn:E0; [|done]. cbn [mbind option_bind].
  destruct (read_separator 46 1 _ s0) as [[a1 s1]|] eqn:E1; [|done]. cbn [mbind option_bind].
  destruct (read_separator 46 2 _ s1) as [[a2 s2]|] eqn:E2; [|done]. cbn [mbind option_bind].
  destruct (read_separator 46 3 _ s2) as [[a3 s3]|] eqn:E3; [|done]. cbn [mbind option_bind].
  intros [= <- <-]. unfold read_separator in *.
  repeat match goal with
  | H : match read_char _ ?x with _ => _ end = _ |- _ => destruct (read_char _ x); [|done]
  | H : read_number _ _ _ _ _ = Some _ |- _ => apply read_number_range in H; [|lia]
  end.
  unfold ipv4_ok, octets. simpl. solve_bytes.
Qed.

Lemma parse_ipv4_ok s a : parse_ipv4 s = Some a -> ipv4_ok a.
Proof.
  unfold parse_ipv4. destruct (read_ipv4_addr s) as [[b [|]]|] eqn:E; try done. intros [= <-].
  by eapply read_ipv4_addr_ok.
Qed.

Lemma parse_ip_v4_ok s a : parse_ip s = Some (V4 a) -> ipv4_ok a.
Proof.
  unfold parse_ip. destruct (read_ipv4_addr s) as [[b [|]]|] eqn:E; try done.
  - intros [= <-]. by eapply read_ipv4_addr_ok.
  - by destruct (read_ipv6_addr s) as [[g [|]]|].
Qed.

(** ** A printed IPv4 address reads back *)

Lemma read_digits_app s : forall acc v n rest,
  read_digits 10 s acc = (v, n, []) -> match rest with c :: _ => is_digit c = false | [] => True end ->
  read_digits 10 (s ++ rest) acc = (v, n, rest).
Proof.
  induction s as [|c s IH]; intros acc v n rest; cbn [app read_digits].
  - intros [= <- <-] Hr. destruct rest as [|c rest]; [done|]. cbn [read_digits].
    unfold to_digit. rewrite Hr. repeat case_match; try done; bool_to_prop; simplify_eq; lia.
  - destruct (to_digit 10 c) as [d|]; [|by intros [=]].
    destruct (read_digits 10 s (acc * 10 + d)) as [[v' n'] r'] eqn:E. intros [= <- <- ->] Hr.
    by rewrite (IH _ _ _ rest E).
Qed.

(** The digits of a byte, checked one by one. *)
Lemma read_byte_digits b : is_u8 b ->
  exists n, read_digits 10 (dec b) 0 = (b, n, []) /\ (1 <= n <= 3)%nat
    /\ (match dec b with 48 :: _ => true | _ => false end && bool_decide (1 < n)%nat) = false.
Proof.
  intros Hb. exists (length (dec b)).
  assert (forallb (fun b => bool_decide (read_digits 10 (dec b) 0 = (b, length (dec b), [])
      /\ (1 <= length (dec b) <= 3)%nat
      /\ (match dec b with 48 :: _ => true | _ => false end && bool_decide (1 < length (dec b))%nat) = false))
    (Z.of_nat <$> seq 0 256) = true) as H by (vm_compute; reflexivity).
  rewrite forallb_forall in H. eapply bool_decide_eq_true_1, H, list_elem_of_In, list_elem_of_fmap.
  exists (Z.to_nat b). unfold is_u8 in Hb. split; [lia|]. apply elem_of_seq. lia.
Qed.

Lemma read_octet b rest : is_u8 b -> match rest with c :: _ => is_digit c = false | [] => True end ->
  read_number 10 3 false 255 (dec b ++ rest) = Some (b, rest).
Proof.
  intros Hb Hr. destruct (read_byte_digits b Hb) as (n & E & Hn & Hz). unfold read_number.
  rewrite (read_digits_app _ _ _ _ _ E Hr).
  assert (match dec b ++ rest with 48 :: _ => true | _ => false end
          = match dec b with 48 :: _ => true | _ => false end) as ->.
  { destruct (dec b) as [|c s] eqn:Ed; [|done]. cbn in E. injection E as _ ?. lia. }
  rewrite !bool_decide_false by lia. cbn [negb orb andb]. rewrite Hz. cbn [orb].
  unfold is_u8 in Hb. by rewrite (proj2 (Z.ltb_ge 255 b)) by lia.
Qed.

Lemma parse_show_ipv4 a : ipv4_ok a -> parse_ipv4 (show_ipv4 a) = Some a.
Proof.
  destruct a as [a b c d]. unfold ipv4_ok, octets. cbn [oct0 oct1 oct2 oct3].
  rewrite !bytes_ok_cons. intros (Ha & Hb & Hc & Hd & _).
  unfold parse_ipv4, read_ipv4_addr, show_ipv4. cbn [oct0 oct1 oct2 oct3 read_separator app].
  rewrite read_octet by done. cbn [mbind option_bind read_char]. rewrite Z.eqb_refl.
  rewrite read_octet by done. cbn [mbind option_bind read_char]. rewrite Z.eqb_refl.
  rewrite read_octet by done. cbn [mbind option_bind read_char]. rewrite Z.eqb_refl.
  rewrite <- (app_nil_r (dec d)), read_octet by done. done.
Qed.
