(* ===== verification/Vrrp.v ===== *)
(** * VRRP v3: virtual router, advertisement codec ([src/src/vrrp.rs])

    [VirtualRouter] and its operations are the state machine; [encode_advertisement],
    [parse_advertisement] and [ones_complement_checksum] the codec.  The
    [&mut self] methods return the new router beside their result; [VrrpLoop]
    holds the control loop around them. *)

From S2P Require Import Prelude Net.

(** ** Data *)

(** [224.0.0.18] and the IP protocol number. *)
Definition VRRP_MCAST : Ipv4Addr := Ipv4 224 0 0 18.
Definition IPPROTO_VRRP : Z := 112.

Inductive State := Initialize | Backup | Master.

#[export] Instance State_eq_dec : EqDecision State.
Proof. solve_decision. Defined.

(** The handle's state byte, as [Handle::set] stores it. *)
Definition state_byte (s : State) : Z :=
  match s with Backup => 1 | Master => 2 | Initialize => 0 end.

(** [Handle::state]: what the stored byte reads as. *)
Definition handle_state (v : Z) : string :=
  if v =? 1 then "backup" else if v =? 2 then "master" else "stopped".

Inductive OnAdvert :=
| Ignore
| ResetTimer (centis : Z)
| AdvertiseNow
| Demoted (centis : Z).

Record VirtualRouter := {
  vrid : Z;
  priority : Z;
  preempt : bool;
  advert_interval_centis : Z;
  master_adver_interval_centis : Z;
  state : State }.

Definition with_state (s : State) (vr : VirtualRouter) : VirtualRouter :=
  {| vrid := vrid vr; priority := priority vr; preempt := preempt vr;
     advert_interval_centis := advert_interval_centis vr;
     master_adver_interval_centis := master_adver_interval_centis vr; state := s |}.

Definition with_master_interval (i : Z) (vr : VirtualRouter) : VirtualRouter :=
  {| vrid := vrid vr; priority := priority vr; preempt := preempt vr;
     advert_interval_centis := advert_interval_centis vr;
     master_adver_interval_centis := i; state := state vr |}.

(** ** The state machine *)

Definition new (vrid priority : Z) (preempt : bool) (advert_interval_secs : Z) : VirtualRouter :=
  let centis := wrap16 (Z.min (wrap64 (Z.max advert_interval_secs 1 * 100)) 0x0fff) in
  {| vrid := vrid; priority := priority; preempt := preempt;
     advert_interval_centis := centis; master_adver_interval_centis := centis;
     state := Initialize |}.

Definition skew_centis (vr : VirtualRouter) : Z :=
  wrap32 ((256 - priority vr) * master_adver_interval_centis vr) / 256.

Definition master_down_interval_centis (vr : VirtualRouter) : Z :=
  wrap32 (3 * master_adver_interval_centis vr + skew_centis vr).

Definition start (healthy : bool) (vr : VirtualRouter) : VirtualRouter * State :=
  let s := if (priority vr =? 255) && healthy then Master else Backup in
  (with_state s vr, s).

Definition on_master_down_timeout (healthy : bool) (vr : VirtualRouter) : VirtualRouter * bool :=
  if bool_decide (state vr = Backup) && healthy
  then (with_master_interval (advert_interval_centis vr) (with_state Master vr), true)
  else (vr, false).

Definition on_health (healthy : bool) (vr : VirtualRouter) : VirtualRouter * bool :=
  if bool_decide (state vr = Master) && negb healthy
  then (with_state Backup vr, true)
  else (vr, false).

Definition on_advertisement (peer_priority : Z) (peer_addr our_addr : Ipv4Addr)
    (peer_interval_centis : Z) (vr : VirtualRouter) : VirtualRouter * OnAdvert :=
  match state vr with
  | Backup =>
      if peer_priority =? 0 then (vr, ResetTimer (skew_centis vr))
      else if negb (preempt vr) || (priority vr <=? peer_priority) then
        let vr' := with_master_interval (Z.max peer_interval_centis 1) vr in
        (vr', ResetTimer (master_down_interval_centis vr'))
      else (vr, Ignore)
  | Master =>
      if peer_priority =? 0 then (vr, AdvertiseNow)
      else if (priority vr <? peer_priority)
              || (peer_priority =? priority vr) && ipv4_gtb peer_addr our_addr then
        let vr' := with_master_interval (Z.max peer_interval_centis 1) (with_state Backup vr) in
        (vr', Demoted (master_down_interval_centis vr'))
      else (vr, Ignore)
  | Initialize => (vr, Ignore)
  end.

(** ** The codec *)

(** The loop over [chunks_exact(2)] and its remainder. *)
Fixpoint sum_words (data : list Z) (sum : Z) : Z :=
  match data with
  | [] => sum
  | [last] => wrap32 (sum + Z.shiftl last 8)
  | a :: b :: rest => sum_words rest (wrap32 (sum + of_be16 a b))
  end.

(** The [while (sum >> 16) != 0] loop; [fold_carries_done] shows that two
    rounds end it for any [u32]. *)
Fixpoint fold_carries (fuel : nat) (sum : Z) : Z :=
  match fuel with
  | O => sum
  | S fuel =>
      if Z.shiftr sum 16 =? 0 then sum
      else fold_carries fuel (wrap32 (Z.land sum 0xffff + Z.shiftr sum 16))
  end.

Definition ones_complement_checksum (data : list Z) : Z :=
  0xffff - wrap16 (fold_carries 2 (sum_words data 0)).

Definition with_pseudo_header (vrrp : list Z) (src : Ipv4Addr) : list Z :=
  octets src ++ octets VRRP_MCAST ++ [0] ++ [wrap8 IPPROTO_VRRP]
  ++ be16 (wrap16 (Z.of_nat (length vrrp))) ++ vrrp.

Definition encode_advertisement (vrid priority advert_interval_centis : Z)
    (vips : list Ipv4Addr) (src : Ipv4Addr) : list Z :=
  let mai := Z.land advert_interval_centis 0x0fff in
  let p := [0x31; vrid; priority; wrap8 (Z.of_nat (length vips))]
             ++ be16 mai ++ [0; 0] ++ concat (map octets vips) in
  let ck := ones_complement_checksum (with_pseudo_header p src) in
  take 6 p ++ be16 ck ++ drop 8 p.

Record Advert := { adv_priority : Z; adv_src : Ipv4Addr; adv_interval_centis : Z }.

(** The outer option is an index out of range, the inner one the function's. *)
Definition parse_advertisement (datagram : list Z) (our_vrid : Z) : option (option Advert) :=
  if bool_decide (length datagram < 20)%nat then Some None else
  d0 ← datagram !! 0%nat;
  let ihl := (Z.to_nat (Z.land d0 0x0f) * 4)%nat in
  if bool_decide (ihl < 20)%nat || bool_decide (length datagram < ihl + 8)%nat
  then Some None else
  ttl ← datagram !! 8%nat;
  if negb (ttl =? 255) then Some None else
  s0 ← datagram !! 12%nat; s1 ← datagram !! 13%nat;
  s2 ← datagram !! 14%nat; s3 ← datagram !! 15%nat;
  let src := Ipv4 s0 s1 s2 s3 in
  vrrp ← slice_from datagram ihl;
  v0 ← vrrp !! 0%nat; v1 ← vrrp !! 1%nat;
  let version := Z.shiftr v0 4 in
  let vtype := Z.land v0 0x0f in
  if negb (version =? 3) || negb (vtype =? 1) || negb (v1 =? our_vrid) then Some None else
  if negb (ones_complement_checksum (with_pseudo_header vrrp src) =? 0) then Some None else
  v2 ← vrrp !! 2%nat; v4 ← vrrp !! 4%nat; v5 ← vrrp !! 5%nat;
  Some (Some {| adv_priority := v2; adv_src := src;
                adv_interval_centis := Z.land (of_be16 v4 v5) 0x0fff |}).

(** ** Reachable routers *)

(** What a router goes through: created and started once ([loop_start] of
    [VrrpLoop]), then its events.  An advertisement's interval is 12 bits wide
    ([parse_advertisement]). *)
Inductive reachable (v p : Z) (pre : bool) (secs : Z) : VirtualRouter -> Prop :=
| reach_start h : reachable v p pre secs (start h (new v p pre secs)).1
| reach_timeout r h : reachable v p pre secs r ->
    reachable v p pre secs (on_master_down_timeout h r).1
| reach_health r h : reachable v p pre secs r -> reachable v p pre secs (on_health h r).1
| reach_advert r prio peer our itv : reachable v p pre secs r -> 0 <= itv < 4096 ->
    reachable v p pre secs (on_advertisement prio peer our itv r).1.

(** Fields in range. *)
Definition wf (r : VirtualRouter) : Prop :=
  is_u8 (priority r) /\ 1 <= advert_interval_centis r <= 4095
  /\ 1 <= master_adver_interval_centis r <= 4095.

(** Who keeps the VIP among two Masters: the higher priority, then the higher
    address. *)
Definition outranks (p1 : Z) (a1 : Ipv4Addr) (p2 : Z) (a2 : Ipv4Addr) : bool :=
  (p2 <? p1) || (p1 =? p2) && ipv4_gtb a1 a2.

(** The product does not wrap for any interval a spec may carry
    (at most 40 s, [Vips.check]). *)
Definition secs_ok (secs : Z) : Prop := 0 <= secs <= 40.

#[export] Instance secs_ok_dec secs : Decision (secs_ok secs).
Proof. unfold secs_ok. apply _. Defined.

(** What the kernel puts before the payload: an IP header of [length hdr]
    bytes, TTL 255, from [src]. *)
Definition ip_header (hdr : list Z) (src : Ipv4Addr) : Prop :=
  (20 <= length hdr)%nat /\
  (fun d0 => (Z.to_nat (Z.land d0 0x0f) * 4)%nat) <$> hdr !! 0%nat = Some (length hdr) /\
  hdr !! 8%nat = Some 255 /\
  hdr !! 12%nat = Some (oct0 src) /\ hdr !! 13%nat = Some (oct1 src) /\
  hdr !! 14%nat = Some (oct2 src) /\ hdr !! 15%nat = Some (oct3 src).

#[export] Instance ip_header_dec hdr src : Decision (ip_header hdr src).
Proof. unfold ip_header. apply _. Defined.

(** ** The checksum *)

(** The sum of the 16-bit words, without the width of the accumulator. *)
Fixpoint word_sum (data : list Z) : Z :=
  match data with
  | [] => 0
  | [last] => last * 256
  | a :: b :: rest => of_be16 a b + word_sum rest
  end.

(** RFC 1071: the 16-bit words of the data, an odd last byte padded with a
    zero, and their one's complement sum: each carry out of 16 bits is added
    back in at once. *)
Fixpoint words (data : list Z) : list Z :=
  match data with
  | [] => []
  | [last] => [of_be16 last 0]
  | a :: b :: rest => of_be16 a b :: words rest
  end.

Definition end_around (a b : Z) : Z := if a + b <? 65536 then a + b else a + b - 65535.

Definition rfc1071 (data : list Z) : Z := 65535 - foldr end_around 0 (words data).

(** Induction two bytes at a time. *)
Lemma list_ind2 {A} (P : list A -> Prop) :
  P [] -> (forall x, P [x]) -> (forall x y l, P l -> P (x :: y :: l)) -> forall l, P l.
Proof.
  intros H0 H1 H2 l. enough (P l /\ forall x, P (x :: l)) as [? _] by done.
  induction l as [|y l [IH1 IH2]]; auto.
Qed.

Lemma word_sum_nonneg data : bytes_ok data -> 0 <= word_sum data.
Proof.
  unfold bytes_ok. induction data as [|x|x y l IH] using list_ind2; simpl; intros H.
  - lia.
  - apply Forall_cons_iff in H as [Hx _]. unfold is_u8 in Hx. lia.
  - rewrite !Forall_cons_iff in H. destruct H as (Hx & Hy & H).
    pose proof (of_be16_u16 x y Hx Hy) as Hw. specialize (IH H). unfold is_u16 in Hw. lia.
Qed.

Lemma word_sum_bound data :
  bytes_ok data -> 2 * word_sum data <= 65535 * (Z.of_nat (length data) + 1).
Proof.
  unfold bytes_ok. induction data as [|x|x y l IH] using list_ind2; cbn [word_sum length]; intros H.
  - lia.
  - apply Forall_cons_iff in H as [Hx _]. unfold is_u8 in Hx. lia.
  - rewrite !Forall_cons_iff in H. destruct H as (Hx & Hy & H).
    pose proof (of_be16_u16 x y Hx Hy) as Hw. specialize (IH H). unfold is_u16 in Hw. lia.
Qed.

Lemma sum_words_eq data acc :
  bytes_ok data -> 0 <= acc -> acc + word_sum data < 4294967296 ->
  sum_words data acc = acc + word_sum data.
Proof.
  unfold bytes_ok. revert acc.
  induction data as [|x|x y l IH] using list_ind2; intros acc H Ha Hb; cbn [sum_words word_sum] in *.
  - lia.
  - apply Forall_cons_iff in H as [Hx _]. unfold is_u8 in Hx.
    rewrite Z.shiftl_mul_pow2 by lia. change (2 ^ 8) with 256.
    rewrite wrap32_id; [lia | unfold is_u32; lia].
  - rewrite !Forall_cons_iff in H. destruct H as (Hx & Hy & H).
    pose proof (of_be16_u16 x y Hx Hy) as Hw. pose proof (word_sum_nonneg l H) as Hn.
    unfold is_u16 in Hw. rewrite wrap32_id by (unfold is_u32; lia).
    rewrite IH by (done || lia). lia.
Qed.

Lemma land_ffff x : Z.land x 0xffff = x mod 65536.
Proof. change 0xffff with (Z.ones 16). by rewrite Z.land_ones by lia. Qed.

(** Two rounds of folding end the loop, and leave the sum modulo 65535 (with
    65535 for the non-zero multiples). *)
Lemma fold_carries_eq s :
  is_u32 s -> fold_carries 2 s = if s =? 0 then 0 else (s - 1) mod 65535 + 1.
Proof.
  unfold is_u32. intros Hs. cbn [fold_carries].
  rewrite !Z.shiftr_div_pow2 by lia. change (2 ^ 16) with 65536.
  rewrite !land_ffff. unfold wrap32.
  destruct (Z.eqb_spec s 0) as [->|Hs0]; [reflexivity|].
  repeat match goal with |- context [if ?b =? 0 then _ else _] => destruct (Z.eqb_spec b 0) end;
    Z.to_euclidean_division_equations; lia.
Qed.

Lemma fold_carries_done s : is_u32 s -> Z.shiftr (fold_carries 2 s) 16 = 0.
Proof.
  intros Hs. rewrite fold_carries_eq by done. rewrite Z.shiftr_div_pow2 by lia.
  change (2 ^ 16) with 65536. destruct (s =? 0); zdiv.
Qed.

(** The checksum of a buffer short enough for the [u32] accumulator. *)
Lemma checksum_eq data :
  bytes_ok data -> word_sum data < 4294967296 ->
  ones_complement_checksum data =
    if word_sum data =? 0 then 65535 else 65534 - (word_sum data - 1) mod 65535.
Proof.
  intros Hd Hb. pose proof (word_sum_nonneg data Hd) as Hn.
  unfold ones_complement_checksum. rewrite sum_words_eq by (done || lia).
  rewrite fold_carries_eq by (unfold is_u32; lia). rewrite Z.add_0_l.
  destruct (Z.eqb_spec (word_sum data) 0) as [_|H0]; [reflexivity|].
  unfold wrap16. zdiv.
Qed.

(** The one's complement sum of the words is the representative of their plain
    sum modulo 65535, with 0 only for the empty sum. *)
Lemma end_around_sum data : bytes_ok data ->
  foldr end_around 0 (words data) = if word_sum data =? 0 then 0 else (word_sum data - 1) mod 65535 + 1.
Proof.
  induction data as [|x|x y l IH] using list_ind2; intros H; cbn [words word_sum foldr].
  - reflexivity.
  - apply bytes_ok_cons in H as [H _]. unfold is_u8, end_around, of_be16 in *. rewrite !Z.add_0_r.
    destruct (Z.ltb_spec (x * 256) 65536); [|lia]. destruct (Z.eqb_spec (x * 256) 0); zdiv.
  - apply bytes_ok_cons in H as [Hx H]. apply bytes_ok_cons in H as [Hy H].
    rewrite IH by done.
    pose proof (of_be16_u16 x y Hx Hy) as Hw. pose proof (word_sum_nonneg l H) as Hn.
    unfold is_u16 in Hw. unfold end_around.
    generalize dependent (of_be16 x y). generalize dependent (word_sum l).
    clear. intros s _ Hs w Hw.
    destruct (Z.eqb_spec s 0) as [Hs0|Hs0].
    + rewrite Hs0, !Z.add_0_r. destruct (Z.ltb_spec w 65536); [|lia]. destruct (Z.eqb_spec w 0); zdiv.
    + destruct (Z.eqb_spec (w + s) 0); [lia|].
      destruct (Z.ltb_spec (w + ((s - 1) mod 65535 + 1)) 65536); zdiv.
Qed.

(** C35: the checksum of the code, which sums in 32 bits and folds the carries
    at the end, is the Internet checksum of RFC 1071, which adds each carry
    back in as it arises, for every buffer that can occur: any of at most
    131,072 bytes, an IP datagram being shorter. *)
Theorem checksum_is_rfc1071 data :
  bytes_ok data -> Z.of_nat (length data) <= 131072 ->
  ones_complement_checksum data = rfc1071 data.
Proof.
  intros Hd Hl. pose proof (word_sum_bound data Hd). pose proof (word_sum_nonneg data Hd).
  unfold rfc1071. rewrite checksum_eq, end_around_sum by (done || lia).
  destruct (word_sum data =? 0); lia.
Qed.

Lemma checksum_is_rfc1071_witness :
  ones_complement_checksum [0x45; 0; 0; 0x73; 0xff; 0xff; 0x80]
  = rfc1071 [0x45; 0; 0; 0x73; 0xff; 0xff; 0x80].
Proof. apply checksum_is_rfc1071; [unfold bytes_ok; repeat constructor; done | cbn; lia]. Defined.

Lemma checksum_zero data :
  bytes_ok data -> word_sum data < 4294967296 ->
  ones_complement_checksum data = 0 <-> 0 < word_sum data /\ word_sum data mod 65535 = 0.
Proof.
  intros Hd Hb. pose proof (word_sum_nonneg data Hd) as Hn. rewrite checksum_eq by done.
  destruct (Z.eqb_spec (word_sum data) 0) as [->|H0]; [lia|].
  Z.to_euclidean_division_equations. lia.
Qed.

Lemma checksum_u16 data :
  bytes_ok data -> word_sum data < 4294967296 -> is_u16 (ones_complement_checksum data).
Proof.
  intros Hd Hb. rewrite checksum_eq by done. unfold is_u16.
  destruct (word_sum data =? 0); zdiv.
Qed.

Lemma word_sum_app a b :
  Nat.Even (length a) -> word_sum (a ++ b) = word_sum a + word_sum b.
Proof.
  induction a as [|x|x y l IH] using list_ind2; intros He.
  - reflexivity.
  - destruct He as [k Hk]. simpl in Hk. lia.
  - simpl. rewrite IH; [lia|]. destruct He as [k Hk]. exists (k - 1)%nat. simpl in Hk. lia.
Qed.

(** Replacing one byte moves the sum by 256 times the change, or by the change. *)
Lemma word_sum_insert l i x y :
  l !! i = Some y ->
  word_sum (<[i:=x]> l) = word_sum l + (x - y) * (if Nat.even i then 256 else 1).
Proof.
  revert i. induction l as [|a|a b l IH] using list_ind2; intros i Hi.
  - done.
  - destruct i as [|i]; simpl in *; [simplify_eq; lia | done].
  - destruct i as [|[|i]]; simpl in Hi |- *; simplify_eq; try (unfold of_be16; lia).
    rewrite IH by done. lia.
Qed.

(** ** The codec *)

Lemma bytes_ok_concat_octets vips :
  Forall ipv4_ok vips -> bytes_ok (concat (map octets vips)).
Proof. induction 1; cbn [map concat]; solve_bytes. Qed.

Lemma length_concat_octets vips :
  length (concat (map octets vips)) = (4 * length vips)%nat.
Proof. induction vips; simpl in *; lia. Qed.

Lemma length_with_pseudo_header v src :
  length (with_pseudo_header v src) = (12 + length v)%nat.
Proof. reflexivity. Qed.

Lemma with_pseudo_header_bytes v src :
  bytes_ok v -> ipv4_ok src -> bytes_ok (with_pseudo_header v src).
Proof.
  intros Hv Hs. unfold with_pseudo_header. solve_bytes.
  unfold VRRP_MCAST, octets. simpl. solve_bytes.
Qed.

Lemma with_pseudo_header_small v src :
  bytes_ok v -> ipv4_ok src -> Z.of_nat (length v) <= 65535 ->
  word_sum (with_pseudo_header v src) < 4294967296.
Proof.
  intros Hv Hs Hl. pose proof (word_sum_bound _ (with_pseudo_header_bytes v src Hv Hs)) as H.
  rewrite length_with_pseudo_header in H. lia.
Qed.

(** The pseudo-header depends on the payload's length only. *)
Lemma word_sum_pseudo v v' src :
  length v = length v' ->
  word_sum (with_pseudo_header v' src) - word_sum (with_pseudo_header v src)
  = word_sum v' - word_sum v.
Proof. intros Hl. unfold with_pseudo_header. rewrite Hl. simpl. lia. Qed.

(** The payload with a given checksum field. *)
Definition payload (vrid priority mai n ck : Z) (vips : list Ipv4Addr) : list Z :=
  [0x31; vrid; priority; n] ++ be16 mai ++ be16 ck ++ concat (map octets vips).

Lemma encode_payload vrid prio itv vips src :
  encode_advertisement vrid prio itv vips src =
  payload vrid prio (Z.land itv 0x0fff) (wrap8 (Z.of_nat (length vips)))
    (ones_complement_checksum (with_pseudo_header
       (payload vrid prio (Z.land itv 0x0fff) (wrap8 (Z.of_nat (length vips))) 0 vips) src)) vips.
Proof. reflexivity. Qed.

Lemma payload_bytes vrid prio mai n ck vips :
  is_u8 vrid -> is_u8 prio -> is_u8 n -> Forall ipv4_ok vips ->
  bytes_ok (payload vrid prio mai n ck vips).
Proof.
  intros. unfold payload. cbn [app]. solve_bytes. by apply bytes_ok_concat_octets.
Qed.

Lemma length_payload vrid prio mai n ck vips :
  length (payload vrid prio mai n ck vips) = (8 + 4 * length vips)%nat.
Proof. unfold payload. rewrite !length_app, length_concat_octets. simpl. lia. Qed.

Lemma word_sum_payload vrid prio mai n ck vips :
  is_u16 ck ->
  word_sum (payload vrid prio mai n ck vips) = word_sum (payload vrid prio mai n 0 vips) + ck.
Proof.
  intros Hck. unfold payload, be16. cbn [app word_sum]. rewrite (of_be16_be16 ck) by done.
  change (of_be16 (0 / 256 mod 256) (0 mod 256)) with 0. lia.
Qed.

(** An encoded advertisement passes the receiver's checksum. *)
Lemma encode_checksum vrid prio itv vips src :
  is_u8 vrid -> is_u8 prio -> ipv4_ok src -> Forall ipv4_ok vips -> Z.of_nat (length vips) <= 16000 ->
  ones_complement_checksum
    (with_pseudo_header (encode_advertisement vrid prio itv vips src) src) = 0.
Proof.
  intros Hv Hp Hs Hvs Hl. rewrite encode_payload.
  set (mai := Z.land itv 0x0fff). set (n := wrap8 _).
  set (p0 := payload vrid prio mai n 0 vips).
  set (ck := ones_complement_checksum (with_pseudo_header p0 src)).
  assert (Hb : forall c, bytes_ok (payload vrid prio mai n c vips))
    by (intros; apply payload_bytes; try apply wrap8_u8; done).
  assert (Hlen : forall c, Z.of_nat (length (payload vrid prio mai n c vips)) <= 65535)
    by (intros; rewrite length_payload; lia).
  pose proof (with_pseudo_header_bytes _ src (Hb 0) Hs) as Hb0.
  pose proof (with_pseudo_header_small _ src (Hb 0) Hs (Hlen 0)) as Hsm.
  pose proof (checksum_u16 _ Hb0 Hsm) as Hck. fold p0 in Hck. fold ck in Hck.
  apply checksum_zero; auto using with_pseudo_header_bytes, with_pseudo_header_small.
  pose proof (word_sum_pseudo p0 (payload vrid prio mai n ck vips) src) as Hd.
  unfold p0 in Hd at 1 2. rewrite !length_payload in Hd. specialize (Hd eq_refl).
  rewrite word_sum_payload in Hd by done.
  pose proof (word_sum_nonneg _ Hb0) as Hnn. fold p0 in Hsm, Hnn, Hd.
  assert (Hce := checksum_eq _ Hb0 Hsm). fold p0 ck in Hce.
  unfold is_u16 in Hck. revert Hce. destruct (Z.eqb_spec (word_sum (with_pseudo_header p0 src)) 0) as [E0|H0].
  - intros Hce. split; [lia|].
    replace (word_sum _) with 65535 by lia. reflexivity.
  - intros Hce. split; [lia|].
    replace (word_sum (with_pseudo_header (payload vrid prio mai n ck vips) src))
      with (word_sum (with_pseudo_header p0 src) + ck) by lia.
    rewrite Hce. zdiv.
Qed.

(** Parsing behind a good IP header is a test of the payload. *)
Lemma parse_behind_header hdr src vrrp vrid v0 v1 v2 v4 v5 :
  ip_header hdr src -> (8 <= length vrrp)%nat ->
  vrrp !! 0%nat = Some v0 -> vrrp !! 1%nat = Some v1 -> vrrp !! 2%nat = Some v2 ->
  vrrp !! 4%nat = Some v4 -> vrrp !! 5%nat = Some v5 ->
  parse_advertisement (hdr ++ vrrp) vrid =
    Some (if (Z.shiftr v0 4 =? 3) && (Z.land v0 0x0f =? 1) && (v1 =? vrid)
             && (ones_complement_checksum (with_pseudo_header vrrp src) =? 0)
          then Some {| adv_priority := v2; adv_src := src;
                       adv_interval_centis := Z.land (of_be16 v4 v5) 0x0fff |}
          else None).
Proof.
  intros (Hl & Hihl & H8 & H12 & H13 & H14 & H15) Hv E0 E1 E2 E4 E5.
  apply fmap_Some in Hihl as (d0 & Hd0 & Hihl). symmetry in Hihl.
  unfold parse_advertisement. rewrite bool_decide_false by (rewrite length_app; lia).
  rewrite !lookup_app_l by lia. rewrite Hd0. cbn [mbind option_bind]. rewrite Hihl.
  rewrite !bool_decide_false by (rewrite ?length_app; lia). cbn [orb].
  rewrite H8. cbn [mbind option_bind]. change (negb (255 =? 255)) with false. cbn iota.
  rewrite H12, H13, H14, H15. cbn [mbind option_bind].
  rewrite slice_from_Some by (rewrite length_app; lia). cbn [mbind option_bind].
  rewrite drop_app_length, E0, E1, E2, E4, E5. cbn [mbind option_bind].
  replace (Ipv4 (oct0 src) (oct1 src) (oct2 src) (oct3 src)) with src by (by destruct src).
  by destruct (Z.shiftr v0 4 =? 3), (Z.land v0 15 =? 1), (v1 =? vrid), (ones_complement_checksum _ =? 0).
Qed.

(** C36: an advertisement sent is the advertisement received: behind an IP
    header with TTL 255 from [src], [parse_advertisement] accepts what
    [encode_advertisement] wrote for its router id and returns its priority,
    its source and its interval modulo 2^12. *)
Theorem parse_encode_advertisement hdr vrid prio itv vips src :
  ip_header hdr src -> is_u8 vrid -> is_u8 prio -> ipv4_ok src -> Forall ipv4_ok vips ->
  Z.of_nat (length vips) <= 16000 ->
  parse_advertisement (hdr ++ encode_advertisement vrid prio itv vips src) vrid =
    Some (Some {| adv_priority := prio; adv_src := src; adv_interval_centis := itv mod 4096 |}).
Proof.
  intros Hh Hv Hp Hs Hvs Hl. rewrite (parse_behind_header hdr src _ vrid 0x31 vrid prio
    (Z.land itv 4095 / 256 mod 256) (Z.land itv 4095 mod 256)); try done.
  - rewrite encode_checksum, Z.eqb_refl by done. cbn -[Z.land].
    rewrite !land_0fff, of_be16_be16 by (unfold is_u16; zdiv).
    rewrite Z.mod_mod by lia. by rewrite (Z.eqb_refl vrid).
  - rewrite encode_payload, length_payload. lia.
Qed.

Lemma parse_encode_advertisement_witness :
  parse_advertisement ([0x45; 0; 0; 0; 0; 0; 0; 0; 255; 112; 0; 0; 192; 168; 8; 11; 224; 0; 0; 18]
      ++ encode_advertisement 51 200 100 [Ipv4 192 168 8 50] (Ipv4 192 168 8 11)) 51
  = Some (Some {| adv_priority := 200; adv_src := Ipv4 192 168 8 11; adv_interval_centis := 100 mod 4096 |}).
Proof.
  apply parse_encode_advertisement; try decided.
Defined.

Lemma word_sum_accepted hdr src vrrp vrid a :
  ip_header hdr src -> bytes_ok hdr -> bytes_ok vrrp -> Z.of_nat (length vrrp) <= 65535 ->
  parse_advertisement (hdr ++ vrrp) vrid = Some (Some a) ->
  word_sum (with_pseudo_header vrrp src) mod 65535 = 0.
Proof.
  intros Hh Hbh Hb Hl Hp.
  destruct (decide (8 <= length vrrp)%nat) as [H8|H8].
  - destruct (lookup_lt_ex vrrp 0) as [v0 E0]; [lia|]. destruct (lookup_lt_ex vrrp 1) as [v1 E1]; [lia|].
    destruct (lookup_lt_ex vrrp 2) as [v2 E2]; [lia|]. destruct (lookup_lt_ex vrrp 4) as [v4 E4]; [lia|].
    destruct (lookup_lt_ex vrrp 5) as [v5 E5]; [lia|].
    rewrite (parse_behind_header hdr src vrrp vrid v0 v1 v2 v4 v5) in Hp by done.
    destruct (_ && _) eqn:Hc in Hp; [|done]. bool_to_prop.
    assert (ipv4_ok src) as Hs.
    { destruct Hh as (_ & _ & _ & A & B & C & D). unfold ipv4_ok, octets.
      solve_bytes; eauto using bytes_ok_lookup. }
    eapply checksum_zero; eauto using with_pseudo_header_bytes, with_pseudo_header_small.
  - destruct Hh as (Hl20 & Hihl & _). apply fmap_Some in Hihl as (d0 & Hd0 & Hihl).
    symmetry in Hihl. unfold parse_advertisement in Hp.
    rewrite bool_decide_false in Hp by (rewrite length_app; lia).
    rewrite !lookup_app_l, Hd0 in Hp by lia. cbn [mbind option_bind] in Hp. rewrite Hihl in Hp.
    rewrite orb_comm, (bool_decide_true (length (hdr ++ vrrp) < length hdr + 8)%nat) in Hp
      by (rewrite length_app; lia).
    done.
Qed.

(** no datagram makes the parser index out of range. *)
Theorem parse_advertisement_total datagram vrid :
  exists r, parse_advertisement datagram vrid = Some r.
Proof.
  unfold parse_advertisement. case_bool_decide as H20; [by eexists|].
  destruct (lookup_lt_ex datagram 0) as [d0 ->]; [lia|]. cbn [mbind option_bind].
  set (ihl := (Z.to_nat (Z.land d0 15) * 4)%nat).
  do 2 (case_bool_decide; cbn [orb]; [by eexists|]).
  destruct (lookup_lt_ex datagram 8) as [? ->]; [lia|]. destruct (lookup_lt_ex datagram 12) as [? ->]; [lia|].
  destruct (lookup_lt_ex datagram 13) as [? ->]; [lia|]. destruct (lookup_lt_ex datagram 14) as [? ->]; [lia|].
  destruct (lookup_lt_ex datagram 15) as [? ->]; [lia|]. cbn [mbind option_bind].
  case_match; [by eexists|]. rewrite slice_from_Some by lia. cbn [mbind option_bind].
  assert (8 <= length (drop ihl datagram))%nat as H8 by (rewrite length_drop; lia).
  set (v := drop ihl datagram) in *.
  destruct (lookup_lt_ex v 0) as [? ->]; [lia|]. destruct (lookup_lt_ex v 1) as [? ->]; [lia|].
  destruct (lookup_lt_ex v 2) as [? ->]; [lia|]. destruct (lookup_lt_ex v 4) as [? ->]; [lia|].
  destruct (lookup_lt_ex v 5) as [? ->]; [lia|]. cbn [mbind option_bind].
  repeat (case_match; [by eexists|]). by eexists.
Qed.

(** A single corrupted byte is always noticed: when a datagram is accepted,
    the datagram with one byte of its VRRP payload changed is dropped. *)
Theorem parse_detects_corruption hdr src vrrp vrid i x y a :
  ip_header hdr src -> bytes_ok hdr -> bytes_ok vrrp -> Z.of_nat (length vrrp) <= 65535 ->
  parse_advertisement (hdr ++ vrrp) vrid = Some (Some a) ->
  vrrp !! i = Some y -> is_u8 x -> x <> y ->
  parse_advertisement (hdr ++ <[i := x]> vrrp) vrid = Some None.
Proof.
  intros Hh Hbh Hb Hl Ha Hy Hx Hne.
  destruct (parse_advertisement_total (hdr ++ <[i := x]> vrrp) vrid) as [[a'|] Ha']; [exfalso|done].
  pose proof (bytes_ok_lookup _ _ _ Hb Hy) as Hy8.
  assert (bytes_ok (<[i:=x]> vrrp)) as Hb' by (apply Forall_insert; done).
  pose proof (word_sum_accepted _ _ _ _ _ Hh Hbh Hb Hl Ha) as H1.
  eapply word_sum_accepted in Ha'; [|try done..]; [|by rewrite length_insert].
  pose proof (word_sum_pseudo vrrp (<[i:=x]> vrrp) src (eq_sym (length_insert _ _ _))) as Hd.
  rewrite (word_sum_insert _ _ _ _ Hy) in Hd. unfold is_u8 in *.
  destruct (Nat.even i); Z.to_euclidean_division_equations; lia.
Qed.

Lemma parse_detects_corruption_witness :
  let hdr := [0x45; 0; 0; 0; 0; 0; 0; 0; 255; 112; 0; 0; 10; 0; 0; 1; 224; 0; 0; 18] in
  let v := encode_advertisement 51 200 100 [Ipv4 10 0 0 9] (Ipv4 10 0 0 1) in
  parse_advertisement (hdr ++ <[2%nat := 100]> v) 51 = Some None.
Proof.
  intros hdr v. eapply (parse_detects_corruption hdr (Ipv4 10 0 0 1) v 51 2 100 200);
    try decided; try reflexivity; try lia.
Defined.

(** ** The state machine *)

Lemma new_interval v p pre secs :
  secs_ok secs -> advert_interval_centis (new v p pre secs) = Z.max secs 1 * 100.
Proof.
  unfold secs_ok, new. cbn [advert_interval_centis]. intros.
  rewrite wrap64_id by (unfold is_u64; lia). rewrite wrap16_id by (unfold is_u16; lia). lia.
Qed.

Lemma skew_eq r :
  wf r -> skew_centis r = (256 - priority r) * master_adver_interval_centis r / 256.
Proof.
  intros (Hp & _ & Hi). unfold skew_centis, is_u8 in *. rewrite wrap32_id; [done|]. unfold is_u32. nia.
Qed.

Lemma skew_bounds r :
  wf r -> 0 <= skew_centis r <= master_adver_interval_centis r.
Proof.
  intros Hwf. rewrite skew_eq by done. destruct Hwf as (Hp & _ & Hi). unfold is_u8 in Hp.
  split; [apply Z.div_pos; nia | apply Z.div_le_upper_bound; nia].
Qed.

Lemma master_down_eq r :
  wf r -> master_down_interval_centis r = 3 * master_adver_interval_centis r + skew_centis r.
Proof.
  intros Hwf. pose proof (skew_bounds r Hwf). destruct Hwf as (_ & _ & Hi).
  unfold master_down_interval_centis. apply wrap32_id. unfold is_u32. lia.
Qed.

Lemma wf_with_state s r : wf (with_state s r) <-> wf r.
Proof. done. Qed.

Lemma wf_with_master_interval i r : wf r -> 1 <= i <= 4095 -> wf (with_master_interval i r).
Proof. unfold wf. simpl. intuition. Qed.

Lemma advert_wf prio peer our itv r :
  wf r -> 0 <= itv < 4096 -> wf (on_advertisement prio peer our itv r).1.
Proof.
  intros Hwf Hi. unfold on_advertisement.
  repeat case_match; simpl; auto; apply wf_with_master_interval; auto; lia.
Qed.

(** What every event preserves. *)
Definition router_inv (v p : Z) (pre : bool) (secs : Z) (r : VirtualRouter) : Prop :=
  wf r /\ vrid r = v /\ priority r = p /\ preempt r = pre
  /\ advert_interval_centis r = Z.max secs 1 * 100
  /\ (state r = Master -> master_adver_interval_centis r = advert_interval_centis r).

Lemma start_inv v p pre secs h :
  is_u8 p -> secs_ok secs -> router_inv v p pre secs (start h (new v p pre secs)).1.
Proof.
  intros Hp Hs. pose proof (new_interval v p pre secs Hs) as Hn.
  unfold router_inv, wf. cbn -[Z.mul wrap16 wrap64] in *. rewrite Hn. unfold secs_ok in Hs.
  repeat split; auto; try apply Hp; lia.
Qed.

Lemma timeout_inv v p pre secs h r :
  router_inv v p pre secs r -> router_inv v p pre secs (on_master_down_timeout h r).1.
Proof.
  intros ((Hp & Ha & Hm) & H). unfold on_master_down_timeout. case_match; [|done].
  unfold router_inv, wf. simpl. intuition.
Qed.

Lemma health_inv v p pre secs h r :
  router_inv v p pre secs r -> router_inv v p pre secs (on_health h r).1.
Proof.
  intros (Hwf & H). unfold on_health. case_match; [|done].
  unfold router_inv, wf in *. simpl in *. intuition congruence.
Qed.

Lemma advert_inv v p pre secs prio peer our itv r :
  0 <= itv < 4096 -> router_inv v p pre secs r ->
  router_inv v p pre secs (on_advertisement prio peer our itv r).1.
Proof.
  intros Hi (Hwf & H). split; [by apply advert_wf|].
  unfold on_advertisement. repeat case_match; simpl; intuition congruence.
Qed.

(** The router's invariant: whatever it hears and however health changes,
    its identity and configured interval stay, its intervals stay within 12
    bits, a Master runs on its own interval (the learned one is dropped on
    takeover), and so its timers do not overflow: skew at most one interval,
    master-down between three and four. *)
Theorem reachable_timers v p pre secs r :
  is_u8 p -> secs_ok secs -> reachable v p pre secs r ->
  router_inv v p pre secs r
  /\ 0 <= skew_centis r <= master_adver_interval_centis r
  /\ 3 * master_adver_interval_centis r <= master_down_interval_centis r
     <= 4 * master_adver_interval_centis r.
Proof.
  intros Hp Hs Hr. assert (router_inv v p pre secs r) as Hinv.
  { induction Hr; auto using start_inv, timeout_inv, health_inv, advert_inv. }
  pose proof (skew_bounds r (proj1 Hinv)). rewrite (master_down_eq r (proj1 Hinv)).
  repeat split; try apply Hinv; lia.
Qed.

Lemma reachable_timers_witness :
  let r := (on_advertisement 200 (Ipv4 10 0 0 2) (Ipv4 10 0 0 1) 300
             (start true (new 51 100 true 1)).1).1 in
  router_inv 51 100 true 1 r /\ 0 <= skew_centis r <= master_adver_interval_centis r
  /\ 3 * master_adver_interval_centis r <= master_down_interval_centis r
     <= 4 * master_adver_interval_centis r.
Proof.
  intros r. apply reachable_timers; [decided | unfold secs_ok; lia |].
  apply reach_advert; [apply reach_start | lia].
Defined.

(** failover order: of two Backups that learned the same Master interval,
    the one with the higher priority waits no longer, both after an
    advertisement and after a resignation. *)
Theorem higher_priority_waits_less r1 r2 :
  wf r1 -> wf r2 ->
  master_adver_interval_centis r1 = master_adver_interval_centis r2 ->
  priority r1 <= priority r2 ->
  skew_centis r2 <= skew_centis r1
  /\ master_down_interval_centis r2 <= master_down_interval_centis r1.
Proof.
  intros H1 H2 Hi Hp. rewrite !master_down_eq, !skew_eq by done. rewrite Hi.
  assert ((256 - priority r2) * master_adver_interval_centis r2 / 256
          <= (256 - priority r1) * master_adver_interval_centis r2 / 256).
  { apply Z.div_le_mono; [lia|]. destruct H2 as (_ & _ & ?). nia. }
  lia.
Qed.

Lemma higher_priority_waits_less_witness :
  let r1 := new 51 100 true 1 in let r2 := new 51 200 true 1 in
  skew_centis r2 <= skew_centis r1
  /\ master_down_interval_centis r2 <= master_down_interval_centis r1.
Proof. intros r1 r2. apply higher_priority_waits_less; [by repeat split.. | done | done]. Defined.

Lemma outranks_antisym p1 a1 p2 a2 :
  a1 <> a2 -> outranks p1 a1 p2 a2 = negb (outranks p2 a2 p1 a1).
Proof.
  intros Hne. unfold outranks. rewrite (Z.eqb_sym p2 p1), (ipv4_gtb_total a1 a2 Hne).
  destruct (Z.ltb_spec p2 p1), (Z.ltb_spec p1 p2), (Z.eqb_spec p1 p2); simpl; try lia; try done.
Qed.

(** A Master's reaction to a Master's advertisement. *)
Lemma master_on_advert r prio peer our itv :
  state r = Master -> prio <> 0 ->
  on_advertisement prio peer our itv r =
    if outranks prio peer (priority r) our
    then let r' := with_master_interval (Z.max itv 1) (with_state Backup r) in
         (r', Demoted (master_down_interval_centis r'))
    else (r, Ignore).
Proof.
  intros Hs H0. unfold on_advertisement, outranks. rewrite Hs.
  destruct (Z.eqb_spec prio 0); [done|]. done.
Qed.
