(* ===== verification/VrrpLoop.v ===== *)
(** * VRRP: the control loop ([run] and [run_loop] of [src/src/vrrp.rs])

    Time is in nanoseconds.  What the loop reads from outside (the clock, the
    stop flag, backend health, the socket) is the [Turn] it is given; what it
    does is the list of [Act]s it returns.  [turn] is one pass of the loop,
    [turns] the loop over a sequence of passes, [run] the whole call. *)

From S2P Require Import Prelude Str Net Vrrp.

Record Params := {
  p_vrid : Z;
  p_priority : Z;
  p_preempt : bool;
  p_advert_interval_secs : Z;
  p_iface : str;
  p_vip : Ipv4Addr }.

Inductive Recv :=
| Received (datagram : list Z)   (* what the kernel copies into [buf] *)
| TimedOut                       (* WouldBlock or TimedOut *)
| RecvError.                     (* any other error *)

Record Turn := {
  stop : bool;                   (* [handle.stop] *)
  healthy : bool;                (* [healthy()] at the top of the loop *)
  now_resign : Z;                (* [Instant::now()] after a resign *)
  now_wake : Z;                  (* [now] of the wake computation *)
  timeout_set : bool;            (* [set_read_timeout] succeeded *)
  recv : Recv;
  now_recv : Z;                  (* [Instant::now()] after [recv_from] *)
  healthy_down : bool }.         (* [healthy()] when master-down runs out *)

Inductive Act :=
| Send (pkt : list Z)
| Claim
| Release
| SetState (s : State)
| Wait (ns : Z).

Record LoopState := { vr : VirtualRouter; next_advert : Z; master_down_deadline : Z }.

Inductive Outcome :=
| Running (st : LoopState)
| Stopped                        (* [Ok(())] *)
| Failed                         (* [Err(_)] *)
| Panicked.

Definition MILLI : Z := 1000000.

(** [interval_centis], and the closures [centis] and [send]. *)
Definition interval_centis (p : Params) : Z :=
  advert_interval_centis
    (new (p_vrid p) (p_priority p) (p_preempt p) (p_advert_interval_secs p)).

Definition centis (c : Z) : Z := c * 10 * MILLI.

Definition send (p : Params) (iface_ip : Ipv4Addr) (prio : Z) : Act :=
  Send (encode_advertisement (p_vrid p) prio (interval_centis p) [p_vip p] iface_ip).

(** [wake.saturating_duration_since(now).clamp(10 ms, 500 ms)]. *)
Definition read_timeout (wake now : Z) : Z :=
  Z.min (Z.max (Z.max (wake - now) 0) (10 * MILLI)) (500 * MILLI).

(** The [recv_from] match, after a datagram: [None] is a panic. *)
Definition on_datagram (p : Params) (iface_ip : Ipv4Addr) (st : LoopState)
    (datagram : list Z) (now : Z) : option (list Act * LoopState) :=
  a ← parse_advertisement (take 512 datagram) (p_vrid p);
  match a with
  | None => Some ([], st)
  | Some a =>
      if bool_decide (adv_src a = iface_ip) then Some ([], st) else
      let '(vr', r) := on_advertisement (adv_priority a) (adv_src a) iface_ip
                         (adv_interval_centis a) (vr st) in
      Some match r with
      | Ignore => ([], {| vr := vr'; next_advert := next_advert st;
                          master_down_deadline := master_down_deadline st |})
      | ResetTimer c => ([], {| vr := vr'; next_advert := next_advert st;
                                master_down_deadline := now + centis c |})
      | AdvertiseNow => ([], {| vr := vr'; next_advert := now;
                                master_down_deadline := master_down_deadline st |})
      | Demoted c => ([Release], {| vr := vr'; next_advert := next_advert st;
                                    master_down_deadline := now + centis c |})
      end
  end.

(** The [recv_from] match, after a timeout. *)
Definition on_timeout (p : Params) (iface_ip : Ipv4Addr) (st : LoopState)
    (now : Z) (healthy : bool) : list Act * LoopState :=
  match state (vr st) with
  | Master =>
      if next_advert st <=? now then
        ([send p iface_ip (p_priority p)],
         {| vr := vr st;
            next_advert := now + centis (interval_centis p);
            master_down_deadline := master_down_deadline st |})
      else ([], st)
  | Backup =>
      if master_down_deadline st <=? now then
        let '(vr', taken) := on_master_down_timeout healthy (vr st) in
        if taken then
          ([Claim], {| vr := vr'; next_advert := now;
                       master_down_deadline := master_down_deadline st |})
        else
          ([], {| vr := vr'; next_advert := next_advert st;
                  master_down_deadline := now + centis (master_down_interval_centis vr') |})
      else ([], st)
  | Initialize => ([], st)
  end.

(** One pass of the loop. *)
Definition turn (p : Params) (iface_ip : Ipv4Addr) (st : LoopState) (t : Turn)
    : list Act * Outcome :=
  if stop t then
    (if bool_decide (state (vr st) = Master) then [send p iface_ip 0; Release] else [], Stopped)
  else
  let '(vr1, resign) := on_health (healthy t) (vr st) in
  let acts1 := if resign then [send p iface_ip 0; Release] else [] in
  let st1 := {| vr := vr1; next_advert := next_advert st;
                master_down_deadline :=
                  if resign then now_resign t + centis (master_down_interval_centis vr1)
                  else master_down_deadline st |} in
  let wake := if bool_decide (state vr1 = Master) then next_advert st1
              else master_down_deadline st1 in
  let acts2 := acts1 ++ [SetState (state vr1); Wait (read_timeout wake (now_wake t))] in
  if negb (timeout_set t) then (acts1 ++ [SetState (state vr1)], Failed) else
  match recv t with
  | Received datagram =>
      match on_datagram p iface_ip st1 datagram (now_recv t) with
      | None => (acts2, Panicked)
      | Some (acts3, st2) => (acts2 ++ acts3, Running st2)
      end
  | TimedOut =>
      let '(acts3, st2) := on_timeout p iface_ip st1 (now_recv t) (healthy_down t) in
      (acts2 ++ acts3, Running st2)
  | RecvError => (acts2, Failed)
  end.

Fixpoint turns (p : Params) (iface_ip : Ipv4Addr) (st : LoopState) (ts : list Turn)
    : list Act * Outcome :=
  match ts with
  | [] => ([], Running st)
  | t :: ts =>
      match turn p iface_ip st t with
      | (acts, Running st') =>
          let '(acts', o) := turns p iface_ip st' ts in (acts ++ acts', o)
      | r => r
      end
  end.

(** What [run_loop] reads before its loop. *)
Record Setup := {
  interface_ipv4 : option Ipv4Addr;  (* [interface_ipv4(iface)], [None] its error *)
  sockets_ready : bool;              (* the socket, its options, the group join *)
  healthy_at_start : bool;
  now_next : Z;
  now_down : Z }.

Definition loop_start (p : Params) (s : Setup) : list Act * LoopState :=
  let '(vr0, st) := start (healthy_at_start s)
                      (new (p_vrid p) (p_priority p) (p_preempt p) (p_advert_interval_secs p)) in
  (SetState st :: (if bool_decide (st = Master) then [Claim] else []),
   {| vr := vr0; next_advert := now_next s;
      master_down_deadline := now_down s + centis (master_down_interval_centis vr0) |}).

Definition run_loop (p : Params) (s : Setup) (ts : list Turn) : list Act * Outcome :=
  match interface_ipv4 s with
  | None => ([], Failed)
  | Some iface_ip =>
      if negb (sockets_ready s) then ([], Failed) else
      let '(acts, st) := loop_start p s in
      let '(acts', o) := turns p iface_ip st ts in
      (acts ++ acts', o)
  end.

(** [run]: the state byte is reset when [run_loop] returns. *)
Definition run (p : Params) (s : Setup) (ts : list Turn) : list Act * Outcome :=
  match run_loop p s ts with
  | (acts, Stopped) => (acts ++ [SetState Initialize], Stopped)
  | (acts, Failed) => (acts ++ [SetState Initialize], Failed)
  | r => r
  end.

(** The [Handle] shared with the registry: the flag and the state byte. *)
Record Handle := { h_stop : bool; h_state : Z }.

Definition Handle_default : Handle := {| h_stop := false; h_state := 0 |}.
Definition handle_stop (h : Handle) : Handle := {| h_stop := true; h_state := h_state h |}.
Definition handle_set (s : State) (h : Handle) : Handle := {| h_stop := h_stop h; h_state := state_byte s |}.

(** The handle after [acts]. *)
Definition shown (acts : list Act) (h : Handle) : Handle :=
  foldl (fun h a => match a with SetState s => handle_set s h | _ => h end) h acts.

(** Whether the VIP is on the interface after [acts]. *)
Fixpoint held (h : bool) (acts : list Act) : bool :=
  match acts with
  | [] => h
  | Claim :: acts => held true acts
  | Release :: acts => held false acts
  | _ :: acts => held h acts
  end.

(** The state last shown. *)
Definition last_state (acts : list Act) : option State :=
  foldl (fun s a => match a with SetState s => Some s | _ => s end) None acts.

(** The controller is called alternately: never a claim of a VIP that is held,
    never a release of one that is not. *)
Fixpoint alternating (h : bool) (acts : list Act) : bool :=
  match acts with
  | [] => true
  | Claim :: acts => negb h && alternating true acts
  | Release :: acts => h && alternating false acts
  | _ :: acts => alternating h acts
  end.


(** A datagram the kernel delivers from a peer that is, for this router, no
    reason to wait: not an advertisement of its virtual router, its own, or a
    lower-priority Master's. *)
Definition outranked (p : Params) (iface_ip : Ipv4Addr) (datagram : list Z) : bool :=
  match parse_advertisement (take 512 datagram) (p_vrid p) with
  | Some (Some a) => bool_decide (adv_src a = iface_ip)
                     || (0 <? adv_priority a) && (adv_priority a <? p_priority p)
  | Some None => true
  | None => false
  end.

(** A turn in which the loop runs on and nothing holds the takeover back, the
    deadline not reached. *)
Definition waiting_turn (p : Params) (iface_ip : Ipv4Addr) (deadline : Z) (t : Turn) : bool :=
  negb (stop t) && timeout_set t &&
  match recv t with
  | Received d => outranked p iface_ip d
  | TimedOut => now_recv t <? deadline
  | RecvError => false
  end.

(** A turn in which a healthy node receives something that is not an
    advertisement of its virtual router (another router's, for example). *)
Definition busy_turn (p : Params) (t : Turn) : bool :=
  negb (stop t) && healthy t && timeout_set t &&
  match recv t with
  | Received d =>
      match parse_advertisement (take 512 d) (p_vrid p) with Some None => true | _ => false end
  | _ => false
  end.

(** A turn in which nothing arrives before the read times out at [now]. *)
Definition quiet (now : Z) (h : bool) : Turn :=
  {| stop := false; healthy := h; now_resign := now; now_wake := now; timeout_set := true;
     recv := TimedOut; now_recv := now; healthy_down := h |}.

(** A turn that delivers a datagram at [now], every backend healthy. *)
Definition delivers (d : list Z) (now : Z) : Turn :=
  {| stop := false; healthy := true; now_resign := now; now_wake := now; timeout_set := true;
     recv := Received d; now_recv := now; healthy_down := true |}.

Definition is_send (a : Act) : bool := match a with Send _ => true | _ => false end.

Definition is_master (st : LoopState) : bool := bool_decide (state (vr st) = Master).

(** The loop state agrees with the parameters the router was made from. *)
Definition loop_inv (p : Params) (st : LoopState) : Prop :=
  router_inv (p_vrid p) (p_priority p) (p_preempt p) (p_advert_interval_secs p) (vr st).

Definition params_ok (p : Params) : Prop :=
  is_u8 (p_vrid p) /\ is_u8 (p_priority p) /\ ipv4_ok (p_vip p)
  /\ secs_ok (p_advert_interval_secs p).

#[export] Instance params_ok_dec p : Decision (params_ok p).
Proof. unfold params_ok. apply _. Defined.

(** ** Action sequences *)

Lemma held_app h a b : held h (a ++ b) = held (held h a) b.
Proof. revert h; induction a as [|[] a IH]; intros; simpl; auto. Qed.

Lemma alternating_app h a b :
  alternating h (a ++ b) = alternating h a && alternating (held h a) b.
Proof. revert h; induction a as [|[] a IH]; intros; simpl; rewrite ?IH, ?andb_assoc; auto. Qed.

Lemma last_state_app a b :
  last_state (a ++ b) = match last_state b with Some s => Some s | None => last_state a end.
Proof.
  unfold last_state. rewrite foldl_app.
  generalize (foldl (fun s a => match a with SetState s => Some s | _ => s end) None a).
  clear a. induction b as [|x b IH] using rev_ind; intros o; [done|]. rewrite !foldl_app, IH. cbn [foldl].
  by destruct x.
Qed.

Lemma run_total p s ts : (run_loop p s ts).2 <> Panicked -> (run p s ts).2 = (run_loop p s ts).2.
Proof. unfold run. by destruct (run_loop p s ts) as [? []]. Qed.

(** What [GET] shows of a thread that has ended, whatever ended it; the flag is the
    registry's alone. *)
Lemma run_shown p s ts h :
  let '(acts, o) := run p s ts in
  h_stop (shown acts h) = h_stop h
  /\ match o with
     | Stopped | Failed => handle_state (h_state (shown acts h)) = "stopped"%string
     | _ => True
     end.
Proof.
  assert (forall acts h, h_stop (shown acts h) = h_stop h) as Hk.
  { intros acts. unfold shown. induction acts as [|a acts IH]; intros h'; cbn [foldl]; [done|].
    rewrite IH. by destruct a. }
  unfold run. destruct (run_loop p s ts) as [acts [| | |]]; (split; [apply Hk|]); try done;
    unfold shown; by rewrite foldl_app.
Qed.

(** ** One turn *)

(** The router before the socket is read. *)
Lemma on_health_master h r :
  state (on_health h r).1 = Master <-> state r = Master /\ h = true.
Proof.
  unfold on_health. case_bool_decide as Hs; destruct h; simpl; split; intuition congruence.
Qed.

Lemma on_health_resign h r :
  (on_health h r).2 = bool_decide (state r = Master) && negb h.
Proof. unfold on_health. by destruct (_ && _). Qed.

Lemma on_datagram_held p ip st d now acts st' :
  on_datagram p ip st d now = Some (acts, st') ->
  alternating (is_master st) acts = true /\ held (is_master st) acts = is_master st'
  /\ (is_master st' = true -> is_master st = true).
Proof.
  unfold on_datagram. destruct (parse_advertisement _ _) as [[a|]|]; simpl; [|intros; by simplify_eq|done].
  case_bool_decide; [intros; by simplify_eq|].
  unfold on_advertisement, is_master. destruct (state (vr st)) eqn:Hs;
    repeat case_match; intros; simplify_eq; simpl; rewrite ?Hs; auto.
Qed.

Lemma on_timeout_held p ip st now h :
  let '(acts, st') := on_timeout p ip st now h in
  alternating (is_master st) acts = true /\ held (is_master st) acts = is_master st'
  /\ (is_master st' = true -> is_master st = true \/ h = true).
Proof.
  unfold on_timeout, on_master_down_timeout, is_master. destruct (state (vr st)) eqn:Hs;
    repeat (case_match; simplify_eq); simpl; rewrite ?Hs; auto.
Qed.

Lemma on_datagram_total p ip st d now : is_Some (on_datagram p ip st d now).
Proof.
  unfold on_datagram.
  destruct (parse_advertisement_total (take 512 d) (p_vrid p)) as [r ->]. simpl.
  repeat case_match; eauto.
Qed.

(** The controller calls of a turn, from the state before it to the one after. *)
Lemma turn_held p ip st t :
  let '(acts, o) := turn p ip st t in
  alternating (is_master st) acts = true /\
  match o with
  | Running st' => held (is_master st) acts = is_master st'
                   /\ (is_master st' = true -> healthy t = true \/ healthy_down t = true)
  | Stopped => held (is_master st) acts = false
  | Failed => held (is_master st) acts = is_master st && healthy t
  | Panicked => False
  end.
Proof.
  unfold turn. destruct (stop t).
  { unfold is_master. case_bool_decide; auto. }
  pose proof (on_health_master (healthy t) (vr st)) as Hm.
  pose proof (on_health_resign (healthy t) (vr st)) as Hr.
  destruct (on_health (healthy t) (vr st)) as [vr1 resign]. simpl in Hm, Hr. cbn zeta.
  set (st1 := {| vr := vr1 |}).
  assert (is_master st1 = is_master st && healthy t) as Hst1.
  { unfold is_master. simpl. repeat case_bool_decide; destruct (healthy t); intuition. }
  set (acts1 := if resign then _ else _).
  assert (alternating (is_master st) acts1 = true /\ held (is_master st) acts1 = is_master st1) as [Ha Hh].
  { rewrite Hst1. unfold acts1. rewrite Hr. unfold is_master.
    case_bool_decide; destruct (healthy t); done. }
  destruct (timeout_set t); simpl; cycle 1.
  { rewrite alternating_app, held_app, Ha, Hh. simpl. by rewrite Hst1. }
  destruct (recv t).
  - destruct (on_datagram_total p ip st1 datagram (now_recv t)) as [[acts3 st2] Hd]. rewrite Hd.
    apply on_datagram_held in Hd as (H1 & H2 & H3).
    rewrite !alternating_app, !held_app, Ha, Hh. simpl. rewrite H1, H2. repeat split; auto.
    intros H. specialize (H3 H). rewrite Hst1 in H3. bool_to_prop. auto.
  - pose proof (on_timeout_held p ip st1 (now_recv t) (healthy_down t)) as Hd.
    destruct (on_timeout _ _ _ _ _) as [acts3 st2]. destruct Hd as (H1 & H2 & H3).
    rewrite !alternating_app, !held_app, Ha, Hh. simpl. rewrite H1, H2. repeat split; auto.
    intros H. destruct (H3 H) as [H4|]; auto. rewrite Hst1 in H4. bool_to_prop. auto.
  - rewrite !alternating_app, !held_app, Ha, Hh. simpl. by rewrite Hst1.
Qed.

(** A turn that fails has shown the state first, and the VIP is as it says. *)
Lemma turn_fails p ip st t acts : turn p ip st t = (acts, Failed) ->
  exists s, last_state acts = Some s /\ held (is_master st) acts = bool_decide (s = Master).
Proof.
  intros E. pose proof (turn_held p ip st t) as H. rewrite E in H. destruct H as [_ ->]. revert E. unfold turn.
  destruct (stop t); [done|]. pose proof (on_health_master (healthy t) (vr st)) as Hm.
  destruct (on_health (healthy t) (vr st)) as [vr1 resign]. cbn [fst] in Hm. cbn zeta.
  set (acts1 := if resign then _ else _).
  assert (is_master st && healthy t = bool_decide (state vr1 = Master)) as Hs.
  { unfold is_master. repeat case_bool_decide; destruct (healthy t); intuition. }
  intros E. exists (state vr1). split; [|done]. revert E.
  destruct (timeout_set t); cbn [negb]; [|intros [= <-]; by rewrite last_state_app].
  destruct (recv t); [by destruct (on_datagram _ _ _ _ _) as [[? ?]|]|by destruct (on_timeout _ _ _ _ _)|].
  intros [= <-]. by rewrite last_state_app.
Qed.

(** ** Sequences of turns *)

Lemma turns_app p ip st ts ts' :
  turns p ip st (ts ++ ts') =
    match turns p ip st ts with
    | (acts, Running st') => let '(acts', o) := turns p ip st' ts' in (acts ++ acts', o)
    | r => r
    end.
Proof.
  revert st; induction ts as [|t ts IH]; intros st; simpl.
  - by destruct (turns p ip st ts').
  - destruct (turn p ip st t) as [acts [st'| | |]]; try done. rewrite IH.
    destruct (turns p ip st' ts) as [acts1 [st1| | |]]; try done.
    destruct (turns p ip st1 ts'). by rewrite app_assoc.
Qed.

Lemma turns_held p ip st ts :
  let '(acts, o) := turns p ip st ts in
  alternating (is_master st) acts = true /\
  match o with
  | Running st' => held (is_master st) acts = is_master st'
  | Stopped => held (is_master st) acts = false
  | Failed => exists s, last_state acts = Some s /\ held (is_master st) acts = bool_decide (s = Master)
  | Panicked => False
  end.
Proof.
  revert st; induction ts as [|t ts IH]; intros st; simpl; [done|].
  pose proof (turn_held p ip st t) as Ht. pose proof (turn_fails p ip st t) as Hf.
  destruct (turn p ip st t) as [acts [st'| | |]].
  - specialize (IH st'). destruct (turns p ip st' ts) as [acts' o].
    destruct Ht as (Ha & Hh & _), IH as (Ha' & Ho).
    rewrite alternating_app, Ha, Hh, Ha'. split; [done|].
    destruct o; rewrite ?held_app, ?Hh; auto.
    destruct Ho as (s & Hs & ?). exists s. by rewrite last_state_app, Hs.
  - destruct Ht as [? ?]; auto.
  - split; [apply Ht|]. by eapply Hf.
  - destruct Ht as [? ?]; auto.
Qed.

Lemma loop_start_held p s :
  let '(acts, st) := loop_start p s in
  alternating false acts = true /\ held false acts = is_master st.
Proof. unfold loop_start, start, is_master. by destruct (_ && _). Qed.

Lemma run_loop_held p s ts :
  let '(acts, o) := run_loop p s ts in
  alternating false acts = true /\
  match o with
  | Running st => held false acts = is_master st
  | Stopped => held false acts = false
  | Failed => held false acts = bool_decide (last_state acts = Some Master)
  | Panicked => False
  end.
Proof.
  unfold run_loop. destruct (interface_ipv4 s) as [ip|]; [|done].
  destruct (sockets_ready s); [|done]. cbn [negb].
  pose proof (loop_start_held p s) as Hs. destruct (loop_start p s) as [acts st].
  pose proof (turns_held p ip st ts) as Ht. destruct (turns p ip st ts) as [acts' o].
  destruct Hs as [Ha Hh], Ht as [Ha' Ho]. rewrite alternating_app, Ha, Hh, Ha'.
  split; [done|]. destruct o; rewrite ?held_app, ?Hh; auto.
  destruct Ho as (x & Hx & ->). rewrite last_state_app, Hx. apply bool_decide_ext. naive_solver.
Qed.

(** C7: VIP ownership follows the state machine: over any run, whatever arrives,
    the controller is called alternately (claim, release, claim, ...); while the
    loop runs the VIP is claimed exactly when the state is Master; once it has been
    stopped the VIP is not claimed; and a run that a socket error has ended leaves
    it as the last state shown says, claimed exactly if that was Master (what is
    shown is then reset to stopped).  The loop never panics. *)
Theorem run_vip_discipline p s ts :
  let '(acts, o) := run p s ts in
  alternating false acts = true /\
  match o with
  | Running st => held false acts = bool_decide (state (vr st) = Master)
  | Stopped => held false acts = false
  | Failed => exists acts', acts = acts' ++ [SetState Initialize]
                /\ held false acts = bool_decide (last_state acts' = Some Master)
  | Panicked => False
  end.
Proof.
  unfold run. pose proof (run_loop_held p s ts) as H.
  destruct (run_loop p s ts) as [acts [st| | |]]; try done;
    rewrite alternating_app, ?held_app; destruct H as [-> H]; auto.
  split; [done|]. exists acts. by rewrite H.
Qed.

(** Splitting a run at its last turn. *)
Lemma run_loop_snoc p s ts t :
  run_loop p s (ts ++ [t]) =
    match interface_ipv4 s, run_loop p s ts with
    | Some ip, (acts, Running st) =>
        let '(acts', o) := turn p ip st t in (acts ++ acts', o)
    | _, r => r
    end.
Proof.
  unfold run_loop. destruct (interface_ipv4 s) as [ip|]; [|done].
  destruct (sockets_ready s); [|done]. cbn [negb]. destruct (loop_start p s) as [acts st].
  rewrite turns_app. destruct (turns p ip st ts) as [acts1 [st1| | |]]; try done. simpl.
  destruct (turn p ip st1 t) as [acts2 [st2| | |]]; by rewrite ?app_nil_r, ?app_assoc.
Qed.

(** ownership follows health: after a turn in which the node saw no
    healthy backend (at the top of the loop and when master-down ran out) the
    VIP is not claimed, whatever the turn received. *)
Theorem no_vip_without_backend p s ts t :
  healthy t = false -> healthy_down t = false ->
  let '(acts, o) := run_loop p s (ts ++ [t]) in
  match o with Running _ | Stopped => held false acts = false | _ => True end.
Proof.
  intros Hh Hd. pose proof (run_loop_held p s (ts ++ [t])) as H.
  rewrite run_loop_snoc in *. destruct (interface_ipv4 s) as [ip|] eqn:Hip; cycle 1.
  { unfold run_loop. by rewrite Hip. }
  destruct (run_loop p s ts) as [acts [st| | |]]; try done; try apply H.
  pose proof (turn_held p ip st t) as Ht. destruct (turn p ip st t) as [acts' [st'| | |]]; try done.
  - destruct H as [_ ->], Ht as (_ & _ & Hm). rewrite Hh, Hd in Hm.
    destruct (is_master st'); [|done]. destruct Hm; done.
  - apply H.
Qed.

Lemma no_vip_without_backend_witness :
  let p := {| p_vrid := 51; p_priority := 100; p_preempt := true; p_advert_interval_secs := 1;
              p_iface := lit "eth0"; p_vip := Ipv4 10 0 0 9 |} in
  let s := {| interface_ipv4 := Some (Ipv4 10 0 0 1); sockets_ready := true;
              healthy_at_start := true; now_next := 0; now_down := 0 |} in
  (let '(acts, o) := run_loop p s ([quiet 4000000000 true] ++ [quiet 5000000000 false]) in
   match o with Running _ | Stopped => held false acts = false | _ => True end)
  /\ held false (run_loop p s [quiet 4000000000 true]).1 = true.
Proof. intros p s. split; [apply no_vip_without_backend; done | vm_compute; reflexivity]. Defined.

(** a socket error is not a resignation: when reading (or arming the read
    timeout) fails while Master, [run] returns with the state byte reset to
    "stopped", the VIP still claimed, and no priority-0 advertisement sent. *)
Theorem recv_error_keeps_vip p s ts t acts st :
  run p s ts = (acts, Running st) -> state (vr st) = Master ->
  stop t = false -> healthy t = true -> recv t = RecvError \/ timeout_set t = false ->
  exists acts', run p s (ts ++ [t]) = (acts ++ acts' ++ [SetState Initialize], Failed)
    /\ existsb is_send acts' = false
    /\ held false (acts ++ acts' ++ [SetState Initialize]) = true.
Proof.
  intros Hr Hm Hs Hh He.
  assert (run_loop p s ts = (acts, Running st)) as Hl.
  { unfold run in Hr. clear -Hr. destruct (run_loop p s ts) as [? []]; congruence. }
  pose proof (run_loop_held p s ts) as Hd. rewrite Hl in Hd. destruct Hd as [_ Hd].
  unfold is_master in Hd. rewrite Hm in Hd. 
  assert (exists ip, interface_ipv4 s = Some ip) as [ip Hip].
  { unfold run_loop in Hl. destruct (interface_ipv4 s); [by eexists | done]. }
  unfold run. rewrite run_loop_snoc, Hl, Hip. unfold turn, on_health. rewrite Hs, Hh, Hm. simpl.
  rewrite Hm. destruct (timeout_set t) eqn:Hts; simpl.
  - destruct He as [->|]; [|done].
    eexists. rewrite <- app_assoc. split; [reflexivity|].
    split; [done|]. by rewrite held_app, Hd.
  - eexists. rewrite <- app_assoc. split; [reflexivity|].
    split; [done|]. by rewrite held_app, Hd.
Qed.

Lemma recv_error_keeps_vip_witness :
  let p := {| p_vrid := 51; p_priority := 100; p_preempt := true; p_advert_interval_secs := 1;
              p_iface := lit "eth0"; p_vip := Ipv4 10 0 0 9 |} in
  let s := {| interface_ipv4 := Some (Ipv4 10 0 0 1); sockets_ready := true;
              healthy_at_start := true; now_next := 0; now_down := 0 |} in
  let t := {| stop := false; healthy := true; now_resign := 0; now_wake := 0; timeout_set := true;
              recv := RecvError; now_recv := 0; healthy_down := true |} in
  exists acts acts', run p s ([quiet 4000000000 true] ++ [t])
      = (acts ++ acts' ++ [SetState Initialize], Failed)
    /\ existsb is_send acts' = false
    /\ held false (acts ++ acts' ++ [SetState Initialize]) = true.
Proof.
  intros p s t. eexists. eapply (recv_error_keeps_vip p s [quiet 4000000000 true] t).
  - vm_compute. reflexivity.
  - reflexivity.
  - reflexivity.
  - reflexivity.
  - left. reflexivity.
Defined.

(** ** Elections *)

Lemma interval_centis_eq p :
  secs_ok (p_advert_interval_secs p) ->
  interval_centis p = Z.max (p_advert_interval_secs p) 1 * 100.
Proof. intros. unfold interval_centis. by apply new_interval. Qed.

(** A peer's advertisement as [on_datagram] sees it. *)
Lemma on_datagram_advert p ip st q peer hdr prio now :
  ip_header hdr peer -> (length hdr <= 60)%nat -> params_ok q -> is_u8 prio -> ipv4_ok peer ->
  p_vrid q = p_vrid p -> peer <> ip ->
  on_datagram p ip st
    (hdr ++ encode_advertisement (p_vrid q) prio (interval_centis q) [p_vip q] peer) now =
  (let '(vr', r) := on_advertisement prio peer ip (interval_centis q) (vr st) in
   Some match r with
   | Ignore => ([], {| vr := vr'; next_advert := next_advert st;
                       master_down_deadline := master_down_deadline st |})
   | ResetTimer c => ([], {| vr := vr'; next_advert := next_advert st;
                             master_down_deadline := now + centis c |})
   | AdvertiseNow => ([], {| vr := vr'; next_advert := now;
                             master_down_deadline := master_down_deadline st |})
   | Demoted c => ([Release], {| vr := vr'; next_advert := next_advert st;
                                 master_down_deadline := now + centis c |})
   end).
Proof.
  intros Hh Hl (Hv & _ & Hvip & Hs) Hp Hpeer Heq Hne. unfold on_datagram.
  rewrite take_ge by (rewrite length_app, encode_payload, length_payload; simpl; lia).
  rewrite <- Heq, parse_encode_advertisement by (simpl; auto; lia). simpl.
  rewrite bool_decide_false by done.
  rewrite interval_centis_eq by done. unfold secs_ok in Hs.
  rewrite Z.mod_small by lia. done.
Qed.

(** No split brain: when two Masters of one virtual router hear each
    other's advertisements, exactly one of them, the lower in (priority,
    address), releases the VIP and becomes Backup; the other carries on. *)
Theorem two_masters_resolve pA pB a b hdrA hdrB stA stB nowA nowB :
  params_ok pA -> params_ok pB -> loop_inv pA stA -> loop_inv pB stB ->
  is_master stA = true -> is_master stB = true ->
  p_vrid pA = p_vrid pB -> p_priority pA <> 0 -> p_priority pB <> 0 ->
  a <> b -> ipv4_ok a -> ipv4_ok b ->
  ip_header hdrA a -> (length hdrA <= 60)%nat -> ip_header hdrB b -> (length hdrB <= 60)%nat ->
  exists actsA stA' actsB stB',
    (let advert q ip := encode_advertisement (p_vrid q) (p_priority q) (interval_centis q)
                          [p_vip q] ip in
     on_datagram pA a stA (hdrB ++ advert pB b) nowA = Some (actsA, stA') /\
     on_datagram pB b stB (hdrA ++ advert pA a) nowB = Some (actsB, stB')) /\
    (if outranks (p_priority pA) a (p_priority pB) b
     then actsA = [] /\ is_master stA' = true /\ actsB = [Release] /\ state (vr stB') = Backup
     else actsA = [Release] /\ state (vr stA') = Backup /\ actsB = [] /\ is_master stB' = true).
Proof.
  intros HA HB IA IB MA MB Hv HpA HpB Hne Ha Hb HhA HlA HhB HlB.
  cbn beta zeta. rewrite (on_datagram_advert pA a stA pB b), (on_datagram_advert pB b stB pA a); auto;
    try apply HA; try apply HB.
  unfold is_master in MA, MB. apply bool_decide_eq_true in MA, MB.
  rewrite !master_on_advert by done.
  assert (priority (vr stA) = p_priority pA) as -> by apply IA.
  assert (priority (vr stB) = p_priority pB) as -> by apply IB.
  rewrite (outranks_antisym (p_priority pB) b) by done.
  destruct (outranks (p_priority pA) a (p_priority pB) b); simpl; do 4 eexists;
    (split; [split; reflexivity|]); unfold is_master; simpl;
    rewrite ?bool_decide_true by done; auto.
Qed.

Lemma two_masters_resolve_witness :
  let p n := {| p_vrid := 51; p_priority := n; p_preempt := true; p_advert_interval_secs := 1;
                p_iface := lit "eth0"; p_vip := Ipv4 10 0 0 9 |} in
  let hdr n := [0x45; 0; 0; 0; 0; 0; 0; 0; 255; 112; 0; 0; 10; 0; 0; n; 224; 0; 0; 18] in
  let st n := {| vr := (on_master_down_timeout true (start true (new 51 n true 1)).1).1;
                 next_advert := 0; master_down_deadline := 0 |} in
  exists stA' actsB stB',
    on_datagram (p 100) (Ipv4 10 0 0 1) (st 100)
      (hdr 2 ++ encode_advertisement 51 200 (interval_centis (p 200)) [Ipv4 10 0 0 9] (Ipv4 10 0 0 2)) 7
      = Some ([Release], stA')
    /\ on_datagram (p 200) (Ipv4 10 0 0 2) (st 200)
      (hdr 1 ++ encode_advertisement 51 100 (interval_centis (p 100)) [Ipv4 10 0 0 9] (Ipv4 10 0 0 1)) 8
      = Some (actsB, stB').
Proof.
  intros p hdr st.
  destruct (two_masters_resolve (p 100) (p 200) (Ipv4 10 0 0 1) (Ipv4 10 0 0 2)
              (hdr 1) (hdr 2) (st 100) (st 200) 7 8) as (? & ? & ? & ? & [HA HB] & H);
    try decided; try (apply timeout_inv, start_inv; decided).
  - vm_compute in H. destruct H as (-> & _). eauto.
Defined.

(** What a preempting Backup does with an outranked datagram: nothing. *)
Lemma outranked_ignored p ip st d now :
  state (vr st) = Backup -> preempt (vr st) = true -> priority (vr st) = p_priority p ->
  outranked p ip d = true ->
  on_datagram p ip st d now = Some ([], st).
Proof.
  intros Hs Hp Hpr. unfold outranked, on_datagram.
  destruct (parse_advertisement _ _) as [[a|]|]; [|done..].
  intros Ho. cbn [mbind option_bind]. case_bool_decide; [done|]. simpl in Ho. bool_to_prop.
  unfold on_advertisement. rewrite Hs, Hp, Hpr.
  rewrite (proj2 (Z.eqb_neq _ _)), (proj2 (Z.leb_gt _ _)) by lia. simpl. by destruct st.
Qed.

Lemma waiting_turn_step p ip st t :
  state (vr st) = Backup -> preempt (vr st) = true -> priority (vr st) = p_priority p ->
  waiting_turn p ip (master_down_deadline st) t = true ->
  exists acts, turn p ip st t = (acts, Running st).
Proof.
  intros Hs Hp Hpr Hw. unfold waiting_turn in Hw. bool_to_prop.
  unfold turn, on_health. rewrite Hs. replace (stop t) with false by done.
  rewrite bool_decide_false by done. simpl. replace (timeout_set t) with true by done. simpl.
  destruct (recv t) eqn:Hr; [| |done].
  - rewrite outranked_ignored by done. destruct st; eauto.
  - unfold on_timeout. cbn [vr master_down_deadline]. rewrite Hs. bool_to_prop.
    rewrite (proj2 (Z.leb_gt _ _)) by lia. destruct st; eauto.
Qed.

Lemma waiting_turns p ip st ts :
  state (vr st) = Backup -> preempt (vr st) = true -> priority (vr st) = p_priority p ->
  forallb (waiting_turn p ip (master_down_deadline st)) ts = true ->
  exists acts, turns p ip st ts = (acts, Running st).
Proof.
  intros Hs Hp Hpr. induction ts as [|t ts IH]; simpl; intros Hw; [by eexists|].
  bool_to_prop. destruct (waiting_turn_step p ip st t) as [a1 ->]; auto.
  destruct IH as [a2 ->]; auto. by eexists.
Qed.

(** Preemption: a preempting Backup that hears only lower-priority
    Masters (and other routers' traffic) does not restart its master-down
    timer, however many advertisements arrive, and takes over, claiming the
    VIP and due to advertise at once, on the first timeout past the deadline
    at which it has a healthy backend. *)
Theorem preempting_backup_takes_over p ip st ts t :
  state (vr st) = Backup -> preempt (vr st) = true -> priority (vr st) = p_priority p ->
  forallb (waiting_turn p ip (master_down_deadline st)) ts = true ->
  stop t = false -> timeout_set t = true -> recv t = TimedOut -> healthy_down t = true ->
  master_down_deadline st <= now_recv t ->
  exists acts st', turns p ip st (ts ++ [t]) = (acts ++ [Claim], Running st')
    /\ state (vr st') = Master /\ next_advert st' = now_recv t.
Proof.
  intros Hs Hp Hpr Hw H1 H2 H3 H4 H5.
  destruct (waiting_turns p ip st ts Hs Hp Hpr Hw) as [acts Ht].
  rewrite turns_app, Ht. simpl. unfold turn, on_health. rewrite Hs, H1.
  rewrite bool_decide_false by done. simpl. rewrite H2, H3. simpl.
  unfold on_timeout. cbn [vr master_down_deadline]. rewrite Hs.
  rewrite (proj2 (Z.leb_le _ _)) by done. unfold on_master_down_timeout. rewrite Hs, H4. simpl.
  eexists (acts ++ [_; _]), _. rewrite <- app_assoc. simpl. eauto.
Qed.

Lemma preempting_backup_takes_over_witness :
  let p := {| p_vrid := 51; p_priority := 200; p_preempt := true; p_advert_interval_secs := 1;
              p_iface := lit "eth0"; p_vip := Ipv4 10 0 0 9 |} in
  let ip := Ipv4 10 0 0 1 in
  let st := {| vr := (start true (new 51 200 true 1)).1; next_advert := 0;
               master_down_deadline := 3210000000 |} in
  let lower := [0x45; 0; 0; 0; 0; 0; 0; 0; 255; 112; 0; 0; 10; 0; 0; 2; 224; 0; 0; 18]
                 ++ encode_advertisement 51 100 100 [Ipv4 10 0 0 9] (Ipv4 10 0 0 2) in
  let ts := [delivers lower 1000000000; delivers lower 2000000000; delivers lower 3000000000] in
  exists acts st', turns p ip st (ts ++ [quiet 3210000000 true]) = (acts ++ [Claim], Running st')
    /\ state (vr st') = Master /\ next_advert st' = 3210000000.
Proof.
  intros p ip st lower ts. apply (preempting_backup_takes_over p ip st ts (quiet 3210000000 true));
    try reflexivity.
Defined.

Lemma busy_turn_step p ip st t :
  state (vr st) = Master -> busy_turn p t = true ->
  exists acts, turn p ip st t = (acts, Running st) /\ existsb is_send acts = false.
Proof.
  intros Hs Hb. unfold busy_turn in Hb. bool_to_prop.
  unfold turn, on_health. rewrite Hs. replace (stop t) with false by done.
  replace (healthy t) with true by done. simpl. rewrite Hs. replace (timeout_set t) with true by done.
  simpl. destruct (recv t) eqn:Hr; [|done..]. unfold on_datagram.
  destruct (parse_advertisement _ _) as [[]|] eqn:Hparse; [done| |done].
  simpl. eexists. split; [by destruct st | done].
Qed.

(** a busy socket starves the timers: the loop looks at the time only
    when a read times out, so a Master to which each read delivers a datagram
    (another virtual router's advertisement, say) sends no advertisement and
    its state stays as it is, however far past [next_advert] the clock runs. *)
Theorem busy_socket_starves_master p ip st ts :
  state (vr st) = Master -> forallb (busy_turn p) ts = true ->
  exists acts, turns p ip st ts = (acts, Running st) /\ existsb is_send acts = false.
Proof.
  intros Hs. induction ts as [|t ts IH]; simpl; intros Hb; [by eexists|]. bool_to_prop.
  destruct (busy_turn_step p ip st t) as (a1 & -> & Ha1); auto.
  destruct IH as (a2 & -> & Ha2); auto. eexists. split; [done|].
  by rewrite existsb_app, Ha1, Ha2.
Qed.

Lemma busy_socket_starves_master_witness :
  let p := {| p_vrid := 51; p_priority := 200; p_preempt := true; p_advert_interval_secs := 1;
              p_iface := lit "eth0"; p_vip := Ipv4 10 0 0 9 |} in
  let st := {| vr := (on_master_down_timeout true (start true (new 51 200 true 1)).1).1;
               next_advert := 0; master_down_deadline := 0 |} in
  let other := [0x45; 0; 0; 0; 0; 0; 0; 0; 255; 112; 0; 0; 10; 0; 0; 2; 224; 0; 0; 18]
                 ++ encode_advertisement 77 100 100 [Ipv4 10 0 0 8] (Ipv4 10 0 0 2) in
  exists acts, turns p (Ipv4 10 0 0 1) st [delivers other 5000000000; delivers other 9000000000]
      = (acts, Running st) /\ existsb is_send acts = false.
Proof. intros p st other. apply busy_socket_starves_master; reflexivity. Defined.
