(* ===== verification/Cluster.v ===== *)
(** * A cluster of VRRP nodes (composition of [VrrpLoop]'s control loops)

    The nodes of one virtual router over a network that may lose, delay, reorder
    and repeat packets: what is delivered is something a node once sent, behind
    the IP header the kernel makes, or no advertisement of this router at all.
    A step is one turn of one node's loop; nodes interleave in any way. *)

From S2P Require Import Prelude Str Net Vrrp VrrpLoop.

Record Node := { n_params : Params; n_ip : Ipv4Addr }.

(** Each node's loop while it runs, and what each has ever sent. *)
Record Cluster := { loops : list (option LoopState); sent : list (nat * list Z) }.

Definition sends_of (i : nat) (acts : list Act) : list (nat * list Z) :=
  omap (fun a => match a with Send p => Some (i, p) | _ => None end) acts.

(** Node [i] takes the turn [t]. *)
Definition cluster_step (nodes : list Node) (c : Cluster) (l : nat * Turn) : Cluster :=
  let '(i, t) := l in
  match nodes !! i, loops c !! i with
  | Some n, Some (Some st) =>
      let '(acts, o) := turn (n_params n) (n_ip n) st t in
      {| loops := <[i := match o with Running st' => Some st' | _ => None end]> (loops c);
         sent := sent c ++ sends_of i acts |}
  | _, _ => c
  end.

Definition cluster_run (nodes : list Node) (c : Cluster) (ls : list (nat * Turn)) : Cluster :=
  foldl (cluster_step nodes) c ls.

(** Every node started on what it met. *)
Definition cluster_start (nodes : list Node) (setups : list Setup) : Cluster :=
  {| loops := zip_with (fun n s => Some (loop_start (n_params n) s).2) nodes setups; sent := [] |}.

(** What the network may deliver to node [n]. *)
Definition deliverable (nodes : list Node) (c : Cluster) (n : Node) (d : list Z) : Prop :=
  (exists j m pkt hdr, (j, pkt) ∈ sent c /\ nodes !! j = Some m /\ ip_header hdr (n_ip m)
     /\ (length hdr <= 60)%nat /\ d = hdr ++ pkt)
  \/ parse_advertisement (take 512 d) (p_vrid (n_params n)) = Some None.

Definition step_ok (nodes : list Node) (c : Cluster) (l : nat * Turn) : Prop :=
  match nodes !! l.1, recv l.2 with Some n, Received d => deliverable nodes c n d | _, _ => True end.

Fixpoint run_ok (nodes : list Node) (c : Cluster) (ls : list (nat * Turn)) : Prop :=
  match ls with
  | [] => True
  | l :: ls => step_ok nodes c l /\ run_ok nodes (cluster_step nodes c l) ls
  end.

(** The nodes of one virtual router: parameters in range, one VRID, distinct
    addresses, no zero priority. *)
Definition nodes_ok (nodes : list Node) : Prop :=
  Forall (fun n => params_ok (n_params n) /\ ipv4_ok (n_ip n) /\ p_priority (n_params n) <> 0) nodes
  /\ (forall n m, n ∈ nodes -> m ∈ nodes -> p_vrid (n_params n) = p_vrid (n_params m))
  /\ NoDup (n_ip <$> nodes).

(** An advertisement of [n], at its priority or resigning. *)
Definition advert (n : Node) (prio : Z) : list Z :=
  encode_advertisement (p_vrid (n_params n)) prio (interval_centis (n_params n)) [p_vip (n_params n)] (n_ip n).

Definition master_at (c : Cluster) (i : nat) : bool :=
  match loops c !! i with Some (Some st) => is_master st | _ => false end.

(** [b] outranks every other node. *)
Definition best (nodes : list Node) (b : nat) : Prop :=
  exists nb, nodes !! b = Some nb /\ forall i n, nodes !! i = Some n -> i <> b ->
    outranks (p_priority (n_params nb)) (n_ip nb) (p_priority (n_params n)) (n_ip n) = true.

(** A turn of a node that is not stopped, sees a backend and has a working socket. *)
Definition in_service (t : Turn) : Prop :=
  stop t = false /\ healthy t = true /\ timeout_set t = true /\ recv t <> RecvError.


(** ** What holds of every cluster *)

Definition cluster_inv (nodes : list Node) (c : Cluster) : Prop :=
  (forall j pkt, (j, pkt) ∈ sent c -> exists n prio, nodes !! j = Some n
     /\ (prio = 0 \/ prio = p_priority (n_params n)) /\ pkt = advert n prio)
  /\ (forall i n st, nodes !! i = Some n -> loops c !! i = Some (Some st) -> loop_inv (n_params n) st).

Lemma parse_interval d v a : parse_advertisement d v = Some (Some a) -> 0 <= adv_interval_centis a < 4096.
Proof.
  unfold parse_advertisement. intros H.
  repeat match type of H with
  | (if ?b then _ else _) = _ => destruct b; [discriminate H|]
  | (_ ≫= _) = Some _ => apply bind_Some in H as (? & _ & H); cbv zeta in H
  end.
  injection H as <-. cbn [adv_interval_centis]. rewrite land_0fff. apply Z.mod_pos_bound. lia.
Qed.

Lemma on_datagram_inv p ip st d now acts st' : loop_inv p st ->
  on_datagram p ip st d now = Some (acts, st') -> loop_inv p st'
    /\ omap (fun a => match a with Send x => Some x | _ => None end) acts = [].
Proof.
  intros Hi. unfold on_datagram. destruct (parse_advertisement (take 512 d) (p_vrid p)) as [[a|]|] eqn:Ep; cbn;
    [|by intros [= <- <-]|done].
  case_bool_decide; [by intros [= <- <-]|]. apply parse_interval in Ep.
  pose proof (advert_inv _ _ _ _ (adv_priority a) (adv_src a) ip _ (vr st) Ep Hi) as Hv.
  destruct (on_advertisement _ _ _ _ _) as [vr' r]. destruct r; intros [= <- <-]; done.
Qed.

Lemma on_timeout_inv p ip st now h : loop_inv p st -> loop_inv p (on_timeout p ip st now h).2.
Proof.
  intros Hi. unfold on_timeout. destruct (state (vr st)); [done| |by destruct (_ <=? _)].
  destruct (_ <=? _); [|done]. pose proof (timeout_inv _ _ _ _ h (vr st) Hi) as H.
  destruct (on_master_down_timeout h (vr st)) as [vr' [|]]; done.
Qed.

(** A turn sends nothing but the node's advertisements, and keeps the loop's
    invariant. *)
Lemma turn_inv n st t : loop_inv (n_params n) st ->
  let '(acts, o) := turn (n_params n) (n_ip n) st t in
  Forall (fun a => match a with Send x => x = advert n 0 \/ x = advert n (p_priority (n_params n)) | _ => True end) acts
  /\ match o with Running st' => loop_inv (n_params n) st' | _ => True end.
Proof.
  intros Hi. unfold turn. destruct (stop t).
  { split; [|done]. case_bool_decide; repeat constructor; by left. }
  pose proof (health_inv _ _ _ _ (healthy t) (vr st) Hi) as H1.
  destruct (on_health (healthy t) (vr st)) as [vr1 resign]. cbn [fst] in H1. cbv zeta.
  set (st1 := {| vr := vr1 |}). assert (loop_inv (n_params n) st1) as Hi1 by done. clearbody st1.
  set (acts1 := if resign then _ else _).
  assert (Forall (fun a => match a with Send x => x = advert n 0 \/ x
    = advert n (p_priority (n_params n)) | _ => True end) acts1) as Ha.
  { unfold acts1. destruct resign; repeat constructor. }
  destruct (timeout_set t); cbn [negb]; [|split; [apply Forall_app; split; [done|repeat constructor]|done]].
  set (acts2 := acts1 ++ _).
  assert (Forall (fun a => match a with Send x => x = advert n 0 \/ x
    = advert n (p_priority (n_params n)) | _ => True end) acts2) as Ha2.
  { apply Forall_app. split; [done|repeat constructor]. }
  destruct (recv t); [| |done].
  - destruct (on_datagram _ _ _ _ _) as [[acts3 st2]|] eqn:Ed; [|done].
    pose proof (on_datagram_inv _ _ _ _ _ _ _ Hi1 Ed) as [H2 H3]. split; [|done]. apply Forall_app. split; [done|].
    clear -H3. induction acts3 as [|[] acts3 IH]; cbn in H3; [constructor|done|constructor; [done|by apply IH]..].
  - pose proof (on_timeout_inv (n_params n) (n_ip n) st1 (now_recv t) (healthy_down t) Hi1) as H2.
    unfold on_timeout in *. destruct (state (vr st1)); [by rewrite app_nil_r| |].
    + destruct (_ <=? _); [|by rewrite app_nil_r]. destruct (on_master_down_timeout _ _) as [vr' [|]]; split; try done;
        [apply Forall_app; split; [done|repeat constructor]|by rewrite app_nil_r].
    + destruct (_ <=? _); [|by rewrite app_nil_r]. split; [|done]. apply Forall_app. split; [done|].
      constructor; [by right|constructor].
Qed.

Lemma cluster_step_inv nodes c l : cluster_inv nodes c -> cluster_inv nodes (cluster_step nodes c l).
Proof.
  intros [Hs Hl]. destruct l as [i t]. unfold cluster_step. destruct (nodes !! i) as [n|] eqn:En; [|done].
  destruct (loops c !! i) as [[st|]|] eqn:El; [|done..]. pose proof (turn_inv n st t (Hl i n st En El)) as H.
  destruct (turn (n_params n) (n_ip n) st t) as [acts o]. destruct H as [Ha Ho]. split; cbn [sent loops].
  - intros j pkt [H|H]%elem_of_app; [by apply Hs|]. apply list_elem_of_omap in H as (a & Hin & Ea).
    destruct a as [x| | | |]; try done. injection Ea as -> ->. rewrite list.Forall_forall in Ha. specialize (Ha _ Hin).
    destruct Ha as [->| ->]; [exists n, 0|exists n, (p_priority (n_params n))]; split_and!; auto.
  - intros j m st' Hm Hj. destruct (decide (i = j)) as [->|Hne].
    + rewrite list_lookup_insert_eq in Hj by (by eapply lookup_lt_Some). rewrite En in Hm. injection Hm as <-.
      destruct o; by simplify_eq.
    + rewrite list_lookup_insert_ne in Hj by done. by eapply Hl.
Qed.

Lemma cluster_start_inv nodes setups : nodes_ok nodes -> cluster_inv nodes (cluster_start nodes setups).
Proof.
  intros [Hn _]. split; [by intros j pkt ?%not_elem_of_nil|]. intros i n st Hi Hl. cbn [cluster_start loops] in Hl.
  apply lookup_zip_with_Some in Hl as (n' & s & E & Hi' & _). rewrite Hi in Hi'. injection Hi' as <-.
  injection E as ->. rewrite list.Forall_forall in Hn. destruct (Hn n) as ((_ & Hp & _ & Hs) & _).
  { by eapply list_elem_of_lookup_2. }
  unfold loop_start. pose proof (start_inv (p_vrid (n_params n)) (p_priority (n_params n)) (p_preempt (n_params n))
    (p_advert_interval_secs (n_params n)) (healthy_at_start s) Hp Hs) as H.
  exact H.
Qed.

Lemma cluster_run_inv nodes c ls : cluster_inv nodes c -> cluster_inv nodes (cluster_run nodes c ls).
Proof. unfold cluster_run. revert c. induction ls as [|l ls IH]; intros c H; [done|].
  by apply IH, cluster_step_inv. Qed.

(** ** One delivery *)

(** What a peer's advertisement does to a node, from its bytes. *)
Lemma hears nodes c n d i st now : nodes_ok nodes -> cluster_inv nodes c -> nodes !! i = Some n ->
  deliverable nodes c n d ->
  exists acts st', on_datagram (n_params n) (n_ip n) st d now = Some (acts, st')
    /\ (st' = st \/ exists j m prio, nodes !! j = Some m /\ j <> i /\ (prio = 0 \/ prio = p_priority (n_params m))
          /\ vr st' = (on_advertisement prio (n_ip m) (n_ip n) (interval_centis (n_params m)) (vr st)).1).
Proof.
  intros (Hn & Hv & Hnd) [Hs _] Hi [(j & m & pkt & hdr & Hin & Hm & Hh & Hl & ->)|Hnoise].
  2:{ exists [], st. split; [|by left]. unfold on_datagram. by rewrite Hnoise. }
  destruct (Hs j pkt Hin) as (m' & prio & Hm' & Hp & ->). rewrite Hm in Hm'. injection Hm' as <-.
  rewrite list.Forall_forall in Hn. assert (m ∈ nodes) as Hmn by (by eapply list_elem_of_lookup_2).
  assert (n ∈ nodes) as Hnn by (by eapply list_elem_of_lookup_2). destruct (Hn m Hmn) as (Hpm & Him & _).
  assert (is_u8 prio) as Hprio by (destruct Hp as [->| ->]; [unfold is_u8; lia|apply Hpm]).
  unfold advert. destruct (decide (n_ip m = n_ip n)) as [E|E].
  - exists [], st. split; [|by left]. unfold on_datagram. destruct Hpm as (Hvm & _ & Hvip & Hsec).
    rewrite take_ge by (rewrite length_app, encode_payload, length_payload; simpl; lia).
    rewrite (Hv n m Hnn Hmn), parse_encode_advertisement by (simpl; auto; lia). cbn [mbind option_bind adv_src].
    by rewrite bool_decide_true.
  - rewrite on_datagram_advert by (auto; by apply Hv).
    destruct (on_advertisement prio (n_ip m) (n_ip n) _ (vr st)) as [vr' r] eqn:Ea.
    assert (j <> i) as Hji by (intros ->; rewrite Hi in Hm; by injection Hm as ->).
    destruct r; do 2 eexists; (split; [done|]); right; exists j, m, prio; rewrite Ea; done.
Qed.

Lemma best_not_outranked nodes b nb i n prio : nodes_ok nodes -> best nodes b -> nodes !! b = Some nb ->
  nodes !! i = Some n -> i <> b -> (prio = 0 \/ prio = p_priority (n_params n)) -> prio <> 0 ->
  outranks prio (n_ip n) (p_priority (n_params nb)) (n_ip nb) = false.
Proof.
  intros (_ & _ & Hnd) (nb' & Hb & Ho) Hb' Hi Hne [->| ->] Hp; [done|]. rewrite Hb in Hb'. injection Hb' as ->.
  specialize (Ho i n Hi Hne). rewrite outranks_antisym, Ho; [done|].
  intros E. apply Hne. eapply (NoDup_lookup (n_ip <$> nodes)); [done|rewrite list_lookup_fmap, Hi; done|].
  by rewrite list_lookup_fmap, Hb, E.
Qed.

(** The best node, Master and in service, stays Master over one step of any node. *)
Lemma best_stays nodes c b l : nodes_ok nodes -> cluster_inv nodes c -> best nodes b -> step_ok nodes c l ->
  (l.1 = b -> in_service l.2) -> master_at c b = true -> master_at (cluster_step nodes c l) b = true.
Proof.
  intros Hok Hinv Hb Hstep Hserv Hm. destruct l as [i t]. cbn [fst snd] in *. unfold cluster_step.
  destruct (nodes !! i) as [n|] eqn:En; [|done]. destruct (loops c !! i) as [[st|]|] eqn:El; [|done..].
  destruct (decide (i = b)) as [->|Hne].
  2:{ destruct (turn _ _ st t) as [acts o]. unfold master_at in *. cbn [loops]. by rewrite list_lookup_insert_ne. }
  destruct (Hserv eq_refl) as (H1 & H2 & H3 & H4). unfold master_at in Hm. rewrite El in Hm.
  assert (exists acts st', turn (n_params n) (n_ip n) st t = (acts, Running st') /\ is_master st'
    = true) as (acts & st' & -> & Hst').
  2:{ unfold master_at. cbn [loops]. by rewrite list_lookup_insert_eq by (by eapply lookup_lt_Some). }
  unfold is_master in Hm. apply bool_decide_eq_true in Hm.
  unfold turn. rewrite H1. unfold on_health. rewrite Hm, H2, H3. cbn [negb andb bool_decide].
    rewrite bool_decide_true by done.
  cbn [negb andb]. set (st1 := {| vr := vr st |}). destruct (recv t) as [d| |] eqn:Er; [| |done].
  - unfold step_ok in Hstep. cbn [fst snd] in Hstep. rewrite En, Er in Hstep.
    destruct (hears nodes c n d b st1 (now_recv t) Hok Hinv En Hstep) as (acts & st' & -> & Hst').
    do 2 eexists. split; [done|]. unfold is_master. apply bool_decide_eq_true.
    destruct Hst' as [->|(j & m & prio & Hj & Hjb & Hp & ->)]; [done|]. cbn [vr st1].
    destruct (decide (prio = 0)) as [->|Hp0]; [unfold on_advertisement; by rewrite Hm|].
    rewrite master_on_advert by done. destruct Hinv as [_ Hl]. assert (priority (vr st) = p_priority (n_params n)) as ->
      by (by apply (Hl b n st En El)).
    by rewrite (best_not_outranked nodes b n j m prio).
  - unfold on_timeout. cbn [vr st1]. rewrite Hm. cbn [next_advert st1]. destruct (_ <=? _); do 2 eexists;
    (split; [done|]);
      unfold is_master; by apply bool_decide_eq_true.
Qed.

Lemma best_stays_run nodes b ls c : nodes_ok nodes -> best nodes b -> cluster_inv nodes c ->
  master_at c b = true -> run_ok nodes c ls -> (forall l, l ∈ ls -> l.1 = b -> in_service l.2) ->
  master_at (cluster_run nodes c ls) b = true.
Proof.
  intros Hok Hb. revert c. induction ls as [|l ls IH]; intros c Hinv Hm Hrun Hs; [done|].
  destruct Hrun as [Hstep Hrun].
  apply (IH (cluster_step nodes c l)); [by apply cluster_step_inv| |done|set_solver].
  apply best_stays; try done. apply Hs. set_solver.
Qed.

(** C14: The best node keeps the VIP.  In a cluster of any nodes with distinct
    addresses, in any interleaving of their turns and over a network that may
    lose, delay, reorder and repeat packets: once the node of the highest
    (priority, address) is Master it stays Master for as long as it is in
    service. *)
Theorem best_master_is_stable nodes setups ls ls' b :
  nodes_ok nodes -> best nodes b ->
  let c := cluster_run nodes (cluster_start nodes setups) ls in
  master_at c b = true -> run_ok nodes c ls' ->
  (forall l, l ∈ ls' -> l.1 = b -> in_service l.2) ->
  master_at (cluster_run nodes c ls') b = true.
Proof.
  intros Hok Hb c. apply best_stays_run; [done|done|]. by apply cluster_run_inv, cluster_start_inv.
Qed.

(** ** The others give way *)

(** A turn whose read does not time out makes no Master, and none after a datagram
    that demotes. *)
Lemma turn_no_takeover p ip st t : recv t <> TimedOut ->
  is_master st = false
  \/ (exists d, recv t = Received d
        /\ forall st1 acts st', vr st1 = vr st -> on_datagram p ip st1 d (now_recv t) = Some (acts, st')
          -> is_master st' = false) ->
  match (turn p ip st t).2 with Running st' => is_master st' = false | _ => True end.
Proof.
  intros Ht H. unfold turn. destruct (stop t); [done|].
  pose proof (on_health_master (healthy t) (vr st)) as Hm. unfold on_health in *.
  destruct (bool_decide (state (vr st) = Master) && negb (healthy t)) eqn:Eh; cbn [fst] in Hm; cbv zeta;
    (destruct (timeout_set t); cbn [negb]; [|done]); destruct (recv t) as [d| |] eqn:Er; try done;
    match goal with |- context [on_datagram p ip ?s d ?now] => set (st1 := s) end;
    destruct (on_datagram p ip st1 d (now_recv t)) as [[acts st2]|] eqn:Ed; try done; cbn [snd];
    pose proof (on_datagram_held _ _ _ _ _ _ _ Ed) as (_ & _ & Hk).
  - apply not_true_iff_false. intros E. specialize (Hk E). done.
  - destruct H as [H|(d' & [= <-] & H)]; [|by apply (H st1 acts st2 eq_refl)].
    apply not_true_iff_false. intros E. specialize (Hk E). change (is_master st1) with (is_master st) in Hk. congruence.
Qed.

(** [l] delivers to its node the advertisement of [nb]. *)
Definition tells (nb : Node) (l : nat * Turn) : Prop :=
  exists hdr, ip_header hdr (n_ip nb) /\ (length hdr <= 60)%nat
    /\ recv l.2 = Received (hdr ++ advert nb (p_priority (n_params nb))).

Lemma advert_demotes nodes c b nb i n hdr st now acts st' : nodes_ok nodes -> cluster_inv nodes c ->
  best nodes b -> nodes !! b = Some nb -> nodes !! i = Some n -> i <> b ->
  loops c !! i = Some (Some st) -> is_master st = true -> ip_header hdr (n_ip nb) -> (length hdr <= 60)%nat ->
  forall st1, vr st1 = vr st ->
  on_datagram (n_params n) (n_ip n) st1 (hdr ++ advert nb (p_priority (n_params nb))) now = Some (acts, st') ->
  is_master st' = false.
Proof.
  intros (Hn & Hv & Hnd) [_ Hl] (nb' & Hb' & Ho) Hb Hi Hne Hst Hm Hh Hlen st1 Evr.
  rewrite Hb in Hb'. injection Hb' as <-. rewrite list.Forall_forall in Hn.
  assert (nb ∈ nodes) as Hbn by (by eapply list_elem_of_lookup_2).
  assert (n ∈ nodes) as Hnn by (by eapply list_elem_of_lookup_2).
  destruct (Hn nb Hbn) as (Hpb & Hib & Hpos). destruct (Hn n Hnn) as (Hpn & Hin & _).
  assert (n_ip nb <> n_ip n) as Hip.
  { intros E. apply Hne. eapply (NoDup_lookup (n_ip <$> nodes)); [done|rewrite list_lookup_fmap, Hi; done|].
    by rewrite list_lookup_fmap, Hb, <- E. }
  unfold advert. rewrite on_datagram_advert by (auto; apply Hpb). rewrite Evr.
  unfold is_master in Hm. apply bool_decide_eq_true in Hm. rewrite master_on_advert by done.
  assert (priority (vr st) = p_priority (n_params n)) as -> by apply (Hl i n st Hi Hst).
  rewrite (Ho i n Hi Hne). by intros [= <- <-].
Qed.

Lemma other_not_master nodes c b nb i n l : nodes_ok nodes -> cluster_inv nodes c -> best nodes b ->
  nodes !! b = Some nb -> nodes !! i = Some n -> i <> b -> (l.1 = i -> recv l.2 <> TimedOut) ->
  master_at c i = false \/ (l.1 = i /\ tells nb l) -> master_at (cluster_step nodes c l) i = false.
Proof.
  intros Hok Hinv Hb Hnb Hi Hne Ht H. destruct l as [j t]. cbn [fst snd] in *. unfold cluster_step.
  destruct (decide (j = i)) as [->|Hji].
  2:{ assert (master_at c i = false) as Hm by (destruct H as [?|[? _]]; done).
      destruct (nodes !! j); [|done]. destruct (loops c !! j) as [[st|]|]; [|done..].
      destruct (turn _ _ st t) as [acts o]. unfold master_at in *. cbn [loops]. by rewrite list_lookup_insert_ne. }
  rewrite Hi. destruct (loops c !! i) as [[st|]|] eqn:El; [|unfold master_at; by rewrite El..].
  pose proof (turn_no_takeover (n_params n) (n_ip n) st t (Ht eq_refl)) as Hturn.
  destruct (turn (n_params n) (n_ip n) st t) as [acts o]. unfold master_at. cbn [loops snd] in *.
  rewrite list_lookup_insert_eq by (by eapply lookup_lt_Some). destruct o; try done. apply Hturn.
  destruct (is_master st) eqn:Em; [right|by left].
  destruct H as [H|(_ & hdr & Hh & Hlen & Hr)]; [unfold master_at in H; rewrite El in H; congruence|].
  eexists. split; [exact Hr|]. intros st1 acts' st' Evr.
  eapply advert_demotes; [exact Hok|exact Hinv|exact Hb|exact Hnb|exact Hi|done|exact El|done|exact Hh|done|done].
Qed.

Lemma others_stay_down nodes b nb i n ls : nodes_ok nodes -> best nodes b ->
  nodes !! b = Some nb -> nodes !! i = Some n -> i <> b -> (forall l, l ∈ ls -> l.1 = i -> recv l.2 <> TimedOut) ->
  forall c, cluster_inv nodes c -> master_at c i = false \/ (exists l, l ∈ ls /\ l.1 = i /\ tells nb l) ->
  master_at (cluster_run nodes c ls) i = false.
Proof.
  intros Hok Hb Hnb Hi Hne. induction ls as [|l ls IH]; intros Ht c Hinv H.
  { destruct H as [H|(l & []%not_elem_of_nil & _)]. done. }
  change (cluster_run nodes c (l :: ls)) with (cluster_run nodes (cluster_step nodes c l) ls).
  apply IH; [intros; apply Ht; set_solver|by apply cluster_step_inv|].
  destruct H as [H|(l' & [->|Hl']%elem_of_cons & Hi' & Htell)]; [left|left|right; by exists l'].
  - eapply other_not_master; try done; [intros; apply Ht; set_solver|by left].
  - eapply other_not_master; try done; [intros; apply Ht; set_solver|by right].
Qed.

Lemma converges nodes setups ls ls' b nb :
  nodes_ok nodes -> best nodes b -> nodes !! b = Some nb ->
  let c := cluster_run nodes (cluster_start nodes setups) ls in
  master_at c b = true -> run_ok nodes c ls' ->
  (forall l, l ∈ ls' -> l.1 = b -> in_service l.2) ->
  (forall l, l ∈ ls' -> l.1 <> b -> recv l.2 <> TimedOut) ->
  (forall i n, nodes !! i = Some n -> i <> b -> exists l, l ∈ ls' /\ l.1 = i /\ tells nb l) ->
  forall i n, nodes !! i = Some n -> (master_at (cluster_run nodes c ls') i = true <-> i = b).
Proof.
  intros Hok Hb Hnb c Hm Hrun Hs Ht Htell i n Hi.
  assert (cluster_inv nodes c) as Hinv by (by apply cluster_run_inv, cluster_start_inv).
  split; [|intros ->; by eapply best_stays_run].
  intros H. destruct (decide (i = b)) as [|Hne]; [done|]. exfalso.
  rewrite (others_stay_down nodes b nb i n ls') in H; try done.
  - intros l Hl <-. by apply Ht.
  - right. by eapply Htell.
Qed.

(** C2: The cluster comes to one Master.  Let the best node be Master and in
    service.  In any run, however the turns interleave and whatever else is
    delivered, in which no other node's read times out and each other node hears
    one of the best node's advertisements, the others are not Master at its end
    and the best node is: the VIP has exactly one owner. *)
Theorem cluster_converges nodes setups ls ls' b nb :
  nodes_ok nodes -> best nodes b -> nodes !! b = Some nb ->
  let c := cluster_run nodes (cluster_start nodes setups) ls in
  master_at c b = true -> run_ok nodes c ls' ->
  (forall l, l ∈ ls' -> l.1 = b -> in_service l.2) ->
  (forall l, l ∈ ls' -> l.1 <> b -> recv l.2 <> TimedOut) ->
  (forall i n, nodes !! i = Some n -> i <> b -> exists l, l ∈ ls' /\ l.1 = i /\ tells nb l) ->
  forall i n, nodes !! i = Some n -> (master_at (cluster_run nodes c ls') i = true <-> i = b).
Proof. apply converges. Qed.

(** ** How long a Backup waits *)

(** A Master's advertisement that a Backup of [p] at [ip] waits for, of an interval
    of at least [itv] centiseconds. *)
Definition speaks (p : Params) (ip : Ipv4Addr) (itv : Z) (a : Advert) : bool :=
  negb (bool_decide (adv_src a = ip)) && negb (adv_priority a =? 0)
  && (negb (p_preempt p) || (p_priority p <=? adv_priority a)) && (itv <=? adv_interval_centis a).

(** The turns of a Backup that last heard its Master at [heard]: no read times out
    three intervals or more after that. *)
Fixpoint fed (p : Params) (ip : Ipv4Addr) (itv heard : Z) (ts : list Turn) : bool :=
  match ts with
  | [] => true
  | t :: ts =>
      negb (stop t) && timeout_set t &&
      match recv t with
      | Received d =>
          match parse_advertisement (take 512 d) (p_vrid p) with
          | Some (Some a) =>
              if speaks p ip itv a then fed p ip itv (now_recv t) ts
              else bool_decide (adv_src a = ip) && fed p ip itv heard ts
          | _ => fed p ip itv heard ts
          end
      | TimedOut => (now_recv t <? heard + centis (3 * itv)) && fed p ip itv heard ts
      | RecvError => false
      end
  end.

Definition is_claim (a : Act) : bool := match a with Claim => true | _ => false end.

Lemma backup_hears p ip st d now a itv : loop_inv p st -> state (vr st) = Backup -> 1 <= itv ->
  parse_advertisement (take 512 d) (p_vrid p) = Some (Some a) -> speaks p ip itv a = true ->
  exists st', on_datagram p ip st d now = Some ([], st') /\ loop_inv p st' /\ state (vr st') = Backup
    /\ now + centis (3 * itv) <= master_down_deadline st'.
Proof.
  intros Hi Hs Hitv Hp Hsp. pose proof (parse_interval _ _ _ Hp) as Hb. unfold speaks in Hsp.
  rewrite !andb_true_iff, !negb_true_iff in Hsp. destruct Hsp as [[[H1 H2] H3] H4].
  apply bool_decide_eq_false in H1. apply Z.leb_le in H4.
  unfold on_datagram. rewrite Hp. cbn [mbind option_bind]. rewrite bool_decide_false by done.
  pose proof (advert_inv _ _ _ _ (adv_priority a) (adv_src a) ip _ (vr st) Hb Hi) as Hv. revert Hv.
  unfold on_advertisement. rewrite Hs, H2. destruct Hi as (Hwf & _ & Hpr & Hpre & _). rewrite Hpre, Hpr, H3.
  set (r := with_master_interval _ (vr st)). cbn [fst]. intros Hv. eexists. split; [done|].
  split; [exact Hv|]. split; [done|]. cbn [master_down_deadline]. rewrite master_down_eq by apply Hv.
  pose proof (skew_bounds r ltac:(apply Hv)) as Hk.
  change (master_adver_interval_centis r) with (Z.max (adv_interval_centis a) 1) in *. unfold centis, MILLI. lia.
Qed.

Lemma fed_backup p ip itv heard st ts :
  loop_inv p st -> state (vr st) = Backup -> 1 <= itv ->
  heard + centis (3 * itv) <= master_down_deadline st -> fed p ip itv heard ts = true ->
  exists acts st', turns p ip st ts = (acts, Running st') /\ state (vr st') = Backup
    /\ existsb is_claim acts = false.
Proof.
  intros Hi Hs Hitv. revert heard st Hi Hs. induction ts as [|t ts IH]; intros heard st Hi Hs Hd Hf.
  { by exists [], st. }
  cbn [fed] in Hf. rewrite !andb_true_iff, !negb_true_iff in Hf. destruct Hf as [[H1 H2] H3].
  assert (exists acts st', turn p ip st t = (acts, Running st') /\ state (vr st') = Backup
    /\ existsb is_claim acts = false /\ loop_inv p st'
    /\ exists heard', heard' + centis (3 * itv) <= master_down_deadline st' /\ fed p ip itv heard' ts = true)
    as (acts & st' & E & Hs' & Hc & Hi' & heard' & Hd' & Hf').
  - unfold turn, on_health. rewrite H1, Hs, bool_decide_false, H2 by done. cbn [andb negb].
    set (st1 := {| vr := vr st |}). assert (loop_inv p st1) as Hi1 by done.
    destruct (recv t) as [d| |]; [| |done].
    + destruct (parse_advertisement (take 512 d) (p_vrid p)) as [[a|]|] eqn:Ep.
      * destruct (speaks p ip itv a) eqn:Esp.
        -- destruct (backup_hears p ip st1 d (now_recv t) a itv) as (st' & -> & Hi' & Hs' & Hd'); try done.
           do 2 eexists. split_and!; [done|done|done|done|by eexists].
        -- apply andb_true_iff in H3 as [Hown Hf]. unfold on_datagram. rewrite Ep. cbn [mbind option_bind].
          rewrite Hown.
           do 2 eexists. split_and!; [done|done|done|done|by eexists].
      * unfold on_datagram. rewrite Ep. do 2 eexists. split_and!; [done|done|done|done|by eexists].
      * destruct (parse_advertisement_total (take 512 d) (p_vrid p)) as [r Hr]. congruence.
    + apply andb_true_iff in H3 as [Hlt Hf]. apply Z.ltb_lt in Hlt. unfold on_timeout.
      cbn [vr master_down_deadline st1].
      rewrite Hs. rewrite (proj2 (Z.leb_gt _ _)) by lia. do 2 eexists. split_and!; [done|done|done|done|by eexists].
  - destruct (IH heard' st' Hi' Hs' Hd' Hf') as (acts' & st2 & E2 & Hs2 & Hc2).
    cbn [turns]. rewrite E, E2. do 2 eexists. split_and!; [done|done|]. by rewrite existsb_app, Hc, Hc2.
Qed.

(** A Backup bears the loss of two advertisements.  Once a Backup has heard
    its Master, it does not take the VIP over as long as no three advertisement
    intervals go by without hearing it again, whatever else it receives that is
    not a reason to (other routers' packets, its own), healthy or not. *)
Theorem backup_waits_three_intervals p ip itv heard st ts :
  loop_inv p st -> state (vr st) = Backup -> 1 <= itv ->
  heard + centis (3 * itv) <= master_down_deadline st -> fed p ip itv heard ts = true ->
  exists acts st', turns p ip st ts = (acts, Running st') /\ state (vr st') = Backup
    /\ existsb is_claim acts = false.
Proof. apply fed_backup. Qed.

(** ** Three nodes *)

Definition demo_node (prio k : Z) : Node :=
  {| n_params := {| p_vrid := 51; p_priority := prio; p_preempt := true; p_advert_interval_secs := 1;
                    p_iface := lit "eth0"; p_vip := Ipv4 10 0 0 9 |}; n_ip := Ipv4 10 0 0 k |}.

Definition demo_nodes : list Node := [demo_node 200 1; demo_node 100 2; demo_node 100 3].

Definition demo_setup (k : Z) : Setup :=
  {| interface_ipv4 := Some (Ipv4 10 0 0 k); sockets_ready := true; healthy_at_start := true; now_next := 0;
    now_down := 0 |}.

(** Nobody hears anybody: all three take over, and the first advertises. *)
Definition demo_split : list (nat * Turn) :=
  [(2%nat, quiet 4000000000 true); (1%nat, quiet 4000000000 true); (0%nat, quiet 4000000000 true);
   (0%nat, quiet 4000000001 true)].

Definition demo_header : list Z := [0x45; 0; 0; 0; 0; 0; 0; 0; 255; 112; 0; 0; 10; 0; 0; 1; 224; 0; 0; 18].

(** The network heals: the others hear it, one of them twice. *)
Definition demo_heal : list (nat * Turn) :=
  let d := demo_header ++ advert (demo_node 200 1) 200 in
  [(2%nat, delivers d 5000000000); (1%nat, delivers d 5000000000); (0%nat, quiet 5100000000 true);
    (2%nat, delivers d 5200000000)].

Lemma demo_nodes_ok : nodes_ok demo_nodes /\ best demo_nodes 0.
Proof.
  split; [split_and!|].
  - decided.
  - assert (Forall (fun n => p_vrid (n_params n) = 51) demo_nodes) as H by decided. rewrite list.Forall_forall in H.
    intros n m Hn Hm. by rewrite (H n Hn), (H m Hm).
  - decided.
  - exists (demo_node 200 1). split; [done|]. intros [|[|[|i]]] n Hi Hne; cbn in Hi; simplify_eq; done.
Qed.

Lemma demo_heal_ok : run_ok demo_nodes (cluster_run demo_nodes (cluster_start demo_nodes [demo_setup 1;
  demo_setup 2; demo_setup 3]) demo_split) demo_heal.
Proof.
  assert (forall n c, (0%nat, advert (demo_node 200 1) 200) ∈ sent c ->
    deliverable demo_nodes c n (demo_header ++ advert (demo_node 200 1) 200)) as Hd.
  { intros n c H. left. exists 0%nat, (demo_node 200 1), (advert (demo_node 200 1) 200), demo_header.
    split_and!; [done|done|decided|cbn; lia|done]. }
  split; [|split; [|split; [done|split; [|done]]]]; apply Hd; apply (list_elem_of_lookup_2 _ 0); vm_compute;
    reflexivity.
Qed.

Lemma best_master_is_stable_witness :
  let c := cluster_run demo_nodes (cluster_start demo_nodes [demo_setup 1; demo_setup 2; demo_setup 3]) demo_split in
  master_at c 0 = true /\ master_at c 1 = true /\ master_at (cluster_run demo_nodes c demo_heal) 0 = true.
Proof.
  intros c. split; [vm_compute; reflexivity|]. split; [vm_compute; reflexivity|].
  apply (best_master_is_stable demo_nodes _ demo_split demo_heal 0 (proj1 demo_nodes_ok) (proj2 demo_nodes_ok));
    [vm_compute; reflexivity|exact demo_heal_ok|].
  intros l Hl Hl0. unfold demo_heal in Hl. rewrite !elem_of_cons in Hl.
  destruct Hl as [->|[->|[->|[->|Hl]]]]; [discriminate|discriminate|done|discriminate|by apply not_elem_of_nil in Hl].
Defined.

Lemma cluster_converges_witness :
  let c := cluster_run demo_nodes (cluster_start demo_nodes [demo_setup 1; demo_setup 2; demo_setup 3]) demo_split in
  master_at c 1 = true /\ master_at c 2 = true
  /\ (master_at (cluster_run demo_nodes c demo_heal) 2 = true <-> 2%nat = 0%nat).
Proof.
  intros c. split; [vm_compute; reflexivity|]. split; [vm_compute; reflexivity|].
  apply (cluster_converges demo_nodes [demo_setup 1; demo_setup 2;
    demo_setup 3] demo_split demo_heal 0 (demo_node 200 1)
           (proj1 demo_nodes_ok) (proj2 demo_nodes_ok) eq_refl) with (n := demo_node 100 3);
    [vm_compute; reflexivity|exact demo_heal_ok| | | |reflexivity];
    unfold demo_heal.
  - intros l Hl Hl0. rewrite !elem_of_cons in Hl.
    destruct Hl as [->|[->|[->|[->|Hl]]]]; [discriminate|discriminate|done|discriminate|by apply not_elem_of_nil in Hl].
  - intros l Hl Hl0. rewrite !elem_of_cons in Hl.
    destruct Hl as [->|[->|[->|[->|Hl]]]]; [discriminate|discriminate|done|discriminate|by apply not_elem_of_nil in Hl].
  - assert (ip_header demo_header (Ipv4 10 0 0 1)) as Hh by decided.
    intros [|[|[|i]]] n Hi Hne; [done| | |done];
      [eexists; split; [right; left|]|eexists; split; [left|]]; (split; [done|]); exists demo_header; (split;
        [exact Hh|]); (split; [cbn; lia|done]).
Defined.

Lemma backup_waits_three_intervals_witness :
  let p := n_params (demo_node 100 2) in
  let st := {| vr := (start true (new 51 100 true 1)).1; next_advert := 0; master_down_deadline := 3610000000 |} in
  let d := demo_header ++ advert (demo_node 200 1) 200 in
  let ts := [delivers d 1000000000; quiet 3900000000 true; delivers d 3950000000; quiet 6900000000 false] in
  exists acts st', turns p (Ipv4 10 0 0 2) st ts = (acts, Running st') /\ state (vr st') = Backup
    /\ existsb is_claim acts = false.
Proof.
  intros p st d ts. apply (backup_waits_three_intervals p (Ipv4 10 0 0 2) 100 0 st ts);
    [apply start_inv; decided|done|lia|vm_compute; discriminate|vm_compute; reflexivity].
Defined.
