(* ===== verification/Timing.v ===== *)
(** * How long the VRRP thread takes ([run_loop] of [src/src/vrrp.rs])

    The loop waits in [recv_from] only, for the timeout it has set, and looks at
    the stop flag, the health and the timers around that.  Here the turns of
    [VrrpLoop] are given a clock that keeps time up to a slack: a Backup whose
    Master has gone silent takes over between three and four intervals after it
    last heard it, and a thread told to stop has resigned within half a second. *)

From S2P Require Import Prelude Str Net Vrrp VrrpLoop Cluster.

(** The time spent blocked in [recv_from], at most. *)
Fixpoint waited (acts : list Act) : Z :=
  match acts with
  | [] => 0
  | Wait ns :: acts => ns + waited acts
  | _ :: acts => waited acts
  end.

Lemma waited_app a b : waited (a ++ b) = waited a + waited b.
Proof. induction a as [|[] a IH]; simpl; lia. Qed.

Lemma existsb_claim_app a b : existsb is_claim (a ++ b) = existsb is_claim a || existsb is_claim b.
Proof. apply existsb_app. Qed.

(** A turn in which nothing is received before the timeout, on a node that could
    take over. *)
Definition silent (t : Turn) : bool :=
  negb (stop t) && timeout_set t && healthy_down t && match recv t with TimedOut => true | _ => false end.

(** The turns from [now] on keep time up to [slack]: the loop comes round, and a
    read is over when the timeout it was given is, at the latest, and one that times
    out not before; each up to [slack] late. *)
Fixpoint punctual (p : Params) (ip : Ipv4Addr) (slack now : Z) (st : LoopState) (ts : list Turn) : bool :=
  match ts with
  | [] => true
  | t :: ts =>
      let '(acts, o) := turn p ip st t in
      (now <=? now_wake t) && (now_wake t <=? now + slack)
      && (match recv t with
          | TimedOut => now_wake t + waited acts <=? now_recv t
          | _ => now_wake t <=? now_recv t
          end)
      && (now_recv t <=? now_wake t + waited acts + slack)
      && match o with
         | Running st' => punctual p ip slack (now_recv t) st' ts
         | _ => true
         end
  end.

(** ** The wait of a turn *)

Lemma read_timeout_bounds wake now : 10 * MILLI <= read_timeout wake now <= 500 * MILLI.
Proof. unfold read_timeout, MILLI. lia. Qed.

Lemma on_datagram_waits p ip st d now acts st' :
  on_datagram p ip st d now = Some (acts, st') -> waited acts = 0.
Proof.
  unfold on_datagram. destruct (parse_advertisement _ _) as [[a|]|]; simpl; [|intros; by simplify_eq|done].
  repeat case_match; intros; by simplify_eq.
Qed.

Lemma on_timeout_waits p ip st now h : waited (on_timeout p ip st now h).1 = 0.
Proof. unfold on_timeout. by repeat case_match. Qed.

(** A turn waits once if the loop goes on, between 10 and 500 ms, and not at all
    if it was told to stop. *)
Lemma turn_waits p ip st t :
  let '(acts, o) := turn p ip st t in
  0 <= waited acts <= 500 * MILLI
  /\ match o with
     | Running _ => 10 * MILLI <= waited acts
     | Stopped => waited acts = 0
     | _ => True
     end.
Proof.
  unfold turn. destruct (stop t).
  { case_bool_decide; cbn; unfold MILLI; lia. }
  destruct (on_health (healthy t) (vr st)) as [vr1 resign]. cbn zeta.
  set (st1 := {| vr := vr1 |}). set (w := read_timeout _ _).
  set (acts1 := if resign then _ else _).
  assert (waited acts1 = 0) as H1 by (by unfold acts1; destruct resign).
  assert (10 * MILLI <= w <= 500 * MILLI) as Hw by apply read_timeout_bounds.
  assert (waited (acts1 ++ [SetState (state vr1); Wait w]) = w) as H2 by (rewrite waited_app, H1; simpl; lia).
  destruct (timeout_set t); cbn [negb]; cycle 1.
  { rewrite waited_app, H1. simpl. unfold MILLI. lia. }
  destruct (recv t) as [d| |].
  - destruct (on_datagram_total p ip st1 d (now_recv t)) as [[acts3 st2] Hd]. rewrite Hd, waited_app, H2.
    rewrite (on_datagram_waits _ _ _ _ _ _ _ Hd). unfold MILLI in *. lia.
  - pose proof (on_timeout_waits p ip st1 (now_recv t) (healthy_down t)) as Hd.
    destruct (on_timeout _ _ _ _ _) as [acts3 st2]. cbn [fst] in Hd. rewrite waited_app, H2, Hd. unfold MILLI in *. lia.
  - rewrite H2. unfold MILLI in *. lia.
Qed.

(** A thread told to stop during a turn, of any kind, ends with the next: it
    waits no more than half a second in all, the VIP is not held when it has
    ended, and if it was Master its last advertisement has priority 0. *)
Lemma stop_resigns p ip st t :
  stop t = true ->
  turn p ip st t = (if is_master st then [send p ip 0; Release] else [], Stopped).
Proof. intros H. unfold turn. by rewrite H. Qed.

Lemma stop_turns p ip st t t' :
  stop t = false -> stop t' = true ->
  let '(acts, o) := turns p ip st [t; t'] in
  waited acts <= 500 * MILLI
  /\ match o with
     | Stopped => held (is_master st) acts = false
                  /\ (held (is_master st) (turn p ip st t).1 = true -> exists acts1, acts = acts1 ++ [send p ip 0; Release])
     | Failed => True
     | _ => False
     end.
Proof.
  intros Hs Hs'. pose proof (turn_waits p ip st t) as Hw. pose proof (turn_held p ip st t) as Hh.
  pose proof (turns_held p ip st [t; t']) as Hts. revert Hts. cbn [turns].
  destruct (turn p ip st t) as [acts o] eqn:E. destruct o as [st'| | |].
  - rewrite stop_resigns by done. cbn [fst]. destruct Hh as (_ & Hh & _), Hw as [Hw _].
    intros [_ Hts]. split.
    + rewrite waited_app. destruct (is_master st'); simpl; lia.
    + split; [exact Hts|]. intros H. rewrite Hh in H. rewrite H. by eexists.
  - exfalso. unfold turn in E. rewrite Hs in E. repeat case_match; discriminate.
  - intros _. split; [apply Hw|done].
  - by destruct Hh.
Qed.

(** ** A Backup whose Master is silent *)

(** A silent turn of a Backup: it waits for the deadline, or for half a second,
    and takes over when it finds the deadline passed. *)
Lemma silent_backup_turn p ip st t :
  state (vr st) = Backup -> silent t = true ->
  exists acts, turn p ip st t = (if master_down_deadline st <=? now_recv t then acts ++ [Claim] else acts,
      Running (if master_down_deadline st <=? now_recv t
               then {| vr := (on_master_down_timeout true (vr st)).1; next_advert := now_recv t;
                       master_down_deadline := master_down_deadline st |}
               else st))
    /\ existsb is_claim acts = false
    /\ waited acts = read_timeout (master_down_deadline st) (now_wake t).
Proof.
  intros Hs Ht. unfold silent in Ht. rewrite !andb_true_iff, negb_true_iff in Ht. destruct Ht as [[[H1 H2] H3] H4].
  destruct (recv t) eqn:Er; [done| |done].
  exists [SetState Backup; Wait (read_timeout (master_down_deadline st) (now_wake t))].
  unfold turn, on_health. rewrite H1, Hs, H2, Er, bool_decide_false by done. cbn [andb negb].
  unfold on_timeout. cbn [vr next_advert master_down_deadline]. rewrite Hs.
  destruct (master_down_deadline st <=? now_recv t).
  - rewrite H3. unfold on_master_down_timeout. rewrite Hs, !bool_decide_true, bool_decide_false by done.
    cbn. split_and!; [done|done|lia].
  - destruct st as [v n m]. cbn in *. split_and!; [done|done|lia].
Qed.

(** After enough silent turns the Backup has taken over, not before its deadline
    and at most 10 ms (the shortest timeout) and two delays after it. *)
Lemma backup_takes_over p ip slack now st ts :
  state (vr st) = Backup -> 0 <= slack -> forallb silent ts = true -> punctual p ip slack now st ts = true ->
  Z.max (master_down_deadline st - now) 0 + 10 * MILLI <= 10 * MILLI * Z.of_nat (length ts) ->
  exists ts1 t ts2 acts1 acts2 st',
    ts = ts1 ++ t :: ts2
    /\ turns p ip st ts1 = (acts1, Running st) /\ existsb is_claim acts1 = false
    /\ turn p ip st t = (acts2 ++ [Claim], Running st') /\ existsb is_claim acts2 = false
    /\ state (vr st') = Master /\ next_advert st' = now_recv t
    /\ master_down_deadline st <= now_recv t
       <= Z.max (master_down_deadline st) now + 10 * MILLI + 2 * slack.
Proof.
  intros Hs Hsl. revert now. induction ts as [|t ts IH]; intros now Hq Hp Hn.
  { unfold MILLI in Hn. cbn [length] in Hn. lia. }
  cbn [forallb] in Hq. apply andb_true_iff in Hq as [Ht Hq].
  destruct (silent_backup_turn p ip st t Hs Ht) as (acts & Et & Hc & Hw).
  assert (recv t = TimedOut) as Er.
  { unfold silent in Ht. rewrite !andb_true_iff in Ht. destruct Ht as [_ Ht]. by destruct (recv t). }
  cbn [punctual] in Hp. rewrite Et, Er in Hp.
  assert (waited (if master_down_deadline st <=? now_recv t then acts ++ [Claim] else acts)
          = read_timeout (master_down_deadline st) (now_wake t)) as Hw'.
  { destruct (master_down_deadline st <=? now_recv t); [rewrite waited_app; cbn [waited]; lia|done]. }
  rewrite Hw' in Hp. rewrite !andb_true_iff, !Z.leb_le in Hp. destruct Hp as [[[[Hb1 Hb2] Hb3] Hb4] Hp].
  unfold read_timeout in *.
  destruct (Z.leb_spec (master_down_deadline st) (now_recv t)) as [Hd|Hd].
  - exists [], t, ts, [], acts. eexists. split_and!; try done; [|unfold MILLI in *; lia].
    unfold on_master_down_timeout. by rewrite Hs, bool_decide_true.
  - destruct (IH (now_recv t) Hq Hp) as (ts1 & t' & ts2 & acts1 & acts2 & st' & -> & E1 & Hc1 & E2 & Hc2 & Hm & Hna & Hb).
    { cbn [length] in Hn. unfold MILLI in *. lia. }
    exists (t :: ts1), t', ts2, (acts ++ acts1), acts2, st'. cbn [turns]. rewrite Et, E1.
    rewrite existsb_claim_app, Hc, Hc1. split_and!; try done; unfold MILLI in *; lia.
Qed.

(** ** Failover *)

(** The deadline a Backup of any kind sets when it hears its Master. *)
Lemma heard_turn p ip st t d a :
  loop_inv p st -> state (vr st) = Backup -> stop t = false -> timeout_set t = true ->
  recv t = Received d -> parse_advertisement (take 512 d) (p_vrid p) = Some (Some a) ->
  speaks p ip 1 a = true ->
  exists acts st', turn p ip st t = (acts, Running st') /\ existsb is_claim acts = false
    /\ state (vr st') = Backup
    /\ now_recv t + centis (3 * adv_interval_centis a) <= master_down_deadline st'
       <= now_recv t + centis (4 * adv_interval_centis a).
Proof.
  intros Hi Hs H1 H2 Hr Hp Hsp. pose proof (parse_interval _ _ _ Hp) as Hb. unfold speaks in Hsp.
  rewrite !andb_true_iff, !negb_true_iff in Hsp. destruct Hsp as [[[H3 H4] H5] H6].
  apply bool_decide_eq_false in H3. apply Z.leb_le in H6.
  unfold turn, on_health. rewrite H1, Hs, H2, Hr, bool_decide_false by done. cbn [andb negb].
  unfold on_datagram. rewrite Hp. cbn [mbind option_bind vr]. rewrite bool_decide_false by done.
  pose proof (advert_inv _ _ _ _ (adv_priority a) (adv_src a) ip _ (vr st) Hb Hi) as Hv. revert Hv.
  unfold on_advertisement. rewrite Hs, H4. destruct Hi as (Hwf & _ & Hpr & Hpre & _). rewrite Hpre, Hpr, H5.
  set (r := with_master_interval _ (vr st)). cbn [fst]. intros Hv. do 2 eexists. split; [done|].
  split; [done|]. split; [done|]. cbn [master_down_deadline]. rewrite master_down_eq by apply Hv.
  pose proof (skew_bounds r ltac:(apply Hv)) as Hk.
  change (master_adver_interval_centis r) with (Z.max (adv_interval_centis a) 1) in *. unfold centis, MILLI. lia.
Qed.

(** C6: Failover takes three to four advertisement intervals.  A Backup that has
    heard its Master and then hears nothing more, on a clock that keeps time up to
    [slack], claims the VIP in one of the turns that follow (four intervals and
    10 ms of them are enough, however short each wait), due to advertise at once,
    not earlier than three intervals after the last advertisement and not later
    than four, plus 10 ms and two delays; and nothing is claimed before. *)
Theorem failover_time p ip slack now st t0 d a ts :
  loop_inv p st -> state (vr st) = Backup -> 0 <= slack ->
  stop t0 = false -> timeout_set t0 = true -> recv t0 = Received d ->
  parse_advertisement (take 512 d) (p_vrid p) = Some (Some a) -> speaks p ip 1 a = true ->
  forallb silent ts = true -> punctual p ip slack now st (t0 :: ts) = true ->
  4 * adv_interval_centis a + 1 <= Z.of_nat (length ts) ->
  exists ts1 t ts2 acts st',
    ts = ts1 ++ t :: ts2
    /\ turns p ip st (t0 :: ts1 ++ [t]) = (acts ++ [Claim], Running st') /\ existsb is_claim acts = false
    /\ state (vr st') = Master /\ next_advert st' = now_recv t
    /\ now_recv t0 + centis (3 * adv_interval_centis a) <= now_recv t
       <= now_recv t0 + centis (4 * adv_interval_centis a) + 10 * MILLI + 2 * slack.
Proof.
  intros Hi Hs Hsl H1 H2 Hr Hp Hsp Hq Hpu Hn.
  destruct (heard_turn p ip st t0 d a Hi Hs H1 H2 Hr Hp Hsp) as (acts0 & st0 & E0 & Hc0 & Hs0 & Hd0).
  cbn [punctual] in Hpu. rewrite E0, !andb_true_iff in Hpu. destruct Hpu as [_ Hpu].
  pose proof (parse_interval _ _ _ Hp) as Hb.
  destruct (backup_takes_over p ip slack (now_recv t0) st0 ts Hs0 Hsl Hq Hpu)
    as (ts1 & t & ts2 & acts1 & acts2 & st' & -> & E1 & Hc1 & E2 & Hc2 & Hm & Hna & Hbd).
  { unfold centis, MILLI in *. lia. }
  exists ts1, t, ts2, (acts0 ++ acts1 ++ acts2), st'. cbn [turns]. rewrite E0, turns_app, E1. cbn [turns].
  rewrite E2, app_nil_r, !app_assoc, !existsb_claim_app, Hc0, Hc1, Hc2.
  split_and!; try done; unfold centis, MILLI in *; lia.
Qed.

(** [n] silent turns of a clock that is never late. *)
Fixpoint on_time (p : Params) (ip : Ipv4Addr) (n : nat) (now : Z) (st : LoopState) : list Turn :=
  match n with
  | O => []
  | S n =>
      let later := now + waited (turn p ip st (quiet now true)).1 in
      let t := {| stop := false; healthy := true; now_resign := now; now_wake := now; timeout_set := true;
                  recv := TimedOut; now_recv := later; healthy_down := true |} in
      match turn p ip st t with
      | (_, Running st') => t :: on_time p ip n later st'
      | _ => [t]
      end
  end.

(** A Master of one-second advertisements falls silent a second after the start. *)
Lemma failover_time_witness :
  let p := n_params (demo_node 100 2) in
  let st := {| vr := (start true (new 51 100 true 1)).1; next_advert := 0; master_down_deadline := 3610000000 |} in
  let d := demo_header ++ advert (demo_node 200 1) 200 in
  let t0 := delivers d 1000000000 in
  let st0 := {| vr := with_master_interval 100 (vr st); next_advert := 0; master_down_deadline := 4600000000 |} in
  let ts := on_time p (Ipv4 10 0 0 2) 401 1000000000 st0 in
  exists ts1 t ts2 acts st',
    ts = ts1 ++ t :: ts2
    /\ turns p (Ipv4 10 0 0 2) st (t0 :: ts1 ++ [t]) = (acts ++ [Claim], Running st')
    /\ state (vr st') = Master
    /\ 4000000000 <= now_recv t <= 5010000000.
Proof.
  intros p st d t0 st0 ts.
  destruct (failover_time p (Ipv4 10 0 0 2) 0 1000000000 st t0 d
    {| adv_priority := 200; adv_src := Ipv4 10 0 0 1; adv_interval_centis := 100 |} ts)
    as (ts1 & t & ts2 & acts & st' & H1 & H2 & _ & H3 & _ & H4);
    [apply start_inv; decided|done|lia|reflexivity|reflexivity|reflexivity|vm_compute; reflexivity|
     vm_compute; reflexivity|vm_compute; reflexivity|vm_compute; reflexivity|vm_compute; discriminate|].
  exists ts1, t, ts2, acts, st'. split_and!; [exact H1|exact H2|exact H3|apply H4|].
  etransitivity; [apply H4|]. vm_compute. discriminate.
Defined.
