(* ===== verification/Pool.v ===== *)
(** * Backend pools ([src/src/pool.rs])

    A [Backend] is shared ([Arc<Backend>]) by the pool, the snapshots
    [backends()] hands out and the connections that picked it, so backends live
    in a [Heap] and pools and snapshots hold their locations.  A location is an
    index of the heap; allocation appends. *)

From S2P Require Import Prelude Net.

(** ** Data *)

Record Backend := { addr : SocketAddr; healthy : bool }.

Abbreviation loc := nat (only parsing).
Abbreviation Heap := (list Backend) (only parsing).

(** [Backend::new]: unhealthy until its first passing check. *)
Definition Backend_new (a : SocketAddr) : Backend := {| addr := a; healthy := false |}.

Definition is_healthy (h : Heap) (l : loc) : bool :=
  match h !! l with Some b => healthy b | None => false end.

Definition set_healthy (l : loc) (v : bool) (h : Heap) : Heap :=
  alter (fun b => {| addr := addr b; healthy := v |}) l h.

(** Whether the backend at [l] has address [a]. *)
Definition has_addr (h : Heap) (a : SocketAddr) (l : loc) : bool :=
  match h !! l with Some b => bool_decide (addr b = a) | None => false end.

Record Pool := { backends : list loc; next : Z }.

#[export] Instance Backend_eq_dec : EqDecision Backend.
Proof. solve_decision. Defined.
#[export] Instance Pool_eq_dec : EqDecision Pool.
Proof. solve_decision. Defined.

(** ** Operations *)

(** The loop of [set_addrs]: [cur] are the members so far, [next] the new list. *)
Fixpoint set_addrs_loop (cur : list loc) (addrs : list SocketAddr) (next : list loc) (h : Heap)
    : list loc * Heap :=
  match addrs with
  | [] => (next, h)
  | a :: addrs =>
      if existsb (has_addr h a) next then set_addrs_loop cur addrs next h
      else match List.find (has_addr h a) cur with
           | Some be => set_addrs_loop cur addrs (next ++ [be]) h
           | None => set_addrs_loop cur addrs (next ++ [length h]) (h ++ [Backend_new a])
           end
  end.

Definition set_addrs (addrs : list SocketAddr) (p : Pool) (h : Heap) : Pool * Heap :=
  let '(bs, h') := set_addrs_loop (backends p) addrs [] h in
  ({| backends := bs; next := next p |}, h').

Definition Pool_new (addrs : list SocketAddr) (h : Heap) : Pool * Heap :=
  set_addrs addrs {| backends := []; next := 0 |} h.

(** The loop of [pick] over [i] in [0..n], from [i = n - k]. *)
Fixpoint pick_loop (h : Heap) (bs : list loc) (start : Z) (i k : nat) : option loc :=
  match k with
  | O => None
  | S k =>
      match bs !! Z.to_nat (wrap64 (start + Z.of_nat i) mod Z.of_nat (length bs)) with
      | Some be => if is_healthy h be then Some be else pick_loop h bs start (S i) k
      | None => None
      end
  end.

Definition pick (p : Pool) (h : Heap) : option loc * Pool :=
  let n := length (backends p) in
  if bool_decide (n = 0)%nat then (None, p) else
  (pick_loop h (backends p) (next p) 0 n,
   {| backends := backends p; next := wrap64 (next p + 1) |}).

Definition healthy_count (p : Pool) (h : Heap) : nat :=
  length (List.filter (is_healthy h) (backends p)).

(** ** Specification *)

(** The addresses of the members. *)
Definition member_addrs (p : Pool) (h : Heap) : list (option SocketAddr) :=
  (fun l => addr <$> h !! l) <$> backends p.

(** First occurrences, in order. *)
Fixpoint nub (seen : list SocketAddr) (l : list SocketAddr) : list SocketAddr :=
  match l with
  | [] => []
  | a :: l => if bool_decide (a ∈ seen) then nub seen l else a :: nub (seen ++ [a]) l
  end.

(** Members exist and have different addresses. *)
Definition pool_ok (p : Pool) (h : Heap) : Prop :=
  Forall (fun l => l < length h)%nat (backends p) /\ NoDup (member_addrs p h)
  /\ is_u64 (next p).

(** [k] picks in a row. *)
Fixpoint picks (k : nat) (p : Pool) (h : Heap) : list (option loc) :=
  match k with
  | O => []
  | S k => let '(r, p') := pick p h in r :: picks k p' h
  end.

(** What happens to a pool: its members replaced, a connection's pick, and a
    health verdict on any backend, a member or one a snapshot still holds. *)
Inductive Event :=
| SetAddrs (addrs : list SocketAddr)
| Pick
| Verdict (l : loc) (v : bool).

Inductive pool_trace : list Event -> Pool * Heap -> Prop :=
| trace_new addrs : pool_trace [] (Pool_new addrs [])
| trace_set es p h addrs :
    pool_trace es (p, h) -> pool_trace (es ++ [SetAddrs addrs]) (set_addrs addrs p h)
| trace_pick es p h :
    pool_trace es (p, h) -> pool_trace (es ++ [Pick]) ((pick p h).2, h)
| trace_verdict es p h l v :
    pool_trace es (p, h) -> (l < length h)%nat ->
    pool_trace (es ++ [Verdict l v]) (p, set_healthy l v h).

(** The last verdict on the backend at [l]; [false] before the first. *)
Definition last_verdict (l : loc) (es : list Event) : bool :=
  fold_left (fun acc e => match e with
                          | Verdict l' v => if bool_decide (l = l') then v else acc
                          | _ => acc
                          end) es false.

(** ** Heaps *)

Definition addr_at (h : Heap) (l : loc) : option SocketAddr := addr <$> h !! l.

Lemma member_addrs_eq p h : member_addrs p h = addr_at h <$> backends p.
Proof. done. Qed.

Lemma has_addr_spec h a l : has_addr h a l = true <-> addr_at h l = Some a.
Proof.
  unfold has_addr, addr_at. destruct (h !! l); simpl; [|done].
  rewrite bool_decide_eq_true. split; congruence.
Qed.

Lemma addr_at_app h h' l : (l < length h)%nat -> addr_at (h ++ h') l = addr_at h l.
Proof. intros. unfold addr_at. by rewrite lookup_app_l. Qed.

Lemma is_healthy_app h h' l : (l < length h)%nat -> is_healthy (h ++ h') l = is_healthy h l.
Proof. intros. unfold is_healthy. by rewrite lookup_app_l. Qed.

Lemma addr_at_app_new h a : addr_at (h ++ [Backend_new a]) (length h) = Some a.
Proof. unfold addr_at. by rewrite lookup_app_r, Nat.sub_diag. Qed.

Lemma addr_at_set_healthy h l v l' : addr_at (set_healthy l v h) l' = addr_at h l'.
Proof.
  unfold addr_at, set_healthy. destruct (decide (l = l')) as [->|].
  - rewrite list_lookup_alter_eq. by destruct (h !! l').
  - by rewrite list_lookup_alter_ne.
Qed.

Lemma is_healthy_set_healthy h l v l' :
  (l < length h)%nat ->
  is_healthy (set_healthy l v h) l' = if bool_decide (l' = l) then v else is_healthy h l'.
Proof.
  intros Hl. unfold is_healthy, set_healthy. case_bool_decide as E.
  - subst. rewrite list_lookup_alter_eq. destruct (lookup_lt_ex h l Hl) as [b ->]. done.
  - by rewrite list_lookup_alter_ne.
Qed.

Lemma fmap_addr_at_app h h' ls :
  Forall (fun l => l < length h)%nat ls -> addr_at (h ++ h') <$> ls = addr_at h <$> ls.
Proof. induction 1 as [|l ls Hl _ IH]; csimpl; [done|]. by rewrite addr_at_app, IH. Qed.

Lemma Forall_lt_app (h h' : Heap) ls :
  Forall (fun l => l < length h)%nat ls -> Forall (fun l => l < length (h ++ h'))%nat ls.
Proof. rewrite !list.Forall_forall. intros H l Hl. specialize (H l Hl). rewrite length_app. lia. Qed.

(** ** Replacing the members *)

Lemma existsb_has_addr h a ls seen :
  addr_at h <$> ls = Some <$> seen -> existsb (has_addr h a) ls = bool_decide (a ∈ seen).
Proof.
  revert seen; induction ls as [|l ls IH]; intros [|b seen] Hs; csimpl in *; simplify_eq; [done|].
  rewrite (IH seen) by done. destruct (has_addr h a l) eqn:Ha.
  - apply has_addr_spec in Ha. simplify_eq. simpl. symmetry. apply bool_decide_eq_true. set_solver.
  - simpl. apply bool_decide_ext. rewrite elem_of_cons. split; [auto|].
    intros [->|]; [|done]. exfalso. apply not_true_iff_false in Ha. apply Ha. by apply has_addr_spec.
Qed.

Lemma set_addrs_loop_spec cur addrs nx h seen :
  Forall (fun l => l < length h)%nat cur -> Forall (fun l => l < length h)%nat nx ->
  addr_at h <$> nx = Some <$> seen ->
  exists rest new,
    set_addrs_loop cur addrs nx h = (nx ++ rest, h ++ new)
    /\ Forall (fun b => healthy b = false) new
    /\ Forall (fun l => l < length (h ++ new))%nat rest
    /\ addr_at (h ++ new) <$> rest = Some <$> nub seen addrs
    /\ Forall (fun l => l ∈ cur \/ (length h <= l)%nat
                        /\ Forall (fun c => addr_at (h ++ new) c <> addr_at (h ++ new) l) cur) rest.
Proof.
  revert nx h seen; induction addrs as [|a addrs IH]; intros nx h seen Hc Hn Hs.
  { exists [], []. rewrite !app_nil_r. repeat split; constructor. }
  cbn [set_addrs_loop nub]. rewrite (existsb_has_addr h a nx seen Hs).
  case_bool_decide as Ha; [by apply IH|].
  destruct (List.find (has_addr h a) cur) as [be|] eqn:Hf.
  - apply List.find_some in Hf as [Hin Hbe]. apply list_elem_of_In in Hin. apply has_addr_spec in Hbe.
    pose proof (proj1 (list.Forall_forall _ _) Hc be Hin) as Hlt. cbn beta in Hlt.
    destruct (IH (nx ++ [be]) h (seen ++ [a])) as (rest & new & -> & H1 & H2 & H3 & H4); auto.
    { apply Forall_app; auto. } { rewrite !fmap_app, Hs. csimpl. by rewrite Hbe. }
    exists (be :: rest), new. rewrite <- app_assoc. repeat split; auto.
    + constructor; [rewrite length_app; lia | done].
    + csimpl. by rewrite H3, addr_at_app, Hbe.
  - destruct (IH (nx ++ [length h]) (h ++ [Backend_new a]) (seen ++ [a]))
      as (rest & new & -> & H1 & H2 & H3 & H4); auto using Forall_lt_app.
    { apply Forall_app; split; [by apply Forall_lt_app|]. constructor; [|done]. rewrite length_app. simpl. lia. }
    { rewrite !fmap_app, fmap_addr_at_app, Hs by done. csimpl. by rewrite addr_at_app_new. }
    rewrite <- !app_assoc in *.
    assert (addr_at (h ++ [Backend_new a] ++ new) (length h) = Some a) as Hnew.
    { rewrite app_assoc, addr_at_app, addr_at_app_new; [done|]. rewrite length_app. simpl. lia. }
    exists (length h :: rest), (Backend_new a :: new). repeat split; auto.
    + constructor; [rewrite length_app; simpl; lia | done].
    + csimpl in *. by rewrite H3, Hnew.
    + constructor.
      * right. split; [lia|]. apply list.Forall_forall. intros c Hcin Heq. simpl in Hnew, Heq.
        pose proof (proj1 (list.Forall_forall _ _) Hc c Hcin) as Hlt. cbn beta in Hlt.
        rewrite Hnew, addr_at_app in Heq by done. apply has_addr_spec in Heq.
        apply list_elem_of_In in Hcin. eapply List.find_none in Hf; [|done]. congruence.
      * rewrite list.Forall_forall in H4 |- *. intros l Hin. destruct (H4 l Hin) as [?|[Hl ?]]; [by left|right].
        rewrite length_app in Hl. simpl in Hl. split; [lia|done].
Qed.

Lemma nub_not_seen seen l a : a ∈ nub seen l -> a ∉ seen.
Proof.
  revert seen; induction l as [|b l IH]; intros seen; simpl; [set_solver|].
  case_bool_decide; [apply IH|]. rewrite elem_of_cons. intros [->|H1]; [done|].
  apply IH in H1. set_solver.
Qed.

Lemma nub_NoDup seen l : NoDup (nub seen l).
Proof.
  revert seen; induction l as [|a l IH]; intros seen; simpl; [constructor|].
  case_bool_decide; [apply IH|]. constructor; [|apply IH].
  intros H1. apply nub_not_seen in H1. set_solver.
Qed.

Lemma elem_of_nub seen l a : a ∈ nub seen l <-> a ∈ l /\ a ∉ seen.
Proof.
  revert seen; induction l as [|b l IH]; intros seen; simpl; [set_solver|].
  case_bool_decide; rewrite ?elem_of_cons, IH, ?elem_of_cons, ?not_elem_of_app; [set_solver|].
  destruct (decide (a = b)); set_solver.
Qed.

Lemma set_addrs_ok addrs p h :
  pool_ok p h ->
  exists p' new, set_addrs addrs p h = (p', h ++ new) /\ pool_ok p' (h ++ new)
    /\ member_addrs p' (h ++ new) = Some <$> nub [] addrs.
Proof.
  intros (Hv & _ & Hu). unfold set_addrs.
  destruct (set_addrs_loop_spec (backends p) addrs [] h []) as (rest & new & -> & H1 & H2 & H3 & H4); auto.
  simpl. eexists _, new. split; [done|]. split; [|done].
  unfold pool_ok. rewrite member_addrs_eq. simpl. rewrite H3. split; [done|]. split; [|done].
  apply NoDup_fmap_2; [apply _|]. apply nub_NoDup.
Qed.

Lemma member_addrs_app p h h' :
  Forall (fun l => l < length h)%nat (backends p) -> member_addrs p (h ++ h') = member_addrs p h.
Proof. intros. rewrite !member_addrs_eq. by apply fmap_addr_at_app. Qed.

Lemma pool_ok_app p h h' : pool_ok p h -> pool_ok p (h ++ h').
Proof.
  intros (Hv & Hn & Hu). unfold pool_ok. rewrite member_addrs_app by done.
  split; [by apply Forall_lt_app|done].
Qed.

Lemma pool_ok_empty h : pool_ok {| backends := []; next := 0 |} h.
Proof. split; [constructor|]. split; [constructor|decided]. Qed.

(** Replacing the members: the pool then has the given addresses in order,
    duplicates dropped; a member whose address stays is the same [Backend] (so
    keeps its health and its connections' view of it); every other member is
    new and unhealthy; no backend outside the pool is touched. *)
Theorem set_addrs_spec addrs p h :
  pool_ok p h ->
  exists p' new, set_addrs addrs p h = (p', h ++ new)
    /\ pool_ok p' (h ++ new) /\ next p' = next p
    /\ member_addrs p' (h ++ new) = Some <$> nub [] addrs
    /\ (forall l c, l ∈ backends p' -> c ∈ backends p ->
          addr_at (h ++ new) l = addr_at h c -> l = c)
    /\ (forall l, l ∈ backends p' -> l ∉ backends p ->
          (length h <= l)%nat /\ is_healthy (h ++ new) l = false).
Proof.
  intros (Hv & Hnd & Hu). unfold set_addrs.
  destruct (set_addrs_loop_spec (backends p) addrs [] h []) as (rest & new & -> & H1 & H2 & H3 & H4); auto.
  rewrite member_addrs_eq in Hnd. simpl. eexists _, new. split; [done|].
  rewrite list.Forall_forall in H4, Hv, H2.
  split; [|split; [done|split; [done|split]]].
  - unfold pool_ok. rewrite member_addrs_eq. simpl. rewrite H3. split; [|split; [|done]].
    + by apply list.Forall_forall.
    + apply NoDup_fmap_2; [apply _|]. apply nub_NoDup.
  - intros l c Hl Hc Heq. simpl in Hl. destruct (H4 l Hl) as [Hin|[_ Hne]].
    + rewrite addr_at_app in Heq by auto.
      apply list_elem_of_lookup in Hin as [i Hi], Hc as [j Hj].
      assert (i = j) as ->; [|congruence].
      eapply NoDup_lookup; [exact Hnd | |]; rewrite list_lookup_fmap, ?Hi, ?Hj; simpl; [done|by rewrite Heq].
    + rewrite list.Forall_forall in Hne. exfalso. apply (Hne c Hc). rewrite Heq. apply addr_at_app. auto.
  - intros l Hl Hn. simpl in Hl. destruct (H4 l Hl) as [Hin|[Hge _]]; [done|]. split; [done|].
    unfold is_healthy. rewrite lookup_app_r by done.
    destruct (new !! (l - length h)%nat) as [b|] eqn:Hb; [|done].
    eapply Forall_lookup_1 in H1; done.
Qed.

Lemma set_addrs_spec_witness :
  let a n := SockAddr (V4 (Ipv4 127 0 0 1)) n in
  let p := {| backends := [0; 1]%nat; next := 5 |} in
  let h := [{| addr := a 1; healthy := true |}; {| addr := a 2; healthy := true |}] in
  exists p' new, set_addrs [a 3; a 1; a 3] p h = (p', h ++ new)
    /\ pool_ok p' (h ++ new) /\ next p' = next p
    /\ member_addrs p' (h ++ new) = Some <$> nub [] [a 3; a 1; a 3]
    /\ (forall l c, l ∈ backends p' -> c ∈ backends p ->
          addr_at (h ++ new) l = addr_at h c -> l = c)
    /\ (forall l, l ∈ backends p' -> l ∉ backends p ->
          (length h <= l)%nat /\ is_healthy (h ++ new) l = false).
Proof.
  intros a p h. apply set_addrs_spec. split; [|split].
  - apply (bool_decide_unpack _). vm_compute. exact I.
  - apply (bool_decide_unpack _). vm_compute. exact I.
  - decided.
Defined.

(** ** Picking *)

Lemma pick_loop_index (bs : list loc) (start : Z) (i : nat) :
  is_u64 (start + Z.of_nat i) -> (0 < length bs)%nat ->
  exists be, bs !! Z.to_nat ((start + Z.of_nat i) mod Z.of_nat (length bs)) = Some be
    /\ bs !! Z.to_nat (wrap64 (start + Z.of_nat i) mod Z.of_nat (length bs)) = Some be.
Proof.
  intros Hu Hl. rewrite wrap64_id by done.
  destruct (lookup_lt_ex bs (Z.to_nat ((start + Z.of_nat i) mod Z.of_nat (length bs)))) as [be Hbe].
  { pose proof (Z.mod_pos_bound (start + Z.of_nat i) (Z.of_nat (length bs))). lia. }
  eauto.
Qed.

(** The loop finds a healthy member, or none of those it looked at is. *)
Lemma pick_loop_spec h bs start i k :
  0 <= start -> start + Z.of_nat (i + k) <= 18446744073709551616 -> (0 < length bs)%nat ->
  match pick_loop h bs start i k with
  | Some l => l ∈ bs /\ is_healthy h l = true
  | None => forall j l, (i <= j < i + k)%nat ->
      bs !! Z.to_nat ((start + Z.of_nat j) mod Z.of_nat (length bs)) = Some l ->
      is_healthy h l = false
  end.
Proof.
  intros Hs. revert i; induction k as [|k IH]; intros i Hb Hl; cbn [pick_loop]; [lia|].
  destruct (pick_loop_index bs start i) as (be & Hbe & ->); [unfold is_u64; lia | done |].
  destruct (is_healthy h be) eqn:Hh.
  - split; [by eapply list_elem_of_lookup_2 | done].
  - specialize (IH (S i)). destruct (pick_loop h bs start (S i) k); [apply IH; lia|].
    intros j l Hj Hjl. destruct (decide (i = j)) as [->|Hne]; [congruence|].
    eapply (IH ltac:(lia) Hl j l); [lia | done].
Qed.

(** Every index is met within [n] steps of any start. *)
Lemma index_met (start : Z) (n t : nat) :
  (t < n)%nat -> exists k, (k < n)%nat /\ Z.to_nat ((start + Z.of_nat k) mod Z.of_nat n) = t.
Proof.
  intros Ht. exists (Z.to_nat ((Z.of_nat t - start) mod Z.of_nat n)).
  pose proof (Z.mod_pos_bound (Z.of_nat t - start) (Z.of_nat n)) as H. split; [lia|].
  rewrite Z2Nat.id, Zplus_mod_idemp_r by lia.
  replace (start + (Z.of_nat t - start)) with (Z.of_nat t) by lia.
  rewrite Z.mod_small by lia. lia.
Qed.

Lemma pick_sound p h :
  0 <= next p -> next p + Z.of_nat (length (backends p)) <= 18446744073709551616 ->
  match (pick p h).1 with
  | Some l => l ∈ backends p /\ is_healthy h l = true
  | None => Forall (fun l => is_healthy h l = false) (backends p)
  end.
Proof.
  intros Hn Hb. unfold pick. case_bool_decide as H0; simpl.
  { by destruct (backends p); [constructor|]. }
  pose proof (pick_loop_spec h (backends p) (next p) 0 (length (backends p)) Hn Hb) as H.
  destruct (pick_loop _ _ _ _ _); [apply H; lia|].
  apply list.Forall_forall. intros l Hl. apply list_elem_of_lookup in Hl as [t Ht].
  pose proof (lookup_lt_Some _ _ _ Ht) as Hlt.
  destruct (index_met (next p) _ t Hlt) as (k & Hk & Hkt).
  apply (H ltac:(lia) k); [lia|]. by rewrite Hkt.
Qed.

(** A pick returns a healthy member, and [None] only when no member is
    healthy (equivalently, when [healthy_count] is zero).  The counter must not
    wrap within the pick. *)
Theorem pick_spec p h :
  0 <= next p -> next p + Z.of_nat (length (backends p)) <= 18446744073709551616 ->
  match (pick p h).1 with
  | Some l => l ∈ backends p /\ is_healthy h l = true
  | None => healthy_count p h = 0%nat
  end.
Proof.
  intros Hn Hb. pose proof (pick_sound p h Hn Hb) as H. destruct (pick p h).1; [done|].
  unfold healthy_count. clear Hb. induction H as [|l bs Hl _ IH]; [done|]. simpl. by rewrite Hl.
Qed.

Lemma pick_spec_witness :
  let a n := SockAddr (V4 (Ipv4 127 0 0 1)) n in
  let p := {| backends := [0; 1]%nat; next := 5 |} in
  let h := [{| addr := a 1; healthy := true |}; {| addr := a 2; healthy := false |}] in
  match (pick p h).1 with
  | Some l => l ∈ backends p /\ is_healthy h l = true
  | None => healthy_count p h = 0%nat
  end.
Proof. intros a p h. apply pick_spec; simpl; lia. Defined.

Lemma picks_length k p h : length (picks k p h) = k.
Proof.
  revert p; induction k as [|k IH]; intros p; simpl; [done|].
  destruct (pick p h). simpl. by rewrite IH.
Qed.

(** The [j]-th of several picks starts at the counter plus [j]. *)
Lemma picks_lookup h bs c k j :
  bs <> [] -> 0 <= c -> c + Z.of_nat k <= 18446744073709551616 -> (j < k)%nat ->
  picks k {| backends := bs; next := c |} h !! j
  = Some (pick_loop h bs (c + Z.of_nat j) 0 (length bs)).
Proof.
  intros Hne. revert c j; induction k as [|k IH]; intros c j Hc Hb Hj; [lia|].
  cbn [picks]. unfold pick. cbn [backends next].
  rewrite bool_decide_false by (by destruct bs).
  destruct j as [|j]; cbn [lookup list_lookup]; [by rewrite Z.add_0_r|].
  destruct (decide (c + 1 = 18446744073709551616)) as [E|E]; [exfalso; lia|].
  rewrite wrap64_id by (unfold is_u64; lia). rewrite IH by lia.
  do 2 f_equal. lia.
Qed.

Lemma pick_loop_healthy h bs c k l :
  is_u64 c -> bs !! Z.to_nat (c mod Z.of_nat (length bs)) = Some l -> is_healthy h l = true ->
  pick_loop h bs c 0 (S k) = Some l.
Proof.
  intros Hc Hl Hh. cbn [pick_loop]. rewrite Z.add_0_r, wrap64_id by done. by rewrite Hl, Hh.
Qed.

(** Round robin: as many consecutive picks as there are members return
    every healthy member at least once; when all are healthy, each exactly
    once. *)
Theorem picks_round_robin p h :
  pool_ok p h -> next p + 2 * Z.of_nat (length (backends p)) <= 18446744073709551616 ->
  let ps := picks (length (backends p)) p h in
  (forall l, l ∈ backends p -> is_healthy h l = true -> Some l ∈ ps)
  /\ (Forall (fun l => is_healthy h l = true) (backends p) -> ps ≡ₚ Some <$> backends p).
Proof.
  intros (Hv & Hnd & Hu) Hb ps. unfold is_u64 in Hu.
  assert (forall l, l ∈ backends p -> is_healthy h l = true -> Some l ∈ ps) as Hin.
  { intros l Hl Hh. apply list_elem_of_lookup in Hl as [t Ht].
    pose proof (lookup_lt_Some _ _ _ Ht) as Hlt.
    destruct (index_met (next p) _ t Hlt) as (k & Hk & Hkt).
    apply list_elem_of_lookup. exists k. unfold ps. destruct p as [bs c]; cbn [backends next] in *.
    rewrite picks_lookup by (lia || (by destruct bs)).
    destruct (length bs) as [|n] eqn:Hlen; [lia|].
    f_equal. apply pick_loop_healthy; [unfold is_u64; lia | | done]. by rewrite Hlen, Hkt. }
  split; [done|]. intros Hall. rewrite list.Forall_forall in Hall. symmetry.
  apply submseteq_length_Permutation.
  - apply NoDup_submseteq.
    + apply NoDup_fmap_2; [apply _|]. rewrite member_addrs_eq in Hnd. by apply NoDup_fmap_1 in Hnd.
    + intros o Ho. apply list_elem_of_fmap in Ho as (l & -> & Hl). auto.
  - unfold ps. by rewrite picks_length, length_fmap.
Qed.

Lemma picks_round_robin_witness :
  let a n := SockAddr (V4 (Ipv4 127 0 0 1)) n in
  let p := {| backends := [0; 1; 2]%nat; next := 5 |} in
  let h := [{| addr := a 1; healthy := true |}; {| addr := a 2; healthy := false |};
            {| addr := a 3; healthy := true |}] in
  Some 0%nat ∈ picks 3 p h /\ Some 2%nat ∈ picks 3 p h.
Proof.
  intros a p h. destruct (picks_round_robin p h) as [H _].
  - split; [|split]; apply (bool_decide_unpack _); vm_compute; exact I.
  - simpl. lia.
  - split; apply H; try reflexivity; apply (bool_decide_unpack _); vm_compute; exact I.
Defined.

(** ** Traces *)

Lemma last_verdict_snoc l es e :
  last_verdict l (es ++ [e]) =
    match e with
    | Verdict l' v => if bool_decide (l = l') then v else last_verdict l es
    | _ => last_verdict l es
    end.
Proof. unfold last_verdict. by rewrite fold_left_app. Qed.

Lemma pool_ok_set_healthy p h l v : pool_ok p h -> pool_ok p (set_healthy l v h).
Proof.
  intros (Hv & Hnd & Hu). unfold pool_ok, set_healthy. rewrite length_alter.
  split; [exact Hv|]. split; [|exact Hu]. rewrite member_addrs_eq in *.
  replace (addr_at _ <$> backends p) with (addr_at h <$> backends p); [done|].
  apply list_fmap_ext. intros i l' _. symmetry. apply addr_at_set_healthy.
Qed.

Lemma pool_ok_pick p h : pool_ok p h -> pool_ok (pick p h).2 h.
Proof.
  intros (Hv & Hnd & Hu). unfold pick. case_bool_decide; [done|].
  repeat split; auto; simpl; unfold wrap64; by apply Z.mod_pos_bound.
Qed.

Lemma pool_trace_ok es p h :
  pool_trace es (p, h) ->
  pool_ok p h /\ (forall l, is_healthy h l = true -> last_verdict l es = true).
Proof.
  remember (p, h) as s eqn:E. intros Ht. revert p h E.
  induction Ht as [addrs|es p0 h0 addrs _ IH|es p0 h0 _ IH|es p0 h0 l v _ IH Hl];
    intros p h E.
  - assert (pool_ok {| backends := []; next := 0 |} []) as H0 by (repeat split; constructor || done).
    destruct (set_addrs_spec addrs _ [] H0) as (p' & new & Heq & Hok & _ & Ha & _ & Hnew).
    unfold Pool_new in E. rewrite Heq in E. simplify_eq. split; [done|].
    intros l. destruct (set_addrs_loop_spec [] addrs [] [] []) as (rest & new' & Hl & Hf & _); try done.
    unfold set_addrs in Heq. simpl in Heq, Hl. rewrite Hl in Heq. simplify_eq/=.
    unfold is_healthy. destruct (new !! l) eqn:Hlk; [|done].
    eapply Forall_lookup_1 in Hf; [|done]. by rewrite Hf.
  - destruct (IH _ _ eq_refl) as [Hok Hlv].
    destruct (set_addrs_spec addrs p0 h0 Hok) as (p' & new & Heq & Hok' & _).
    rewrite Heq in E. simplify_eq. split; [done|].
    intros l. rewrite last_verdict_snoc. destruct (decide (l < length h0)%nat).
    + rewrite is_healthy_app by done. auto.
    + unfold set_addrs in Heq. destruct Hok as (Hv & _).
      destruct (set_addrs_loop_spec (backends p0) addrs [] h0 []) as (rest & new' & Hl & Hf & _); try done.
      rewrite Hl in Heq. simplify_eq. unfold is_healthy. rewrite lookup_app_r by lia.
      destruct (new !! _) eqn:Hlk; [|done]. eapply Forall_lookup_1 in Hf; [|done]. by rewrite Hf.
  - destruct (IH _ _ eq_refl) as [Hok Hlv]. simplify_eq. split; [by apply pool_ok_pick|].
    intros l. rewrite last_verdict_snoc. auto.
  - destruct (IH _ _ eq_refl) as [Hok Hlv]. simplify_eq. split; [by apply pool_ok_set_healthy|].
    intros l'. rewrite last_verdict_snoc, is_healthy_set_healthy by done.
    case_bool_decide; auto.
Qed.

(** Traffic only goes to verified backends: whatever the sequence of member
    changes, picks and health verdicts (verdicts on removed backends included),
    the members stay distinct, and a backend a pick returns is one whose own
    last verdict was healthy. *)
Theorem picked_was_verified es p h l :
  pool_trace es (p, h) -> next p + Z.of_nat (length (backends p)) <= 18446744073709551616 ->
  (pick p h).1 = Some l ->
  NoDup (member_addrs p h) /\ l ∈ backends p /\ last_verdict l es = true.
Proof.
  intros Ht Hb Hp. apply pool_trace_ok in Ht as [(Hv & Hnd & Hu) Hlv]. unfold is_u64 in Hu.
  pose proof (pick_spec p h ltac:(lia) Hb) as H. rewrite Hp in H. destruct H. auto.
Qed.

Lemma picked_was_verified_witness :
  let a n := SockAddr (V4 (Ipv4 127 0 0 1)) n in
  let s := Pool_new [a 1; a 2] [] in
  let p := s.1 in let h := set_healthy 1 true s.2 in
  NoDup (member_addrs p h) /\ 1%nat ∈ backends p /\ last_verdict 1 ([] ++ [Verdict 1 true]) = true.
Proof.
  intros a s p h. apply (picked_was_verified _ p h 1).
  - apply (trace_verdict [] p s.2 1 true); [exact (trace_new [a 1; a 2]) | vm_compute; lia].
  - vm_compute. discriminate.
  - vm_compute. reflexivity.
Defined.
