(* ===== verification/Balancer.v ===== *)
(** * The L4 balancer ([src/src/balancer.rs])

    A connection accepted on a VIP is proxied to the pool's pick, or dropped.
    [serve_one] is the task of one connection, [serve_vip] the loop over what
    [accept] yields; whether a backend can be dialled is an argument, and the
    copying of bytes is outside.  [bind] is the sequence of socket calls of the
    listener. *)

From S2P Require Import Prelude Str Metrics Net Pool.

(** ** Binding *)

(** What [bind] asks of the kernel, in order. *)
Inductive BindCall :=
| NewSocket | ReuseAddress | Freebind | FreebindV6 | BindTo (a : SocketAddr) | Listen (backlog : Z)
| Nonblocking | Register.

Definition bind_calls (listen : SocketAddr) : list BindCall :=
  [NewSocket; ReuseAddress; match sa_ip listen with V4 _ => Freebind | V6 _ => FreebindV6 end;
   BindTo listen; Listen 1024; Nonblocking; Register].

(** The calls made, up to the first that fails, and whether there is a listener. *)
Fixpoint calls_made (ok : BindCall -> bool) (cs : list BindCall) : list BindCall * bool :=
  match cs with
  | [] => ([], true)
  | c :: cs => if ok c then let '(made, b) := calls_made ok cs in (c :: made, b) else ([c], false)
  end.

Definition bind (ok : BindCall -> bool) (listen : SocketAddr) : list BindCall * bool := calls_made ok
  (bind_calls listen).

(** ** Connections *)

(** How a connection ends. *)
Inductive Served :=
| NoBackend                       (* dropped: no healthy backend *)
| ConnectFailed (l : loc)         (* dropped: the pick cannot be dialled *)
| Proxied (l : loc).              (* copied both ways until it ends *)

#[export] Instance Served_eq_dec : EqDecision Served.
Proof. solve_decision. Defined.

Definition vip_count (m : string) (vip : str) : Count := {| metric := m; labels := [("vip", vip)]%string |}.

(** The address [be.addr] of a backend. *)
Definition dials (connects : SocketAddr -> bool) (h : Heap) (l : loc) : bool :=
  match h !! l with Some b => connects (addr b) | None => false end.

(** One connection; the active gauge is up while it lasts. *)
Definition serve_one (vip : str) (connects : SocketAddr -> bool) (h : Heap) (p : Pool)
    : Pool * Served * list Count :=
  let '(r, p) := pick p h in
  let total := vip_count "stormlb_vip_connections_total" vip in
  match r with
  | None => (p, NoBackend, [total; vip_count "stormlb_vip_no_healthy_backend_total" vip])
  | Some l =>
      if dials connects h l then (p, Proxied l, [total])
      else (p, ConnectFailed l, [total; vip_count "stormlb_vip_upstream_connect_errors_total" vip])
  end.

(** What [accept] yields: an error, which is logged, or a connection, with the
    health of the backends and what can be dialled when its task runs; and between
    connections, the shared pool's members replaced by the registry. *)
Inductive Accept :=
| AcceptError
| Accepted (h : Heap) (connects : SocketAddr -> bool)
| Replaced (members : list loc).

Fixpoint serve_vip (vip : str) (as_ : list Accept) (p : Pool) : Pool * list Served * list Count :=
  match as_ with
  | [] => (p, [], [])
  | AcceptError :: as_ => serve_vip vip as_ p
  | Replaced bs :: as_ => serve_vip vip as_ {| backends := bs; next := next p |}
  | Accepted h connects :: as_ =>
      let '(p, s, cs) := serve_one vip connects h p in
      let '(p, ss, cs') := serve_vip vip as_ p in (p, s :: ss, cs ++ cs')
  end.

(** [serve]: no VIP's name.  [run]: bind, then that; [None] when [bind] fails. *)
Definition serve (as_ : list Accept) (p : Pool) : Pool * list Served * list Count := serve_vip [] as_ p.

Definition run (ok : BindCall -> bool) (listen : SocketAddr) (as_ : list Accept) (p : Pool)
    : option (Pool * list Served * list Count) :=
  if (bind ok listen).2 then Some (serve as_ p) else None.

(** ** Specification *)

Definition accepted (as_ : list Accept) : nat :=
  length (List.filter (fun a => match a with Accepted _ _ => true | _ => false end) as_).

(** How many of [cs] are of the metric [m]. *)
Definition counted (m : string) (cs : list Count) : nat :=
  length (List.filter (fun c => bool_decide (metric c = m)) cs).

Definition how_many (f : Served -> bool) (ss : list Served) : nat := length (List.filter f ss).
Definition dropped_none (s : Served) : bool := match s with NoBackend => true | _ => false end.
Definition dropped_connect (s : Served) : bool := match s with ConnectFailed _ => true | _ => false end.

(** What a connection's task meets: the health, what can be dialled, the members. *)
Record Met := { met_heap : Heap; met_connects : SocketAddr -> bool; met_members : list loc }.

(** The end that fits what it met. *)
Definition serves_well (m : Met) (s : Served) : Prop :=
  match s with
  | NoBackend => Forall (fun l => is_healthy (met_heap m) l = false) (met_members m)
  | ConnectFailed l => l ∈ met_members m /\ is_healthy (met_heap m) l = true
                       /\ dials (met_connects m) (met_heap m) l = false
  | Proxied l => l ∈ met_members m /\ is_healthy (met_heap m) l = true
                 /\ dials (met_connects m) (met_heap m) l = true
  end.

(** What each connection meets, the pool starting with members [bs]. *)
Fixpoint connections (as_ : list Accept) (bs : list loc) : list Met :=
  match as_ with
  | [] => []
  | AcceptError :: as_ => connections as_ bs
  | Accepted h c :: as_ => {| met_heap := h; met_connects := c; met_members := bs |} :: connections as_ bs
  | Replaced bs :: as_ => connections as_ bs
  end.

(** No more than [n] members at any time. *)
Definition members_within (n : nat) (as_ : list Accept) : Prop :=
  Forall (fun a => match a with Replaced bs => (length bs <= n)%nat | _ => True end) as_.

(** ** One pick *)

Lemma pick_members p h : backends (pick p h).2 = backends p.
Proof. unfold pick. by case_bool_decide. Qed.

Lemma pick_next p h : 0 <= next p ->
  0 <= next (pick p h).2 <= next p + 1.
Proof.
  intros H. unfold pick. case_bool_decide; cbn; [lia|]. unfold wrap64.
  pose proof (Z.mod_pos_bound (next p + 1) 18446744073709551616).
  pose proof (Z.mod_le (next p + 1) 18446744073709551616). lia.
Qed.

Lemma serve_one_members vip c h p : backends (serve_one vip c h p).1.1 = backends p
  /\ (serve_one vip c h p).1.1 = (pick p h).2.
Proof.
  pose proof (pick_members p h) as H. unfold serve_one. destruct (pick p h) as [[l|] p']; cbn in *; [|done].
  by destruct (dials c h l).
Qed.

Lemma serve_one_spec vip c h p :
  0 <= next p -> next p + Z.of_nat (length (backends p)) <= 18446744073709551616 ->
  let '(_, s, cs) := serve_one vip c h p in
  serves_well {| met_heap := h; met_connects := c; met_members := backends p |} s
  /\ counted "stormlb_vip_connections_total" cs = 1%nat
  /\ counted "stormlb_vip_no_healthy_backend_total" cs = how_many dropped_none [s]
  /\ counted "stormlb_vip_upstream_connect_errors_total" cs = how_many dropped_connect [s]
  /\ Forall (fun x => labels x = [("vip"%string, vip)]) cs.
Proof.
  intros Hn Hb. pose proof (pick_sound p h Hn Hb) as Hp. unfold serve_one.
  destruct (pick p h) as [[l|] p']; cbn in Hp; [|split_and!; repeat constructor; done].
  destruct (dials c h l) eqn:Ed; split_and!; try done; repeat constructor; naive_solver.
Qed.

(** C32: Every connection is accounted for and only healthy backends are dialled.
    Whatever the members, their health and their reachability are as connections
    arrive: each is proxied to a member that is healthy then and can be dialled,
    or dropped because the picked, healthy member cannot be dialled, or dropped
    because no member is healthy; and the three counters under the VIP's name
    are the connections accepted and the drops of each kind. *)
Theorem connections_accounted vip as_ p n :
  (length (backends p) <= n)%nat -> members_within n as_ ->
  0 <= next p -> next p + Z.of_nat (accepted as_ + n) <= 18446744073709551616 ->
  let '(_, ss, cs) := serve_vip vip as_ p in
  Forall2 serves_well (connections as_ (backends p)) ss
  /\ counted "stormlb_vip_connections_total" cs = accepted as_
  /\ counted "stormlb_vip_no_healthy_backend_total" cs = how_many dropped_none ss
  /\ counted "stormlb_vip_upstream_connect_errors_total" cs = how_many dropped_connect ss
  /\ Forall (fun x => labels x = [("vip"%string, vip)]) cs.
Proof.
  intros Hlen Hm. revert p Hlen. induction Hm as [|a as_ Ha _ IH]; intros p Hlen Hn Hb; cbn [serve_vip connections].
  { split_and!; try done; constructor. }
  destruct a as [|h c|bs]; [by apply IH| |by apply (IH {| backends := bs; next := next p |})].
  change (accepted (Accepted h c :: as_)) with (S (accepted as_)) in *.
  pose proof (serve_one_spec vip c h p Hn ltac:(lia)) as H1.
  pose proof (serve_one_members vip c h p) as [Hmem Hp].
  pose proof (pick_next p h) as Hx.
  destruct (serve_one vip c h p) as [[p1 s] cs] eqn:E1; cbn [fst] in Hmem, Hp. subst p1.
  specialize (IH (pick p h).2). rewrite Hmem in IH. specialize (IH Hlen ltac:(lia) ltac:(lia)).
  destruct (serve_vip vip as_ (pick p h).2) as [[p2 ss] cs'] eqn:E2.
  destruct H1 as (Hs & Ht & Hn0 & Hc & Hl). destruct IH as (Hs2 & Ht2 & Hn2 & Hc2 & Hl2).
  change (how_many ?f (s :: ss)) with (length (List.filter f ([s] ++ ss))).
  unfold counted, how_many in *. rewrite !List.filter_app, !length_app, Ht, Ht2, Hn0, Hn2, Hc, Hc2.
  split_and!; try done; [by constructor|by apply Forall_app].
Qed.

Lemma connections_accounted_witness :
  let a n := SockAddr (V4 (Ipv4 127 0 0 1)) n in
  let h v := [{| addr := a 1; healthy := v |}; {| addr := a 2; healthy := true |}] in
  let p := {| backends := [0; 1]%nat; next := 0 |} in
  let up x := bool_decide (x = a 2) in
  let as_ := [Accepted (h true) up; AcceptError; Accepted (h true) up; Accepted (h false) up;
              Replaced [0%nat]; Accepted (h false) up] in
  let r := serve_vip (lit "web") as_ p in
  r.1.2 = [ConnectFailed 0; Proxied 1; Proxied 1; NoBackend]%nat
  /\ counted "stormlb_vip_connections_total" r.2 = 4%nat
  /\ counted "stormlb_vip_upstream_connect_errors_total" r.2 = 1%nat.
Proof.
  intros a h p up as_ r. split; [vm_compute; reflexivity|].
  pose proof (connections_accounted (lit "web") as_ p 2) as H. fold r in H.
  assert (r = (r.1.1, r.1.2, r.2)) as Er by (vm_compute; reflexivity). rewrite Er in H.
  destruct H as (_ & Ht & _ & Hc & _); [cbn; lia|repeat constructor|cbn; lia|cbn; lia|].
  split; [exact Ht|]. rewrite Hc. vm_compute. reflexivity.
Defined.
