(* ===== verification/Config.v ===== *)
(** * Configuration records ([src/src/config.rs])

    The records the other files use, with serde's defaults, a TOML table being
    the record with [None] for an absent field ([HealthSpec_of], [VrrpCfg_of]).
    The tables of [router], [router.tls] and [metrics] are here too.  Reading the
    file and parsing TOML are arguments of [load]. *)

From S2P Require Import Prelude Str Net.

Inductive HealthMode := Tcp | Http | Https.

#[export] Instance HealthMode_eq_dec : EqDecision HealthMode.
Proof. solve_decision. Defined.

Record HealthSpec := {
  mode : HealthMode;
  path : str;
  interval_secs : Z;
  timeout_secs : Z;
  expect_status : list Z;
  ca_file : option str }.

#[export] Instance HealthSpec_eq_dec : EqDecision HealthSpec.
Proof. solve_decision. Defined.

Definition default_path : str := lit "/readyz".
Definition default_interval : Z := 2.
Definition default_timeout : Z := 2.
Definition default_expect : list Z := [200].

(** [HealthSpec::default]. *)
Definition HealthSpec_default : HealthSpec :=
  {| mode := Tcp; path := default_path; interval_secs := default_interval;
     timeout_secs := default_timeout; expect_status := default_expect; ca_file := None |}.

Record VrrpCfg := {
  vc_enabled : bool;
  vc_interface : str;
  vc_vrid : Z;
  vc_priority : Z;
  vc_preempt : bool;
  vc_advert_interval_secs : Z }.

Definition default_vrid : Z := 51.
Definition default_priority : Z := 100.
Definition default_preempt : bool := true.
Definition default_advert : Z := 1.
Definition default_bind : str := lit "0.0.0.0".
Definition default_api_listen : str := lit "127.0.0.1:9103".

(** The tables as deserialised, absent fields taking their defaults. *)
Definition HealthSpec_of (mode : option HealthMode) (path : option str)
    (interval_secs timeout_secs : option Z) (expect_status : option (list Z))
    (ca_file : option str) : HealthSpec :=
  {| mode := default Tcp mode; path := default default_path path;
     interval_secs := default default_interval interval_secs;
     timeout_secs := default default_timeout timeout_secs;
     expect_status := default default_expect expect_status; ca_file := ca_file |}.

Definition VrrpCfg_of (enabled : option bool) (interface : option str) (vrid priority : option Z)
    (preempt : option bool) (advert_interval_secs : option Z) : VrrpCfg :=
  {| vc_enabled := default false enabled; vc_interface := default [] interface;
     vc_vrid := default default_vrid vrid; vc_priority := default default_priority priority;
     vc_preempt := default default_preempt preempt;
     vc_advert_interval_secs := default default_advert advert_interval_secs |}.

(** An absent [vrrp] table ([VrrpCfg::default]: derived, not serde's defaults). *)
Definition VrrpCfg_default : VrrpCfg :=
  {| vc_enabled := false; vc_interface := []; vc_vrid := 0; vc_priority := 0;
     vc_preempt := false; vc_advert_interval_secs := 0 |}.

Record Vip := { v_address : str; v_port : Z; v_bind : str }.
Record BackendCfg := { be_address : str; be_port : Z }.

(** [BackendCfg::socket_addr]; [None] an error. *)
Definition socket_addr (b : BackendCfg) : option SocketAddr :=
  fst <$> parse_sockaddr (be_address b ++ [58] ++ dec (be_port b)).

Record ApiCfg := { listen : str; token_file : option str; state_file : option str }.

(** ** The other tables *)

Record BgpPeer := { bp_address : str; bp_asn : Z; bp_port : Z }.

Record BgpCfg := {
  bgp_enabled : bool;
  bgp_local_asn : Z;
  bgp_router_id : str;
  bgp_peers : list BgpPeer }.

Definition default_bgp_port : Z := 179.

Definition BgpPeer_of (address : str) (asn : Z) (port : option Z) : BgpPeer :=
  {| bp_address := address; bp_asn := asn; bp_port := default default_bgp_port port |}.

(** [BgpCfg::default], and serde's defaults. *)
Definition BgpCfg_of (enabled : option bool) (local_asn : option Z) (router_id : option str)
    (peers : option (list BgpPeer)) : BgpCfg :=
  {| bgp_enabled := default false enabled; bgp_local_asn := default 0 local_asn;
     bgp_router_id := default [] router_id; bgp_peers := default [] peers |}.

(** [router.tls] ([tls.rs]). *)
Record CertPair := { cert_file : str; key_file : str }.

Record TlsCfg := { t_listen : str; t_certs : list CertPair; t_redirect : bool; t_reload_secs : Z }.

Definition TlsCfg_of (listen : option str) (certs : option (list CertPair)) (redirect : option bool)
    (reload_secs : option Z) : TlsCfg :=
  {| t_listen := default (lit "auto:443") listen; t_certs := default [] certs;
     t_redirect := default true redirect; t_reload_secs := default 30 reload_secs |}.

(** [router] ([router.rs]). *)
Record RouterCfg := {
  r_listen : str; r_apiserver : str; r_poll_secs : Z; r_insecure : bool;
  r_ca_file : option str; r_token_file : option str; r_tls : option TlsCfg;
  r_backend_ca_file : option str }.

Definition RouterCfg_of (listen apiserver : option str) (poll_secs : option Z) (insecure : option bool)
    (ca_file token_file : option str) (tls : option TlsCfg) (backend_ca_file : option str) : RouterCfg :=
  {| r_listen := default (lit "0.0.0.0:80") listen; r_apiserver := default (lit "https://127.0.0.1:6443") apiserver;
     r_poll_secs := default 5 poll_secs; r_insecure := default true insecure; r_ca_file := ca_file;
     r_token_file := token_file; r_tls := tls; r_backend_ca_file := backend_ca_file |}.

(** [metrics] ([metrics.rs]). *)
Record MetricsCfg := { m_listen : str }.

Definition MetricsCfg_of (listen : option str) : MetricsCfg := {| m_listen := default (lit "auto:9104") listen |}.

(** ** The whole *)

Record Config := {
  vip : option Vip;
  backends : list BackendCfg;
  health : HealthSpec;
  vrrp : VrrpCfg;
  bgp : BgpCfg;
  router : option RouterCfg;
  api : option ApiCfg;
  metrics : option MetricsCfg }.

Inductive LoadError := ConfigUnreadable | ConfigUnparsable.

(** [load]; [toml] is [toml::from_str]. *)
Definition load (read_text : str -> option str) (toml : str -> option Config) (path : str) : LoadError + Config :=
  match read_text path with
  | None => inl ConfigUnreadable
  | Some text => match toml text with None => inl ConfigUnparsable | Some cfg => inr cfg end
  end.
