(* ===== verification/Bgp.v ===== *)
(** * BGP speaker: messages and session ([src/src/bgp.rs])

    The encoders ([open_msg], [update_announce], ...), the framing ([message],
    [read_msg]), the check of the peer's OPEN ([check_open]) and the session:
    [session_step] is one resolution of what the session waits on, [session] a
    whole session.  [parse_update] is a reference decoder of UPDATE messages,
    what a peer makes of the bytes. *)

From S2P Require Import Prelude Str Net Config.

(** ** Constants *)

Definition HOLD_TIME : Z := 180.
Definition OPEN : Z := 1.
Definition UPDATE : Z := 2.
Definition NOTIFICATION : Z := 3.
Definition KEEPALIVE : Z := 4.
Definition ERR_HEADER : Z := 1.
Definition ERR_OPEN : Z := 2.
Definition ERR_OPEN_VERSION : Z := 1.
Definition ERR_OPEN_PEER_AS : Z := 2.
Definition ERR_OPEN_HOLD : Z := 6.
Definition ERR_HOLD_EXPIRED : Z := 4.
Definition ERR_FSM : Z := 5.

(** ** Messages *)

Definition message (msg_type : Z) (body : list Z) : list Z :=
  let len := wrap16 (19 + Z.of_nat (length body)) in
  replicate 16 0xff ++ be16 len ++ [msg_type] ++ body.

Definition open_msg (local_asn hold : Z) (bgp_id : Ipv4Addr) : list Z :=
  message OPEN ([4] ++ be16 local_asn ++ be16 hold ++ octets bgp_id ++ [0]).

Definition keepalive_msg : list Z := message KEEPALIVE [].

Definition notification_msg (code sub : Z) : list Z := message NOTIFICATION [code; sub].

(** [&octets[..bytes]] panics beyond four bytes. *)
Definition encode_prefix (prefix : Ipv4Addr) (prefix_len : Z) : option (list Z) :=
  let bytes := Z.to_nat ((prefix_len + 7) / 8) in
  significant ← slice (octets prefix) 0 bytes;
  Some (prefix_len :: significant).

Definition update_announce (local_asn : Z) (next_hop prefix : Ipv4Addr) (prefix_len : Z)
    : option (list Z) :=
  let attrs := [0x40; 1; 1; 0] ++ [0x40; 2; 4; 2; 1] ++ be16 local_asn
                 ++ [0x40; 3; 4] ++ octets next_hop in
  nlri ← encode_prefix prefix prefix_len;
  Some (message UPDATE (be16 0 ++ be16 (wrap16 (Z.of_nat (length attrs))) ++ attrs ++ nlri)).

Definition update_withdraw (prefix : Ipv4Addr) (prefix_len : Z) : option (list Z) :=
  withdrawn ← encode_prefix prefix prefix_len;
  Some (message UPDATE (be16 (wrap16 (Z.of_nat (length withdrawn))) ++ withdrawn ++ be16 0)).

(** ** Reading *)

Abbreviation Msg := (Z * list Z)%type (only parsing).

Inductive ReadError := PeerClosed | BadMarker | BadLength (len : Z) | ShortRead.

(** [read_exact]: [n] bytes, or the stream ends first. *)
Definition read_exact (n : nat) (s : list Z) : option (list Z * list Z) :=
  if bool_decide (n <= length s)%nat then Some (take n s, drop n s) else None.

(** [read_msg] on a stream that ends after [s]; the outer option is a panic. *)
Definition read_msg (s : list Z) : option (ReadError + Msg * list Z) :=
  match read_exact 19 s with
  | None => Some (inl PeerClosed)
  | Some (hdr, s) =>
      marker ← slice hdr 0 16;
      if negb (bool_decide (marker = replicate 16 0xff)) then Some (inl BadMarker) else
      h16 ← hdr !! 16%nat; h17 ← hdr !! 17%nat;
      let len := of_be16 h16 h17 in
      if negb ((19 <=? len) && (len <=? 4096)) then Some (inl (BadLength len)) else
      match read_exact (Z.to_nat (len - 19)) s with
      | None => Some (inl ShortRead)
      | Some (body, s) => h18 ← hdr !! 18%nat; Some (inr ((h18, body), s))
      end
  end.

(** [spawn_reader]'s loop: the messages it sends on, up to the error that ends
    it.  Every message takes at least 19 bytes, so [length s] of fuel is enough;
    [None] is a panic or a lack of fuel. *)
Fixpoint reader_loop (fuel : nat) (s : list Z) : option (list Msg * ReadError) :=
  match fuel with
  | O => None
  | S fuel =>
      r ← read_msg s;
      match r with
      | inl e => Some ([], e)
      | inr (m, s) => '(ms, e) ← reader_loop fuel s; Some (m :: ms, e)
      end
  end.

Definition reader (s : list Z) : option (list Msg * ReadError) := reader_loop (S (length s)) s.

(** [check_open]: the peer's hold time, or the NOTIFICATION's code and subcode;
    the outer option is a panic. *)
Definition check_open (body : list Z) (want_asn : Z) : option (Z * Z + Z) :=
  if bool_decide (length body < 10)%nat then Some (inl (ERR_OPEN, 0)) else
  b0 ← body !! 0%nat;
  if negb (b0 =? 4) then Some (inl (ERR_OPEN, ERR_OPEN_VERSION)) else
  b1 ← body !! 1%nat; b2 ← body !! 2%nat;
  let asn := of_be16 b1 b2 in
  if negb (asn =? want_asn) then Some (inl (ERR_OPEN, ERR_OPEN_PEER_AS)) else
  b3 ← body !! 3%nat; b4 ← body !! 4%nat;
  let hold := of_be16 b3 b4 in
  if (hold =? 1) || (hold =? 2) then Some (inl (ERR_OPEN, ERR_OPEN_HOLD)) else
  Some (inr hold).

(** ** The session *)

Record SessionCfg := {
  peer_asn : Z;
  local_asn : Z;
  bgp_id : Ipv4Addr;
  next_hop : Ipv4Addr;
  vip : Ipv4Addr }.

(** Where the session waits: for the peer's OPEN, for its KEEPALIVE, or in the
    [select!] loop.  Time is in nanoseconds, [hold] in seconds; [far] stands for
    "never". *)
Definition far : Z := secs (365 * 24 * 3600).

(** The period of the keepalive ticker, [hold_d / 3]. *)
Definition ticker_period (hold : Z) : Z := if hold =? 0 then far else secs hold / 3.

Inductive Phase :=
| OpenSent
| OpenConfirm (hold : Z)
| Established (hold hold_deadline : Z) (announced : bool).

(** What the wait resolves to. *)
Inductive Event :=
| Recvd (t : Z) (body : list Z)    (* [next]: a message *)
| ReaderEnded                      (* [next]: the reader failed or closed *)
| WaitOver                         (* the [timeout] of OpenSent or OpenConfirm *)
| Tick                             (* the keepalive ticker *)
| HoldTimer                        (* [sleep_until(hold_deadline)] *)
| Advertise (want : bool)          (* [advertise.changed()], then its value *)
| AdvertiseGone.                   (* the health task's sender is dropped *)

(** [next] on what the reader's channel holds; [None] is the end of the channel. *)
Definition next_msg (r : option (ReadError + Msg)) : Event :=
  match r with Some (inr (t, body)) => Recvd t body | _ => ReaderEnded end.

(** [now] when it resolves, and whether the write that follows succeeds. *)
Record Input := { event : Event; now : Z; write_ok : bool }.

Inductive Outcome :=
| Running (ph : Phase)
| Ended                            (* [Err(_)]: the caller reconnects *)
| Panicked.

(** [w.write_all(m).await?], then go on. *)
Definition write (ok : bool) (m : list Z) (ph : Phase) : list (list Z) * Outcome :=
  if ok then ([m], Running ph) else ([], Ended).

(** [notify]: the write's result does not matter. *)
Definition notify (ok : bool) (code sub : Z) : list (list Z) * Outcome :=
  (if ok then [notification_msg code sub] else [], Ended).

(** [write] of a message whose encoder may panic. *)
Definition write_opt (ok : bool) (m : option (list Z)) (ph : Phase) : list (list Z) * Outcome :=
  match m with Some m => write ok m ph | None => ([], Panicked) end.

Definition on_open_sent (c : SessionCfg) (i : Input) : list (list Z) * Outcome :=
  match event i with
  | ReaderEnded => ([], Ended)
  | WaitOver => notify (write_ok i) ERR_HOLD_EXPIRED 0
  | Recvd t body =>
      if t =? OPEN then
        match check_open body (peer_asn c) with
        | None => ([], Panicked)
        | Some (inl (code, sub)) => notify (write_ok i) code sub
        | Some (inr peer_hold) =>
            write (write_ok i) keepalive_msg (OpenConfirm (Z.min HOLD_TIME peer_hold))
        end
      else if t =? NOTIFICATION then ([], Ended)
      else notify (write_ok i) ERR_FSM 0
  | _ => ([], Running OpenSent)
  end.

Definition on_open_confirm (hold : Z) (i : Input) : list (list Z) * Outcome :=
  match event i with
  | ReaderEnded => ([], Ended)
  | WaitOver => notify (write_ok i) ERR_HOLD_EXPIRED 0
  | Recvd t body =>
      if t =? KEEPALIVE then
        ([], Running (Established hold (now i + if hold =? 0 then far else secs hold) false))
      else if t =? NOTIFICATION then ([], Ended)
      else notify (write_ok i) ERR_FSM 0
  | _ => ([], Running (OpenConfirm hold))
  end.

(** The arms of the [select!].  [HoldTimer] resolves only from [hold_deadline] on. *)
Definition on_established (c : SessionCfg) (hold hold_deadline : Z) (announced : bool) (i : Input)
    : list (list Z) * Outcome :=
  let here := Established hold hold_deadline announced in
  match event i with
  | Tick => write (write_ok i) keepalive_msg here
  | HoldTimer =>
      if hold_deadline <=? now i then notify (write_ok i) ERR_HOLD_EXPIRED 0 else ([], Running here)
  | AdvertiseGone => ([], Ended)
  | Advertise want =>
      if want && negb announced then
        write_opt (write_ok i) (update_announce (wrap16 (local_asn c)) (next_hop c) (vip c) 32)
          (Established hold hold_deadline true)
      else if negb want && announced then
        write_opt (write_ok i) (update_withdraw (vip c) 32) (Established hold hold_deadline false)
      else ([], Running here)
  | ReaderEnded => ([], Ended)
  | Recvd t body =>
      let deadline := if negb (hold =? 0) then now i + secs hold else hold_deadline in
      if (t =? KEEPALIVE) || (t =? UPDATE) then ([], Running (Established hold deadline announced))
      else if t =? NOTIFICATION then ([], Ended)
      else if t =? OPEN then notify (write_ok i) ERR_FSM 0
      else notify (write_ok i) ERR_HEADER 3
  | WaitOver => ([], Running here)
  end.

Definition session_step (c : SessionCfg) (ph : Phase) (i : Input) : list (list Z) * Outcome :=
  match ph with
  | OpenSent => on_open_sent c i
  | OpenConfirm hold => on_open_confirm hold i
  | Established hold deadline announced => on_established c hold deadline announced i
  end.

Fixpoint session_steps (c : SessionCfg) (ph : Phase) (ins : list Input) : list (list Z) * Outcome :=
  match ins with
  | [] => ([], Running ph)
  | i :: ins =>
      match session_step c ph i with
      | (sent, Running ph') =>
          let '(sent', o) := session_steps c ph' ins in (sent ++ sent', o)
      | r => r
      end
  end.

(** A session, from the connection on: [connected] is [connect] within its
    timeout, [open_ok] the write of our OPEN. *)
Definition session (c : SessionCfg) (connected open_ok : bool) (ins : list Input)
    : list (list Z) * Outcome :=
  if negb connected then ([], Ended) else
  if negb open_ok then ([], Ended) else
  let '(sent, o) := session_steps c OpenSent ins in
  (open_msg (wrap16 (local_asn c)) HOLD_TIME (bgp_id c) :: sent, o).

(** ** Start *)

Record Peer := { peer_ip : Ipv4Addr; peer_port : Z; p_asn : Z }.

Inductive PreflightError := BadLocalAsn | NoPeers | BadRouterId.

Definition preflight (cfg : BgpCfg) : PreflightError + Ipv4Addr :=
  if (bgp_local_asn cfg =? 0) || (65535 <? bgp_local_asn cfg) then inl BadLocalAsn
  else if bool_decide (length (bgp_peers cfg) = 0)%nat then inl NoPeers
  else match parse_ipv4 (bgp_router_id cfg) with
       | Some a => inr a
       | None => inl BadRouterId
       end.

(** The sessions [spawn] starts, one per peer with an IPv4 address. *)
Definition spawn (cfg : BgpCfg) (vip next_hop : Ipv4Addr) : list (Peer * SessionCfg) :=
  let bgp_id := default next_hop (parse_ipv4 (bgp_router_id cfg)) in
  omap (fun peer =>
    match parse_ipv4 (bp_address peer) with
    | None => None
    | Some ip =>
        Some ({| peer_ip := ip; peer_port := bp_port peer; p_asn := bp_asn peer |},
              {| peer_asn := bp_asn peer; local_asn := bgp_local_asn cfg; bgp_id := bgp_id;
                 next_hop := next_hop; vip := vip |})
    end) (bgp_peers cfg).

(** ** What a peer makes of the UPDATEs

    A decoder of UPDATE bodies after RFC 4271, 4.3 (no extended-length
    attributes), and the routing table of a peer: the prefixes (length and
    significant bytes) mapped to the attributes they were announced with. *)

Abbreviation Prefix := (Z * list Z)%type (only parsing).
Abbreviation Attr := (Z * list Z)%type (only parsing).

Record Update := { withdrawn : list Prefix; attrs : list Attr; nlri : list Prefix }.

Fixpoint parse_prefixes (fuel : nat) (s : list Z) : option (list Prefix) :=
  match fuel, s with
  | _, [] => Some []
  | O, _ => None
  | S fuel, n :: s =>
      if 32 <? n then None else
      '(p, s) ← read_exact (Z.to_nat ((n + 7) / 8)) s;
      ps ← parse_prefixes fuel s; Some ((n, p) :: ps)
  end.

Fixpoint parse_attrs (fuel : nat) (s : list Z) : option (list Attr) :=
  match fuel, s with
  | _, [] => Some []
  | S fuel, _ :: ty :: len :: s =>
      '(v, s) ← read_exact (Z.to_nat len) s; l ← parse_attrs fuel s; Some ((ty, v) :: l)
  | _, _ => None
  end.

(** A length of two bytes, and that many bytes. *)
Definition counted (s : list Z) : option (list Z * list Z) :=
  match s with a :: b :: s => read_exact (Z.to_nat (of_be16 a b)) s | _ => None end.

Definition parse_update (body : list Z) : option Update :=
  '(w, s) ← counted body;
  '(a, n) ← counted s;
  w ← parse_prefixes (length w) w;
  a ← parse_attrs (length a) a;
  n ← parse_prefixes (length n) n;
  Some {| withdrawn := w; attrs := a; nlri := n |}.

Abbreviation Rib := (gmap (Z * list Z) (list (Z * list Z))) (only parsing).

Definition apply_update (rib : Rib) (u : Update) : Rib :=
  foldl (fun rib p => <[p := attrs u]> rib)
        (foldl (fun rib p => delete p rib) rib (withdrawn u)) (nlri u).

(** One message; [None] is an UPDATE the peer cannot decode. *)
Definition hear (rib : Rib) (m : Msg) : option Rib :=
  if m.1 =? UPDATE then u ← parse_update m.2; Some (apply_update rib u) else Some rib.

Definition hear_all (rib : Rib) (ms : list Msg) : option Rib :=
  foldl (fun r m => rib ← r; hear rib m) (Some rib) ms.

(** The table of a peer that has read the bytes [sent]. *)
Definition peer_rib (sent : list (list Z)) : option Rib :=
  '(ms, _) ← reader (mjoin sent); hear_all ∅ ms.

(** The attributes of the route we originate. *)
Definition route_attrs (asn : Z) (hop : Ipv4Addr) : list Attr :=
  [(1, [0]); (2, 2 :: 1 :: be16 asn); (3, octets hop)].

Definition frame (m : Msg) : list Z := message m.1 m.2.

Definition msg_ok (m : Msg) : Prop :=
  is_u8 m.1 /\ bytes_ok m.2 /\ Z.of_nat (length m.2) <= 4077.

(** ** Vocabulary of the theorems about sessions *)

Definition cfg_ok (c : SessionCfg) : Prop :=
  is_u32 (local_asn c) /\ is_u32 (peer_asn c) /\ ipv4_ok (bgp_id c) /\ ipv4_ok (next_hop c)
  /\ ipv4_ok (vip c).

Definition input_ok (i : Input) : Prop :=
  match event i with Recvd t body => msg_ok (t, body) | _ => True end.

Definition announced_in (ph : Phase) : bool :=
  match ph with Established _ _ a => a | _ => false end.

(** A BGP message on the wire (RFC 4271, 4.1): bytes, the marker, the length
    field that counts them all, at most 4096, and the type. *)
Definition on_wire (t : Z) (m : list Z) : Prop :=
  bytes_ok m /\ take 16 m = replicate 16 0xff
  /\ (exists h l, m !! 16%nat = Some h /\ m !! 17%nat = Some l /\ of_be16 h l = Z.of_nat (length m))
  /\ m !! 18%nat = Some t /\ (length m <= 4096)%nat.

Abbreviation types := (omap (fun m : list Z => m !! 18%nat)).

(** What may follow the OPEN: keepalives and updates, and a NOTIFICATION only
    as the last message of a session that ends. *)
Definition after_open (o : Outcome) (ts : list Z) : Prop :=
  exists mid fin, ts = mid ++ fin
    /\ Forall (fun t => t = KEEPALIVE \/ t = UPDATE) mid
    /\ (fin = [] \/ fin = [NOTIFICATION] /\ o = Ended).

(** The health the session was last told of since it was Established. *)
Fixpoint last_want (c : SessionCfg) (ph : Phase) (ins : list Input) (w : bool) : bool :=
  match ins with
  | [] => w
  | i :: ins =>
      match session_step c ph i with
      | (_, Running ph') =>
          last_want c ph' ins
            (match ph, event i with Established _ _ _, Advertise b => b | _, _ => w end)
      | _ => w
      end
  end.

(** The route of an established session, as the peer's table. *)
Definition route (c : SessionCfg) (a : bool) : Rib :=
  if a then {[ (32, octets (vip c)) := route_attrs (wrap16 (local_asn c)) (next_hop c) ]} else ∅.

(** When the peer was last heard: messages of any type count. *)
Fixpoint last_heard (t : Z) (ins : list Input) : Z :=
  match ins with
  | [] => t
  | i :: ins => last_heard (match event i with Recvd _ _ => now i | _ => t end) ins
  end.

(** ** Framing *)

Lemma message_length t b : length (message t b) = (19 + length b)%nat.
Proof. unfold message. rewrite !length_app, length_replicate. done. Qed.

(** [read_msg] on a header taken apart. *)
Lemma read_msg_header h1 h2 t s :
  is_u8 h1 -> is_u8 h2 ->
  read_msg (replicate 16 0xff ++ [h1; h2; t] ++ s) =
  let len := of_be16 h1 h2 in
  if negb ((19 <=? len) && (len <=? 4096)) then Some (inl (BadLength len)) else
  match read_exact (Z.to_nat (len - 19)) s with
  | None => Some (inl ShortRead)
  | Some (body, s) => Some (inr ((t, body), s))
  end.
Proof. done. Qed.

Lemma read_exact_app a s : read_exact (length a) (a ++ s) = Some (a, s).
Proof.
  unfold read_exact. rewrite bool_decide_true by (rewrite length_app; lia).
  by rewrite take_app_length, drop_app_length.
Qed.

Lemma read_exact_inv n s a r : read_exact n s = Some (a, r) -> s = a ++ r /\ length a = n.
Proof.
  unfold read_exact. case_bool_decide; intros [= <- <-].
  rewrite take_drop, length_take. split; [done|lia].
Qed.

Lemma message_ok m : msg_ok m ->
  frame m = replicate 16 0xff ++ [ (19 + Z.of_nat (length m.2)) / 256 mod 256;
                                  (19 + Z.of_nat (length m.2)) mod 256; m.1] ++ m.2.
Proof. intros (_ & _ & H). unfold frame, message. rewrite wrap16_id; [done|unfold is_u16; lia]. Qed.

Lemma read_msg_frame m s : msg_ok m -> read_msg (frame m ++ s) = Some (inr (m, s)).
Proof.
  intros Hm. rewrite message_ok, <- !app_assoc by done. destruct m as [t b], Hm as (Ht & Hb & Hl).
  cbn [fst snd] in *. rewrite read_msg_header by (unfold is_u8; zdiv).
  cbv zeta. rewrite of_be16_be16 by (unfold is_u16; lia).
  replace (Z.to_nat _) with (length b) by lia. rewrite read_exact_app.
  destruct (negb _) eqn:E; [|done]. bool_to_prop. destruct E; bool_to_prop; lia.
Qed.

(** Every byte stream is a frame and a rest, or ends the reader. *)
Lemma read_msg_cases s : bytes_ok s ->
  (exists e, read_msg s = Some (inl e))
  \/ exists m r, msg_ok m /\ s = frame m ++ r /\ read_msg s = Some (inr (m, r)).
Proof.
  intros Hs. destruct (decide (length s < 19)%nat) as [Hl|Hl].
  { left. exists PeerClosed. unfold read_msg, read_exact. by rewrite bool_decide_false by lia. }
  destruct (decide (take 16 s = replicate 16 0xff)) as [Hk|Hk].
  2:{ left. exists BadMarker. unfold read_msg, read_exact. rewrite bool_decide_true by lia.
      rewrite slice_Some by (try rewrite length_take; lia). cbn [mbind option_bind].
      rewrite drop_0, take_take. change (16 - 0)%nat with 16%nat. change (Nat.min 16 19) with 16%nat.
      by rewrite bool_decide_false. }
  rewrite <- (take_drop 16 s), Hk in Hs |- *.
  assert (3 <= length (drop 16 s))%nat as H3 by (rewrite length_drop; lia).
  destruct (drop 16 s) as [|h1 [|h2 [|t r]]]; simpl in H3; try lia.
  apply bytes_ok_app in Hs as [_ Hs]. apply bytes_ok_cons in Hs as [H1 Hs].
  apply bytes_ok_cons in Hs as [H2 Hs]. apply bytes_ok_cons in Hs as [Ht Hs].
  change (h1 :: h2 :: t :: r) with ([h1; h2; t] ++ r). rewrite read_msg_header by done. cbv zeta.
  destruct (negb _) eqn:Hlen; [left; eauto|].
  destruct (read_exact _ _) as [[b r']|] eqn:Hr; [right|left; eauto].
  exists (t, b), r'. apply read_exact_inv in Hr as [-> Hb]. apply bytes_ok_app in Hs as [Hs Hs'].
  bool_to_prop.
  assert (msg_ok (t, b)) as Hok.
  { repeat split; try done; simpl; try apply Ht. lia. }
  split; [done|]. split; [|done]. rewrite message_ok by done. simpl. rewrite Hb.
  unfold of_be16, is_u8 in *.
  replace (_ / 256 mod 256) with h1 by zdiv. replace (_ mod 256) with h2 by zdiv. done.
Qed.

Lemma frame_length m : (19 <= length (frame m))%nat.
Proof. unfold frame. rewrite message_length. lia. Qed.

Lemma frames_cons m ms : mjoin (frame <$> m :: ms) = frame m ++ mjoin (frame <$> ms).
Proof. done. Qed.

Lemma reader_loop_frames ms r e : forall fuel,
  Forall msg_ok ms -> read_msg r = Some (inl e) -> (length (mjoin (frame <$> ms)) < fuel)%nat ->
  reader_loop fuel (mjoin (frame <$> ms) ++ r) = Some (ms, e).
Proof.
  induction ms as [|m ms IH]; intros [|fuel] Hms Hr Hf; try (simpl in Hf; lia).
  - simpl. by rewrite Hr.
  - apply Forall_cons_iff in Hms as [Hm Hms]. rewrite frames_cons in Hf |- *.
    cbn [reader_loop]. rewrite <- app_assoc, read_msg_frame by done. cbn [mbind option_bind].
    pose proof (frame_length m). rewrite length_app in Hf. rewrite IH by (try done; lia). done.
Qed.

Lemma reader_loop_total : forall fuel s, bytes_ok s -> (length s < fuel)%nat ->
  exists ms e r, reader_loop fuel s = Some (ms, e) /\ Forall msg_ok ms
                 /\ s = mjoin (frame <$> ms) ++ r /\ read_msg r = Some (inl e).
Proof.
  induction fuel as [|fuel IH]; intros s Hs Hf; [lia|].
  destruct (read_msg_cases s Hs) as [[e He]|(m & r & Hm & -> & Hr)].
  - exists [], e, s. simpl. by rewrite He.
  - rewrite length_app in Hf. pose proof (frame_length m).
    apply bytes_ok_app in Hs as [_ Hs].
    destruct (IH r Hs) as (ms & e & r' & E & Hms & -> & He); [lia|].
    exists (m :: ms), e, r'. cbn [reader_loop]. rewrite Hr. cbn [mbind option_bind]. rewrite E.
    rewrite frames_cons, <- app_assoc. repeat split; try done. by constructor.
Qed.

(** The framing of the BGP stream, both ways: the reader never panics and
    always ends; what it delivers is [ms] and the error [e] if and only if the
    stream is the frames of [ms], each at most 4096 bytes, and a rest on which
    [read_msg] fails with [e].  So every message written by [message] comes out
    of the peer's reader unchanged and in order, whatever the boundaries. *)
Theorem reader_frames s :
  bytes_ok s ->
  (exists ms e, reader s = Some (ms, e))
  /\ forall ms e, reader s = Some (ms, e) <->
       Forall msg_ok ms /\ exists r, s = mjoin (frame <$> ms) ++ r /\ read_msg r = Some (inl e).
Proof.
  intros Hs. destruct (reader_loop_total (S (length s)) s Hs) as (ms0 & e0 & r0 & E & H0 & E0 & R0); [lia|].
  split; [by eauto|]. intros ms e. split.
  - unfold reader. rewrite E. intros [= <- <-]. eauto.
  - intros (Hms & r & -> & Hr). unfold reader. apply reader_loop_frames; try done.
    rewrite length_app. lia.
Qed.

Lemma reader_frames_witness :
  bytes_ok (frame (KEEPALIVE, []) ++ notification_msg 6 2 ++ [0xff])
  /\ reader (frame (KEEPALIVE, []) ++ notification_msg 6 2 ++ [0xff])
     = Some ([(KEEPALIVE, []); (NOTIFICATION, [6; 2])], PeerClosed).
Proof.
  assert (bytes_ok (frame (KEEPALIVE, []) ++ notification_msg 6 2 ++ [0xff])) as H by decided.
  split; [exact H|]. apply (proj2 (reader_frames _ H)).
  split; [decided|]. exists [0xff]. split; reflexivity.
Defined.

(** ** The peer's OPEN *)

(** A body of at least ten bytes, taken apart. *)
Lemma check_open_fields v a1 a2 h1 h2 r asn : (5 <= length r)%nat ->
  check_open (v :: a1 :: a2 :: h1 :: h2 :: r) asn =
  Some (if negb (v =? 4) then inl (ERR_OPEN, ERR_OPEN_VERSION)
        else if negb (of_be16 a1 a2 =? asn) then inl (ERR_OPEN, ERR_OPEN_PEER_AS)
        else if (of_be16 h1 h2 =? 1) || (of_be16 h1 h2 =? 2) then inl (ERR_OPEN, ERR_OPEN_HOLD)
        else inr (of_be16 h1 h2)).
Proof.
  intros. unfold check_open. rewrite bool_decide_false by (simpl; lia).
  cbn [lookup list_lookup mbind option_bind]. repeat case_match; done.
Qed.

Lemma check_open_short body asn :
  (length body < 10)%nat -> check_open body asn = Some (inl (ERR_OPEN, 0)).
Proof. intros. unfold check_open. by rewrite bool_decide_true. Qed.

(** [check_open] accepts exactly the OPENs of BGP version 4, of the
    configured AS, with a hold time that is 0 or at least 3 s, and returns that
    hold time; it never panics, and refuses everything else with an OPEN
    Message Error (code 2): subcode 0 exactly for a body shorter than an OPEN,
    else 1 (version), 2 (AS) or 6 (hold time). *)
Theorem check_open_spec body asn :
  bytes_ok body ->
  (forall hold, check_open body asn = Some (inr hold) <->
     exists id, (5 <= length id)%nat /\ body = 4 :: be16 asn ++ be16 hold ++ id
                /\ is_u16 asn /\ is_u16 hold /\ (hold = 0 \/ 3 <= hold))
  /\ ((exists hold, check_open body asn = Some (inr hold))
      \/ exists sub, check_open body asn = Some (inl (ERR_OPEN, sub))
                     /\ (sub = 0 <-> (length body < 10)%nat)
                     /\ sub ∈ [0; ERR_OPEN_VERSION; ERR_OPEN_PEER_AS; ERR_OPEN_HOLD]).
Proof.
  intros Hb. destruct (decide (length body < 10)%nat) as [Hl|Hl].
  { rewrite check_open_short by done. split.
    - intros hold. split; [done|]. intros (id & H & -> & _). simpl in Hl. lia.
    - right. exists 0. repeat split; auto with lia. set_solver. }
  destruct body as [|v [|a1 [|a2 [|h1 [|h2 r]]]]]; simpl in Hl; try lia.
  unfold bytes_ok in Hb. rewrite !Forall_cons_iff in Hb. destruct Hb as (Hv & Ha1 & Ha2 & Hh1 & Hh2 & Hr).
  rewrite check_open_fields by lia. split.
  - intros hold. split.
    + intros E. exists r. repeat (case_match; [done|]). injection E as <-. bool_to_prop.
      pose proof (of_be16_u16 a1 a2 Ha1 Ha2). pose proof (of_be16_u16 h1 h2 Hh1 Hh2). subst.
      split; [lia|]. split; [|split_and!; auto; unfold is_u16 in *; lia].
      unfold be16, of_be16, is_u8 in *. simpl. repeat f_equal; zdiv.
    + intros (id & Hid & E & Hasn & Hhold & Hh). unfold be16 in E. simpl in E. injection E as -> -> -> -> -> ->.
      rewrite !of_be16_be16 by done. change (4 =? 4) with true. rewrite (Z.eqb_refl asn). cbn [negb].
      repeat case_match; try done. bool_to_prop. destruct H; bool_to_prop; lia.
  - repeat case_match; [right|right|right|left; eauto];
      eexists; (split; [reflexivity|]); (split; [split; [done|simpl; lia]|set_solver]).
Qed.

Lemma check_open_spec_witness :
  bytes_ok (4 :: be16 65001 ++ be16 90 ++ [10; 0; 0; 1; 0])
  /\ check_open (4 :: be16 65001 ++ be16 90 ++ [10; 0; 0; 1; 0]) 65001 = Some (inr 90).
Proof.
  assert (bytes_ok (4 :: be16 65001 ++ be16 90 ++ [10; 0; 0; 1; 0])) as H by decided.
  split; [exact H|]. apply (proj1 (check_open_spec _ 65001 H)).
  exists [10; 0; 0; 1; 0]. split; [simpl; lia|]. split; [reflexivity|].
  unfold is_u16. lia.
Defined.

(** ** Well-formed messages *)

Lemma msg_ok_small t b : is_u8 t -> bytes_ok b -> (length b <= 100)%nat -> msg_ok (t, b).
Proof. intros. split_and!; cbn [fst snd]; try done. lia. Qed.

Lemma keepalive_ok : msg_ok (KEEPALIVE, []).
Proof. decided. Qed.

Lemma notification_ok code sub : is_u8 code -> is_u8 sub -> msg_ok (NOTIFICATION, [code; sub]).
Proof. intros. apply msg_ok_small; [done|solve_bytes|simpl; lia]. Qed.

Lemma open_ok asn hold id : ipv4_ok id ->
  msg_ok (OPEN, [4] ++ be16 asn ++ be16 hold ++ octets id ++ [0]).
Proof.
  intros Hid. unfold ipv4_ok in Hid. apply msg_ok_small; [done|solve_bytes|].
  rewrite !length_app, length_octets. simpl. lia.
Qed.

(** ** UPDATEs *)

Lemma parse_prefix_one n p :
  0 <= n <= 32 -> length p = Z.to_nat ((n + 7) / 8) ->
  parse_prefixes (length (n :: p)) (n :: p) = Some [(n, p)].
Proof.
  intros Hn Hp. cbn [length parse_prefixes]. destruct (Z.ltb_spec 32 n); [lia|].
  rewrite <- Hp. rewrite <- (app_nil_r p) at 2. rewrite read_exact_app.
  cbn [mbind option_bind]. by destruct (length p).
Qed.

Lemma encode_prefix_Some ip n : 0 <= n <= 32 ->
  exists p, encode_prefix ip n = Some (n :: p) /\ p = take (Z.to_nat ((n + 7) / 8)) (octets ip)
            /\ length p = Z.to_nat ((n + 7) / 8).
Proof.
  intros Hn. unfold encode_prefix.
  assert (Z.to_nat ((n + 7) / 8) <= 4)%nat by zdiv.
  rewrite slice_Some by (try (destruct ip; simpl); lia). cbn [mbind option_bind].
  rewrite drop_0, Nat.sub_0_r. eexists. split; [done|]. split; [done|].
  rewrite length_take. destruct ip; simpl. lia.
Qed.

Lemma counted_app a s : Z.of_nat (length a) < 65536 ->
  counted (be16 (wrap16 (Z.of_nat (length a))) ++ a ++ s) = Some (a, s).
Proof.
  intros. rewrite wrap16_id by (unfold is_u16; lia). unfold be16, counted. cbn [app].
  rewrite of_be16_be16 by (unfold is_u16; lia). rewrite Nat2Z.id. apply read_exact_app.
Qed.

Lemma parse_update_parts w a n ws at' ns :
  Z.of_nat (length w) < 65536 -> Z.of_nat (length a) < 65536 ->
  parse_prefixes (length w) w = Some ws -> parse_attrs (length a) a = Some at' ->
  parse_prefixes (length n) n = Some ns ->
  parse_update (be16 (wrap16 (Z.of_nat (length w))) ++ w ++
                be16 (wrap16 (Z.of_nat (length a))) ++ a ++ n)
  = Some {| withdrawn := ws; attrs := at'; nlri := ns |}.
Proof.
  intros Hlw Hla Hw Ha Hn. unfold parse_update.
  rewrite counted_app by done. cbn [mbind option_bind].
  rewrite counted_app by done. cbn [mbind option_bind].
  rewrite Hw, Ha, Hn. done.
Qed.

(** The attribute bytes of an announcement. *)
Lemma parse_route_attrs asn hop :
  let a := [0x40; 1; 1; 0] ++ [0x40; 2; 4; 2; 1] ++ be16 asn ++ [0x40; 3; 4] ++ octets hop in
  length a = 18%nat /\ parse_attrs (length a) a = Some (route_attrs asn hop).
Proof. by destruct hop. Qed.

(** A prefix as [encode_prefix] cuts it. *)
Definition significant (ip : Ipv4Addr) (n : Z) : Prefix :=
  (n, take (Z.to_nat ((n + 7) / 8)) (octets ip)).

Lemma encode_prefix_ok ip n : ipv4_ok ip -> 0 <= n <= 32 ->
  bytes_ok (n :: (significant ip n).2) /\ (length (significant ip n).2 <= 4)%nat
  /\ encode_prefix ip n = Some (n :: (significant ip n).2)
  /\ parse_prefixes (length (n :: (significant ip n).2)) (n :: (significant ip n).2)
     = Some [significant ip n].
Proof.
  intros Hip Hn. destruct (encode_prefix_Some ip n Hn) as (p & E & -> & Hl). cbn [significant snd].
  split_and!; [|rewrite length_take, length_octets; lia|done|by apply parse_prefix_one].
  apply bytes_ok_cons. split; [unfold is_u8; lia|by apply bytes_ok_take].
Qed.

Lemma announce_decodes asn hop prefix n :
  ipv4_ok hop -> ipv4_ok prefix -> 0 <= n <= 32 ->
  exists b, update_announce asn hop prefix n = Some (frame (UPDATE, b)) /\ msg_ok (UPDATE, b)
    /\ parse_update b = Some {| withdrawn := []; attrs := route_attrs asn hop;
                               nlri := [significant prefix n] |}.
Proof.
  intros Hh Hp Hn. destruct (encode_prefix_ok prefix n Hp Hn) as (Hb & Hl & E & Hpp).
  pose proof Hb as [Hn8 Hbp]%bytes_ok_cons.
  unfold update_announce. rewrite E. cbn [mbind option_bind].
  destruct (parse_route_attrs asn hop) as [Hal Hap]. unfold ipv4_ok in *.
  eexists. split; [reflexivity|]. split.
  - apply msg_ok_small; [done|solve_bytes|]. destruct hop. simpl in *. lia.
  - by apply (parse_update_parts []).
Qed.

Lemma withdraw_decodes prefix n : ipv4_ok prefix -> 0 <= n <= 32 ->
  exists b, update_withdraw prefix n = Some (frame (UPDATE, b)) /\ msg_ok (UPDATE, b)
    /\ parse_update b = Some {| withdrawn := [significant prefix n]; attrs := []; nlri := [] |}.
Proof.
  intros Hp Hn. destruct (encode_prefix_ok prefix n Hp Hn) as (Hb & Hl & E & Hpp).
  pose proof Hb as [Hn8 Hbp]%bytes_ok_cons.
  unfold update_withdraw. rewrite E. cbn [mbind option_bind].
  eexists. split; [reflexivity|]. split.
  - apply msg_ok_small; [done|solve_bytes|]. simpl in *. rewrite ?length_app. simpl. lia.
  - apply (parse_update_parts _ [] []); try done. simpl in *. lia.
Qed.

(** The UPDATEs, for every prefix length up to 32: the encoders do not
    panic, and a peer that decodes the announcement after RFC 4271 gets the one
    prefix, its significant bytes, with ORIGIN IGP, the AS_PATH of our AS alone
    and our NEXT_HOP, and no withdrawn route; from the withdrawal it gets the
    same prefix, withdrawn, and nothing else. *)
Theorem updates_decode asn hop prefix n :
  ipv4_ok hop -> ipv4_ok prefix -> 0 <= n <= 32 ->
  exists a w,
    update_announce asn hop prefix n = Some (frame (UPDATE, a)) /\ msg_ok (UPDATE, a)
    /\ update_withdraw prefix n = Some (frame (UPDATE, w)) /\ msg_ok (UPDATE, w)
    /\ parse_update a = Some {| withdrawn := []; attrs := route_attrs asn hop;
                               nlri := [significant prefix n] |}
    /\ parse_update w = Some {| withdrawn := [significant prefix n]; attrs := []; nlri := [] |}.
Proof.
  intros Hh Hp Hn. destruct (announce_decodes asn hop prefix n) as (a & ? & ? & ?); try done.
  destruct (withdraw_decodes prefix n) as (w & ? & ? & ?); try done. by exists a, w.
Qed.

Lemma updates_decode_witness :
  ipv4_ok (Ipv4 192 0 2 1) /\ ipv4_ok (Ipv4 10 1 2 3) /\ 0 <= 20 <= 32
  /\ exists a, update_announce 65010 (Ipv4 192 0 2 1) (Ipv4 10 1 2 3) 20 = Some (frame (UPDATE, a))
       /\ parse_update a = Some {| withdrawn := []; attrs := route_attrs 65010 (Ipv4 192 0 2 1);
                                   nlri := [(20, [10; 1; 2])] |}.
Proof.
  assert (ipv4_ok (Ipv4 192 0 2 1) /\ ipv4_ok (Ipv4 10 1 2 3) /\ 0 <= 20 <= 32)
    as (H2 & H3 & H4) by decided.
  repeat (split; [assumption|]).
  destruct (updates_decode 65010 _ _ 20 H2 H3 H4) as (a & w & Ha & _ & _ & _ & Hp & _).
  exists a. split; [exact Ha|]. exact Hp.
Defined.

(** ** Sessions *)

Lemma check_open_total body asn : exists r, check_open body asn = Some r.
Proof.
  destruct (decide (length body < 10)%nat) as [Hl|Hl]; [by rewrite check_open_short; eauto|].
  destruct body as [|v [|a1 [|a2 [|h1 [|h2 r]]]]]; simpl in Hl; try lia.
  rewrite check_open_fields by lia. eauto.
Qed.

Lemma check_open_codes body asn code sub :
  check_open body asn = Some (inl (code, sub)) -> is_u8 code /\ is_u8 sub.
Proof.
  destruct (decide (length body < 10)%nat) as [Hl|Hl].
  { rewrite check_open_short by done. intros [= <- <-]. decided. }
  destruct body as [|v [|a1 [|a2 [|h1 [|h2 r]]]]]; simpl in Hl; try lia.
  rewrite check_open_fields by lia. intros E. injection E as E.
  repeat case_match; simplify_eq; decided.
Qed.

(** A step does not panic; it sends well-formed messages, and they take the
    peer's table from the route of its phase to that of the next. *)
Definition step_ok (c : SessionCfg) (ph : Phase) (r : list (list Z) * Outcome) : Prop :=
  exists ms, r.1 = frame <$> ms /\ Forall msg_ok ms /\ r.2 <> Panicked
    /\ forall ph', r.2 = Running ph' ->
         hear_all (route c (announced_in ph)) ms = Some (route c (announced_in ph')).

Lemma step_ok_silent c ph o :
  o <> Panicked -> (forall ph', o = Running ph' -> announced_in ph' = announced_in ph) ->
  step_ok c ph ([], o).
Proof. intros Hp Ha. exists []. split_and!; try done. intros ph' E. simpl. by rewrite (Ha ph' E). Qed.

Lemma step_ok_write c ph ok m ph' :
  msg_ok m -> hear (route c (announced_in ph)) m = Some (route c (announced_in ph')) ->
  step_ok c ph (write ok (frame m) ph').
Proof.
  intros Hm Hr. destruct ok; [|by apply step_ok_silent]. exists [m]. simpl. split_and!; try done.
  - by constructor.
  - by intros ? [= <-].
Qed.

Lemma step_ok_notify c ph ok code sub :
  is_u8 code -> is_u8 sub -> step_ok c ph (notify ok code sub).
Proof.
  intros. destruct ok; [|by apply step_ok_silent]. exists [(NOTIFICATION, [code; sub])].
  split_and!; try done. constructor; [by apply notification_ok|constructor].
Qed.

Lemma route_insert c : <[(32, octets (vip c)) := route_attrs (wrap16 (local_asn c)) (next_hop c)]>
  (route c false) = route c true.
Proof. done. Qed.

Lemma route_delete c : delete (32, octets (vip c)) (route c true) = route c false.
Proof. unfold route. apply delete_singleton_eq. Qed.

(** A step that sends nothing, or a NOTIFICATION. *)
Ltac plain_step :=
  first [ solve [apply step_ok_silent; [done | by intros ? [= <-]]]
        | solve [apply step_ok_notify; done] ].

Lemma session_step_ok c ph i : cfg_ok c -> step_ok c ph (session_step c ph i).
Proof.
  intros (_ & _ & _ & Hh & Hv).
  assert (significant (vip c) 32 = (32, octets (vip c))) as Hsig by (by destruct (vip c)).
  destruct ph as [|hold|hold d a]; simpl.
  - unfold on_open_sent. destruct (event i) as [t body| | | | | |]; try plain_step.
    destruct (t =? OPEN); [|case_match; plain_step].
    destruct (check_open_total body (peer_asn c)) as [[[code sub]|h] E]; rewrite E.
    + apply check_open_codes in E as []. plain_step.
    + apply (step_ok_write _ _ _ (KEEPALIVE, [])); [apply keepalive_ok|done].
  - unfold on_open_confirm. destruct (event i); try plain_step.
    repeat case_match; plain_step.
  - unfold on_established. destruct (event i) as [t body| | | | |want|]; try plain_step.
    + repeat case_match; plain_step.
    + apply (step_ok_write _ _ _ (KEEPALIVE, [])); [apply keepalive_ok|done].
    + case_match; plain_step.
    + destruct (announce_decodes (wrap16 (local_asn c)) _ _ 32 Hh Hv) as (ab & Ea & Ha & Pa); [lia|].
      destruct (withdraw_decodes _ 32 Hv) as (wb & Ew & Hw & Pw); [lia|].
      rewrite Ea, Ew. cbn [write_opt].
      destruct want, a; cbn [andb negb]; try plain_step;
        apply step_ok_write; try done; unfold hear; cbn [fst snd announced_in];
        change (UPDATE =? UPDATE) with true; cbn iota; rewrite ?Pa, ?Pw;
        cbn [mbind option_bind]; rewrite Hsig; unfold apply_update;
        cbn [withdrawn nlri attrs foldl]; by rewrite ?route_delete.
Qed.

Lemma hear_all_app rib ms ms' :
  hear_all rib (ms ++ ms') = rib' ← hear_all rib ms; hear_all rib' ms'.
Proof.
  unfold hear_all. rewrite foldl_app. destruct (foldl _ _ ms); [done|].
  cbn [mbind option_bind]. by induction ms'.
Qed.

Lemma session_steps_ok c : cfg_ok c ->
  forall ins ph, step_ok c ph (session_steps c ph ins).
Proof.
  intros Hc. induction ins as [|i ins IH]; intros ph; simpl.
  { apply step_ok_silent; [done|]. by intros ? [= <-]. }
  destruct (session_step_ok c ph i Hc) as (ms & E & Hms & Hp & Hr).
  destruct (session_step c ph i) as [sent [ph'| |]]; cbn [fst snd] in *; subst.
  - destruct (IH ph') as (ms' & E' & Hms' & Hp' & Hr').
    destruct (session_steps c ph' ins) as [sent' o]. cbn [fst snd] in *. subst.
    exists (ms ++ ms'). cbn [fst snd]. rewrite fmap_app. split_and!; try done; [by apply Forall_app|].
    intros ph'' Ho. rewrite hear_all_app, (Hr ph' eq_refl). by apply Hr'.
  - exists ms. split_and!; try done.
  - done.
Qed.

Lemma session_step_want c ph i sent ph' :
  session_step c ph i = (sent, Running ph') ->
  announced_in ph' =
    match ph, event i with Established _ _ _, Advertise b => b | _, _ => announced_in ph end.
Proof.
  destruct ph as [|hold|hold d a]; simpl.
  - unfold on_open_sent, write, notify. repeat case_match; by intros; simplify_eq.
  - unfold on_open_confirm, notify. repeat case_match; by intros; simplify_eq.
  - unfold on_established, write_opt, write, notify.
    destruct (event i) as [| | | | |want|]; [| | | | |destruct want, a; cbn [andb negb]|];
      repeat case_match; intros; by simplify_eq/=.
Qed.

Lemma session_steps_want c ins : forall ph sent ph',
  session_steps c ph ins = (sent, Running ph') ->
  announced_in ph' = last_want c ph ins (announced_in ph).
Proof.
  induction ins as [|i ins IH]; intros ph sent ph'; simpl.
  { by intros [= <- <-]. }
  destruct (session_step c ph i) as [s0 [ph1| |]] eqn:E; try done.
  destruct (session_steps c ph1 ins) as [s1 o] eqn:E1. intros [= <- ->].
  rewrite (IH _ _ _ E1). by rewrite (session_step_want _ _ _ _ _ E).
Qed.

(** The OPEN we send, as a message. *)
Definition own_open (c : SessionCfg) : Msg :=
  (OPEN, [4] ++ be16 (wrap16 (local_asn c)) ++ be16 HOLD_TIME ++ octets (bgp_id c) ++ [0]).

Lemma session_running c ins :
  session c true true ins =
  (frame (own_open c) :: (session_steps c OpenSent ins).1, (session_steps c OpenSent ins).2).
Proof. unfold session. cbn [negb]. by destruct (session_steps c OpenSent ins). Qed.

(** What a peer reads of our OPEN and the messages after it. *)
Lemma reader_own c ms : cfg_ok c -> Forall msg_ok ms ->
  reader (mjoin (frame <$> own_open c :: ms)) = Some (own_open c :: ms, PeerClosed).
Proof.
  intros Hc Hms. unfold reader. rewrite <- (app_nil_r (mjoin (frame <$> own_open c :: ms))) at 2.
  apply reader_loop_frames; [|done|lia]. constructor; [apply open_ok, Hc|done].
Qed.

Lemma peer_rib_own c ms : cfg_ok c -> Forall msg_ok ms ->
  peer_rib (frame <$> own_open c :: ms) = hear_all ∅ ms.
Proof. intros Hc Hms. unfold peer_rib. by rewrite reader_own. Qed.

(** A session follows the health state.  Whatever the peer, the timers and
    the health task do: it never panics; every byte it sends belongs to a whole,
    well-formed message; and while it runs, the routing table of a peer that
    decodes what was sent holds our /32 with our attributes exactly when the
    last health state seen since Established was healthy, and no other route
    (in particular none before Established). *)
Theorem session_tracks_health c ins :
  cfg_ok c ->
  let '(sent, o) := session c true true ins in
  o <> Panicked
  /\ (exists ms, Forall msg_ok ms /\ reader (mjoin sent) = Some (ms, PeerClosed))
  /\ forall ph, o = Running ph ->
       peer_rib sent = Some (route c (announced_in ph))
       /\ announced_in ph = last_want c OpenSent ins false.
Proof.
  intros Hc. rewrite session_running.
  destruct (session_steps_ok c Hc ins OpenSent) as (ms & E & Hms & Hp & Hr).
  destruct (session_steps c OpenSent ins) as [sent o] eqn:Es. cbn [fst snd] in *. subst.
  change (frame (own_open c) :: (frame <$> ms)) with (frame <$> own_open c :: ms).
  split; [done|]. split.
  { eexists; split; [|by apply reader_own]. constructor; [apply open_ok, Hc|done]. }
  intros ph ->. split; [rewrite peer_rib_own by done; by apply (Hr ph)|].
  by eapply session_steps_want.
Qed.

Definition demo_cfg : SessionCfg :=
  {| peer_asn := 65002; local_asn := 65001; bgp_id := Ipv4 10 0 0 1; next_hop := Ipv4 10 0 0 1;
     vip := Ipv4 192 0 2 10 |}.

Definition at_time (t : Z) (e : Event) : Input := {| event := e; now := t; write_ok := true |}.

Definition demo_inputs : list Input :=
  [at_time 0 (Recvd OPEN (4 :: be16 65002 ++ be16 90 ++ [10; 0; 0; 2; 0]));
   at_time (secs 1) (Recvd KEEPALIVE []); at_time (secs 1) (Advertise true)].

Lemma session_tracks_health_witness :
  cfg_ok demo_cfg
  /\ peer_rib (session demo_cfg true true demo_inputs).1
     = Some {[ (32, [192; 0; 2; 10]) := route_attrs 65001 (Ipv4 10 0 0 1) ]}.
Proof.
  assert (cfg_ok demo_cfg) as H by (unfold cfg_ok; decided).
  split; [exact H|]. generalize (session_tracks_health demo_cfg demo_inputs H).
  destruct (session demo_cfg true true demo_inputs) as [sent o] eqn:E.
  vm_compute in E. injection E as <- <-. cbn [fst]. intros (_ & _ & Hr).
  exact (proj1 (Hr _ eq_refl)).
Defined.

(** ** The handshake and the hold timer *)

Lemma session_steps_cons c ph i ins sent o :
  session_steps c ph (i :: ins) = (sent, Running o) ->
  exists s1 ph1 s2, session_step c ph i = (s1, Running ph1)
    /\ session_steps c ph1 ins = (s2, Running o) /\ sent = s1 ++ s2.
Proof.
  simpl. destruct (session_step c ph i) as [s1 [ph1| |]] eqn:E; try done.
  destruct (session_steps c ph1 ins) as [s2 o2] eqn:E2. intros [= <- ->]. eauto 6.
Qed.

Lemma open_confirm_steps c hold ins : forall sent h d a,
  session_steps c (OpenConfirm hold) ins = (sent, Running (Established h d a)) ->
  exists ins1 i b ins2, ins = ins1 ++ i :: ins2 /\ event i = Recvd KEEPALIVE b
    /\ session_steps c (OpenConfirm hold) ins1 = ([], Running (OpenConfirm hold))
    /\ session_steps c (Established hold (now i + if hold =? 0 then far else secs hold) false) ins2
       = (sent, Running (Established h d a)).
Proof.
  induction ins as [|i ins IH]; intros sent h d a; [done|].
  intros (s1 & ph1 & s2 & E1 & E2 & ->)%session_steps_cons.
  unfold session_step, on_open_confirm, notify in E1.
  destruct (event i) as [t b| | | | | |] eqn:Ei; try discriminate E1.
  1: destruct (t =? KEEPALIVE) eqn:Et; [|destruct (t =? NOTIFICATION); discriminate E1].
  1: apply Z.eqb_eq in Et as ->; injection E1 as <- <-; by exists [], i, b, ins.
  all: injection E1 as <- <-; apply IH in E2 as (ins1 & k & b & ins2 & -> & Hk & H1 & H2);
    exists (i :: ins1), k, b, ins2; split_and!; try done;
    cbn [session_steps session_step]; unfold on_open_confirm; rewrite Ei, H1; done.
Qed.

Lemma open_sent_steps c ins : forall sent h d a,
  session_steps c OpenSent ins = (sent, Running (Established h d a)) ->
  exists ins1 i b peer_hold ins2 sent',
    ins = ins1 ++ i :: ins2 /\ event i = Recvd OPEN b
    /\ check_open b (peer_asn c) = Some (inr peer_hold) /\ sent = keepalive_msg :: sent'
    /\ session_steps c OpenSent ins1 = ([], Running OpenSent)
    /\ session_steps c (OpenConfirm (Z.min HOLD_TIME peer_hold)) ins2
       = (sent', Running (Established h d a)).
Proof.
  induction ins as [|i ins IH]; intros sent h d a; [done|].
  intros (s1 & ph1 & s2 & E1 & E2 & ->)%session_steps_cons.
  unfold session_step, on_open_sent, notify, write in E1.
  destruct (event i) as [t b| | | | | |] eqn:Ei; try discriminate E1.
  1: destruct (t =? OPEN) eqn:Et; [|destruct (t =? NOTIFICATION); discriminate E1].
  1: destruct (check_open b (peer_asn c)) as [[[code sub]|hold]|] eqn:Ec; try discriminate E1;
     destruct (write_ok i); try discriminate E1; apply Z.eqb_eq in Et as ->;
     injection E1 as <- <-; by exists [], i, b, hold, ins, s2.
  all: injection E1 as <- <-;
    apply IH in E2 as (ins1 & k & b & hold & ins2 & s' & -> & Hk & Hc & -> & H1 & H2);
    exists (i :: ins1), k, b, hold, ins2, s'; split_and!; try done;
    cbn [session_steps session_step]; unfold on_open_sent; rewrite Ei, H1; done.
Qed.

Lemma established_steps c ins : forall hold d a sent ph,
  session_steps c (Established hold d a) ins = (sent, Running ph) ->
  exists d' a', ph = Established hold d' a'
    /\ (hold <> 0 -> forall t, d = t + secs hold -> d' = last_heard t ins + secs hold).
Proof.
  induction ins as [|i ins IH]; intros hold d a sent ph.
  { intros [= <- <-]. eauto. }
  intros (s1 & ph1 & s2 & E1 & E2 & ->)%session_steps_cons.
  assert (exists d1 a1, ph1 = Established hold d1 a1 /\ (hold <> 0 -> forall t, d = t + secs hold ->
            d1 = (match event i with Recvd _ _ => now i | _ => t end) + secs hold))
    as (d1 & a1 & -> & Hd1).
  { unfold session_step, on_established, notify, write_opt, write in E1.
    repeat case_match; simplify_eq; eexists _, _; (split; [reflexivity|]); intros; try done.
    all: bool_to_prop; congruence. }
  apply IH in E2 as (d' & a' & -> & Hd'). exists d', a'. split; [done|].
  intros Hh t Ht. simpl. apply Hd'; [done|]. by apply Hd1.
Qed.

Lemma session_steps_app c ins ins' : forall ph,
  session_steps c ph (ins ++ ins') =
  match session_steps c ph ins with
  | (s, Running ph') => let '(s', o) := session_steps c ph' ins' in (s ++ s', o)
  | r => r
  end.
Proof.
  induction ins as [|i ins IH]; intros ph; simpl.
  - by destruct (session_steps c ph ins').
  - destruct (session_step c ph i) as [s1 [ph1| |]]; [|done..]. rewrite IH.
    destruct (session_steps c ph1 ins) as [s2 [ph2| |]]; [|done..].
    destruct (session_steps c ph2 ins') as [s3 o]. by rewrite app_assoc.
Qed.

(** Established means the whole handshake, and the hold timer is the
    peer's silence.  A session that runs Established has received an OPEN that
    [check_open] accepts and then a KEEPALIVE, and up to there it sent its OPEN
    and one KEEPALIVE, nothing else; its hold time is the smaller of ours and
    the peer's.  With a hold time, a firing hold timer ends the session with
    a Hold Timer Expired NOTIFICATION exactly when the last message from the
    peer is at least that old. *)
Theorem established_after_handshake c ins sent hold d a :
  session c true true ins = (sent, Running (Established hold d a)) ->
  exists ins1 i1 b1 ins2 i2 b2 ins3 peer_hold,
    ins = ins1 ++ i1 :: ins2 ++ i2 :: ins3
    /\ event i1 = Recvd OPEN b1 /\ check_open b1 (peer_asn c) = Some (inr peer_hold)
    /\ event i2 = Recvd KEEPALIVE b2 /\ hold = Z.min 180 peer_hold
    /\ session c true true (ins1 ++ i1 :: ins2)
       = ([frame (own_open c); keepalive_msg], Running (OpenConfirm hold))
    /\ (hold <> 0 -> forall i, event i = HoldTimer ->
          session c true true (ins ++ [i]) =
          if last_heard (now i2) ins3 + secs hold <=? now i
          then (sent ++ if write_ok i then [notification_msg ERR_HOLD_EXPIRED 0] else [], Ended)
          else (sent, Running (Established hold d a))).
Proof.
  rewrite session_running. destruct (session_steps c OpenSent ins) as [s o] eqn:E.
  cbn [fst snd]. intros [= <- ->]. pose proof E as E0.
  apply open_sent_steps in E as (ins1 & i1 & b1 & ph & ins' & s' & -> & Hi1 & Hc & -> & H1 & E).
  apply open_confirm_steps in E as (ins2 & i2 & b2 & ins3 & -> & Hi2 & H2 & E).
  pose proof (established_steps _ _ _ _ _ _ _ E) as (d' & a' & [= -> <- <-] & Hd).
  exists ins1, i1, b1, ins2, i2, b2, ins3, ph. split_and!; try done.
  - assert (write_ok i1 = true) as Hw.
    { rewrite session_steps_app, H1 in E0. cbn [session_steps session_step] in E0.
      unfold on_open_sent in E0. rewrite Hi1, Hc in E0. by destruct (write_ok i1). }
    rewrite session_running, session_steps_app, H1. cbn [session_steps session_step].
    unfold on_open_sent. rewrite Hi1, Hc, Hw. cbn. by rewrite H2.
  - intros Hh i Hi. rewrite session_running, session_steps_app, E0.
    cbn [session_steps session_step]. unfold on_established. rewrite Hi.
    specialize (Hd Hh (now i2)). rewrite (proj2 (Z.eqb_neq _ 0) Hh) in Hd.
    rewrite (Hd eq_refl). destruct (_ <=? now i); [|by rewrite !app_nil_r].
    unfold notify. by destruct (write_ok i).
Qed.

Lemma established_after_handshake_witness :
  session demo_cfg true true demo_inputs
  = ((session demo_cfg true true demo_inputs).1, Running (Established 90 (secs 91) true))
  /\ exists b1 peer_hold, check_open b1 65002 = Some (inr peer_hold) /\ 90 = Z.min 180 peer_hold.
Proof.
  assert (session demo_cfg true true demo_inputs
    = ((session demo_cfg true true demo_inputs).1, Running (Established 90 (secs 91) true))) as H
    by (vm_compute; reflexivity).
  split; [exact H|].
  destruct (established_after_handshake _ _ _ _ _ _ H)
    as (_ & _ & b1 & _ & _ & _ & _ & ph & _ & _ & Hc & _ & Hm & _).
  exists b1, ph. split; [exact Hc|exact Hm].
Defined.

(** ** The messages of a session *)

Lemma frame_on_wire m : msg_ok m -> on_wire m.1 (frame m).
Proof.
  intros Hm. unfold on_wire. pose proof (message_length m.1 m.2) as Hl. pose proof Hm as (Ht & Hb & Hk).
  change (message m.1 m.2) with (frame m) in Hl. rewrite Hl. rewrite message_ok by done.
  split_and!; [|done|eexists _, _; split_and!; [done..|]|done|lia].
  - apply bytes_ok_app; split; [decided|]. repeat (apply bytes_ok_cons; split); try done; unfold is_u8; zdiv.
  - rewrite of_be16_be16 by (unfold is_u16; lia). lia.
Qed.

Lemma types_frames ms : Forall msg_ok ms ->
  Forall2 on_wire (types (frame <$> ms)) (frame <$> ms).
Proof.
  induction 1 as [|m ms Hm _ IH]; cbn [fmap list_fmap omap list_omap]; [constructor|].
  pose proof (frame_on_wire m Hm) as H. pose proof H as (_ & _ & _ & E & _). rewrite E.
  by constructor.
Qed.

(** The types of what a step sends. *)
Lemma session_step_types c ph i sent o : session_step c ph i = (sent, o) ->
  after_open o (types sent)
  /\ ((exists ph', o = Running ph') -> Forall (fun t => t = KEEPALIVE \/ t = UPDATE)
                                      (types sent)).
Proof.
  intros H.
  assert ((exists ph', o = Running ph') /\ Forall (fun t => t = KEEPALIVE \/ t = UPDATE)
            (types sent)
          \/ (o = Ended \/ o = Panicked) /\ sent = []
          \/ o = Ended /\ types sent = [NOTIFICATION]) as Hc.
  { revert H. destruct ph; cbn [session_step];
      unfold on_open_sent, on_open_confirm, on_established, write_opt, write, notify,
        update_announce, update_withdraw; cbv zeta;
      repeat case_match; intros; simplify_eq; naive_solver. }
  destruct Hc as [[Hr Hk]|[[Ho ->]|[-> E]]].
  - split; [|done]. exists (types sent), []. rewrite app_nil_r. auto.
  - split; [by exists [], []; auto|]. intros [? ->]. naive_solver.
  - rewrite E. split; [by exists [], [NOTIFICATION]; auto|]. by intros [].
Qed.

Lemma session_steps_types c ins : forall ph sent o, session_steps c ph ins = (sent, o) ->
  after_open o (types sent).
Proof.
  induction ins as [|i ins IH]; intros ph sent o; cbn [session_steps].
  { intros [= <- <-]. exists [], []. auto. }
  destruct (session_step c ph i) as [s1 o1] eqn:E. apply session_step_types in E as [Ht Hr].
  destruct o1 as [ph1| |]; [|by intros [= <- <-]..].
  destruct (session_steps c ph1 ins) as [s2 o2] eqn:E2. intros [= <- <-].
  apply IH in E2 as (mid & fin & E2 & Hm & Hf). rewrite omap_app, E2.
  eexists _, fin. rewrite app_assoc. split; [done|]. split; [apply Forall_app|]; eauto.
Qed.

(** C37: What a session puts on its connection is BGP, whatever the peer sends
    and whenever a write fails: every message is whole (marker, a length field
    that is its length, at most 4096 bytes, a type); the first is the OPEN; the
    ones after it are KEEPALIVEs and UPDATEs, and a NOTIFICATION only as the
    last message of a session that ends. *)
Theorem session_speaks_bgp c connected open_ok ins sent o :
  cfg_ok c -> session c connected open_ok ins = (sent, o) ->
  (sent = [] /\ o = Ended)
  \/ exists op rest ts, sent = op :: rest /\ on_wire OPEN op
       /\ Forall2 on_wire ts rest /\ after_open o ts.
Proof.
  intros Hc. destruct connected, open_ok; [|by intros [= <- <-]; left..].
  rewrite session_running. destruct (session_steps c OpenSent ins) as [s o'] eqn:E.
  cbn [fst snd]. intros [= <- <-]. right.
  destruct (session_steps_ok c Hc ins OpenSent) as (ms & Es & Hms & _).
  rewrite E in Es. cbn [fst] in Es. eexists _, _, _. split; [done|].
  split; [apply (frame_on_wire (own_open c)), open_ok, Hc|].
  split; [|by eapply session_steps_types]. rewrite Es. by apply types_frames.
Qed.

Lemma session_speaks_bgp_witness :
  exists op rest ts, (session demo_cfg true true demo_inputs).1 = op :: rest /\ on_wire OPEN op
    /\ Forall2 on_wire ts rest.
Proof.
  destruct (session_speaks_bgp demo_cfg true true demo_inputs
              (session demo_cfg true true demo_inputs).1 (session demo_cfg true true demo_inputs).2)
    as [[E _]|(op & rest & ts & E & Ho & Hr & _)].
  - decided.
  - vm_compute. reflexivity.
  - exfalso. revert E. vm_compute. done.
  - by exists op, rest, ts.
Defined.

(** ** The sessions that are started *)

Lemma spawn_session cfg v hop p c id :
  preflight cfg = inr id -> (p, c) ∈ spawn cfg v hop ->
  local_asn c = bgp_local_asn cfg /\ bgp_id c = id /\ ipv4_ok id.
Proof.
  intros Hp Hin. unfold preflight in Hp. repeat case_match; simplify_eq.
  unfold spawn in Hin. apply list_elem_of_omap in Hin as (peer & _ & Hx).
  rewrite H1 in Hx. cbn [default] in Hx. case_match; simplify_eq. split_and!; try done.
  by eapply parse_ipv4_ok.
Qed.

Definition demo_bgp (asn peer : Z) (id addr : str) : BgpCfg :=
  {| bgp_enabled := true; bgp_local_asn := asn; bgp_router_id := id;
     bgp_peers := [{| bp_address := addr; bp_asn := peer; bp_port := 179 |}] |}.
