(* ===== verification/Anycast.v ===== *)
(** * The anycast route and the pool ([src/src/main.rs] with [src/src/bgp.rs])

    The health task of [main] samples the pool into a watch channel, and the task
    [spawn] starts for a peer holds one session after another, which read the
    channel's changes.  Both run concurrently: a [Moment] is a sample, something the
    session wakes for or a new attempt after a session has ended, and a run is any
    sequence of them. *)

From S2P Require Import Prelude Net Pool Bgp.

(** ** The two tasks *)

(** The value in the channel, whether the peer's task has seen it, where its session
    is, and what was sent on the session's connection. *)
Record Anycast := { value : bool; seen : bool; session_at : Outcome; sent : list (list Z) }.

Inductive Moment :=
| Sample (p : Pool) (h : Heap)     (* a turn of the health task *)
| Wake (i : Input)                 (* the session's [select!], or its waits before *)
| Retry (connected open_ok : bool).  (* the task's next session: [connect], our OPEN *)

(** [send_if_modified]: a value that is new is unseen. *)
Definition sample (p : Pool) (h : Heap) (s : Anycast) : Anycast :=
  let healthy := bool_decide (0 < healthy_count p h)%nat in
  {| value := healthy; seen := seen s && Bool.eqb healthy (value s); session_at := session_at s; sent := sent s |}.

Definition established (ph : Phase) : bool := match ph with Established _ _ _ => true | _ => false end.

(** What the session reads: [changed] is pending unless a value is unseen, and
    then it reads the channel's. *)
Definition reads (s : Anycast) (ph : Phase) (i : Input) : option Input :=
  match event i with
  | Advertise _ =>
      if established ph && negb (seen s)
      then Some {| event := Advertise (value s); now := now i; write_ok := write_ok i |} else None
  | _ => Some i
  end.

(** [mark_changed] on becoming Established, [borrow_and_update] on reading. *)
Definition wake (c : SessionCfg) (i : Input) (s : Anycast) : Anycast :=
  match session_at s with
  | Running ph =>
      match reads s ph i with
      | None => s
      | Some i =>
          let '(ms, o) := session_step c ph i in
          {| value := value s;
             seen := match event i, o with
                     | Advertise _, _ => true
                     | _, Running ph' => if established ph' && negb (established ph) then false else seen s
                     | _, _ => seen s
                     end;
             session_at := o; sent := sent s ++ ms |}
      end
  | _ => s
  end.

(** A session is begun when the one before has ended, on a new connection. *)
Definition retry (c : SessionCfg) (connected open_ok : bool) (s : Anycast) : Anycast :=
  match session_at s with
  | Ended =>
      let '(ms, o) := session c connected open_ok [] in
      {| value := value s; seen := seen s; session_at := o; sent := ms |}
  | _ => s
  end.

Definition moment (c : SessionCfg) (m : Moment) (s : Anycast) : Anycast :=
  match m with
  | Sample p h => sample p h s
  | Wake i => wake c i s
  | Retry connected open_ok => retry c connected open_ok s
  end.

Definition run (c : SessionCfg) (ms : list Moment) (s : Anycast) : Anycast := foldl (fun s m => moment c m s) s ms.

(** The tasks as [main] starts them, over [watch::channel(false)]. *)
Definition started : Anycast := {| value := false; seen := true; session_at := Ended; sent := [] |}.

(** What the channel holds after the samples of a run. *)
Definition last_health (b : bool) (ms : list Moment) : bool :=
  foldl (fun b m => match m with Sample p h => bool_decide (0 < healthy_count p h)%nat | _ => b end) b ms.

(** ** The invariant *)

(** What was sent has brought the peer's table to the session's own view, and what
    the session has seen is what it announced. *)
Definition in_step (c : SessionCfg) (s : Anycast) : Prop :=
  match session_at s with
  | Running ph =>
      (exists ms, sent s = frame <$> own_open c :: ms /\ Forall msg_ok ms
                  /\ hear_all ∅ ms = Some (route c (announced_in ph)))
      /\ (established ph = true -> seen s = true -> announced_in ph = value s)
  | _ => True
  end.

Lemma hear_more c s ph ph' ms :
  (exists ms, sent s = frame <$> own_open c :: ms /\ Forall msg_ok ms
              /\ hear_all ∅ ms = Some (route c (announced_in ph))) ->
  Forall msg_ok ms -> hear_all (route c (announced_in ph)) ms = Some (route c (announced_in ph')) ->
  exists ms', sent s ++ (frame <$> ms) = frame <$> own_open c :: ms' /\ Forall msg_ok ms'
              /\ hear_all ∅ ms' = Some (route c (announced_in ph')).
Proof.
  intros (ms0 & Es & Hm & Hr) Hms Hr'. exists (ms0 ++ ms). split_and!.
  - by rewrite Es, <- fmap_app.
  - by apply Forall_app.
  - by rewrite hear_all_app, Hr.
Qed.

Lemma wake_in_step c i s : cfg_ok c -> in_step c s -> in_step c (wake c i s).
Proof.
  intros Hc Hs. unfold wake. destruct (session_at s) as [ph| |] eqn:Eo; [|done..].
  unfold in_step in Hs. rewrite Eo in Hs. destruct Hs as [Hsent Hseen].
  destruct (reads s ph i) as [j|] eqn:Ei; [|unfold in_step; by rewrite Eo].
  destruct (session_step_ok c ph j Hc) as (ms & E & Hms & _ & Hr).
  destruct (session_step c ph j) as [out o] eqn:Est. cbn [fst snd] in *. subst out.
  unfold in_step. cbn [session_at sent seen value]. destruct o as [ph'| |]; [|done..].
  split; [by apply (hear_more c s ph); [..|apply Hr]|].
  pose proof (session_step_want _ _ _ _ _ Est) as Ha. intros He Hj. rewrite Ha.
  unfold reads in Ei. destruct (event i) eqn:Ev; try injection Ei as <-; rewrite ?Ev in *.
  6: { destruct ph as [| |hold d a]; cbn [established andb] in Ei; [done..|].
       destruct (negb (seen s)); [|done]. by injection Ei as <-. }
  all: destruct ph as [| |hold d a]; cbn [established announced_in negb andb] in *;
    rewrite He in Hj; cbn [andb] in Hj; try discriminate Hj; by apply Hseen.
Qed.

Lemma sample_in_step c p h s : in_step c s -> in_step c (sample p h s).
Proof.
  unfold in_step, sample. cbn [session_at sent seen value]. destruct (session_at s) as [ph| |]; [|done..].
  intros [Hsent Hseen]. split; [done|]. intros He [Hs Hv]%andb_prop. apply Bool.eqb_prop in Hv. rewrite Hv. auto.
Qed.

Lemma retry_in_step c connected open_ok s : in_step c s -> in_step c (retry c connected open_ok s).
Proof.
  intros Hs. unfold retry. destruct (session_at s) eqn:E; [done| |done]. unfold session.
  destruct connected, open_ok; try done. cbn [negb session_steps]. unfold in_step. cbn [session_at sent].
  split; [|done]. exists []. split_and!; [done|constructor|done].
Qed.

Lemma moment_in_step c m s : cfg_ok c -> in_step c s -> in_step c (moment c m s).
Proof.
  intros Hc Hs. destruct m; [by apply sample_in_step|by apply wake_in_step|by apply retry_in_step].
Qed.

Lemma run_in_step c ms : cfg_ok c -> forall s, in_step c s -> in_step c (run c ms s).
Proof. intros Hc. unfold run. induction ms as [|m ms IH]; intros s Hs; [done|]. by apply IH, moment_in_step. Qed.

Lemma run_value c ms : forall s, value (run c ms s) = last_health (value s) ms.
Proof.
  unfold run, last_health. induction ms as [|[p h|i|b b'] ms IH]; intros s; cbn [foldl moment]; [done|by rewrite IH|..];
    rewrite IH; f_equal.
  - unfold wake. destruct (session_at s); [|done..].
    destruct (reads _ _ _); [|done]. by destruct (session_step _ _ _).
  - unfold retry. destruct (session_at s); try done. by destruct (session _ _ _ _).
Qed.

(** C39: The fabric's route follows the pool.  Whatever the order in which the
    health task samples, the peer talks, timers fire, and sessions end and come up
    again: while one is Established, the peer's table of it holds our /32 exactly
    when the last health the session has seen was good; one more wake brings it to
    the last sample: the route is there if and only if the pool then had a healthy
    backend, and there is no other route. *)
Theorem route_follows_pool c ms hold d a t want :
  cfg_ok c ->
  let s := run c ms started in
  session_at s = Running (Established hold d a) ->
  peer_rib (sent s) = Some (route c a)
  /\ (seen s = true -> a = last_health false ms)
  /\ let s' := wake c {| event := Advertise want; now := t; write_ok := true |} s in
     session_at s' = Running (Established hold d (last_health false ms))
     /\ peer_rib (sent s') = Some (route c (last_health false ms)).
Proof.
  intros Hc s Hs.
  assert (in_step c s) as Hin.
  { by apply run_in_step. }
  pose proof Hin as Hin'. unfold in_step in Hin'. rewrite Hs in Hin'. destruct Hin' as [(l & El & Hl & Hr) Hv].
  rewrite <- (run_value c ms started : value s = last_health false ms).
  split; [by rewrite El, peer_rib_own|]. split; [by apply Hv|].
  set (i := {| event := _; now := _; write_ok := _ |}).
  assert (session_at (wake c i s) = Running (Established hold d (value s))) as Hs'.
  { unfold wake. rewrite Hs. unfold reads. cbn [event i established andb now write_ok].
    destruct (seen s) eqn:Es; cbn [negb]; [rewrite Hs; by rewrite <- (Hv eq_refl eq_refl)|].
    set (j := {| event := _; now := _; write_ok := _ |}).
    destruct (session_step_ok c (Established hold d a) j Hc) as (out & _ & _ & Hp & _). revert Hp.
    cbn [session_step]. unfold on_established. cbn [event j write_ok].
    destruct (value s), a; cbn [andb negb write_opt]; try done;
      (destruct (update_announce _ _ _ _) || destruct (update_withdraw _ _)); cbn; done. }
  split; [done|]. pose proof (wake_in_step c i s Hc Hin) as Hw. unfold in_step in Hw. rewrite Hs' in Hw.
  destruct Hw as [(l' & El' & Hl' & Hr') _]. by rewrite El', peer_rib_own.
Qed.

(** A pool with one backend: down, then up once the session is Established, and
    down again, unseen yet. *)
Lemma route_follows_pool_witness :
  let p := {| backends := [0%nat]; next := 0 |} in
  let h up := [{| addr := SockAddr (V4 (Ipv4 10 0 0 2)) 6443; Pool.healthy := up |}] in
  let ms := [Sample p (h true); Retry false true; Retry true true; Wake (at_time 0 ReaderEnded); Sample p (h false);
             Retry true true] ++ (Wake <$> take 2 demo_inputs)
            ++ [Wake (at_time (secs 3) (Advertise true)); Sample p (h true); Wake (at_time (secs 4) (Advertise false));
                Sample p (h false)] in
  let s := run demo_cfg ms started in
  peer_rib (sent s) = Some (route demo_cfg true)
  /\ peer_rib (sent (wake demo_cfg (at_time (secs 5) (Advertise true)) s)) = Some ∅.
Proof.
  intros p h ms s.
  destruct (route_follows_pool demo_cfg ms 90 (secs 91) true (secs 5) true) as (H & _ & _ & H').
  - unfold cfg_ok; decided.
  - vm_compute. reflexivity.
  - split; [exact H|exact H'].
Defined.
