(* ===== verification/Peering.v ===== *)
(** * A session and its peer ([session] of [src/src/bgp.rs])

    The connection [session] has dialled, with a router after RFC 4271 at its other
    end: our Established session with its keepalive ticker and hold timer, what each
    side has written that the other has not read yet, and the peer's own hold timer.
    As long as the peer keeps writing, both processes run and the network takes them
    no longer than the hold time allows, neither hold timer expires. *)

From S2P Require Import Prelude Str Net Config Bgp.

(** ** The connection *)

(** Our session and when its ticker is due next; what we have written and the peer
    not read, what the peer has written and our [next] not returned, with the time of
    each write; when the peer last wrote, and when its hold timer expires. *)
Record Link := {
  at_ : Outcome;
  tick : Z;
  ours : list (Z * list Z);
  theirs : list (Z * list Z);
  peer_wrote : Z;
  peer_deadline : Z }.

(** What our [select!] resolves to. *)
Inductive Arm := ArmTick | ArmHold | ArmAdvertise (want : bool) | ArmNext.

(** The message that a reader has at the head of the line. *)
Definition first_message (l : list (Z * list Z)) : option (Msg * list (Z * list Z)) :=
  match l with
  | [] => None
  | (_, bytes) :: l =>
      match read_msg bytes with Some (inr (m, [])) => Some (m, l) | _ => None end
  end.

(** One resolution of our [select!] at [t]. *)
Definition resolve (c : SessionCfg) (arm : Arm) (t : Z) (l : Link) : Link :=
  match at_ l with
  | Running (Established hold d a) =>
      let event :=
        match arm with
        | ArmTick => Some (Tick, theirs l)
        | ArmHold => Some (HoldTimer, theirs l)
        | ArmAdvertise want => Some (Advertise want, theirs l)
        | ArmNext => '(m, rest) ← first_message (theirs l); Some (next_msg (Some (inr m)), rest)
        end in
      match event with
      | None => l
      | Some (ev, rest) =>
          let '(ms, o) := session_step c (Established hold d a) {| event := ev; now := t; write_ok := true |} in
          {| at_ := o; tick := match arm with ArmTick => tick l + ticker_period hold | _ => tick l end;
             ours := ours l ++ ((fun m => (t, m)) <$> ms); theirs := rest;
             peer_wrote := peer_wrote l; peer_deadline := peer_deadline l |}
      end
  | _ => l
  end.

(** The peer: it writes a message, or reads ours, which restarts its hold timer when
    it is a KEEPALIVE or an UPDATE (RFC 4271, 8.2.2, events 26 and 27). *)
Definition peer_writes (m : Msg) (t : Z) (l : Link) : Link :=
  {| at_ := at_ l; tick := tick l; ours := ours l; theirs := theirs l ++ [(t, frame m)];
     peer_wrote := t; peer_deadline := peer_deadline l |}.

Definition peer_reads (hold t : Z) (l : Link) : Link :=
  match first_message (ours l) with
  | Some ((ty, _), rest) =>
      {| at_ := at_ l; tick := tick l; ours := rest; theirs := theirs l; peer_wrote := peer_wrote l;
         peer_deadline := if (ty =? KEEPALIVE) || (ty =? UPDATE) then t + secs hold else peer_deadline l |}
  | None => l
  end.

Inductive Move := Ours (arm : Arm) | PeerWrites (m : Msg) | PeerReads.

Definition happen (c : SessionCfg) (hold : Z) (mv : Move) (t : Z) (l : Link) : Link :=
  match mv with
  | Ours arm => resolve c arm t l
  | PeerWrites m => peer_writes m t l
  | PeerReads => peer_reads hold t l
  end.

Fixpoint exchange (c : SessionCfg) (hold : Z) (ms : list (Z * Move)) (l : Link) : Link :=
  match ms with
  | [] => l
  | (t, mv) :: ms => exchange c hold ms (happen c hold mv t l)
  end.

(** A line is in time at [t]: its writer writes by [due], and what it has written is
    read at most [delay] later. *)
Definition line_in_time (delay t due : Z) (line : list (Z * list Z)) : bool :=
  (t <=? due) && match line with [] => true | (sent, _) :: _ => t <=? sent + delay end.

(** Everyone keeps time: our ticks are taken up to [slack] late and not early, the
    peer writes KEEPALIVEs and UPDATEs at most [gap] apart, and messages are read at
    most [delay] after they were written. *)
Definition move_ok (mv : Move) (t : Z) (l : Link) : Prop :=
  match mv with
  | Ours ArmTick => tick l <= t
  | PeerWrites m => msg_ok m /\ (m.1 = KEEPALIVE \/ m.1 = UPDATE)
  | _ => True
  end.

Fixpoint prompt (c : SessionCfg) (hold slack delay gap clock : Z) (ms : list (Z * Move)) (l : Link) : Prop :=
  match ms with
  | [] => True
  | (t, mv) :: ms =>
      clock <= t /\ line_in_time delay t (tick l + slack) (ours l) = true
      /\ line_in_time delay t (peer_wrote l + gap) (theirs l) = true
      /\ move_ok mv t l /\ prompt c hold slack delay gap t ms (happen c hold mv t l)
  end.

(** The connection when the peer's KEEPALIVE, written at [tp], makes us Established at
    [t]; the peer's hold timer runs from then at the latest, and our KEEPALIVE of [t0]
    has been read or not. *)
Definition start (hold t0 tp t : Z) (read : bool) : Link :=
  {| at_ := Running (Established hold (t + secs hold) false); tick := t + ticker_period hold;
     ours := if read then [] else [(t0, keepalive_msg)]; theirs := []; peer_wrote := tp;
     peer_deadline := tp + secs hold |}.

Definition is_up (l : Link) : bool :=
  match at_ l with Running (Established _ _ _) => true | _ => false end.

(** The time of the last move. *)
Definition last_time (t : Z) (ms : list (Z * Move)) : Z := List.last (ms.*1) t.

(** ** What each side can count on *)

(** What keeps a session up, once read. *)
Definition keeps_up (tm : Z * list Z) : Prop :=
  exists m, msg_ok m /\ (m.1 = KEEPALIVE \/ m.1 = UPDATE) /\ tm.2 = frame m.

Lemma first_message_keeps l tm : keeps_up tm ->
  exists m, (m.1 = KEEPALIVE \/ m.1 = UPDATE) /\ first_message (tm :: l) = Some (m, l).
Proof.
  intros (m & Hm & Ht & E). exists m. split; [done|]. destruct tm as [t b]. cbn [snd] in E. subst b. unfold first_message.
  by rewrite <- (app_nil_r (frame m)), read_msg_frame.
Qed.

(** A resolution that keeps the session up: the hold timer has not run out, and what
    is read keeps it up. *)
Definition harmless (t hold d : Z) (ev : Event) : Prop :=
  match ev with
  | HoldTimer => t < d
  | Recvd ty _ => ty = KEEPALIVE \/ ty = UPDATE
  | ReaderEnded | AdvertiseGone => False
  | _ => True
  end.

Lemma established_step c hold d a ev t : cfg_ok c -> 0 < hold -> harmless t hold d ev ->
  let '(ms, o) := session_step c (Established hold d a) {| event := ev; now := t; write_ok := true |} in
  Forall (fun m => keeps_up (t, m)) ms
  /\ exists a', o = Running (Established hold (match ev with Recvd _ _ => t + secs hold | _ => d end) a').
Proof.
  intros Hc Hh He. pose proof Hc as (_ & _ & _ & Hnh & Hv). set (i := {| event := ev |}).
  assert (exists a', (session_step c (Established hold d a) i).2
    = Running (Established hold (match ev with Recvd _ _ => t + secs hold | _ => d end) a')) as [a' Ho].
  { cbn [session_step]. unfold on_established, i, write, write_opt. cbn [event now write_ok].
    destruct ev as [ty b| | | | |w|]; try done; cbn [harmless] in He.
    - destruct (Z.eqb_spec hold 0); [lia|]. cbn [negb].
      destruct He as [-> | ->]; cbn; by eexists.
    - by eexists.
    - by eexists.
    - destruct (Z.leb_spec d t); [lia|]. by eexists.
    - destruct (announce_decodes (wrap16 (local_asn c)) (next_hop c) (vip c) 32) as (b1 & -> & _); [done..|lia|].
      destruct (withdraw_decodes (vip c) 32) as (b2 & -> & _); [done|lia|].
      destruct w, a; cbn; by eexists. }
  destruct (session_step_ok c (Established hold d a) i Hc) as (ms0 & E & Hms & _).
  pose proof (session_step_types c (Established hold d a) i) as Ht.
  destruct (session_step c (Established hold d a) i) as [ms o]. cbn [fst snd] in *. subst.
  split; [|by eexists]. destruct (Ht _ _ eq_refl) as [_ Hty]. specialize (Hty (ex_intro _ _ eq_refl)).
  clear -Hms Hty. apply Forall_fmap. induction Hms as [|m ms0 Hm _ IH]; [constructor|].
  cbn [fmap list_fmap omap list_omap] in Hty. pose proof (frame_on_wire m Hm) as (_ & _ & _ & E & _).
  rewrite E in Hty. apply Forall_cons_iff in Hty as [H1 H2]. constructor; [|by apply IH]. by exists m.
Qed.

(** ** A line *)

(** When the reader of a line hears its writer again, at the latest. *)
Definition heard_by (delay due : Z) (line : list (Z * list Z)) : Z :=
  match line with [] => due + delay | (sent, _) :: _ => sent + delay end.

(** Until then nobody has to wait for it. *)
Lemma in_time_heard delay t due line : 0 <= delay -> line_in_time delay t due line = true -> t <= heard_by delay due line.
Proof.
  unfold line_in_time, heard_by. rewrite andb_true_iff, Z.leb_le. intros Hd [Ht Hl].
  destruct line as [|[sent m] l]; [lia|]. by apply Z.leb_le.
Qed.

(** What is written is heard no later than it would have been. *)
Lemma line_grows delay t due due' line ms : line_in_time delay t due line = true -> ms <> [] \/ due' = due ->
  heard_by delay due' (line ++ ((fun m : list Z => (t, m)) <$> ms)) <= heard_by delay due line.
Proof.
  unfold line_in_time, heard_by. rewrite andb_true_iff, Z.leb_le. intros [Ht _] Hk.
  destruct line as [|[sent m0] l], ms as [|m ms]; cbn; try lia. destruct Hk as [Hk|Hk]; [done|lia].
Qed.

(** A line between moments: KEEPALIVEs and UPDATEs, written by now. *)
Definition line_ok (clock : Z) (line : list (Z * list Z)) : Prop :=
  Forall (fun tm => keeps_up tm /\ tm.1 <= clock) line.

Lemma line_later clock t line : line_ok clock line -> clock <= t -> line_ok t line.
Proof. intros H Hc. eapply list.Forall_impl; [exact H|]. cbn. intros tm [??]. split; [done|lia]. Qed.

Lemma line_ok_app t line ms : line_ok t line -> Forall (fun m => keeps_up (t, m)) ms ->
  line_ok t (line ++ ((fun m => (t, m)) <$> ms)).
Proof.
  intros Hl Hm. apply Forall_app. split; [done|]. apply Forall_fmap. eapply list.Forall_impl; [exact Hm|].
  intros m H. split; [done|]. cbn. lia.
Qed.

(** What remains of a line is heard within [time] of now. *)
Lemma line_shrinks delay clock t due time tm line : line_ok clock (tm :: line) -> clock <= t ->
  due + delay < t + time -> delay < time -> heard_by delay due line < t + time.
Proof.
  intros [_ H]%Forall_cons_iff Hc Hd Ht. unfold heard_by. destruct line as [|[sent m] l]; [lia|].
  apply Forall_cons_iff in H as [[_ Hs] _]. cbn in Hs. lia.
Qed.

(** ** One move *)

Section Timers.
  Context (c : SessionCfg) (hold slack delay gap : Z).
  Context (Hc : cfg_ok c) (Hhold : 3 <= hold) (Hslack : 0 <= slack) (Hdelay : 0 <= delay) (Hgap : 0 <= gap).
  Context (Hfits : ticker_period hold + slack + 2 * delay < secs hold) (Hpeer : gap + delay < secs hold).

Lemma ticker_pos : 0 <= ticker_period hold.
Proof. unfold ticker_period, secs. destruct (Z.eqb_spec hold 0); zdiv. Qed.

(** The connection between moments: our session is up, and each side will be heard
    in time. *)
Definition link_ok (clock : Z) (l : Link) : Prop :=
  line_ok clock (ours l) /\ line_ok clock (theirs l)
  /\ tick l <= clock + ticker_period hold /\ peer_wrote l <= clock
  /\ clock < peer_deadline l /\ heard_by delay (tick l + slack) (ours l) < peer_deadline l
  /\ exists d a, at_ l = Running (Established hold d a)
       /\ heard_by delay (peer_wrote l + gap) (theirs l) < d.

Lemma resolve_ok clock t arm l : link_ok clock l -> clock <= t ->
  line_in_time delay t (tick l + slack) (ours l) = true ->
  line_in_time delay t (peer_wrote l + gap) (theirs l) = true ->
  match arm with ArmTick => tick l <= t | _ => True end -> link_ok t (resolve c arm t l).
Proof.
  intros (Ho & Ht & Htk & Hpw & Hpd & Hho & d & a & Ea & Hht) Hct Hi1 Hi2 Harm. pose proof ticker_pos as Hpos.
  pose proof (in_time_heard _ _ _ _ Hdelay Hi1) as Hn1. pose proof (in_time_heard _ _ _ _ Hdelay Hi2) as Hn2.
  pose proof (line_later _ t _ Ho Hct) as Ho'. pose proof (line_later _ t _ Ht Hct) as Ht'.
  unfold resolve. rewrite Ea.
  assert (forall ev rest, harmless t hold d ev ->
    match ev with Recvd _ _ => exists tm, theirs l = tm :: rest | _ => rest = theirs l end ->
    (match arm with ArmTick => ev = Tick | _ => ev <> Tick end) ->
    link_ok t (let '(ms, o) := session_step c (Established hold d a) {| event := ev; now := t; write_ok := true |} in
      {| at_ := o; tick := match arm with ArmTick => tick l + ticker_period hold | _ => tick l end;
         ours := ours l ++ ((fun m => (t, m)) <$> ms); theirs := rest;
         peer_wrote := peer_wrote l; peer_deadline := peer_deadline l |})) as Hgo.
  { intros ev rest Hev Hline Htick. pose proof (established_step c hold d a ev t Hc ltac:(lia) Hev) as Hst.
    assert (ev = Tick -> (session_step c (Established hold d a) {| event := ev; now := t; write_ok := true |}).1
            = [keepalive_msg]) as Hka by (by intros ->).
    destruct (session_step _ _ _) as [ms o]. destruct Hst as [Hms [a' ->]]. cbn [fst] in Hka.
    unfold link_ok. cbn [at_ tick ours theirs peer_wrote peer_deadline]. split_and!.
    - by apply line_ok_app.
    - destruct ev; try (by subst). destruct Hline as [tm E]. rewrite E in Ht'. by apply Forall_cons_iff in Ht' as [_ ?].
    - destruct arm; lia.
    - lia.
    - lia.
    - eapply Z.le_lt_trans; [apply (line_grows delay t (tick l + slack)); [done|]|exact Hho].
      destruct arm; [left|by right..]. rewrite Hka by done. done.
    - eexists _, a'. split; [done|]. destruct ev; try (subst rest; exact Hht). destruct Hline as [tm E].
      rewrite E in Ht. eapply line_shrinks; [exact Ht|done|lia|lia]. }
  destruct arm as [| |w|]; cbn [mbind option_bind].
  - by apply Hgo.
  - apply Hgo; try done. cbn. lia.
  - by apply Hgo.
  - destruct (theirs l) as [|tm rest] eqn:El.
    { cbn [first_message mbind option_bind]. unfold link_ok. rewrite El. split_and!; try done; try lia. eauto. }
    apply Forall_cons_iff in Ht as Htm. destruct Htm as [[Htm _] _].
    destruct (first_message_keeps rest tm Htm) as ([ty b] & Hm & ->). cbn [mbind option_bind next_msg].
    apply Hgo; [done|by exists tm|done].
Qed.

Lemma peer_reads_ok clock t l : link_ok clock l -> clock <= t ->
  line_in_time delay t (tick l + slack) (ours l) = true -> link_ok t (peer_reads hold t l).
Proof.
  intros (Ho & Ht & Htk & Hpw & Hpd & Hho & d & a & Ea & Hht) Hct Hi. pose proof ticker_pos.
  pose proof (in_time_heard _ _ _ _ Hdelay Hi) as Hn.
  pose proof (line_later _ t _ Ho Hct) as Ho'. pose proof (line_later _ t _ Ht Hct) as Ht'. unfold peer_reads.
  destruct (ours l) as [|tm rest] eqn:El; cbn [first_message].
  { unfold link_ok. rewrite El. split_and!; try done; try lia. eauto. }
  apply Forall_cons_iff in Ho as Htm. destruct Htm as [[Htm _] _].
  destruct (first_message_keeps rest tm Htm) as ([ty b] & Hm & E). unfold first_message in E. rewrite E.
  replace ((ty =? KEEPALIVE) || (ty =? UPDATE)) with true by (cbn [fst] in Hm; by destruct Hm as [-> | ->]).
  unfold link_ok. cbn [at_ tick ours theirs peer_wrote peer_deadline]. apply Forall_cons_iff in Ho' as [_ Ho'].
  split_and!; try done; try lia.
  - eapply line_shrinks; [exact Ho|done|lia|lia].
  - by exists d, a.
Qed.

Lemma peer_writes_ok clock t m l : link_ok clock l -> clock <= t -> move_ok (PeerWrites m) t l ->
  line_in_time delay t (tick l + slack) (ours l) = true ->
  line_in_time delay t (peer_wrote l + gap) (theirs l) = true -> link_ok t (peer_writes m t l).
Proof.
  intros (Ho & Ht & Htk & Hpw & Hpd & Hho & d & a & Ea & Hht) Hct [Hm Hty] Hi1 Hi2.
  pose proof (in_time_heard _ _ _ _ Hdelay Hi1) as Hn.
  unfold link_ok, peer_writes. cbn [at_ tick ours theirs peer_wrote peer_deadline]. split_and!; try lia; try done.
  - by eapply line_later.
  - change [(t, frame m)] with ((fun m => (t, m)) <$> [frame m]). apply line_ok_app; [by eapply line_later|].
    constructor; [by exists m|constructor].
  - exists d, a. split; [done|]. eapply Z.le_lt_trans; [|exact Hht].
    apply (line_grows delay t (peer_wrote l + gap) (t + gap) (theirs l) [frame m]); [done|by left].
Qed.

Lemma exchange_ok ms : forall clock l, link_ok clock l -> prompt c hold slack delay gap clock ms l ->
  link_ok (last_time clock ms) (exchange c hold ms l).
Proof.
  induction ms as [|[t mv] ms IH]; intros clock l Hok Hp; [done|]. cbn [exchange prompt] in *.
  destruct Hp as (Hct & Hi1 & Hi2 & Hmv & Hp).
  replace (last_time clock ((t, mv) :: ms)) with (last_time t ms).
  2:{ unfold last_time. rewrite fmap_cons. cbn [fst List.last]. destruct (ms.*1) as [|x xs] eqn:E; [done|].
      clear. revert x. induction xs as [|y xs IH]; intros x; [done|]. apply IH. }
  apply IH; [|done]. destruct mv as [arm|m|]; cbn [happen].
  - by apply (resolve_ok clock).
  - by apply (peer_writes_ok clock).
  - by apply (peer_reads_ok clock).
Qed.

Lemma start_ok t0 tp t read : t0 <= t -> tp <= t <= tp + delay ->
  link_ok t (start hold t0 tp t read).
Proof.
  intros Ht0 Htp. pose proof ticker_pos. unfold link_ok, start. cbn [at_ tick ours theirs peer_wrote peer_deadline].
  split_and!; try lia.
  - destruct read; [constructor|]. constructor; [|constructor]. split; [|cbn; lia].
    exists (KEEPALIVE, []). split_and!; [|by left|done]. split_and!; [done|constructor|cbn; lia].
  - constructor.
  - unfold heard_by. destruct read; lia.
  - exists (t + secs hold), false. split; [done|]. cbn [heard_by]. lia.
Qed.

End Timers.

Lemma spawned_cfg_ok cfg v hop p c id : is_u32 (bgp_local_asn cfg) -> is_u32 (peer_asn c) -> ipv4_ok v -> ipv4_ok hop ->
  preflight cfg = inr id -> (p, c) ∈ spawn cfg v hop -> cfg_ok c.
Proof.
  intros Hu Hpe Hv Hhop Hp Hin. destruct (spawn_session _ _ _ _ _ _ Hp Hin) as (Hl & Hb & Hid).
  unfold cfg_ok. rewrite Hl, Hb. split_and!; try done.
  - unfold spawn in Hin. apply list_elem_of_omap in Hin as (peer & _ & Hx). case_match; [|done]. by injection Hx as _ <-.
  - unfold spawn in Hin. apply list_elem_of_omap in Hin as (peer & _ & Hx). case_match; [|done]. by injection Hx as _ <-.
Qed.

(** The handshake: with an OPEN of version 4, the configured AS and an acceptable hold
    time, whatever else is in it, and a KEEPALIVE. *)
Lemma handshake_comes_up c h rest body t0 t : is_u16 (peer_asn c) -> 3 <= h < 2 ^ 16 -> (5 <= length rest)%nat ->
  session c true true [at_time t0 (Recvd OPEN (4 :: be16 (peer_asn c) ++ be16 h ++ rest));
                       at_time t (Recvd KEEPALIVE body)]
  = ([open_msg (wrap16 (local_asn c)) HOLD_TIME (bgp_id c); keepalive_msg],
     Running (Established (Z.min HOLD_TIME h) (t + secs (Z.min HOLD_TIME h)) false)).
Proof.
  intros Hp Hh Hr. unfold session. cbn [negb session_steps session_step]. unfold on_open_sent. cbn [event at_time].
  change (OPEN =? OPEN) with true. cbn iota.
  assert (check_open (4 :: be16 (peer_asn c) ++ be16 h ++ rest) (peer_asn c) = Some (inr h)) as ->.
  { unfold be16. cbn [app]. rewrite check_open_fields by done. cbn [Z.eqb Pos.eqb negb].
    rewrite !of_be16_be16 by (unfold is_u16 in *; lia). rewrite Z.eqb_refl. cbn [negb].
    rewrite (proj2 (Z.eqb_neq h 1)), (proj2 (Z.eqb_neq h 2)) by lia. done. }
  unfold write. cbn [write_ok at_time session_steps session_step]. unfold on_open_confirm. cbn [event now].
  change (KEEPALIVE =? KEEPALIVE) with true. cbn iota.
  rewrite (proj2 (Z.eqb_neq (Z.min HOLD_TIME h) 0)) by (unfold HOLD_TIME; lia). done.
Qed.

(** C38: A session with a live peer stays up, at both ends.  Whatever router is at
    the other end of the connection that a configured session has dialled: if it
    answers with an OPEN of version 4, the AS it is configured with (a two-byte one)
    and a hold time of 3 s or more, and a KEEPALIVE, the session is Established with
    the smaller of that hold time and 180 s.  From there, while the connection takes
    what is written, the peer writing KEEPALIVEs and UPDATEs, any of them, at most
    [gap] apart, whatever the pool's health does and however our [select!] and the
    peer interleave, with messages read within [delay] and our ticker served within
    [slack] ([gap + delay], and a third of the hold time plus [slack + 2 * delay],
    below the hold time): the session is Established ever after, so our hold timer
    does not expire and nothing either side writes ends it, and the peer's hold
    timer has not expired either. *)
Theorem session_stays_up cfg v hop id p c h rest body t0 tp t read slack delay gap ms :
  is_u32 (bgp_local_asn cfg) -> ipv4_ok v -> ipv4_ok hop -> preflight cfg = inr id -> (p, c) ∈ spawn cfg v hop ->
  is_u16 (peer_asn c) -> 3 <= h < 2 ^ 16 -> (5 <= length rest)%nat ->
  let hold := Z.min HOLD_TIME h in
  0 <= slack -> 0 <= delay -> 0 <= gap -> gap + delay < secs hold ->
  ticker_period hold + slack + 2 * delay < secs hold -> t0 <= t -> tp <= t <= tp + delay ->
  session c true true [at_time t0 (Recvd OPEN (4 :: be16 (peer_asn c) ++ be16 h ++ rest));
                       at_time t (Recvd KEEPALIVE body)]
  = ([open_msg (wrap16 (local_asn c)) HOLD_TIME (bgp_id c); keepalive_msg], at_ (start hold t0 tp t read))
  /\ (prompt c hold slack delay gap t ms (start hold t0 tp t read) ->
      let l := exchange c hold ms (start hold t0 tp t read) in
      is_up l = true /\ last_time t ms < peer_deadline l).
Proof.
  intros Hu Hv Hh Hp Hin Hpa Hhold Hrest hold Hs Hd Hg Hgd Hfit Ht0 Htp. split; [by apply handshake_comes_up|].
  intros Hpr l. assert (cfg_ok c) as Hc.
  { apply (spawned_cfg_ok cfg v hop p c id); try done. unfold is_u16, is_u32 in *. lia. }
  assert (3 <= hold) as H3 by (unfold hold, HOLD_TIME; lia).
  assert (link_ok hold slack delay gap t (start hold t0 tp t read)) as H0 by (by apply start_ok).
  assert (link_ok hold slack delay gap (last_time t ms) l) as (_ & _ & _ & _ & Hpd & _ & d & a & E & _)
    by (by apply exchange_ok).
  split; [|done]. unfold is_up. by rewrite E.
Qed.

(** [k] rounds of half a minute: the peer writes, we read, tick and look at the hold
    timer, and the peer reads. *)
Fixpoint demo_exchange (k : nat) (t : Z) : list (Z * Move) :=
  match k with
  | O => []
  | S k =>
      [(t, PeerWrites (KEEPALIVE, [])); (t + 10, Ours ArmNext); (t + 10, Ours ArmTick); (t + 10, Ours ArmHold);
       (t + 20, PeerReads)] ++ demo_exchange k (t + secs 30)
  end.

(** A peer that asks for 90 s; an announcement at first, then five minutes. *)
Lemma session_stays_up_witness :
  exists c, let ms := (1, Ours (ArmAdvertise true)) :: (2, PeerReads) :: demo_exchange 10 (secs 30) in
    let l0 := start 90 0 0 0 true in
    (session c true true [at_time 0 (Recvd OPEN (4 :: be16 65002 ++ be16 90 ++ [10; 0; 0; 2; 0]));
                          at_time 0 (Recvd KEEPALIVE [])]).2 = at_ l0
    /\ is_up (exchange c 90 ms l0) = true /\ last_time 0 ms < peer_deadline (exchange c 90 ms l0).
Proof.
  pose (a := demo_bgp 65001 65002 (lit "10.0.0.1") (lit "10.0.0.2")).
  pose (v := Ipv4 192 0 2 10).
  destruct (spawn a v (Ipv4 10 0 0 1)) as [|[p c] l] eqn:Ea; [vm_compute in Ea; discriminate|].
  exists c. intros ms l0.
  assert (prompt c 90 100 100 (secs 30) 0 ms l0) as Hp.
  { vm_compute in Ea. injection Ea as <- <- <-. vm_compute.
    repeat split; try discriminate; by left || by repeat constructor. }
  assert (peer_asn c = 65002) as Hpa by (vm_compute in Ea; injection Ea as <- <- <-; reflexivity).
  destruct (session_stays_up a v (Ipv4 10 0 0 1) (Ipv4 10 0 0 1) p c 90 [10; 0; 0; 2; 0] [] 0 0 0 true 100 100 (secs 30) ms)
    as (H1 & H2); [decided|decided|decided|reflexivity|rewrite Ea; left|rewrite Hpa; decided|lia|cbn; lia
                  |lia|lia|done|reflexivity|reflexivity|lia|lia|].
  rewrite Hpa in H1. split; [rewrite H1; reflexivity|exact (H2 Hp)].
Defined.

(** ** Without a hold time *)

Lemma hold_zero_deadline c ins : forall d a sent ph,
  session_steps c (Established 0 d a) ins = (sent, Running ph) -> exists a', ph = Established 0 d a'.
Proof.
  induction ins as [|i ins IH]; intros d a sent ph; [intros [= <- <-]; by eexists|].
  intros (s1 & ph1 & s2 & E1 & E2 & ->)%session_steps_cons.
  assert (exists a1, ph1 = Established 0 d a1) as [a1 ->]; [|by eapply IH].
  unfold session_step, on_established, notify, write_opt, write in E1.
  repeat case_match; simplify_eq; try done; by eexists.
Qed.

(** A peer that asks for no hold time (hold time 0 in its OPEN, which RFC 4271 takes
    for a session whose timers are off) has its session ended all the same, with a
    Hold Timer Expired, a year after it has come up: the deadline is set then and not
    moved by what the peer sends, however lately it has been heard. *)
Theorem hold_zero_expires c ins i sent ph t :
  event i = Recvd KEEPALIVE [] -> now i + far <= t ->
  session_steps c (OpenConfirm 0) (i :: ins) = (sent, Running ph) ->
  session_step c ph {| event := HoldTimer; now := t; write_ok := true |}
  = ([notification_msg ERR_HOLD_EXPIRED 0], Ended).
Proof.
  intros He Ht (s1 & ph1 & s2 & E1 & E2 & ->)%session_steps_cons. cbn [session_step] in E1. unfold on_open_confirm in E1.
  rewrite He in E1. injection E1 as <- <-. apply hold_zero_deadline in E2 as [a' ->].
  cbn [session_step]. unfold on_established. cbn [event now write_ok].
  change (0 =? 0) with true. cbn iota. by rewrite (proj2 (Z.leb_le _ _) Ht).
Qed.

Lemma hold_zero_expires_witness :
  session_step demo_cfg (Established 0 far true) {| event := HoldTimer; now := far; write_ok := true |}
  = ([notification_msg ERR_HOLD_EXPIRED 0], Ended).
Proof.
  apply (hold_zero_expires demo_cfg [at_time 1 (Advertise true); at_time (far - 1) (Recvd KEEPALIVE [])]
    (at_time 0 (Recvd KEEPALIVE [])) [default [] (update_announce 65001 (Ipv4 10 0 0 1) (Ipv4 192 0 2 10) 32)]
    _ far); [reflexivity|vm_compute; discriminate|vm_compute; reflexivity].
Defined.
