(* ===== verification/Netlink.v ===== *)
(** * The VIP on an interface: rtnetlink and gratuitous ARP ([src/src/vip.rs])

    Byte for byte: the messages written ([nl_msg], [addr_payload],
    [garp_frame]), the parsers of what the kernel answers ([attrs],
    [parse_links], [parse_addrs], [request]), and the operations of the
    [Netlink] controller ([link], [interface_ipv4], [claim], [release]).  The
    kernel is an argument: [Exchange] says what opening a socket, sending and
    each [recv] gave.  Byte order is the target's, the parameter [little]. *)

From S2P Require Import Prelude Str Net.

Definition AF_INET : Z := 2.
Definition EEXIST : Z := 17.
Definition EADDRNOTAVAIL : Z := 99.
Definition NLMSG_ERROR : Z := 2.
Definition NLMSG_DONE : Z := 3.
Definition RTM_NEWLINK : Z := 16.
Definition RTM_GETLINK : Z := 18.
Definition RTM_NEWADDR : Z := 20.
Definition RTM_DELADDR : Z := 21.
Definition RTM_GETADDR : Z := 22.
Definition NLM_F_REQUEST : Z := 0x1.
Definition NLM_F_ACK : Z := 0x4.
Definition NLM_F_EXCL : Z := 0x200.
Definition NLM_F_CREATE : Z := 0x400.
Definition NLM_F_DUMP : Z := 0x300.
Definition IFLA_ADDRESS : Z := 1.
Definition IFLA_IFNAME : Z := 3.
Definition IFA_ADDRESS : Z := 1.
Definition IFA_LOCAL : Z := 2.

(** A message of the kernel: its type and body. *)
Abbreviation NlMsg := (Z * list Z)%type (only parsing).

Record Link := { index : Z; mac : list Z }.

(** What an operation fails with; an [errno] is an OS error. *)
Inductive Error :=
| NotIpv4
| Os (errno : Z)
| Truncated                        (* InvalidData, "truncated netlink message" *)
| NoInterface
| NoAddress.

(** One [recv]: a datagram, or an errno (EAGAIN after SO_RCVTIMEO's 2 s). *)
Inductive Recv := Datagram (b : list Z) | RecvFails (errno : Z).

(** A socket's life: [open] or [send] fails, or [recv] gives these in turn. *)
Inductive Exchange := OpenFails (errno : Z) | SendFails (errno : Z) | Replies (rs : list Recv).

(** [Panic]: an index out of range; [Waiting]: no more [recv] is given. *)
Inductive Res (A : Type) := Ok (a : A) | Err (e : Error) | Waiting | Panic.
Arguments Ok {A}. Arguments Err {A}. Arguments Waiting {A}. Arguments Panic {A}.

Definition bind_res {A B} (r : Res A) (f : A -> Res B) : Res B :=
  match r with Ok a => f a | Err e => Err e | Waiting => Waiting | Panic => Panic end.

Definition align (n : Z) : Z := Z.land (wrap64 (n + 3)) 0xfffffffffffffffc.

(** [i32::from_ne_bytes] after the unsigned value, and [-err] on an [i32]. *)
Definition to_i32 (x : Z) : Z := if x <? 2147483648 then x else x - 4294967296.
Definition neg_i32 (x : Z) : Z := if x =? -2147483648 then x else - x.

(** [d.split(|&c| c == 0).next()]: always there, what is before the first NUL. *)
Fixpoint until_nul (d : list Z) : list Z :=
  match d with [] => [] | c :: d => if c =? 0 then [] else c :: until_nul d end.

Section Endian.
Variable little : bool.

(** [to_ne_bytes] from the big-endian bytes. *)
Definition ne (b : list Z) : list Z := if little then reverse b else b.

Definition u16_at (b : list Z) (i : nat) : option Z :=
  x ← b !! i; y ← b !! S i; Some (if little then of_be16 y x else of_be16 x y).

Definition u32_at (b : list Z) (i : nat) : option Z :=
  w ← b !! i; x ← b !! S i; y ← b !! S (S i); z ← b !! S (S (S i));
  Some (if little then of_be32 z y x w else of_be32 w x y z).

Definition addr_payload (index : Z) (ip : Ipv4Addr) : list Z :=
  [AF_INET; 32; 0; 0] ++ ne (be32 index)
  ++ mjoin ((fun ty => ne (be16 8) ++ ne (be16 ty) ++ octets ip) <$> [IFA_LOCAL; IFA_ADDRESS]).

Definition nl_msg (ty flags seq : Z) (payload : list Z) : list Z :=
  let len := (16 + length payload)%nat in
  let m := ne (be32 (wrap32 (Z.of_nat len))) ++ ne (be16 ty)
             ++ ne (be16 (Z.lor flags NLM_F_REQUEST)) ++ ne (be32 seq) ++ ne (be32 0) ++ payload in
  resize (Z.to_nat (align (Z.of_nat len))) 0 m.

(** The rest after an item of length [len]: [&b[align(len).min(b.len())..]]. *)
Definition skip_aligned (b : list Z) (len : nat) : option (list Z) :=
  slice_from b (Nat.min (Z.to_nat (align (Z.of_nat len))) (length b)).

Fixpoint attrs_loop (fuel : nat) (b : list Z) : option (list (Z * list Z)) :=
  match fuel with
  | O => None
  | S fuel =>
      if bool_decide (length b < 4)%nat then Some [] else
      len ← u16_at b 0;
      let len := Z.to_nat len in
      if bool_decide (len < 4)%nat || bool_decide (length b < len)%nat then Some [] else
      t ← u16_at b 2; d ← slice b 4 len; b ← skip_aligned b len;
      out ← attrs_loop fuel b; Some ((Z.land t 0x3fff, d) :: out)
  end.

(** Every attribute takes at least four bytes: [length b] of fuel is enough. *)
Definition attrs (b : list Z) : option (list (Z * list Z)) := attrs_loop (S (length b)) b.

(** The [for] over the attributes of a link: the flags [found] and [mac]. *)
Fixpoint link_attrs (name : list Z) (l : list (Z * list Z)) (found : bool) (mac : list Z)
    : bool * list Z :=
  match l with
  | [] => (found, mac)
  | (t, d) :: l =>
      if t =? IFLA_IFNAME then link_attrs name l (bool_decide (until_nul d = name)) mac
      else if (t =? IFLA_ADDRESS) && bool_decide (length d = 6)%nat then link_attrs name l found d
      else link_attrs name l found mac
  end.

(** The outer option is a panic. *)
Fixpoint parse_links (msgs : list NlMsg) (name : list Z) : option (option Link) :=
  match msgs with
  | [] => Some None
  | (ty, p) :: msgs =>
      if negb (ty =? RTM_NEWLINK) || bool_decide (length p < 16)%nat then parse_links msgs name else
      index ← u32_at p 4; b ← slice_from p 16; l ← attrs b;
      let '(found, mac) := link_attrs name l false (replicate 6 0) in
      if found then Some (Some {| index := index; mac := mac |}) else parse_links msgs name
  end.

Fixpoint addr_attrs (l : list (Z * list Z)) (local address : option Ipv4Addr)
    : option Ipv4Addr * option Ipv4Addr :=
  match l with
  | [] => (local, address)
  | (t, d) :: l =>
      match d with
      | [a; b; c; e] =>
          let ip := Ipv4 a b c e in
          if t =? IFA_LOCAL then addr_attrs l (Some ip) address
          else if t =? IFA_ADDRESS then addr_attrs l local (Some ip)
          else addr_attrs l local address
      | _ => addr_attrs l local address
      end
  end.

(** [Option::or]. *)
Definition or_else {A} (x y : option A) : option A := match x with Some a => Some a | None => y end.

Fixpoint parse_addrs (msgs : list NlMsg) (index : Z) : option (list (Ipv4Addr * Z)) :=
  match msgs with
  | [] => Some []
  | (ty, p) :: msgs =>
      if negb (ty =? RTM_NEWADDR) || bool_decide (length p < 8)%nat then parse_addrs msgs index else
      family ← p !! 0%nat; ix ← u32_at p 4;
      if negb (family =? AF_INET) || negb (ix =? index) then parse_addrs msgs index else
      b ← slice_from p 8; l ← attrs b;
      out ← parse_addrs msgs index;
      let '(local, address) := addr_attrs l None None in
      match or_else local address with
      | Some a => plen ← p !! 1%nat; Some ((a, plen) :: out)
      | None => Some out
      end
  end.

(** ** The request loop *)

(** The messages of one datagram: go on receiving with [inl out], or return. *)
Fixpoint scan (fuel : nat) (seq : Z) (b : list Z) (out : list NlMsg)
    : list NlMsg + Res (list NlMsg) :=
  match fuel with
  | O => inr Panic
  | S fuel =>
      if bool_decide (length b < 16)%nat then inl out else
      match u32_at b 0 with
      | None => inr Panic
      | Some len =>
          let len := Z.to_nat len in
          if bool_decide (len < 16)%nat || bool_decide (length b < len)%nat then inr (Err Truncated) else
          match u16_at b 4, u32_at b 8, slice b 16 len, skip_aligned b len with
          | Some mty, Some mseq, Some body, Some b =>
              if negb (mseq =? seq) then scan fuel seq b out
              else if mty =? NLMSG_DONE then inr (Ok out)
              else if mty =? NLMSG_ERROR then
                let err := if bool_decide (4 <= length body)%nat
                           then default 0 (to_i32 <$> u32_at body 0) else 0 in
                inr (if err =? 0 then Ok out else Err (Os (neg_i32 err)))
              else scan fuel seq b (out ++ [(mty, body)])
          | _, _, _, _ => inr Panic
          end
      end
  end.

(** A message takes at least 16 bytes: [length b] of fuel is enough. *)
Fixpoint collect (seq : Z) (rs : list Recv) (out : list NlMsg) : Res (list NlMsg) :=
  match rs with
  | [] => Waiting
  | RecvFails e :: _ => Err (Os e)
  | Datagram b :: rs =>
      match scan (S (length b)) seq b out with
      | inl out => collect seq rs out
      | inr r => r
      end
  end.

(** [Nl::open()?.request(...)]: the bytes sent, and the result. *)
Definition request (x : Exchange) (ty flags : Z) (payload : list Z)
    : list (list Z) * Res (list NlMsg) :=
  match x with
  | OpenFails e => ([], Err (Os e))
  | SendFails e => ([], Err (Os e))
  | Replies rs => ([nl_msg ty flags 1 payload], collect 1 rs [])
  end.

Definition link (x : Exchange) (iface : list Z) : list (list Z) * Res Link :=
  let '(sent, r) := request x RTM_GETLINK NLM_F_DUMP (replicate 16 0) in
  (sent, bind_res r (fun msgs =>
     match parse_links msgs iface with
     | None => Panic
     | Some None => Err NoInterface
     | Some (Some l) => Ok l
     end)).

(** [addrs.iter().find(|(_, len)| *len < 32).or(addrs.first())]. *)
Definition pick_addr (addrs : list (Ipv4Addr * Z)) : option Ipv4Addr :=
  fst <$> or_else (head (filter (fun a => a.2 < 32) addrs)) (head addrs).

Definition interface_ipv4 (x1 x2 : Exchange) (iface : list Z) : Res Ipv4Addr :=
  bind_res (link x1 iface).2 (fun l =>
  bind_res (request x2 RTM_GETADDR NLM_F_DUMP (AF_INET :: replicate 7 0)).2 (fun msgs =>
    match parse_addrs msgs (index l) with
    | None => Panic
    | Some addrs => match pick_addr addrs with Some a => Ok a | None => Err NoAddress end
    end)).

Definition addr_change (x : Exchange) (ty flags index : Z) (ip : Ipv4Addr)
    : list (list Z) * Res unit :=
  let '(sent, r) := request x ty (Z.lor flags NLM_F_ACK) (addr_payload index ip) in
  (sent, bind_res r (fun _ => Ok tt)).

(** What [claim] and [release] do: the requests they send in order, the
    gratuitous ARP thread they start, and their result. *)
Record Done := {
  requests : list (list Z);
  garp : option (Z * list Z * Ipv4Addr);
  result : Res unit }.

(** The [match] on the kernel's answer: [tolerated] means it was already so. *)
Definition tolerate (errno : Z) (r : Res unit) : Res unit :=
  match r with Err (Os e) => if e =? errno then Ok tt else r | _ => r end.

Definition claim (x1 x2 : Exchange) (vip : str) (iface : list Z) : Done :=
  match parse_ipv4 vip with
  | None => {| requests := []; garp := None; result := Err NotIpv4 |}
  | Some ip =>
      let '(s1, r) := link x1 iface in
      match r with
      | Ok l =>
          let '(s2, r2) := addr_change x2 RTM_NEWADDR (Z.lor NLM_F_CREATE NLM_F_EXCL) (index l) ip in
          match tolerate EEXIST r2 with
          | Ok _ =>
              {| requests := s1 ++ s2;
                 garp := if bool_decide (mac l = replicate 6 0) then None
                         else Some (index l, mac l, ip);
                 result := Ok tt |}
          | r2 => {| requests := s1 ++ s2; garp := None; result := r2 |}
          end
      | r => {| requests := s1; garp := None; result := bind_res r (fun _ => Ok tt) |}
      end
  end.

Definition release (x1 x2 : Exchange) (vip : str) (iface : list Z) : Done :=
  match parse_ipv4 vip with
  | None => {| requests := []; garp := None; result := Err NotIpv4 |}
  | Some ip =>
      let '(s1, r) := link x1 iface in
      match r with
      | Ok l =>
          let '(s2, r2) := addr_change x2 RTM_DELADDR 0 (index l) ip in
          {| requests := s1 ++ s2; garp := None; result := tolerate EADDRNOTAVAIL r2 |}
      | r => {| requests := s1; garp := None; result := bind_res r (fun _ => Ok tt) |}
      end
  end.

(** ** The kernel's side: what it sends, written down

    Reference encoders after <linux/netlink.h> and <linux/rtnetlink.h>. *)

Definition padding (n : nat) : list Z := replicate (Z.to_nat (align (Z.of_nat n)) - n) 0.

Definition rtattr (a : Z * list Z) : list Z :=
  ne (be16 (4 + Z.of_nat (length a.2))) ++ ne (be16 a.1) ++ a.2 ++ padding (4 + length a.2).

Definition attr_ok (a : Z * list Z) : Prop :=
  0 <= a.1 < 16384 /\ Z.of_nat (length a.2) < 65532.

Definition encode_attrs (l : list (Z * list Z)) : list Z := mjoin (rtattr <$> l).

Record KMsg := { k_ty : Z; k_flags : Z; k_seq : Z; k_pid : Z; k_body : list Z }.

Definition kmsg_ok (k : KMsg) : Prop :=
  is_u16 (k_ty k) /\ is_u32 (k_seq k) /\ Z.of_nat (length (k_body k)) < 4294967280.

Definition kmsg (k : KMsg) : list Z :=
  ne (be32 (16 + Z.of_nat (length (k_body k)))) ++ ne (be16 (k_ty k)) ++ ne (be16 (k_flags k))
  ++ ne (be32 (k_seq k)) ++ ne (be32 (k_pid k)) ++ k_body k ++ padding (16 + length (k_body k)).

(** Not the end of a reply to request [seq]. *)
Definition goes_on (seq : Z) (k : KMsg) : Prop :=
  kmsg_ok k /\ (k_seq k = seq -> k_ty k <> NLMSG_DONE /\ k_ty k <> NLMSG_ERROR).

(** What the request loop keeps. *)
Definition kept (seq : Z) (ks : list KMsg) : list NlMsg :=
  (fun k => (k_ty k, k_body k)) <$> filter (fun k => k_seq k = seq) ks.

Definition done_msg : KMsg :=
  {| k_ty := NLMSG_DONE; k_flags := 2; k_seq := 1; k_pid := 0; k_body := ne (be32 0) |}.

(** The ACK of errno [e], followed by a copy of the request. *)
Definition ack_msg (e : Z) (copy : list Z) : KMsg :=
  {| k_ty := NLMSG_ERROR; k_flags := 0; k_seq := 1; k_pid := 0;
     k_body := ne (be32 (wrap32 (- e))) ++ copy |}.

Definition datagrams (groups : list (list KMsg)) : list Recv :=
  (fun ks => Datagram (mjoin (kmsg <$> ks))) <$> groups.

(** A link and an address, as the kernel dumps them. *)
Record KLink := {
  kl_head : list Z; kl_index : Z; kl_flags : list Z;
  kl_name : list Z; kl_mac : list Z;
  kl_attrs1 : list (Z * list Z); kl_attrs2 : list (Z * list Z); kl_attrs3 : list (Z * list Z) }.

Definition klink_attrs (l : KLink) : list (Z * list Z) :=
  kl_attrs1 l ++ (IFLA_IFNAME, kl_name l ++ [0]) :: kl_attrs2 l
  ++ (IFLA_ADDRESS, kl_mac l) :: kl_attrs3 l.

Definition klink (l : KLink) : KMsg :=
  {| k_ty := RTM_NEWLINK; k_flags := 2; k_seq := 1; k_pid := 0;
     k_body := kl_head l ++ ne (be32 (kl_index l)) ++ kl_flags l ++ encode_attrs (klink_attrs l) |}.

Definition klink_ok (l : KLink) : Prop :=
  length (kl_head l) = 4%nat /\ length (kl_flags l) = 8%nat /\ is_u32 (kl_index l)
  /\ length (kl_mac l) = 6%nat /\ 0 ∉ kl_name l
  /\ Forall attr_ok (klink_attrs l)
  /\ Forall (fun a => a.1 <> IFLA_IFNAME /\ a.1 <> IFLA_ADDRESS)
       (kl_attrs1 l ++ kl_attrs2 l ++ kl_attrs3 l)
  /\ kmsg_ok (klink l).

Record KAddr := {
  ka_index : Z; ka_len : Z; ka_flags : list Z;
  ka_peer : Ipv4Addr; ka_local : Ipv4Addr; ka_attrs : list (Z * list Z) }.

Definition kaddr_attrs (a : KAddr) : list (Z * list Z) :=
  (IFA_ADDRESS, octets (ka_peer a)) :: (IFA_LOCAL, octets (ka_local a)) :: ka_attrs a.

Definition kaddr (a : KAddr) : KMsg :=
  {| k_ty := RTM_NEWADDR; k_flags := 2; k_seq := 1; k_pid := 0;
     k_body := [AF_INET; ka_len a] ++ ka_flags a ++ ne (be32 (ka_index a))
                 ++ encode_attrs (kaddr_attrs a) |}.

Definition kaddr_ok (a : KAddr) : Prop :=
  length (ka_flags a) = 2%nat /\ is_u32 (ka_index a) /\ Forall attr_ok (ka_attrs a)
  /\ Forall (fun x => x.1 <> IFA_ADDRESS /\ x.1 <> IFA_LOCAL) (ka_attrs a)
  /\ kmsg_ok (kaddr a).

(** A whole dump: the messages in datagrams, then NLMSG_DONE in one of its own. *)
Definition dump (groups : list (list KMsg)) : Exchange :=
  Replies (datagrams (groups ++ [[done_msg]])).

Definition link_of (l : KLink) : Link := {| index := kl_index l; mac := kl_mac l |}.

(** The first link of that name. *)
Definition find_link (ls : list KLink) (name : list Z) : option Link :=
  link_of <$> head (filter (fun l => kl_name l = name) ls).

(** The address [interface_ipv4] is to choose on link [ix]: the first that is
    not a /32, else the first. *)
Definition own_address (addrs : list KAddr) (ix : Z) : option Ipv4Addr :=
  let mine := filter (fun a => ka_index a = ix) addrs in
  ka_local <$> or_else (head (filter (fun a => ka_len a < 32) mine)) (head mine).

(** ** Byte order *)

Lemma ne_length b : length (ne b) = length b.
Proof. unfold ne. destruct little; [apply length_reverse|done]. Qed.

Lemma ne16_length x : length (ne (be16 x)) = 2%nat.
Proof. apply ne_length. Qed.
Lemma ne32_length x : length (ne (be32 x)) = 4%nat.
Proof. apply ne_length. Qed.

Lemma ne_lookup_after p b r i :
  (p ++ ne b ++ r) !! (length p + i)%nat = (ne b ++ r) !! i.
Proof. rewrite lookup_app_r by lia. f_equal. lia. Qed.

Lemma u16_at_app p x r i : i = length p -> is_u16 x -> u16_at (p ++ ne (be16 x) ++ r) i = Some x.
Proof.
  intros -> Hx. unfold u16_at. rewrite <- (Nat.add_0_r (length p)), <- Nat.add_succ_r.
  rewrite !ne_lookup_after. unfold ne, be16. unfold is_u16, of_be16 in *.
  destruct little; simpl; f_equal; zdiv.
Qed.

Lemma u32_at_app p x r i : i = length p -> is_u32 x -> u32_at (p ++ ne (be32 x) ++ r) i = Some x.
Proof.
  intros -> Hx. unfold u32_at. rewrite <- (Nat.add_0_r (length p)), <- !Nat.add_succ_r.
  rewrite !ne_lookup_after. unfold ne, be32. unfold is_u32, of_be32 in *.
  destruct little; simpl; f_equal; zdiv.
Qed.

Lemma u16_at_0 x r : is_u16 x -> u16_at (ne (be16 x) ++ r) 0 = Some x.
Proof. by apply (u16_at_app []). Qed.

Lemma u32_at_0 x r : is_u32 x -> u32_at (ne (be32 x) ++ r) 0 = Some x.
Proof. by apply (u32_at_app []). Qed.

Lemma u16_at_Some b i : (S i < length b)%nat -> exists x, u16_at b i = Some x.
Proof.
  intros H. destruct (lookup_lt_ex b i) as [x Hx]; [lia|]. destruct (lookup_lt_ex b (S i)) as [y Hy]; [lia|].
  unfold u16_at. rewrite Hx, Hy. cbn. eauto.
Qed.

Lemma u32_at_Some b i : (S (S (S i)) < length b)%nat -> exists x, u32_at b i = Some x.
Proof.
  intros H. unfold u32_at.
  destruct (lookup_lt_ex b i) as [w ->]; [lia|]. destruct (lookup_lt_ex b (S i)) as [x ->]; [lia|].
  destruct (lookup_lt_ex b (S (S i))) as [y ->]; [lia|].
  destruct (lookup_lt_ex b (S (S (S i)))) as [z ->]; [lia|]. cbn. eauto.
Qed.

Lemma u16_at_range b i x : bytes_ok b -> u16_at b i = Some x -> is_u16 x.
Proof.
  unfold u16_at. intros Hb. destruct (b !! i) as [y|] eqn:Ey; [|done].
  destruct (b !! S i) as [z|] eqn:Ez; [|done]. cbn. intros [= <-].
  eapply bytes_ok_lookup in Ey, Ez; try done. unfold is_u8, is_u16, of_be16 in *. destruct little; lia.
Qed.

Lemma u32_at_range b i x : bytes_ok b -> u32_at b i = Some x -> is_u32 x.
Proof.
  unfold u32_at. intros Hb. destruct (b !! i) as [w|] eqn:Ew; [|done].
  destruct (b !! S i) as [y|] eqn:Ey; [|done]. destruct (b !! S (S i)) as [z|] eqn:Ez; [|done].
  destruct (b !! S (S (S i))) as [v|] eqn:Ev; [|done]. cbn. intros [= <-].
  eapply bytes_ok_lookup in Ew, Ey, Ez, Ev; try done.
  unfold is_u8, is_u32, of_be32 in *. destruct little; lia.
Qed.

(** ** Alignment *)

Lemma align_eq n : 0 <= n < 4611686018427387904 -> align n = (n + 3) / 4 * 4.
Proof.
  intros Hn. unfold align. rewrite wrap64_id by (unfold is_u64; lia).
  change 0xfffffffffffffffc with (Z.land (Z.ones 64) (Z.lnot (Z.ones 2))).
  rewrite Z.land_assoc, Z.land_ones, Z.mod_small by lia.
  rewrite <- Z.ldiff_land, Z.ldiff_ones_r, Z.shiftl_mul_pow2, Z.shiftr_div_pow2 by lia. done.
Qed.

Lemma padded_length n : Z.of_nat n < 4611686018427387904 ->
  (n + length (padding n))%nat = Z.to_nat (align (Z.of_nat n)) /\ (length (padding n) < 4)%nat.
Proof.
  intros Hn. unfold padding. rewrite length_replicate.
  rewrite align_eq by lia. split; zdiv.
Qed.

Lemma skip_aligned_item item r n :
  Z.of_nat n < 4611686018427387904 -> (length item + length (padding n))%nat = (n + length (padding n))%nat ->
  skip_aligned (item ++ padding n ++ r) n = Some r.
Proof.
  intros Hn Hl. destruct (padded_length n Hn) as [Ha _]. unfold skip_aligned.
  rewrite <- Ha. rewrite !length_app. rewrite Nat.min_l by lia.
  rewrite slice_from_Some by (rewrite !length_app; lia). rewrite app_assoc.
  replace (n + _)%nat with (length (item ++ padding n)) by (rewrite length_app; lia).
  by rewrite drop_app_length.
Qed.

Lemma skip_aligned_total b n : (4 <= n)%nat -> (n <= length b)%nat ->
  Z.of_nat n < 4611686018427387904 ->
  exists r, skip_aligned b n = Some r /\ (length r + 4 <= length b)%nat /\ exists k, r = drop k b.
Proof.
  intros H4 Hb Hn. unfold skip_aligned. rewrite slice_from_Some by lia.
  eexists. split; [done|]. rewrite length_drop. split; [|eauto].
  rewrite align_eq by lia. zdiv.
Qed.

(** ** Attributes *)

Lemma land_3fff t : 0 <= t < 16384 -> Z.land t 0x3fff = t.
Proof. intros. change 0x3fff with (Z.ones 14). rewrite Z.land_ones by lia. by apply Z.mod_small. Qed.

(** A step of [attrs] over an encoded attribute. *)
Lemma attrs_loop_cons fuel a r : attr_ok a ->
  attrs_loop (S fuel) (rtattr a ++ r) = out ← attrs_loop fuel r; Some (a :: out).
Proof.
  intros [Ht Hl]. destruct a as [t d]. cbn [fst snd] in *. unfold rtattr. cbn [fst snd attrs_loop].
  set (n := (4 + length d)%nat).
  assert (is_u16 (4 + Z.of_nat (length d))) as Hn by (unfold is_u16; lia).
  rewrite <- !app_assoc. rewrite bool_decide_false
    by (rewrite !length_app, !ne_length; simpl; lia).
  rewrite u16_at_0 by done. cbn [mbind option_bind].
  replace (Z.to_nat (4 + Z.of_nat (length d))) with n by lia.
  rewrite !bool_decide_false by (rewrite ?length_app, ?ne_length; simpl; lia). cbn [orb].
  rewrite (u16_at_app (ne (be16 (4 + Z.of_nat (length d))))) by (unfold is_u16; rewrite ?ne_length; done || lia).
  cbn [mbind option_bind]. rewrite slice_Some by (rewrite ?length_app, ?ne_length; simpl; lia).
  cbn [mbind option_bind].
  set (h := ne (be16 (4 + Z.of_nat (length d))) ++ ne (be16 t)).
  assert (length h = 4%nat) as Hh by (unfold h; by rewrite length_app, !ne_length).
  replace (ne _ ++ ne _ ++ d ++ padding n ++ r) with ((h ++ d) ++ padding n ++ r)
    by (unfold h; by rewrite <- !app_assoc).
  rewrite skip_aligned_item by (rewrite ?length_app; lia). cbn [mbind option_bind].
  rewrite land_3fff by done. rewrite <- app_assoc, drop_app_length' by done.
  by rewrite take_app_length' by lia.
Qed.

Lemma rtattr_length a : (4 <= length (rtattr a))%nat.
Proof. unfold rtattr. rewrite !length_app, !ne_length. simpl. lia. Qed.

Lemma attrs_loop_encode l r : Forall attr_ok l -> (length r < 4)%nat -> forall fuel,
  (length l < fuel)%nat -> attrs_loop fuel (encode_attrs l ++ r) = Some l.
Proof.
  intros Hl Hr. induction Hl as [|a l Ha Hl IH]; intros [|fuel] Hf; simpl in Hf; try lia.
  - simpl. by rewrite bool_decide_true.
  - change (encode_attrs (a :: l)) with (rtattr a ++ encode_attrs l).
    rewrite <- app_assoc, attrs_loop_cons by done. rewrite IH by lia. done.
Qed.

Lemma encode_attrs_length l : (4 * length l <= length (encode_attrs l))%nat.
Proof.
  unfold encode_attrs. induction l as [|a l IH]; [done|]. csimpl. rewrite length_app.
  pose proof (rtattr_length a). lia.
Qed.

Lemma attrs_encode l r : Forall attr_ok l -> (length r < 4)%nat -> attrs (encode_attrs l ++ r) = Some l.
Proof.
  intros. apply attrs_loop_encode; try done. rewrite length_app. pose proof (encode_attrs_length l). lia.
Qed.

Lemma attrs_loop_total : forall fuel b, bytes_ok b -> (length b < fuel)%nat ->
  exists l, attrs_loop fuel b = Some l
    /\ Forall (fun a => 0 <= a.1 < 16384 /\ exists i, a.2 = take (length a.2) (drop i b)) l.
Proof.
  induction fuel as [|fuel IH]; intros b Hb Hf; [lia|]. cbn [attrs_loop].
  case_bool_decide; [by exists []|].
  destruct (u16_at_Some b 0) as [len E]; [lia|]. rewrite E. cbn [mbind option_bind].
  apply u16_at_range in E; [|done]. unfold is_u16 in E.
  destruct (bool_decide _ || bool_decide _) eqn:Eg; [by exists []|]. bool_to_prop.
  destruct (u16_at_Some b 2) as [t Et]; [lia|]. rewrite Et. cbn [mbind option_bind].
  rewrite slice_Some by lia. cbn [mbind option_bind].
  destruct (skip_aligned_total b (Z.to_nat len)) as (r & Er & Hr & k & Hk); [lia..|].
  rewrite Er. cbn [mbind option_bind].
  destruct (IH r) as (l & El & Hl); [subst; by apply bytes_ok_drop|lia|].
  rewrite El. cbn [mbind option_bind]. eexists. split; [done|]. constructor; cbn [fst snd].
  - change 0x3fff with (Z.ones 14). rewrite Z.land_ones by lia. split; [zdiv|].
    exists 4%nat. by rewrite length_take, Nat.min_l by (rewrite length_drop; lia).
  - eapply Forall_impl; [|exact Hl]. intros [t' d'] [Ht [i Hi]]. cbn [fst snd] in *. split; [done|].
    exists (k + i)%nat. rewrite Hi at 1. subst r. by rewrite drop_drop.
Qed.

(** The attribute parser, on any bytes and on well-formed ones: it always
    ends and never indexes out of range; every attribute it returns is a piece
    of the buffer, with the flag bits of its type cleared; and it inverts the
    kernel's encoding of any list of attributes, also with up to three bytes
    after them. *)
Theorem attrs_spec b :
  bytes_ok b ->
  (exists l, attrs b = Some l
     /\ Forall (fun a => 0 <= a.1 < 16384 /\ exists i, a.2 = take (length a.2) (drop i b)) l)
  /\ forall l r, Forall attr_ok l -> (length r < 4)%nat -> b = encode_attrs l ++ r -> attrs b = Some l.
Proof.
  intros Hb. split; [apply attrs_loop_total; [done|lia]|].
  intros l r Hl Hr ->. by apply attrs_encode.
Qed.

(** ** The request loop *)

Lemma kmsg_length k : length (kmsg k) = (16 + length (k_body k) + length (padding (16 + length (k_body k))))%nat.
Proof. unfold kmsg. rewrite !length_app, ?ne16_length, ?ne32_length. lia. Qed.

(** A step of [scan] over one of the kernel's messages. *)
Lemma scan_kmsg fuel seq k r out : kmsg_ok k ->
  scan (S fuel) seq (kmsg k ++ r) out =
  if negb (k_seq k =? seq) then scan fuel seq r out
  else if k_ty k =? NLMSG_DONE then inr (Ok out)
  else if k_ty k =? NLMSG_ERROR then
    let err := if bool_decide (4 <= length (k_body k))%nat
               then default 0 (to_i32 <$> u32_at (k_body k) 0) else 0 in
    inr (if err =? 0 then Ok out else Err (Os (neg_i32 err)))
  else scan fuel seq r (out ++ [(k_ty k, k_body k)]).
Proof.
  intros (Hty & Hseq & Hl). cbn [scan].
  set (n := (16 + length (k_body k))%nat). pose proof (kmsg_length k) as Hlen. fold n in Hlen.
  assert (is_u32 (16 + Z.of_nat (length (k_body k)))) as Hn by (unfold is_u32; lia).
  rewrite bool_decide_false by (rewrite length_app; lia).
  unfold kmsg. rewrite <- !app_assoc. rewrite u32_at_0 by done. cbv zeta.
  replace (Z.to_nat (16 + Z.of_nat (length (k_body k)))) with n by lia.
  rewrite !bool_decide_false by (rewrite ?length_app, ?ne16_length, ?ne32_length; lia). cbn [orb].
  rewrite (u16_at_app (ne (be32 (16 + Z.of_nat (length (k_body k)))))) by (rewrite ?ne32_length; done).
  rewrite (app_assoc (ne (be32 (16 + _)))), (app_assoc _ (ne (be16 (k_flags k)))).
  rewrite (u32_at_app (_ ++ ne (be16 (k_flags k)))) by (rewrite ?length_app, ?ne16_length, ?ne32_length; done).
  set (h := ((ne (be32 (16 + Z.of_nat (length (k_body k)))) ++ ne (be16 (k_ty k)))
            ++ ne (be16 (k_flags k))) ++ ne (be32 (k_seq k)) ++ ne (be32 (k_pid k))).
  assert (length h = 16%nat) as Hh by (unfold h; by rewrite !length_app, ?ne16_length, ?ne32_length).
  replace (_ ++ ne (be32 (k_seq k)) ++ ne (be32 (k_pid k)) ++ k_body k ++ _)
    with ((h ++ k_body k) ++ padding n ++ r) by (unfold h; by rewrite <- !app_assoc).
  rewrite slice_Some by (rewrite ?length_app; lia).
  rewrite skip_aligned_item by (rewrite ?length_app; lia).
  rewrite <- app_assoc, drop_app_length' by done. rewrite take_app_length' by lia. done.
Qed.

Lemma kept_cons seq k ks : kept seq (k :: ks) = kept seq [k] ++ kept seq ks.
Proof. unfold kept. rewrite filter_cons, filter_cons, filter_nil. by case_decide. Qed.

Lemma kept_app seq ks ks' : kept seq (ks ++ ks') = kept seq ks ++ kept seq ks'.
Proof. unfold kept. by rewrite list.filter_app, fmap_app. Qed.

Lemma scan_goes_on seq ks r : Forall (goes_on seq) ks -> forall fuel out,
  scan (length ks + fuel) seq (mjoin (kmsg <$> ks) ++ r) out = scan fuel seq r (out ++ kept seq ks).
Proof.
  induction 1 as [|k ks [Hk Hg] _ IH]; intros fuel out.
  { simpl. by rewrite app_nil_r. }
  change (mjoin (kmsg <$> k :: ks)) with (kmsg k ++ mjoin (kmsg <$> ks)).
  change (length (k :: ks) + fuel)%nat with (S (length ks + fuel)).
  rewrite <- app_assoc, scan_kmsg, !IH by done. rewrite kept_cons, app_assoc.
  assert (kept seq [k] = if k_seq k =? seq then [(k_ty k, k_body k)] else []) as ->.
  { unfold kept. rewrite filter_cons, filter_nil. case_decide as E.
    - by rewrite (proj2 (Z.eqb_eq _ _) E).
    - by rewrite (proj2 (Z.eqb_neq _ _) E). }
  destruct (Z.eqb_spec (k_seq k) seq) as [E|]; cbn [negb]; [|by rewrite app_nil_r].
  destruct (Hg E) as [H1 H2].
  by rewrite (proj2 (Z.eqb_neq _ _) H1), (proj2 (Z.eqb_neq _ _) H2).
Qed.

Lemma mjoin_kmsg_length ks : (16 * length ks <= length (mjoin (kmsg <$> ks)))%nat.
Proof.
  induction ks as [|k ks IH]; [done|]. csimpl. rewrite length_app, kmsg_length. lia.
Qed.

Lemma scan_datagram seq ks r out : Forall (goes_on seq) ks ->
  exists fuel, scan (S (length (mjoin (kmsg <$> ks) ++ r))) seq (mjoin (kmsg <$> ks) ++ r) out
               = scan (S fuel) seq r (out ++ kept seq ks).
Proof.
  intros Hks. pose proof (mjoin_kmsg_length ks).
  exists (length (mjoin (kmsg <$> ks) ++ r) - length ks)%nat.
  rewrite <- scan_goes_on by done. f_equal. rewrite length_app. lia.
Qed.

Lemma collect_datagrams seq groups rs : Forall (Forall (goes_on seq)) groups -> forall out,
  collect seq (datagrams groups ++ rs) out = collect seq rs (out ++ kept seq (mjoin groups)).
Proof.
  induction 1 as [|ks groups Hks _ IH]; intros out.
  { simpl. by rewrite app_nil_r. }
  change (datagrams (ks :: groups) ++ rs)
    with (Datagram (mjoin (kmsg <$> ks)) :: (datagrams groups ++ rs)).
  change (mjoin (ks :: groups)) with (ks ++ mjoin groups). cbn [collect].
  destruct (scan_datagram seq ks [] out Hks) as [fuel E]. rewrite app_nil_r in E. rewrite E.
  cbn [scan length]. rewrite bool_decide_true by lia. rewrite IH, kept_app. by rewrite app_assoc.
Qed.

Lemma collect_end groups ks k junk rs r :
  Forall (Forall (goes_on 1)) groups -> Forall (goes_on 1) ks -> kmsg_ok k -> k_seq k = 1 ->
  (forall fuel out, scan (S fuel) 1 (kmsg k ++ junk) out = inr (r out)) ->
  collect 1 (datagrams groups ++ Datagram (mjoin (kmsg <$> ks) ++ kmsg k ++ junk) :: rs) []
  = r (kept 1 (mjoin groups ++ ks)).
Proof.
  intros Hg Hks Hk Hs Hr. rewrite collect_datagrams by done. cbn [collect].
  destruct (scan_datagram 1 ks (kmsg k ++ junk) ([] ++ kept 1 (mjoin groups)) Hks) as [fuel ->].
  by rewrite Hr, kept_app.
Qed.

Lemma scan_done fuel junk out : scan (S fuel) 1 (kmsg done_msg ++ junk) out = inr (Ok out).
Proof.
  rewrite scan_kmsg; [done|]. unfold kmsg_ok, done_msg. cbn [k_ty k_seq k_body].
  rewrite ne32_length. unfold is_u16, is_u32, NLMSG_DONE. lia.
Qed.

Lemma ack_ok e copy : Z.of_nat (length copy) < 4294967276 -> kmsg_ok (ack_msg e copy).
Proof.
  intros. unfold kmsg_ok, ack_msg. cbn [k_ty k_seq k_body]. rewrite length_app, ne32_length.
  unfold is_u16, is_u32, NLMSG_ERROR. lia.
Qed.

Lemma scan_ack fuel e copy junk out :
  Z.of_nat (length copy) < 4294967276 -> 0 <= e < 4096 ->
  scan (S fuel) 1 (kmsg (ack_msg e copy) ++ junk) out = inr (if e =? 0 then Ok out else Err (Os e)).
Proof.
  intros Hc He. rewrite scan_kmsg by (by apply ack_ok). cbn [ack_msg k_ty k_seq k_body].
  change (negb (1 =? 1)) with false. change (NLMSG_ERROR =? NLMSG_DONE) with false.
  change (NLMSG_ERROR =? NLMSG_ERROR) with true. cbn iota.
  rewrite bool_decide_true by (rewrite length_app, ne32_length; lia).
  rewrite u32_at_0 by (unfold is_u32, wrap32; zdiv).
  change (default 0 (to_i32 <$> Some (wrap32 (- e)))) with (to_i32 (wrap32 (- e))).
  cbv zeta.
  assert (to_i32 (wrap32 (- e)) = - e) as ->.
  { unfold to_i32, wrap32. destruct (Z.ltb_spec ((- e) mod 4294967296) 2147483648); zdiv. }
  destruct (Z.eqb_spec e 0) as [->|]; [done|].
  destruct (Z.eqb_spec (- e) 0); [lia|]. unfold neg_i32.
  destruct (Z.eqb_spec (- e) (-2147483648)); [lia|]. by rewrite Z.opp_involutive.
Qed.

Lemma scan_total : forall fuel seq b out, bytes_ok b -> (length b < fuel)%nat ->
  scan fuel seq b out <> inr Panic.
Proof.
  induction fuel as [|fuel IH]; intros seq b out Hb Hf; [lia|]. cbn [scan].
  case_bool_decide; [done|].
  destruct (u32_at_Some b 0) as [len E]; [lia|]. rewrite E. apply u32_at_range in E; [|done].
  unfold is_u32 in E. cbv zeta.
  destruct (bool_decide _ || bool_decide _) eqn:Eg; [done|]. bool_to_prop.
  destruct (u16_at_Some b 4) as [t ->]; [lia|]. destruct (u32_at_Some b 8) as [q ->]; [lia|].
  rewrite slice_Some by lia.
  destruct (skip_aligned_total b (Z.to_nat len)) as (r & -> & Hr & k & ->); [lia..|].
  assert (forall out, scan fuel seq (drop k b) out <> inr Panic) as IH'
    by (intros; apply IH; [by apply bytes_ok_drop|lia]).
  repeat case_match; try done; apply IH'.
Qed.

(** The request loop: it never indexes out of range and its scan of a
    datagram always ends, on any bytes; and whatever the kernel's grouping of
    its messages into datagrams, the messages of other requests among them and
    the bytes after the last one, a dump returns exactly the messages of this
    request, in order, and an ACK returns success or its errno. *)
Theorem request_collects (groups : list (list KMsg)) (ks : list KMsg) junk rs e copy :
  Forall (Forall (goes_on 1)) groups -> Forall (goes_on 1) ks ->
  Z.of_nat (length copy) < 4294967276 -> 0 <= e < 4096 ->
  (forall rs', Forall (fun r => match r with Datagram b => bytes_ok b | _ => True end) rs' ->
     collect 1 rs' [] <> Panic)
  /\ collect 1 (datagrams groups ++ Datagram (mjoin (kmsg <$> ks) ++ kmsg done_msg ++ junk) :: rs) []
     = Ok (kept 1 (mjoin groups ++ ks))
  /\ collect 1 (datagrams groups
                ++ Datagram (mjoin (kmsg <$> ks) ++ kmsg (ack_msg e copy) ++ junk) :: rs) []
     = if e =? 0 then Ok (kept 1 (mjoin groups ++ ks)) else Err (Os e).
Proof.
  intros Hg Hks Hc He. split_and!.
  - intros rs'. generalize (@nil NlMsg). induction rs' as [|[b|n] rs' IH]; intros out H; [done| |done].
    apply Forall_cons_iff in H as [Hb H]. cbn [collect].
    pose proof (scan_total (S (length b)) 1 b out Hb ltac:(lia)) as Hs.
    destruct (scan _ _ _ _) as [|r] eqn:E; [by apply IH|congruence].
  - apply (collect_end groups ks done_msg junk rs Ok); try done.
    + unfold kmsg_ok, done_msg. cbn [k_ty k_seq k_body]. rewrite ne32_length. unfold is_u16, is_u32, NLMSG_DONE. lia.
    + intros. apply scan_done.
  - apply (collect_end groups ks (ack_msg e copy) junk rs (fun out => if e =? 0 then Ok out else Err (Os e)));
      try done; [by apply ack_ok|]. intros. by apply scan_ack.
Qed.

(** ** Links and addresses *)

Lemma until_nul_name n : 0 ∉ n -> until_nul (n ++ [0]) = n.
Proof.
  induction n as [|c n IH]; [done|]. intros H. simpl. rewrite not_elem_of_cons in H.
  destruct (Z.eqb_spec c 0); [naive_solver|]. f_equal. naive_solver.
Qed.

Lemma link_attrs_skip name pre l f m :
  Forall (fun a => a.1 <> IFLA_IFNAME /\ a.1 <> IFLA_ADDRESS) pre ->
  link_attrs name (pre ++ l) f m = link_attrs name l f m.
Proof.
  induction 1 as [|[t d] pre [H1 H2] _ IH]; [done|]. simpl in *.
  by rewrite (proj2 (Z.eqb_neq _ _) H1), (proj2 (Z.eqb_neq _ _) H2).
Qed.

Lemma link_attrs_klink name l : klink_ok l ->
  link_attrs name (klink_attrs l) false (replicate 6 0) = (bool_decide (kl_name l = name), kl_mac l).
Proof.
  intros (_ & _ & _ & Hm & Hn & _ & Ho & _). apply Forall_app in Ho as [H1 [H2 H3]%Forall_app].
  unfold klink_attrs. rewrite link_attrs_skip by done. cbn [link_attrs].
  rewrite (Z.eqb_refl IFLA_IFNAME). rewrite link_attrs_skip by done. cbn [link_attrs].
  change (IFLA_ADDRESS =? IFLA_IFNAME) with false. rewrite (Z.eqb_refl IFLA_ADDRESS).
  rewrite (bool_decide_true (length (kl_mac l) = 6%nat)) by done. cbn [andb].
  rewrite <- (app_nil_r (kl_attrs3 l)), link_attrs_skip by done. cbn [link_attrs].
  by rewrite until_nul_name.
Qed.

Lemma kept_klinks ls : kept 1 (klink <$> ls) = (fun l => (RTM_NEWLINK, k_body (klink l))) <$> ls.
Proof. induction ls as [|l ls IH]; [done|]. rewrite fmap_cons, kept_cons, IH. done. Qed.

Lemma parse_links_dump ls name : Forall klink_ok ls ->
  parse_links (kept 1 (klink <$> ls)) name = Some (find_link ls name).
Proof.
  rewrite kept_klinks. unfold find_link. induction 1 as [|l ls Hl _ IH]; [done|].
  rewrite fmap_cons. cbn [parse_links]. set (rest := parse_links (_ <$> ls) name) in *.
  cbn [klink k_body].
  pose proof Hl as (Hh & Hf & Hi & _ & _ & Ha & _ & _).
  rewrite bool_decide_false by (rewrite !length_app, ne32_length; lia).
  change (negb (RTM_NEWLINK =? RTM_NEWLINK)) with false. cbn [orb].
  rewrite u32_at_app by done. cbn [mbind option_bind].
  rewrite slice_from_Some by (rewrite !length_app, ne32_length; lia). cbn [mbind option_bind].
  rewrite (app_assoc (ne _)), (app_assoc (kl_head l)).
  rewrite drop_app_length' by (rewrite !length_app, ne32_length; lia).
  rewrite <- (app_nil_r (encode_attrs _)), attrs_encode by (done || (simpl; lia)).
  cbn [mbind option_bind]. rewrite link_attrs_klink by done. rewrite filter_cons.
  rewrite IH. case_bool_decide; by case_decide.
Qed.

Lemma addr_attrs_skip pre lo ad :
  Forall (fun x => x.1 <> IFA_ADDRESS /\ x.1 <> IFA_LOCAL) pre -> addr_attrs pre lo ad = (lo, ad).
Proof.
  induction 1 as [|[t d] pre [H1 H2] _ IH]; [done|]. simpl in *.
  rewrite (proj2 (Z.eqb_neq _ _) H1), (proj2 (Z.eqb_neq _ _) H2). by repeat case_match.
Qed.

Lemma addr_attrs_kaddr a : kaddr_ok a ->
  addr_attrs (kaddr_attrs a) None None = (Some (ka_local a), Some (ka_peer a)).
Proof.
  intros (_ & _ & _ & Ho & _). unfold kaddr_attrs.
  transitivity (addr_attrs (ka_attrs a) (Some (ka_local a)) (Some (ka_peer a))).
  - by destruct (ka_local a), (ka_peer a).
  - by apply addr_attrs_skip.
Qed.

Lemma kept_kaddrs l : kept 1 (kaddr <$> l) = (fun a => (RTM_NEWADDR, k_body (kaddr a))) <$> l.
Proof. induction l as [|a l IH]; [done|]. rewrite fmap_cons, kept_cons, IH. done. Qed.

Lemma kaddr_attrs_ok a : kaddr_ok a -> Forall attr_ok (kaddr_attrs a).
Proof.
  intros (_ & _ & H & _). unfold kaddr_attrs. constructor; [|constructor]; try done;
    unfold attr_ok; cbn [fst snd]; rewrite length_octets; unfold IFA_ADDRESS, IFA_LOCAL; lia.
Qed.

Lemma parse_addrs_dump l ix : Forall kaddr_ok l ->
  parse_addrs (kept 1 (kaddr <$> l)) ix
  = Some ((fun a => (ka_local a, ka_len a)) <$> filter (fun a => ka_index a = ix) l).
Proof.
  rewrite kept_kaddrs. induction 1 as [|a l Ha _ IH]; [done|].
  rewrite fmap_cons. cbn [parse_addrs]. set (rest := parse_addrs (_ <$> l) ix) in *.
  cbn [kaddr k_body].
  pose proof Ha as (Hf & Hi & _). pose proof (kaddr_attrs_ok a Ha) as Hok.
  rewrite bool_decide_false by (rewrite !length_app, ne32_length; simpl; lia).
  change (negb (RTM_NEWADDR =? RTM_NEWADDR)) with false. cbn [orb].
  rewrite (app_assoc [AF_INET; _]). rewrite u32_at_app by (rewrite ?length_app; simpl; lia || done).
  cbn [app lookup list_lookup mbind option_bind].
  change (negb (AF_INET =? AF_INET)) with false. cbn [orb].
  rewrite filter_cons. destruct (Z.eqb_spec (ka_index a) ix) as [E|E]; cbn [negb];
    [rewrite decide_True by done|by rewrite decide_False by done].
  rewrite slice_from_Some by (simpl; rewrite !length_app, ne32_length; lia). cbn [mbind option_bind].
  rewrite (app_assoc (ka_flags a)), !app_comm_cons.
  rewrite drop_app_length' by (simpl; rewrite !length_app, ne32_length; lia).
  rewrite <- (app_nil_r (encode_attrs _)), attrs_encode by (done || (simpl; lia)).
  cbn [mbind option_bind]. rewrite IH. cbn [mbind option_bind].
  by rewrite addr_attrs_kaddr.
Qed.

Lemma done_ok : kmsg_ok done_msg.
Proof.
  unfold kmsg_ok, done_msg. cbn [k_ty k_seq k_body]. rewrite ne32_length.
  unfold is_u16, is_u32, NLMSG_DONE. lia.
Qed.

Lemma request_dump groups ty flags payload : Forall (Forall (goes_on 1)) groups ->
  request (dump groups) ty flags payload
  = ([nl_msg ty flags 1 payload], Ok (kept 1 (mjoin groups))).
Proof.
  intros Hg. unfold request, dump, datagrams. rewrite fmap_app. f_equal.
  rewrite (collect_datagrams 1 groups) by done. cbn [fmap list_fmap collect].
  change (mjoin [kmsg done_msg]) with (kmsg done_msg ++ []). by rewrite scan_done.
Qed.

Lemma klinks_go_on ls groups : Forall klink_ok ls -> mjoin groups = klink <$> ls ->
  Forall (Forall (goes_on 1)) groups.
Proof.
  intros Hl E. apply Forall_mjoin_inv. rewrite E. apply Forall_fmap. eapply Forall_impl; [|exact Hl].
  intros l H. split; [apply H|done].
Qed.
Lemma kaddrs_go_on l groups : Forall kaddr_ok l -> mjoin groups = kaddr <$> l ->
  Forall (Forall (goes_on 1)) groups.
Proof.
  intros Hl E. apply Forall_mjoin_inv. rewrite E. apply Forall_fmap. eapply Forall_impl; [|exact Hl].
  intros a H. split; [apply H|done].
Qed.

Lemma link_dump ls groups name : Forall klink_ok ls -> mjoin groups = klink <$> ls ->
  link (dump groups) name
  = ([nl_msg RTM_GETLINK NLM_F_DUMP 1 (replicate 16 0)],
     match find_link ls name with Some l => Ok l | None => Err NoInterface end).
Proof.
  intros Hl E. unfold link. rewrite request_dump by (by eapply klinks_go_on).
  cbn [bind_res]. rewrite E, parse_links_dump by done. by destruct (find_link ls name).
Qed.

(** [interface_ipv4] against the kernel's dumps: for any links and
    addresses, in any grouping into datagrams, it returns the local address of
    the named interface, the first that is not a /32 (a VIP is), else the first;
    an unknown interface and one without IPv4 address are errors; the names
    compare whole. *)
Theorem interface_ipv4_spec (ls : list KLink) (addrs : list KAddr) g1 g2 name :
  Forall klink_ok ls -> Forall kaddr_ok addrs ->
  mjoin g1 = klink <$> ls -> mjoin g2 = kaddr <$> addrs ->
  interface_ipv4 (dump g1) (dump g2) name =
  match find_link ls name with
  | None => Err NoInterface
  | Some l => match own_address addrs (index l) with Some a => Ok a | None => Err NoAddress end
  end.
Proof.
  intros Hl Ha E1 E2. unfold interface_ipv4. rewrite (link_dump ls) by done. cbn [snd].
  destruct (find_link ls name) as [l|]; [|done]. cbn [bind_res].
  rewrite request_dump by (by eapply kaddrs_go_on). cbn [snd bind_res].
  rewrite E2, parse_addrs_dump by done.
  assert (pick_addr ((fun a => (ka_local a, ka_len a)) <$> filter (fun a => ka_index a = index l) addrs)
          = own_address addrs (index l)) as ->; [|done].
  unfold pick_addr, own_address. cbv zeta.
  set (mine := filter _ addrs). generalize mine. clear. intros mine.
  assert (filter (fun a : Ipv4Addr * Z => a.2 < 32) ((fun a => (ka_local a, ka_len a)) <$> mine)
          = (fun a => (ka_local a, ka_len a)) <$> filter (fun a => ka_len a < 32) mine) as ->.
  { induction mine as [|a mine IH]; [done|]. rewrite fmap_cons, !filter_cons, IH. cbn [snd].
    by case_decide. }
  by destruct (filter _ mine), mine.
Qed.

(** ** Claiming and releasing *)

Lemma nl_msg_kmsg ty flags payload : Z.of_nat (length payload) < 4294967280 ->
  nl_msg ty flags 1 payload
  = kmsg {| k_ty := ty; k_flags := Z.lor flags NLM_F_REQUEST; k_seq := 1; k_pid := 0;
            k_body := payload |}.
Proof.
  intros H. unfold nl_msg, kmsg. cbv zeta. cbn [k_ty k_flags k_seq k_pid k_body].
  destruct (padded_length (16 + length payload)) as [Hp _]; [lia|].
  rewrite wrap32_id by (unfold is_u32; lia). rewrite <- Hp.
  rewrite resize_ge by (rewrite !length_app, ?ne16_length, ?ne32_length; lia).
  rewrite <- !app_assoc. rewrite Nat2Z.inj_add. do 6 f_equal. unfold padding at 2.
  f_equal. rewrite <- Hp. rewrite !length_app, ?ne16_length, ?ne32_length. lia.
Qed.

Lemma addr_payload_attrs ix ip :
  addr_payload ix ip = [AF_INET; 32; 0; 0] ++ ne (be32 ix)
    ++ encode_attrs [(IFA_LOCAL, octets ip); (IFA_ADDRESS, octets ip)].
Proof. unfold addr_payload, encode_attrs, rtattr. destruct ip. by destruct little. Qed.

Lemma addr_payload_length ix ip : length (addr_payload ix ip) = 24%nat.
Proof. unfold addr_payload, ne. destruct little; reflexivity. Qed.

Lemma parse_addr_payload ix ip : is_u32 ix ->
  parse_addrs [(RTM_NEWADDR, addr_payload ix ip)] ix = Some [(ip, 32)].
Proof.
  intros Hi. cbn [parse_addrs]. rewrite addr_payload_length, addr_payload_attrs.
  change (negb (RTM_NEWADDR =? RTM_NEWADDR)) with false. cbn [orb].
  rewrite bool_decide_false by lia.
  rewrite u32_at_app by done. cbn [app lookup list_lookup mbind option_bind].
  rewrite Z.eqb_refl, (Z.eqb_refl ix). cbn [negb orb].
  rewrite slice_from_Some by (simpl; rewrite !length_app, ne32_length; lia). cbn [mbind option_bind].
  replace (drop 8 _) with (encode_attrs [(IFA_LOCAL, octets ip); (IFA_ADDRESS, octets ip)])
    by (unfold ne; destruct little; reflexivity).
  rewrite <- (app_nil_r (encode_attrs _)), attrs_encode; [|..|simpl; lia].
  - cbn [mbind option_bind]. by destruct ip.
  - repeat constructor; cbn [fst snd]; rewrite ?length_octets; unfold IFA_LOCAL, IFA_ADDRESS; lia.
Qed.

Lemma addr_change_ack ty flags ix ip e copy rs :
  Z.of_nat (length copy) < 4294967276 -> 0 <= e < 4096 ->
  addr_change (Replies (Datagram (kmsg (ack_msg e copy)) :: rs)) ty flags ix ip
  = ([nl_msg ty (Z.lor flags NLM_F_ACK) 1 (addr_payload ix ip)],
     if e =? 0 then Ok tt else Err (Os e)).
Proof.
  intros Hc He. unfold addr_change, request. cbn [collect].
  pose proof (scan_ack (length (kmsg (ack_msg e copy))) e copy [] [] Hc He) as E.
  rewrite app_nil_r in E. rewrite E. by destruct (e =? 0).
Qed.

(** What the kernel reads of an address request: one message for that /32. *)
Lemma scan_change ty flags ix ip : is_u16 ty -> ty <> NLMSG_DONE -> ty <> NLMSG_ERROR ->
  scan 41 1 (nl_msg ty (Z.lor flags NLM_F_ACK) 1 (addr_payload ix ip)) [] = inl [(ty, addr_payload ix ip)].
Proof.
  intros Ht Hd Hn. rewrite nl_msg_kmsg by (rewrite addr_payload_length; lia).
  set (k := {| k_ty := ty; k_flags := _; k_seq := 1; k_pid := 0; k_body := _ |}).
  rewrite <- (app_nil_r (kmsg k)), scan_kmsg.
  - cbn [k k_seq k_ty k_body]. by rewrite (proj2 (Z.eqb_neq _ _) Hd), (proj2 (Z.eqb_neq _ _) Hn).
  - unfold kmsg_ok, k. cbn [k_ty k_seq k_body]. rewrite addr_payload_length.
    split_and!; [done|done|lia].
Qed.

(** The result of a claim and of a release, from the kernel's answer. *)
Lemma claim_ack ls g name l vip ip e copy rs :
  Forall klink_ok ls -> mjoin g = klink <$> ls -> find_link ls name = Some l ->
  parse_ipv4 vip = Some ip -> Z.of_nat (length copy) < 4294967276 -> 0 <= e < 4096 ->
  claim (dump g) (Replies (Datagram (kmsg (ack_msg e copy)) :: rs)) vip name =
  (let ok := (e =? 0) || (e =? EEXIST) in
   {| requests := [nl_msg RTM_GETLINK NLM_F_DUMP 1 (replicate 16 0);
                   nl_msg RTM_NEWADDR (Z.lor (Z.lor NLM_F_CREATE NLM_F_EXCL) NLM_F_ACK) 1
                     (addr_payload (index l) ip)];
      garp := if ok && negb (bool_decide (mac l = replicate 6 0)) then Some (index l, mac l, ip) else None;
      result := if ok then Ok tt else Err (Os e) |}).
Proof.
  intros Hl E Hf Hip Hc He. unfold claim. rewrite Hip, (link_dump ls), Hf by done.
  rewrite addr_change_ack by done. unfold tolerate. destruct (e =? 0); [by destruct (bool_decide _)|].
  by destruct (e =? EEXIST), (bool_decide _).
Qed.

Lemma release_ack ls g name l vip ip e copy rs :
  Forall klink_ok ls -> mjoin g = klink <$> ls -> find_link ls name = Some l ->
  parse_ipv4 vip = Some ip -> Z.of_nat (length copy) < 4294967276 -> 0 <= e < 4096 ->
  release (dump g) (Replies (Datagram (kmsg (ack_msg e copy)) :: rs)) vip name =
  {| requests := [nl_msg RTM_GETLINK NLM_F_DUMP 1 (replicate 16 0);
                  nl_msg RTM_DELADDR (Z.lor 0 NLM_F_ACK) 1 (addr_payload (index l) ip)];
     garp := None; result := if (e =? 0) || (e =? EADDRNOTAVAIL) then Ok tt else Err (Os e) |}.
Proof.
  intros Hl E Hf Hip Hc He. unfold release. rewrite Hip, (link_dump ls), Hf by done.
  rewrite addr_change_ack by done. unfold tolerate. by destruct (e =? 0), (e =? EADDRNOTAVAIL).
Qed.

(** Claiming and releasing a VIP.  On a kernel whose dump has the interface,
    each asks for the links and then sends exactly one address request, which
    the kernel reads as one message for that /32 on that interface; the result
    is success when the kernel acknowledges it or says it was so already
    (EEXIST for a claim, EADDRNOTAVAIL for a release) and the errno otherwise.
    A successful claim, and nothing else, starts the gratuitous ARPs, from the
    interface's hardware address, unless that is all zeros. *)
Theorem claim_release_spec ls g name l vip ip e copy rs :
  Forall klink_ok ls -> mjoin g = klink <$> ls -> find_link ls name = Some l ->
  parse_ipv4 vip = Some ip -> is_u32 (index l) ->
  Z.of_nat (length copy) < 4294967276 -> 0 <= e < 4096 ->
  let kernel := Replies (Datagram (kmsg (ack_msg e copy)) :: rs) in
  let getlink := nl_msg RTM_GETLINK NLM_F_DUMP 1 (replicate 16 0) in
  let change ty flags := nl_msg ty (Z.lor flags NLM_F_ACK) 1 (addr_payload (index l) ip) in
  claim (dump g) kernel vip name =
    (let ok := (e =? 0) || (e =? EEXIST) in
     {| requests := [getlink; change RTM_NEWADDR (Z.lor NLM_F_CREATE NLM_F_EXCL)];
        garp := if ok && negb (bool_decide (mac l = replicate 6 0)) then Some (index l, mac l, ip)
                else None;
        result := if ok then Ok tt else Err (Os e) |})
  /\ release (dump g) kernel vip name =
     {| requests := [getlink; change RTM_DELADDR 0]; garp := None;
        result := if (e =? 0) || (e =? EADDRNOTAVAIL) then Ok tt else Err (Os e) |}
  /\ (forall ty flags, is_u16 ty -> ty <> NLMSG_DONE -> ty <> NLMSG_ERROR ->
        scan 41 1 (change ty flags) [] = inl [(ty, addr_payload (index l) ip)])
  /\ parse_addrs [(RTM_NEWADDR, addr_payload (index l) ip)] (index l) = Some [(ip, 32)].
Proof.
  intros Hl E Hf Hip Hi Hc He. cbv zeta. split_and!.
  - by rewrite (claim_ack ls g name l vip ip e copy rs).
  - by rewrite (release_ack ls g name l vip ip e copy rs).
  - intros. by apply scan_change.
  - by apply parse_addr_payload.
Qed.

End Endian.

Definition garp_frame (mac : list Z) (ip : Ipv4Addr) : list Z :=
  be16 1 ++ be16 0x0800 ++ [6; 4] ++ be16 2 ++ mac ++ octets ip ++ mac ++ octets ip.

Lemma attrs_spec_witness :
  bytes_ok (encode_attrs true [(3, lit "lo" ++ [0]); (1, replicate 6 0)])
  /\ attrs true (encode_attrs true [(3, lit "lo" ++ [0]); (1, replicate 6 0)])
     = Some [(3, lit "lo" ++ [0]); (1, replicate 6 0)].
Proof.
  assert (bytes_ok (encode_attrs true [(3, lit "lo" ++ [0]); (1, replicate 6 0)])) as H by decided.
  split; [exact H|].
  apply (proj2 (attrs_spec true _ H) _ []); [|simpl; lia|reflexivity].
  repeat constructor; cbn; lia.
Defined.

Definition demo_link : KLink :=
  {| kl_head := [0; 0; 1; 0]; kl_index := 3; kl_flags := [67; 16; 0; 0; 0; 0; 0; 0];
     kl_name := lit "eth0"; kl_mac := [2; 0; 0; 0; 0; 9];
     kl_attrs1 := []; kl_attrs2 := [(13, [232; 3; 0; 0])]; kl_attrs3 := [] |}.

Definition demo_addr (ix n : Z) (ip : Ipv4Addr) : KAddr :=
  {| ka_index := ix; ka_len := n; ka_flags := [128; 0]; ka_peer := ip; ka_local := ip;
     ka_attrs := [(3, lit "eth0" ++ [0])] |}.

Definition demo_addrs : list KAddr :=
  [demo_addr 3 32 (Ipv4 10 0 0 50); demo_addr 4 24 (Ipv4 10 1 0 1); demo_addr 3 24 (Ipv4 10 0 0 5)].

#[export] Instance attr_ok_dec a : Decision (attr_ok a).
Proof. unfold attr_ok. apply _. Defined.
#[export] Instance kmsg_ok_dec k : Decision (kmsg_ok k).
Proof. unfold kmsg_ok. apply _. Defined.
#[export] Instance klink_ok_dec b l : Decision (klink_ok b l).
Proof. unfold klink_ok. apply _. Defined.
#[export] Instance kaddr_ok_dec b a : Decision (kaddr_ok b a).
Proof. unfold kaddr_ok. apply _. Defined.

Lemma request_collects_witness :
  goes_on 1 (klink true demo_link)
  /\ collect true 1 [Datagram (kmsg true (klink true demo_link)); Datagram (kmsg true (done_msg true))] []
     = Ok [(RTM_NEWLINK, k_body (klink true demo_link))].
Proof.
  assert (goes_on 1 (klink true demo_link)) as H by (split; [decided|intros _; split; decided]).
  split; [exact H|].
  assert (Forall (Forall (goes_on 1)) [[klink true demo_link]]) as Hg
    by (constructor; [constructor; [exact H|constructor]|constructor]).
  refine (proj1 (proj2 (request_collects true [[klink true demo_link]] [] [] [] 0 [] Hg _ _ _))).
  - constructor.
  - decided.
  - decided.
Defined.

Lemma interface_ipv4_spec_witness :
  klink_ok true demo_link /\ Forall (kaddr_ok true) demo_addrs
  /\ interface_ipv4 true (dump true [[klink true demo_link]]) (dump true [kaddr true <$> demo_addrs])
       (lit "eth0") = Ok (Ipv4 10 0 0 5).
Proof.
  assert (klink_ok true demo_link) as Hl by decided.
  assert (Forall (kaddr_ok true) demo_addrs) as Ha by decided.
  split; [exact Hl|]. split; [exact Ha|].
  assert (Forall (klink_ok true) [demo_link]) as Hl' by (constructor; [exact Hl|constructor]).
  exact (interface_ipv4_spec true [demo_link] demo_addrs [[klink true demo_link]]
           [kaddr true <$> demo_addrs] (lit "eth0") Hl' Ha eq_refl eq_refl).
Defined.

Lemma claim_release_spec_witness :
  klink_ok true demo_link
  /\ result (claim true (dump true [[klink true demo_link]])
               (Replies [Datagram (kmsg true (ack_msg true EEXIST []))]) (lit "192.0.2.10") (lit "eth0"))
     = Ok tt.
Proof.
  assert (klink_ok true demo_link) as Hl by decided.
  split; [exact Hl|].
  assert (Forall (klink_ok true) [demo_link]) as Hl' by (constructor; [exact Hl|constructor]).
  assert (0 <= EEXIST < 4096) as He by decided.
  assert (Z.of_nat (@length Z []) < 4294967276) as Hc by decided.
  assert (is_u32 (index (link_of demo_link))) as Hi by decided.
  pose proof (proj1 (claim_release_spec true [demo_link] [[klink true demo_link]] (lit "eth0")
    (link_of demo_link) (lit "192.0.2.10") (Ipv4 192 0 2 10) EEXIST [] [] Hl' eq_refl eq_refl
    eq_refl Hi Hc He)) as E.
  cbv zeta in E. rewrite E. reflexivity.
Defined.
