(* ===== verification/Arp.v ===== *)
(** * The sockets of the VIP controller ([src/src/vip.rs]: [Nl::open],
      [send_garp], the announcing thread of [claim])

    System calls as a trace: [Kernel] answers each call from the calls before it,
    and a descriptor is closed when its owner is dropped. *)

From S2P Require Import Prelude Str Net Netlink.

(** ** System calls *)

Inductive Call :=
| Socket (domain type protocol : Z)
| BindNetlink (fd : Z)                                        (* [AF_NETLINK], any port *)
| RecvTimeout (fd secs : Z)
| SendTo (fd : Z) (frame : list Z) (protocol ifindex : Z) (dest : list Z)
| Close (fd : Z)
| Sleep (ms : Z).

#[export] Instance Call_eq_dec : EqDecision Call.
Proof. solve_decision. Defined.

(** The calls made so far with their results, and what the kernel answers next;
    negative is an error. *)
Abbreviation Trace := (list (Call * Z)) (only parsing).
Abbreviation Kernel := (list (Call * Z) -> Call -> Z) (only parsing).

Definition call (k : Kernel) (c : Call) (tr : Trace) : Z * Trace := let r := k tr c in (r, tr ++ [(c, r)]).

Definition AF_NETLINK : Z := 16.
Definition AF_PACKET : Z := 17.
Definition SOCK_DGRAM : Z := 2.
Definition SOCK_RAW : Z := 3.
Definition SOCK_CLOEXEC : Z := 0x80000.
Definition NETLINK_ROUTE : Z := 0.
Definition ETH_P_ARP : Z := 0x0806.

(** [to_be] of a [u16] on a little-endian or a big-endian host. *)
Definition to_be16 (little : bool) (x : Z) : Z := if little then of_be16 (x mod 256) (x / 256) else x.

(** [Nl::open]: the descriptor, or none and nothing open; the result of
    [setsockopt] is not looked at. *)
Definition nl_open (k : Kernel) (tr : Trace) : option Z * Trace :=
  let '(fd, tr) := call k (Socket AF_NETLINK (Z.lor SOCK_RAW SOCK_CLOEXEC) NETLINK_ROUTE) tr in
  if fd <? 0 then (None, tr) else
  let '(r, tr) := call k (BindNetlink fd) tr in
  if r <? 0 then (None, (call k (Close fd) tr).2) else
  (Some fd, (call k (RecvTimeout fd 2) tr).2).

(** [send_garp]: whether the frame was sent. *)
Definition send_garp (k : Kernel) (little : bool) (index : Z) (mac : list Z) (ip : Ipv4Addr) (tr : Trace)
    : bool * Trace :=
  let frame := garp_frame mac ip in
  let '(fd, tr) := call k (Socket AF_PACKET (Z.lor SOCK_DGRAM SOCK_CLOEXEC) (to_be16 little ETH_P_ARP)) tr in
  if fd <? 0 then (false, tr) else
  let '(n, tr) := call k (SendTo fd frame (to_be16 little ETH_P_ARP) (to_i32 index) (replicate 6 0xff)) tr in
  let '(_, tr) := call k (Close fd) tr in
  (0 <=? n, tr).

(** The thread: so many frames, half a second between two, none after a failure. *)
Fixpoint announce (k : Kernel) (little : bool) (index : Z) (mac : list Z) (ip : Ipv4Addr) (todo : nat) (tr : Trace)
    : Trace :=
  match todo with
  | O => tr
  | S todo =>
      let '(ok, tr) := send_garp k little index mac ip tr in
      if negb ok then tr else
      let tr := match todo with O => tr | S _ => (call k (Sleep 500) tr).2 end in
      announce k little index mac ip todo tr
  end.

(** What [claim] does of the link it found: nothing without a hardware address. *)
Definition claim_announces (k : Kernel) (little : bool) (l : Link) (ip : Ipv4Addr) : Trace :=
  if bool_decide (mac l = replicate 6 0) then [] else announce k little (index l) (mac l) ip 3 [].

(** ** Specification *)

(** The descriptors open after a trace. *)
Definition fd_step (fds : list Z) (cr : Call * Z) : list Z :=
  match cr with
  | (Socket _ _ _, r) => if r <? 0 then fds else r :: fds
  | (Close fd, _) => List.filter (fun x => negb (x =? fd)) fds
  | _ => fds
  end.

Definition open_fds (fds : list Z) (tr : Trace) : list Z := foldl fd_step fds tr.

(** The frames handed to the kernel, with their interface and destination, and
    whether it took them. *)
Definition frames (tr : Trace) : list (list Z * Z * list Z * bool) :=
  omap (fun cr => match cr with
                  | (SendTo _ f _ ix dest, n) => Some (f, ix, dest, 0 <=? n)
                  | _ => None
                  end) tr.

Definition slept (tr : Trace) : Z :=
  foldr (fun cr s => match cr with (Sleep ms, _) => ms + s | _ => s end) 0 tr.

(** ** Traces *)

Lemma frames_app a b : frames (a ++ b) = frames a ++ frames b.
Proof. unfold frames. apply omap_app. Qed.

Lemma slept_app a b : slept (a ++ b) = slept a + slept b.
Proof. induction a as [|[[] r] a IH]; cbn [app slept foldr] in *; try done; fold (slept (a ++ b)) (slept a); lia. Qed.

Lemma open_fds_app fds a b : open_fds fds (a ++ b) = open_fds (open_fds fds a) b.
Proof. unfold open_fds. by rewrite foldl_app. Qed.

(** What one announcement sends. *)
Definition garp_to (ix : Z) (mac : list Z) (ip : Ipv4Addr) : list Z * Z * list Z :=
  (garp_frame mac ip, to_i32 ix, replicate 6 0xff).

(** One announcement: at most one frame, taken exactly when it says so; a failure
    is one of a call; nothing is left open. *)
Lemma send_garp_spec k little ix mac ip tr :
  let '(ok, tr') := send_garp k little ix mac ip tr in
  exists new, tr' = tr ++ new /\ open_fds [] new = [] /\ slept new = 0
    /\ (if ok then frames new = [(garp_to ix mac ip, true)]
        else Exists (fun cr => cr.2 < 0) new /\ (frames new = [] \/ frames new = [(garp_to ix mac ip, false)])).
Proof.
  unfold send_garp, call. set (frame := garp_frame mac ip).
  set (c := Socket AF_PACKET _ _). set (fd := k tr c).
  destruct (Z.ltb_spec fd 0) as [Hf|Hf].
  { eexists. split; [done|]. unfold c. cbn [open_fds foldl fd_step]. rewrite (proj2 (Z.ltb_lt _ _) Hf).
    split_and!; [done|done|by constructor|by left]. }
  set (tr1 := tr ++ _). set (s := SendTo _ _ _ _ _). set (n := k tr1 s).
  eexists. split; [unfold tr1; rewrite <- !app_assoc; done|]. cbn [app]. unfold c, s.
  cbn [open_fds foldl fd_step]. rewrite (proj2 (Z.ltb_ge _ _) Hf). cbn [List.filter]. rewrite Z.eqb_refl.
  split_and!; [done|done|]. cbn [frames omap list_omap option_bind].
  destruct (Z.leb_spec 0 n); [done|]. split; [|by right]. apply Exists_cons. right. apply Exists_cons. by left.
Qed.

(** All but the last are [true]. *)
Definition only_last_fails (l : list (list Z * Z * list Z * bool)) : Prop :=
  forall f i, l !! i = Some f -> f.2 = false -> S i = length l.

Lemma announce_spec k little ix mac ip n tr :
  exists new, announce k little ix mac ip n tr = tr ++ new /\ open_fds [] new = []
    /\ (length (frames new) <= n)%nat /\ Forall (fun f => f.1 = garp_to ix mac ip) (frames new)
    /\ only_last_fails (frames new) /\ 0 <= slept new <= Z.max 0 (500 * (Z.of_nat n - 1))
    /\ (Forall (fun cr => 0 <= cr.2) new ->
        length (frames new) = n /\ slept new = Z.max 0 (500 * (Z.of_nat n - 1))).
Proof.
  revert tr. induction n as [|n IH]; intros tr; cbn [announce].
  { exists []. rewrite app_nil_r. split_and!; try done; constructor. }
  pose proof (send_garp_spec k little ix mac ip tr) as H.
  destruct (send_garp k little ix mac ip tr) as [ok tr']. destruct H as (new & -> & Ho & Hs & Hf).
  destruct ok; cbn [negb].
  2:{ exists new. destruct Hf as [Hneg Hf]. split_and!; try done; try lia.
      - destruct Hf as [->| ->]; cbn; lia.
      - destruct Hf as [->| ->]; repeat constructor.
      - destruct Hf as [->| ->]; intros f [|i]; cbn; done.
      - intros Hall. exfalso. rewrite list.Forall_forall in Hall. apply list.Exists_exists in Hneg as (cr & Hin & Hlt).
        specialize (Hall cr Hin). cbn in *. lia. }
  set (mid := match n with O => [] | S _ => [(Sleep 500, k (tr ++ new) (Sleep 500))] end).
  assert ((match n with O => tr ++ new | S _ => (call k (Sleep 500) (tr ++ new)).2 end) = (tr ++ new) ++ mid) as ->.
  { unfold mid. destruct n; [by rewrite app_nil_r|done]. }
  destruct (IH ((tr ++ new) ++ mid)) as (rest & -> & Ho' & Hl & Hfa & Hof & Hsl & Hall).
  assert (frames mid = [] /\ open_fds [] mid = [] /\ slept mid = if bool_decide (n
    = 0%nat) then 0 else 500) as (Em1 & Em2 & Em3)
    by (unfold mid; by destruct n).
  exists (new ++ mid ++ rest). rewrite <- !app_assoc. split; [done|].
  rewrite !open_fds_app, !frames_app, !slept_app, Hf, Em1, Ho, Em2, Hs, Em3. cbn [app length].
  split_and!; try done; try lia.
  - by constructor.
  - intros f [|i] Hi Hfail; [cbn in Hi; by injection Hi as <-|]. cbn in Hi. cbn [length]. f_equal.
    exact (Hof f i Hi Hfail).
  - case_bool_decide; lia.
  - case_bool_decide; lia.
  - rewrite !Forall_app. intros (_ & _ & Hr). destruct (Hall Hr) as [-> ->]. split; [done|]. case_bool_decide; lia.
Qed.

(** C40: The announcements of a claimed VIP.  Whatever the kernel answers: at most
    three frames, each the gratuitous ARP reply of the address and the
    interface's hardware address, broadcast on the interface; a frame that is not
    taken is the last; three unless a call fails; the thread sleeps at most a
    second, and just that when nothing fails; and no descriptor stays open. *)
Theorem announcements k little l ip :
  mac l <> replicate 6 0 ->
  let tr := claim_announces k little l ip in
  open_fds [] tr = []
  /\ (length (frames tr) <= 3)%nat
  /\ Forall (fun f => f.1 = (garp_frame (mac l) ip, to_i32 (index l), replicate 6 0xff)) (frames tr)
  /\ (forall f i, frames tr !! i = Some f -> f.2 = false -> S i = length (frames tr))
  /\ 0 <= slept tr <= 1000
  /\ (Forall (fun cr => 0 <= cr.2) tr -> length (frames tr) = 3%nat /\ slept tr = 1000).
Proof.
  intros Hm. unfold claim_announces. rewrite bool_decide_false by done.
  by destruct (announce_spec k little (index l) (mac l) ip 3 []) as (new & -> & H).
Qed.

Lemma announcements_witness :
  let l := {| index := 2; mac := [2; 0; 0; 0; 0; 1] |} in
  let k tr c := match c with Socket _ _ _ => 7 | SendTo _ _ _ _ _ => if bool_decide (length tr < 5)%nat then 28
    else -100 | _ => 0 end in
  let tr := claim_announces k true l (Ipv4 10 0 0 9) in
  length (frames tr) = 2%nat /\ slept tr = 500 /\ open_fds [] tr = [].
Proof.
  intros l k tr. split; [vm_compute; reflexivity|]. split; [vm_compute; reflexivity|].
  apply (announcements k true l (Ipv4 10 0 0 9)). discriminate.
Defined.

(** A netlink socket that is not given to the caller is not open. *)
Lemma nl_open_spec k tr :
  let '(r, tr') := nl_open k tr in
  exists new, tr' = tr ++ new /\ open_fds [] new = match r with Some fd => [fd] | None => [] end.
Proof.
  unfold nl_open, call. set (c := Socket _ _ _). set (fd := k tr c).
  destruct (Z.ltb_spec fd 0) as [Hf|Hf].
  { eexists. split; [done|]. unfold c. cbn [open_fds foldl fd_step]. by rewrite (proj2 (Z.ltb_lt _ _) Hf). }
  set (tr1 := tr ++ _). destruct (k tr1 (BindNetlink fd) <? 0); cbn [snd]; (eexists; split;
    [unfold tr1; rewrite <- !app_assoc; done|]); unfold c; cbn [app open_fds foldl fd_step];
    rewrite (proj2 (Z.ltb_ge _ _) Hf); [|done].
  cbn [List.filter]. by rewrite Z.eqb_refl.
Qed.
