(* ===== verification/Controller.v ===== *)
(** * The VIP controller as an interface ([VipController] of [src/src/vip.rs])

    The VRRP thread only knows the trait; [Claims] is that trait, and [Lawful] what
    a controller promises its user: after a claim the interface has the address,
    after a release it has not, nothing else changes.  The loop of [VrrpLoop] is
    run against the interface.  [Netlink] is shown lawful over any kernel that
    behaves as rtnetlink documents ([Rtnetlink]), down to the bytes of its
    requests; [MockVip] is the recorder of the tests. *)

From S2P Require Import Prelude Str Net Vrrp VrrpLoop Netlink.

(** ** The trait *)

(** [claim] and [release] of an address on an interface; the result is whether
    they return [Ok]. *)
Class Claims (S : Type) := {
  ctl_claim : str -> str -> S -> S * bool;
  ctl_release : str -> str -> S -> S * bool }.

(** The promise, for an interface that exists. *)
Class Lawful (S : Type) `{Claims S} := {
  has_iface : S -> str -> Prop;
  holds : S -> str -> Ipv4Addr -> bool;
  claim_law s iface ip : has_iface s iface -> ipv4_ok ip ->
    let '(s', ok) := ctl_claim (show_ipv4 ip) iface s in
    ok = true /\ has_iface s' iface
    /\ forall a, holds s' iface a = bool_decide (a = ip) || holds s iface a;
  release_law s iface ip : has_iface s iface -> ipv4_ok ip ->
    let '(s', ok) := ctl_release (show_ipv4 ip) iface s in
    ok = true /\ has_iface s' iface
    /\ forall a, holds s' iface a = negb (bool_decide (a = ip)) && holds s iface a }.

(** ** Its user: the VRRP thread *)

Section Perform.
  Context {S : Type} `{Claims S}.

(** The calls of the loop, their errors logged and dropped. *)
Definition act (p : Params) (s : S) (a : Act) : S :=
  match a with
  | Claim => (ctl_claim (show_ipv4 (p_vip p)) (p_iface p) s).1
  | Release => (ctl_release (show_ipv4 (p_vip p)) (p_iface p) s).1
  | _ => s
  end.

Definition perform (p : Params) (acts : list Act) (s : S) : S := foldl (act p) s acts.

Lemma perform_app p a b s : perform p (a ++ b) s = perform p b (perform p a s).
Proof. unfold perform. apply foldl_app. Qed.

End Perform.

Section Client.
  Context {S : Type} `{L : Lawful S}.

Lemma perform_holds p acts : ipv4_ok (p_vip p) -> forall s, has_iface s (p_iface p) ->
  has_iface (perform p acts s) (p_iface p)
  /\ forall a, holds (perform p acts s) (p_iface p) a
               = if bool_decide (a = p_vip p) then held (holds s (p_iface p) (p_vip p)) acts
                 else holds s (p_iface p) a.
Proof.
  intros Hv. unfold perform. induction acts as [|x acts IH]; intros s Hs; cbn [foldl held].
  { split; [done|]. intros a. by case_bool_decide as E; [rewrite E|]. }
  destruct x as [pkt| | |st|ns]; cbn [act]; try by apply IH.
  - pose proof (claim_law s (p_iface p) (p_vip p) Hs Hv) as Hc.
    destruct (ctl_claim _ _ s) as [s' ok]. destruct Hc as (_ & Hs' & Hh). cbn [fst].
    destruct (IH s' Hs') as [Hi Ha]. split; [done|]. intros a.
    rewrite Ha, !Hh, (bool_decide_true (p_vip p = p_vip p)) by done. by case_bool_decide.
  - pose proof (release_law s (p_iface p) (p_vip p) Hs Hv) as Hc.
    destruct (ctl_release _ _ s) as [s' ok]. destruct Hc as (_ & Hs' & Hh). cbn [fst].
    destruct (IH s' Hs') as [Hi Ha]. split; [done|]. intros a.
    rewrite Ha, !Hh, (bool_decide_true (p_vip p = p_vip p)) by done. by case_bool_decide.
Qed.

(** Every point of a run: the address is there as the calls so far say, and no
    other address is touched. *)
Lemma run_holds p setup ts s : ipv4_ok (p_vip p) -> has_iface s (p_iface p) ->
  holds s (p_iface p) (p_vip p) = false ->
  let '(acts, o) := run p setup ts in
  let s' := perform p acts s in
  (match o with
   | Running st => holds s' (p_iface p) (p_vip p) = is_master st
   | Stopped => holds s' (p_iface p) (p_vip p) = false
   | Failed => exists acts', acts = acts' ++ [SetState Initialize]
                 /\ holds s' (p_iface p) (p_vip p) = bool_decide (last_state acts' = Some Master)
   | Panicked => False
   end)
  /\ forall a, a <> p_vip p -> holds s' (p_iface p) a = holds s (p_iface p) a.
Proof.
  intros Hv Hs H0. unfold run. pose proof (run_loop_held p setup ts) as Hr.
  destruct (run_loop p setup ts) as [acts o]. destruct Hr as [_ Ho].
  assert (forall acts', held false acts' = held false acts ->
    holds (perform p acts' s) (p_iface p) (p_vip p) = held false acts
    /\ forall a, a <> p_vip p -> holds (perform p acts' s) (p_iface p) a = holds s (p_iface p) a) as Hp.
  { intros acts' E. destruct (perform_holds p acts' Hv s Hs) as [_ Ha]. split.
    - by rewrite Ha, bool_decide_true, H0.
    - intros a Hne. by rewrite Ha, bool_decide_false. }
  assert (held false (acts ++ [SetState Initialize]) = held false acts) as Es by (by rewrite held_app).
  destruct o as [st| | |]; [| | |done].
  - destruct (Hp acts eq_refl) as [-> ?]. done.
  - destruct (Hp _ Es) as [-> ?]. done.
  - destruct (Hp _ Es) as [-> ?]. split; [|done]. by exists acts.
Qed.

End Client.

(** ** The recorder of the tests *)

Definition mock_claim (vip iface : str) (events : list str) : list str * bool :=
  (events ++ [lit "claim " ++ vip ++ [32] ++ iface], true).

Definition mock_release (vip iface : str) (events : list str) : list str * bool :=
  (events ++ [lit "release " ++ vip ++ [32] ++ iface], true).

#[export] Instance MockVip : Claims (list str) := {| ctl_claim := mock_claim; ctl_release := mock_release |}.

(** ** The netlink controller *)

(** A kernel answers a request on a fresh socket and goes on. *)
Class Kernel (K : Type) := kernel_answer : K -> list Z -> K * Exchange.

Section Netlink.
  Context (little : bool) {K : Type} `{Kernel K}.

(** An operation that sends up to two requests, the second after the first's
    answer: each answer is the kernel's to the bytes sent. *)
Definition over_netlink (op : Exchange -> Exchange -> Done) (k : K) : K * Done :=
  match requests (op (Replies []) (Replies [])) !! 0%nat with
  | None => (k, op (Replies []) (Replies []))
  | Some m =>
      let '(k, x1) := kernel_answer k m in
      match requests (op x1 (Replies [])) !! 1%nat with
      | None => (k, op x1 (Replies []))
      | Some m => let '(k, x2) := kernel_answer k m in (k, op x1 x2)
      end
  end.

Definition succeeded (d : Done) : bool := match result d with Ok _ => true | _ => false end.

Definition netlink_claim (vip iface : str) (k : K) : K * bool :=
  let '(k, d) := over_netlink (fun x1 x2 => claim little x1 x2 vip (utf8_encode iface)) k in (k, succeeded d).

Definition netlink_release (vip iface : str) (k : K) : K * bool :=
  let '(k, d) := over_netlink (fun x1 x2 => release little x1 x2 vip (utf8_encode iface)) k in (k, succeeded d).

(** The requests, as they stand on the wire. *)
Definition get_links : list Z := nl_msg little RTM_GETLINK NLM_F_DUMP 1 (replicate 16 0).
Definition new_addr (ix : Z) (ip : Ipv4Addr) : list Z :=
  nl_msg little RTM_NEWADDR (Z.lor (Z.lor NLM_F_CREATE NLM_F_EXCL) NLM_F_ACK) 1 (addr_payload little ix ip).
Definition del_addr (ix : Z) (ip : Ipv4Addr) : list Z :=
  nl_msg little RTM_DELADDR (Z.lor 0 NLM_F_ACK) 1 (addr_payload little ix ip).

(** An acknowledgement, perhaps followed by more. *)
Definition acked (e : Z) (x : Exchange) : Prop :=
  exists copy rs, x = Replies (Datagram (kmsg little (ack_msg little e copy)) :: rs)
                  /\ Z.of_nat (length copy) < 4294967276.

(** rtnetlink(7), for a process that may change addresses: a dump lists the links;
    a new address that is there already is EEXIST and a deleted one that is not
    is EADDRNOTAVAIL, and otherwise the address is added or deleted. *)
Class Rtnetlink := {
  klinks : K -> list KLink;
  kaddr_on : K -> Z -> Ipv4Addr -> bool;
  klinks_ok k : Forall (klink_ok little) (klinks k);
  answer_links k : exists g, kernel_answer k get_links = (k, dump little g) /\ mjoin g = klink little <$> klinks k;
  answer_new k ix ip : is_u32 ix -> ipv4_ok ip ->
    exists x, acked (if kaddr_on k ix ip then EEXIST else 0) x /\ (kernel_answer k (new_addr ix ip)).2 = x
    /\ let k' := (kernel_answer k (new_addr ix ip)).1 in
       klinks k' = klinks k
       /\ forall jx a, kaddr_on k' jx a = bool_decide (jx = ix /\ a = ip) || kaddr_on k jx a;
  answer_del k ix ip : is_u32 ix -> ipv4_ok ip ->
    exists x, acked (if kaddr_on k ix ip then 0 else EADDRNOTAVAIL) x /\ (kernel_answer k (del_addr ix ip)).2 = x
    /\ let k' := (kernel_answer k (del_addr ix ip)).1 in
       klinks k' = klinks k
       /\ forall jx a, kaddr_on k' jx a = negb (bool_decide (jx = ix /\ a = ip)) && kaddr_on k jx a }.

End Netlink.

Section Netlink_lawful.
  Context (little : bool) {K : Type} `{HK : !Kernel K} `{HR : !Rtnetlink little}.

#[export] Instance netlink_claims : Claims K :=
  {| ctl_claim := netlink_claim little; ctl_release := netlink_release little |}.

Definition iface_link (k : K) (iface : str) : option Link := find_link (klinks little k) (utf8_encode iface).

Definition on_iface (k : K) (iface : str) (a : Ipv4Addr) : bool :=
  match iface_link k iface with Some l => kaddr_on little k (index l) a | None => false end.

Lemma over_netlink_two op k g m :
  requests (op (Replies []) (Replies [])) !! 0%nat = Some (get_links little) ->
  kernel_answer k (get_links little) = (k, dump little g) ->
  requests (op (dump little g) (Replies [])) !! 1%nat = Some m ->
  over_netlink op k = ((kernel_answer k m).1, op (dump little g) (kernel_answer k m).2).
Proof.
  intros H0 E1 H1. unfold over_netlink. rewrite H0, E1, H1. by destruct (kernel_answer k m).
Qed.

Lemma iface_link_u32 k iface l : iface_link k iface = Some l -> is_u32 (index l).
Proof.
  unfold iface_link, find_link. pose proof (klinks_ok little k) as H.
  destruct (filter _ _) as [|kl ls] eqn:E; [done|]. intros [= <-].
  assert (kl ∈ klinks little k) as Hin.
  { assert (kl ∈ kl :: ls) as H' by (by left). rewrite <- E in H'. by apply list_elem_of_filter in H' as [_ ?]. }
  rewrite list.Forall_forall in H. destruct (H kl Hin) as (_ & _ & Hu & _). exact Hu.
Qed.

(** A claim and a release on an interface that is there. *)
Lemma netlink_claim_does k iface l ip : iface_link k iface = Some l -> ipv4_ok ip ->
  netlink_claim little (show_ipv4 ip) iface k = ((kernel_answer k (new_addr little (index l) ip)).1, true).
Proof.
  intros Hl Hip. destruct (answer_links little k) as (g & Eg & Hg).
  destruct (answer_new little k (index l) ip (iface_link_u32 k iface l Hl) Hip) as (x & (copy & rs & -> & Hc) & Ex & _).
  pose proof (claim_ack little _ g (utf8_encode iface) l _ ip (if kaddr_on little k (index l) ip then EEXIST else 0)
    copy rs (klinks_ok little k) Hg Hl (parse_show_ipv4 ip Hip) Hc) as Ed.
  unfold netlink_claim. rewrite (over_netlink_two _ k g (new_addr little (index l) ip)).
  - cbn [fst]. rewrite Ex, Ed by (by case_match). unfold succeeded. cbn [result]. by case_match.
  - unfold claim. by rewrite (parse_show_ipv4 ip Hip).
  - exact Eg.
  - unfold claim. rewrite (parse_show_ipv4 ip Hip), (link_dump little _ _ _ (klinks_ok little k) Hg).
    unfold iface_link in Hl. by rewrite Hl.
Qed.

Lemma netlink_release_does k iface l ip : iface_link k iface = Some l -> ipv4_ok ip ->
  netlink_release little (show_ipv4 ip) iface k = ((kernel_answer k (del_addr little (index l) ip)).1, true).
Proof.
  intros Hl Hip. destruct (answer_links little k) as (g & Eg & Hg).
  destruct (answer_del little k (index l) ip (iface_link_u32 k iface l Hl) Hip) as (x & (copy & rs & -> & Hc) & Ex & _).
  pose proof (release_ack little _ g (utf8_encode iface) l _ ip
              (if kaddr_on little k (index l) ip then 0 else EADDRNOTAVAIL)
    copy rs (klinks_ok little k) Hg Hl (parse_show_ipv4 ip Hip) Hc) as Ed.
  unfold netlink_release. rewrite (over_netlink_two _ k g (del_addr little (index l) ip)).
  - cbn [fst]. rewrite Ex, Ed by (by case_match). unfold succeeded. cbn [result]. by case_match.
  - unfold release. by rewrite (parse_show_ipv4 ip Hip).
  - exact Eg.
  - unfold release. rewrite (parse_show_ipv4 ip Hip), (link_dump little _ _ _ (klinks_ok little k) Hg).
    unfold iface_link in Hl. by rewrite Hl.
Qed.

#[export] Program Instance netlink_lawful : Lawful K := {|
  has_iface k iface := is_Some (iface_link k iface);
  holds := on_iface |}.
Next Obligation.
  intros k iface ip [l Hl] Hip. cbn [ctl_claim netlink_claims]. rewrite (netlink_claim_does k iface l ip Hl Hip).
  destruct (answer_new little k (index l) ip (iface_link_u32 k iface l Hl) Hip) as (x & _ & _ & Hk & Ha).
  unfold on_iface, iface_link in *. rewrite Hk. split; [done|]. split; [by eexists|].
  intros a. rewrite Hl, Ha. f_equal. apply bool_decide_ext. naive_solver.
Qed.
Next Obligation.
  intros k iface ip [l Hl] Hip. cbn [ctl_release netlink_claims]. rewrite (netlink_release_does k iface l ip Hl Hip).
  destruct (answer_del little k (index l) ip (iface_link_u32 k iface l Hl) Hip) as (x & _ & _ & Hk & Ha).
  unfold on_iface, iface_link in *. rewrite Hk. split; [done|]. split; [by eexists|].
  intros a. rewrite Hl, Ha. do 2 f_equal. apply bool_decide_ext. naive_solver.
Qed.

(** C8: The interface carries the VIP as the thread's state says.  The VRRP
    thread over the netlink controller, on a kernel that does what rtnetlink
    documents and an interface that is there and does not have the VIP yet: in
    any run, whatever it receives and however health changes, while the thread runs
    the address is on the interface when the state is Master and only then; it is
    gone when the thread has been stopped; a thread that a socket error has ended
    leaves it there exactly if the last state it showed was Master; and no other
    address is touched. *)
Theorem interface_follows_state p setup ts k :
  ipv4_ok (p_vip p) -> is_Some (iface_link k (p_iface p)) -> on_iface k (p_iface p) (p_vip p) = false ->
  let '(acts, o) := run p setup ts in
  let k' := perform p acts k in
  (match o with
   | Running st => on_iface k' (p_iface p) (p_vip p) = bool_decide (state (vr st) = Master)
   | Stopped => on_iface k' (p_iface p) (p_vip p) = false
   | Failed => exists acts', acts = acts' ++ [SetState Initialize]
                 /\ on_iface k' (p_iface p) (p_vip p) = bool_decide (last_state acts' = Some Master)
   | Panicked => False
   end)
  /\ forall a, a <> p_vip p -> on_iface k' (p_iface p) a = on_iface k (p_iface p) a.
Proof. intros Hv Hi H0. exact (run_holds (L:=netlink_lawful) p setup ts k Hv Hi H0). Qed.

End Netlink_lawful.

(** ** A kernel with one interface *)

Abbreviation DemoKernel := (list (Z * Ipv4Addr)) (only parsing).

Definition demo_ack (e : Z) : Exchange := Replies [Datagram (kmsg true (ack_msg true e []))].

Definition demo_change (ty ix : Z) (ip : Ipv4Addr) (k : DemoKernel) : DemoKernel * Exchange :=
  let there := bool_decide ((ix, ip) ∈ k) in
  if ty =? RTM_NEWADDR then
    if there then (k, demo_ack EEXIST) else ((ix, ip) :: k, demo_ack 0)
  else if there then (List.filter (fun a => negb (bool_decide (a = (ix, ip)))) k, demo_ack 0)
  else (k, demo_ack EADDRNOTAVAIL).

#[local] Instance demo_kernel : Kernel DemoKernel := fun k m =>
  match scan true 41 1 m [] with
  | inl [(ty, payload)] =>
      if ty =? RTM_GETLINK then (k, dump true [[klink true demo_link]]) else
      match u32_at true payload 4 with
      | None => (k, Replies [])
      | Some ix =>
          match parse_addrs true [(RTM_NEWADDR, payload)] ix with
          | Some [(ip, _)] => demo_change ty ix ip k
          | _ => (k, Replies [])
          end
      end
  | _ => (k, Replies [])
  end.

Lemma demo_answers ty flags ix ip k : is_u32 ix -> is_u16 ty -> ty <> NLMSG_DONE -> ty <> NLMSG_ERROR ->
  ty <> RTM_GETLINK ->
  kernel_answer k (nl_msg true ty (Z.lor flags NLM_F_ACK) 1 (addr_payload true ix ip)) = demo_change ty ix ip k.
Proof.
  intros Hix Ht Hd He Hg. unfold kernel_answer, demo_kernel. rewrite scan_change by done.
  rewrite (proj2 (Z.eqb_neq _ _) Hg), addr_payload_attrs, u32_at_app by done.
  by rewrite <- addr_payload_attrs, parse_addr_payload.
Qed.

Lemma demo_acked e : acked true e (demo_ack e).
Proof. exists [], []. split; [done|]. cbn. lia. Qed.

#[local] Program Instance demo_rtnetlink : Rtnetlink true (K := DemoKernel) := {|
  klinks _ := [demo_link];
  kaddr_on k ix a := bool_decide ((ix, a) ∈ k) |}.
Next Obligation. intros k. constructor; [decided|constructor]. Qed.
Next Obligation. intros k. by exists [[klink true demo_link]]. Qed.
Next Obligation.
  intros k ix ip Hix Hip. unfold new_addr. rewrite demo_answers by done. unfold demo_change. cbn [Z.eqb].
  rewrite Z.eqb_refl. destruct (bool_decide ((ix, ip) ∈ k)) eqn:E; eexists;
    (split; [apply demo_acked|]); (split; [done|]); (split; [done|]); intros jx a; cbn [fst].
  - destruct (bool_decide (jx = ix /\ a = ip)) eqn:E'; [|done].
    apply bool_decide_eq_true in E' as [-> ->]. by rewrite E.
  - rewrite <- bool_decide_or. apply bool_decide_ext. rewrite elem_of_cons. naive_solver.
Qed.
Next Obligation.
  intros k ix ip Hix Hip. unfold del_addr. rewrite demo_answers by done. unfold demo_change.
  change (RTM_DELADDR =? RTM_NEWADDR) with false. cbv iota.
  destruct (bool_decide ((ix, ip) ∈ k)) eqn:E; eexists;
    (split; [apply demo_acked|]); (split; [done|]); (split; [done|]); intros jx a; cbn [fst].
  - rewrite <- bool_decide_not, <- bool_decide_and. apply bool_decide_ext.
    rewrite list_elem_of_In, List.filter_In, <- list_elem_of_In, negb_true_iff, bool_decide_eq_false. naive_solver.
  - destruct (bool_decide (jx = ix /\ a = ip)) eqn:E'; [|done].
    apply bool_decide_eq_true in E' as [-> ->]. by rewrite E.
Qed.

(** A Master that loses its backends, on an interface with another address. *)
Lemma interface_follows_state_witness :
  let p := {| p_vrid := 51; p_priority := 100; p_preempt := true; p_advert_interval_secs := 1;
              p_iface := lit "eth0"; p_vip := Ipv4 10 0 0 9 |} in
  let s := {| VrrpLoop.interface_ipv4 := Some (Ipv4 10 0 0 1); sockets_ready := true;
              healthy_at_start := true; now_next := 0; now_down := 0 |} in
  let k : DemoKernel := [(3, Ipv4 10 0 0 1)] in
  let k1 := perform (H:=netlink_claims true) p (run p s [quiet 4000000000 true]).1 k in
  let k2 := perform (H:=netlink_claims true) p (run p s [quiet 4000000000 true; quiet 5000000000 false]).1 k in
  on_iface true k1 (lit "eth0") (Ipv4 10 0 0 9) = true
  /\ on_iface true k2 (lit "eth0") (Ipv4 10 0 0 9) = false
  /\ on_iface true k2 (lit "eth0") (Ipv4 10 0 0 1) = true.
Proof.
  intros p s k k1 k2.
  assert (forall ts,
    match (run p s ts).2 with
    | Running st => on_iface true (perform (H:=netlink_claims true) p (run p s ts).1 k) (lit "eth0") (Ipv4 10 0 0 9)
                    = bool_decide (state (vr st) = Master)
    | _ => True
    end
    /\ on_iface true (perform (H:=netlink_claims true) p (run p s ts).1 k) (lit "eth0") (Ipv4 10 0 0 1) = true) as H.
  { intros ts. pose proof (interface_follows_state true p s ts k) as H. destruct (run p s ts) as [acts o].
    destruct H as [Ho Ha]; [decided|by eexists|reflexivity|]. split; [by destruct o|].
    etransitivity; [apply (Ha (Ipv4 10 0 0 1)); done|reflexivity]. }
  split_and!; [exact (proj1 (H [quiet 4000000000 true]))|
               exact (proj1 (H [quiet 4000000000 true; quiet 5000000000 false]))|exact (proj2 (H _))].
Defined.
