(* ===== verification/Ownership.v ===== *)
(** * Who has the address (composition of [Cluster] and [Controller])

    Each node of a cluster runs [run] of [src/src/vrrp.rs] over the controller of
    its own machine.  A node's turns in a run of the cluster are a run of its own
    thread, so what [Cluster] shows of the states is, through [Controller], a
    statement about which machines' interfaces carry the VIP. *)

From S2P Require Import Prelude Str Net Vrrp VrrpLoop Cluster Controller.

(** The turns of node [i]. *)
Definition own_turns (i : nat) (ls : list (nat * Turn)) : list Turn :=
  omap (fun l => if bool_decide (l.1 = i) then Some l.2 else None) ls.

Lemma own_turns_app i a b : own_turns i (a ++ b) = own_turns i a ++ own_turns i b.
Proof. apply omap_app. Qed.

(** A setup in which the node's loop starts. *)
Definition starts (n : Node) (s : Setup) : Prop := interface_ipv4 s = Some (n_ip n) /\ sockets_ready s = true.

(** Where a run has got to, as the cluster keeps it. *)
Definition still (o : Outcome) : option LoopState := match o with Running st => Some st | _ => None end.

Lemma run_loop_ends p s ts t : still (run_loop p s ts).2 = None -> run_loop p s (ts ++ [t]) = run_loop p s ts.
Proof. intros H. rewrite run_loop_snoc. destruct (interface_ipv4 s), (run_loop p s ts) as [a []]; done. Qed.

(** One step of the cluster, at one node. *)
Lemma cluster_step_at nodes c l i n : nodes !! i = Some n ->
  loops (cluster_step nodes c l) !! i =
    if bool_decide (l.1 = i) then
      match loops c !! i with
      | Some (Some st) => Some (still (turn (n_params n) (n_ip n) st l.2).2)
      | o => o
      end
    else loops c !! i.
Proof.
  intros Hi. destruct l as [j t]. unfold cluster_step. cbn [fst snd]. case_bool_decide as E.
  - subst j. rewrite Hi. destruct (loops c !! i) as [[st|]|] eqn:El; [|done..].
    destruct (turn _ _ st t) as [acts o]. cbn [loops snd]. rewrite list_lookup_insert_eq by (by eapply lookup_lt_Some).
    by destruct o.
  - destruct (nodes !! j); [|done]. destruct (loops c !! j) as [[st|]|]; [|done..].
    destruct (turn _ _ st t) as [acts o]. cbn [loops]. by rewrite list_lookup_insert_ne.
Qed.

(** A node of the cluster is its own thread on its own turns. *)
Lemma cluster_run_at nodes setups ls i n s : nodes !! i = Some n -> setups !! i = Some s -> starts n s ->
  loops (cluster_run nodes (cluster_start nodes setups) ls) !! i
  = Some (still (run_loop (n_params n) s (own_turns i ls)).2).
Proof.
  intros Hn Hs [Hip Hk]. induction ls as [|l ls IH] using rev_ind.
  - cbn [cluster_run foldl cluster_start loops own_turns omap list_omap].
    rewrite (proj2 (lookup_zip_with_Some _ _ _ _ _)) by eauto. unfold run_loop. rewrite Hip, Hk. cbn [negb].
    by destruct (loop_start (n_params n) s).
  - unfold cluster_run in *. rewrite foldl_app. cbn [foldl]. rewrite (cluster_step_at nodes _ l i n Hn), IH.
    rewrite own_turns_app.
    replace (own_turns i [l]) with (if bool_decide (l.1 = i) then [l.2] else []) by (cbn; by case_bool_decide).
    case_bool_decide as E.
    + rewrite run_loop_snoc, Hip. destruct (run_loop (n_params n) s (own_turns i ls)) as [acts [st| | |]]; try done.
      cbn [still snd]. by destruct (turn _ _ st l.2).
    + by rewrite app_nil_r.
Qed.

Lemma run_still p s ts : still (run p s ts).2 = still (run_loop p s ts).2.
Proof. unfold run. by destruct (run_loop p s ts) as [a []]. Qed.

Section Machines.
  Context {S : Type} `{L : Lawful S}.

(** C1: The VIP comes to be on one machine.  Each node of the cluster runs on its
    own machine, whose controller does what the trait promises (the netlink one
    does, over a kernel that does what rtnetlink documents) and whose interface
    does not have the address at the start.  When the best node is Master and
    stays in service, and each other node hears one of its advertisements before
    a read of its own times out, whatever else happened before or happens
    meanwhile: the address is on the interface of the best node's machine, and on
    no other machine's unless its thread has died of a socket error. *)
Theorem vip_on_one_machine nodes setups ls ls' b nb (machine : nat -> S) :
  nodes_ok nodes -> best nodes b -> nodes !! b = Some nb ->
  (forall i n s, nodes !! i = Some n -> setups !! i = Some s -> starts n s) ->
  (forall i n, nodes !! i = Some n -> has_iface (machine i) (p_iface (n_params n))
     /\ holds (machine i) (p_iface (n_params n)) (p_vip (n_params n)) = false) ->
  let c := cluster_run nodes (cluster_start nodes setups) ls in
  master_at c b = true -> run_ok nodes c ls' ->
  (forall l, l ∈ ls' -> l.1 = b -> in_service l.2) ->
  (forall l, l ∈ ls' -> l.1 <> b -> recv l.2 <> TimedOut) ->
  (forall i n, nodes !! i = Some n -> i <> b -> exists l, l ∈ ls' /\ l.1 = i /\ tells nb l) ->
  forall i n s, nodes !! i = Some n -> setups !! i = Some s ->
    let '(acts, o) := run (n_params n) s (own_turns i (ls ++ ls')) in
    match o with
    | Failed => True
    | _ => holds (perform (n_params n) acts (machine i)) (p_iface (n_params n)) (p_vip (n_params n)) = true <-> i = b
    end.
Proof.
  intros Hok Hb Hnb Hst Hm c Hmaster Hrun Hserv Hquiet Htell i n s Hi Hs.
  pose proof (converges nodes setups ls ls' b nb Hok Hb Hnb Hmaster Hrun Hserv Hquiet Htell i n Hi) as Hc.
  change (cluster_run nodes (cluster_run nodes (cluster_start nodes setups) ls) ls')
    with (foldl (cluster_step nodes) (foldl (cluster_step nodes) (cluster_start nodes setups) ls) ls') in Hc.
  rewrite <- foldl_app in Hc. unfold master_at in Hc.
  change (foldl (cluster_step nodes) ?c0 ?l) with (cluster_run nodes c0 l) in Hc.
  rewrite (cluster_run_at nodes setups (ls ++ ls') i n s Hi Hs (Hst i n s Hi Hs)), <- run_still in Hc.
  destruct (Hm i n Hi) as [Hif H0].
  destruct Hok as (Hall & _ & _). rewrite list.Forall_forall in Hall.
  destruct (Hall n) as ((_ & _ & Hvip & _) & _); [by eapply list_elem_of_lookup_2|].
  pose proof (run_holds (n_params n) s (own_turns i (ls ++ ls')) (machine i) Hvip Hif H0) as Hh.
  destruct (run (n_params n) s (own_turns i (ls ++ ls'))) as [acts o]. destruct Hh as [Hh _].
  cbn [snd] in Hc. destruct o; cbn [still] in Hc; try done; by rewrite Hh.
Qed.

End Machines.

(** ** Three machines *)

#[local] Existing Instance demo_kernel.
#[local] Existing Instance demo_rtnetlink.

(** After the split all three have the address; when the network has healed the
    third does not. *)
Lemma vip_on_one_machine_witness :
  let machine (i : nat) : DemoKernel := [(3, Ipv4 10 0 0 (Z.of_nat i + 1))] in
  let p := n_params (demo_node 100 3) in
  let after ls :=
    on_iface true (perform (H := netlink_claims true) p (run p (demo_setup 3) (own_turns 2 ls)).1 (machine 2%nat))
      (lit "eth0") (Ipv4 10 0 0 9) in
  after demo_split = true /\ after (demo_split ++ demo_heal) = false.
Proof.
  intros machine p after. split; [vm_compute; reflexivity|].
  pose proof (vip_on_one_machine (L := netlink_lawful true (K := DemoKernel)) demo_nodes
    [demo_setup 1; demo_setup 2; demo_setup 3] demo_split demo_heal 0 (demo_node 200 1) machine
    (proj1 demo_nodes_ok) (proj2 demo_nodes_ok) eq_refl) as H.
  assert (forall l, l ∈ demo_heal -> l.1 = 0%nat /\ in_service l.2 \/ l.1 <> 0%nat /\ recv l.2 <> TimedOut) as Hl.
  { intros l Hl. unfold demo_heal in Hl. rewrite !elem_of_cons in Hl.
    destruct Hl as [->|[->|[->|[->|Hl]]]]; [right|right|left|right|by apply not_elem_of_nil in Hl]; done. }
  specialize (H ltac:(intros [|[|[|i]]] n s Hn Hs; try done; cbn in Hn, Hs;
    injection Hn as <-; injection Hs as <-; done)).
  specialize (H ltac:(intros [|[|[|i]]] n Hn; try done; cbn in Hn; injection Hn as <-;
    (split; [by eexists|vm_compute; reflexivity]))).
  specialize (H ltac:(vm_compute; reflexivity) demo_heal_ok).
  specialize (H ltac:(intros l H1 H2; destruct (Hl l H1) as [[_ ?]|[? _]]; done)).
  specialize (H ltac:(intros l H1 H2; destruct (Hl l H1) as [[? _]|[_ ?]]; done)).
  assert (ip_header demo_header (Ipv4 10 0 0 1)) as Hh by decided.
  specialize (H ltac:(unfold demo_heal; intros [|[|[|i]]] n Hi Hne; [done| | |done];
      [eexists; split; [right; left|]|eexists; split; [left|]]; (split; [done|]); exists demo_header; (split;
        [exact Hh|]); (split; [cbn; lia|done]))).
  specialize (H 2%nat (demo_node 100 3) (demo_setup 3) eq_refl eq_refl).
  unfold after. fold p in H.
  assert (still (run p (demo_setup 3) (own_turns 2 (demo_split ++ demo_heal))).2 <> None) as E
    by (unfold p; vm_compute; discriminate).
  destruct (run p (demo_setup 3) (own_turns 2 (demo_split ++ demo_heal))) as [acts [st| | |]];
    [|exfalso; apply E; reflexivity..].
  cbn [fst]. apply not_true_iff_false. intros Ht. discriminate (proj1 H Ht).
Defined.
