(* ===== verification/Health.v ===== *)
(** * Backend health checks ([src/src/health.rs])

    [client] builds the HTTP client of a spec, [Checker] holds a spec with its
    client, [check] probes one backend and [round] is a turn of the loop in
    [run].  The HTTP library is the interface [Reqwest]; reading a file,
    connecting and fetching are given by a [NetEnv]. *)

From S2P Require Import Prelude Str Net Config Pool.

(** ** The HTTP library

    [ClientCfg] is what the builder was told: the timeout in seconds, and the
    certificates trusted, [None] being [danger_accept_invalid_certs(true)]. *)
Record ClientCfg (Cert : Type) := { client_timeout : Z; trusted : option (list Cert) }.
Arguments client_timeout {Cert}. Arguments trusted {Cert}.

Class Reqwest := {
  Cert : Type;
  Client : Type;
  from_pem_bundle : list Z -> option (list Cert);
  build : ClientCfg Cert -> option Client }.

Inductive ClientError := CaUnreadable | CaNotPem | CaEmpty | BuildFailed.

(** The outside during one operation: files, TCP connects within so many
    seconds, and the status of a GET (its failure or timeout is [None]). *)
Record NetEnv {R : Reqwest} := {
  read_file : str -> option (list Z);
  tcp_connects : Z -> SocketAddr -> bool;
  get : Client -> str -> option Z }.
Arguments NetEnv : clear implicits.

Section Health.
  Context `{R : Reqwest}.

Definition client (read_file : str -> option (list Z)) (spec : HealthSpec)
    : ClientError + option Client :=
  if bool_decide (mode spec = Tcp) then inr None else
  let t := Z.max (timeout_secs spec) 1 in
  let done cfg := match build cfg with Some c => inr (Some c) | None => inl BuildFailed end in
  match ca_file spec with
  | Some path =>
      match read_file path with
      | None => inl CaUnreadable
      | Some pem =>
          match from_pem_bundle pem with
          | None => inl CaNotPem
          | Some [] => inl CaEmpty
          | Some certs => done {| client_timeout := t; trusted := Some certs |}
          end
      end
  | None => done {| client_timeout := t; trusted := None |}
  end.

(** The spec and its client, and whether a wake-up is pending. *)
Record Checker := { spec : HealthSpec; http : option Client; woken : bool }.

Definition Checker_new (read_file : str -> option (list Z)) (s : HealthSpec) : ClientError + Checker :=
  match client read_file s with
  | inl e => inl e
  | inr c => inr {| spec := s; http := c; woken := false |}
  end.

(** [set_spec]: the checker after it, and its error if any. *)
Definition set_spec (read_file : str -> option (list Z)) (s : HealthSpec) (ck : Checker)
    : Checker * option ClientError :=
  match client read_file s with
  | inl e => (ck, Some e)
  | inr c => ({| spec := s; http := c; woken := true |}, None)
  end.

Definition wake (ck : Checker) : Checker :=
  {| spec := spec ck; http := http ck; woken := true |}.

Definition check (net : NetEnv R) (addr : SocketAddr) (s : HealthSpec) (c : option Client) : bool :=
  let dur := Z.max (timeout_secs s) 1 in
  match mode s with
  | Tcp => tcp_connects net dur addr
  | _ =>
      match c with
      | None => false
      | Some c =>
          let scheme := if bool_decide (mode s = Https) then lit "https" else lit "http" in
          let path := if starts_with (lit "/") (path s) then path s else lit "/" ++ path s in
          let url := scheme ++ lit "://" ++ show_sockaddr addr ++ path in
          match get net c url with
          | Some status => bool_decide (status ∈ expect_status s)
          | None => false
          end
      end
  end.

(** The [for] of a turn of [run] over the snapshot [bs] of the members. *)
Fixpoint probe_all (net : NetEnv R) (s : HealthSpec) (c : option Client) (bs : list loc) (h : Heap)
    : Heap :=
  match bs with
  | [] => h
  | l :: bs =>
      match h !! l with
      | Some be => probe_all net s c bs (set_healthy l (check net (addr be) s c) h)
      | None => probe_all net s c bs h
      end
  end.

(** A turn: the spec and client are read once, at its start; the wait at its
    end takes a pending wake-up. *)
Definition round (net : NetEnv R) (p : Pool) (ck : Checker) (h : Heap) : Heap * Checker :=
  (probe_all net (spec ck) (http ck) (backends p) h,
   {| spec := spec ck; http := http ck; woken := false |}).

(** [run_spec]: whether the loop runs, and on what checker. *)
Definition run_spec (read_file : str -> option (list Z)) (s : HealthSpec) : option Checker :=
  match Checker_new read_file s with inr ck => Some ck | inl _ => None end.

(** ** Specification *)

(** What makes a backend healthy, stated without the client cache. *)
Definition passes (net : NetEnv R) (s : HealthSpec) (roots : option (list Cert)) (a : SocketAddr) : Prop :=
  match mode s with
  | Tcp => tcp_connects net (Z.max (timeout_secs s) 1) a = true
  | m =>
      exists c status rest,
        build {| client_timeout := Z.max (timeout_secs s) 1; trusted := roots |} = Some c
        /\ get net c ((if bool_decide (m = Https) then lit "https" else lit "http")
                        ++ lit "://" ++ show_sockaddr a ++ lit "/" ++ rest) = Some status
        /\ status ∈ expect_status s
        /\ (path s = lit "/" ++ rest \/ (path s = rest /\ starts_with (lit "/") rest = false))
  end.

(** The certificates a spec's checks trust, given the CA file's content. *)
Definition roots_of (read_file : str -> option (list Z)) (s : HealthSpec) (roots : option (list Cert))
    : Prop :=
  match ca_file s with
  | None => roots = None
  | Some p => exists pem certs, read_file p = Some pem /\ from_pem_bundle pem = Some certs
                                /\ certs <> [] /\ roots = Some certs
  end.

(** Checkers as they come about: built, then any number of [set_spec] (each
    reading the files as they are then) and wake-ups. *)
Inductive checker_for : (str -> option (list Z)) -> Checker -> Prop :=
| checker_new rf s ck : Checker_new rf s = inr ck -> checker_for rf ck
| checker_set rf rf' s ck ck' : checker_for rf ck -> set_spec rf' s ck = (ck', None) -> checker_for rf' ck'
| checker_refused rf rf' s ck ck' e :
    checker_for rf ck -> set_spec rf' s ck = (ck', Some e) -> checker_for rf ck'
| checker_wake rf ck : checker_for rf ck -> checker_for rf (wake ck)
| checker_round rf ck net p h : checker_for rf ck -> checker_for rf (round net p ck h).2.

(** ** The client *)

Lemma client_ok rf s c : client rf s = inr c ->
  match mode s with
  | Tcp => c = None
  | _ => exists roots c', roots_of rf s roots /\ c = Some c'
           /\ build {| client_timeout := Z.max (timeout_secs s) 1; trusted := roots |} = Some c'
  end.
Proof.
  unfold client, roots_of. case_bool_decide as Hm.
  { rewrite Hm. by intros [= <-]. }
  intros E. assert (exists roots c', match ca_file s with
      | None => roots = None
      | Some p => exists pem certs, rf p = Some pem /\ from_pem_bundle pem = Some certs
                                /\ certs <> [] /\ roots = Some certs
      end /\ c = Some c'
      /\ build {| client_timeout := Z.max (timeout_secs s) 1; trusted := roots |} = Some c') as H.
  { destruct (ca_file s) as [p|]; repeat case_match; simplify_eq; eexists _, _;
      split_and!; try done; eexists _, _; split_and!; done. }
  by destruct (mode s).
Qed.

Lemma checker_client rf ck : checker_for rf ck -> client rf (spec ck) = inr (http ck).
Proof.
  induction 1 as [rf s ck E|rf rf' s ck ck' _ IH E|rf rf' s ck ck' e _ IH E|rf ck _ IH|rf ck net p h _ IH].
  - unfold Checker_new in E. destruct (client rf s) eqn:Ec; simplify_eq. done.
  - unfold set_spec in E. destruct (client rf' s) eqn:Ec; simplify_eq. done.
  - unfold set_spec in E. destruct (client rf' s) eqn:Ec; simplify_eq. done.
  - done.
  - done.
Qed.

Lemma check_passes net rf s c : client rf s = inr c ->
  exists roots, (mode s <> Tcp -> roots_of rf s roots)
    /\ forall a, check net a s c = true <-> passes net s roots a.
Proof.
  intros Hc%client_ok. destruct (decide (mode s = Tcp)) as [Hm|Hm].
  { exists None. split; [done|]. intros a. unfold check, passes. by rewrite Hm. }
  assert (exists roots c', roots_of rf s roots /\ c = Some c'
           /\ build {| client_timeout := Z.max (timeout_secs s) 1; trusted := roots |} = Some c')
    as (roots & c' & Hr & -> & Hb) by (by destruct (mode s)).
  exists roots. split; [done|]. intros a. unfold check, passes.
  set (scheme := if bool_decide (mode s = Https) then lit "https" else lit "http").
  assert (forall rest,
    (path s = lit "/" ++ rest \/ (path s = rest /\ starts_with (lit "/") rest = false)) ->
    (if starts_with (lit "/") (path s) then path s else lit "/" ++ path s) = lit "/" ++ rest) as Hp.
  { intros rest [->|[-> E]]; [done|by rewrite E]. }
  assert (exists rest, path s = lit "/" ++ rest \/ (path s = rest /\ starts_with (lit "/") rest = false))
    as [rest0 H0].
  { destruct (starts_with (lit "/") (path s)) eqn:E; [apply starts_with_true in E as [r E]|]; eauto. }
  assert (match get net c' (scheme ++ lit "://" ++ show_sockaddr a ++
            (if starts_with (lit "/") (path s) then path s else lit "/" ++ path s)) with
          | Some status => bool_decide (status ∈ expect_status s) | None => false end = true <->
          exists c status rest,
            build {| client_timeout := Z.max (timeout_secs s) 1; trusted := roots |} = Some c
            /\ get net c (scheme ++ lit "://" ++ show_sockaddr a ++ lit "/" ++ rest) = Some status
            /\ status ∈ expect_status s
            /\ (path s = lit "/" ++ rest \/ (path s = rest /\ starts_with (lit "/") rest = false))) as H.
  { split.
    - rewrite (Hp rest0 H0). destruct (get _ _ _) as [status|] eqn:Eg; [|by intros [=]].
      rewrite bool_decide_eq_true. intros. by exists c', status, rest0.
    - intros (c & status & rest & Hb2 & Hg & Hs & Hrest). rewrite (Hp rest Hrest).
      rewrite Hb in Hb2. injection Hb2 as <-. rewrite Hg. by apply bool_decide_eq_true. }
  subst scheme. destruct (mode s); [done|exact H|exact H].
Qed.

(** ** The loop *)

Lemma set_healthy_lookup l v h l' :
  set_healthy l v h !! l' =
  if decide (l = l') then (fun b => {| addr := addr b; healthy := v |}) <$> h !! l' else h !! l'.
Proof.
  unfold set_healthy. case_decide as E; [subst; apply list_lookup_alter_eq|by apply list_lookup_alter_ne].
Qed.

Lemma probe_all_lookup net s c bs : forall h l,
  probe_all net s c bs h !! l =
  if decide (l ∈ bs)
  then (fun b => {| addr := addr b; healthy := check net (addr b) s c |}) <$> h !! l else h !! l.
Proof.
  induction bs as [|l0 bs IH]; intros h l; cbn [probe_all].
  { rewrite decide_False by set_solver. done. }
  destruct (h !! l0) as [b0|] eqn:E0; rewrite IH.
  - rewrite set_healthy_lookup. destruct (decide (l0 = l)) as [->|Hne].
    + rewrite (decide_True _ _ (P := l ∈ l :: bs)) by set_solver. rewrite E0. by case_decide.
    + destruct (decide (l ∈ bs)); [rewrite decide_True by set_solver|rewrite decide_False by set_solver]; done.
  - destruct (decide (l ∈ bs)).
    + by rewrite decide_True by set_solver.
    + case_decide as H; [|done]. apply elem_of_cons in H as [->|]; [|done]. by rewrite E0.
Qed.

Lemma pick_loop_member h bs start : forall k i l,
  pick_loop h bs start i k = Some l -> l ∈ bs /\ is_healthy h l = true.
Proof.
  induction k as [|k IH]; intros i l; simpl; [done|].
  case_match eqn:E; [|done]. case_match eqn:Eh; [|apply IH].
  intros [= <-]. split; [by eapply list_elem_of_lookup_2|done].
Qed.

(** A turn of the health loop.  For a checker however it came about, one
    turn leaves every member healthy exactly when its probe passes: the TCP
    connect, or a GET of the path (a leading slash added when missing) over the
    configured scheme that answers with an expected status, through a client
    that trusts the certificates of the CA file as they were read for this
    spec, or any certificate without one.  Addresses and backends outside the
    pool are untouched; what the pool picks afterwards has passed. *)
Theorem round_marks_members rf ck net p h :
  checker_for rf ck ->
  exists roots, (mode (spec ck) <> Tcp -> roots_of rf (spec ck) roots)
    /\ (forall l be, l ∈ backends p -> h !! l = Some be ->
          exists be', (round net p ck h).1 !! l = Some be' /\ addr be' = addr be
            /\ (healthy be' = true <-> passes net (spec ck) roots (addr be)))
    /\ (forall l, l ∉ backends p -> (round net p ck h).1 !! l = h !! l)
    /\ (forall l be, (pick p (round net p ck h).1).1 = Some l -> h !! l = Some be ->
          passes net (spec ck) roots (addr be)).
Proof.
  intros Hck. pose proof (checker_client _ _ Hck) as Hc.
  destruct (check_passes net _ _ _ Hc) as (roots & Hr & Hp). exists roots.
  split; [done|]. cbn [round fst]. split_and!.
  - intros l be Hl Hbe. rewrite probe_all_lookup, decide_True, Hbe by done.
    eexists. split; [done|]. split; [done|]. apply Hp.
  - intros l Hl. by rewrite probe_all_lookup, decide_False.
  - intros l be Hl Hbe. unfold pick in Hl. case_bool_decide; [done|]. cbn [fst] in Hl.
    apply pick_loop_member in Hl as [Hm Hh]. unfold is_healthy in Hh.
    rewrite probe_all_lookup, decide_True, Hbe in Hh by done. by apply Hp.
Qed.

(** Building and replacing a spec: [set_spec] either installs the spec, the
    client built for it and a wake-up, or fails and leaves the checker as it
    was; it fails exactly when [Checker::new] would, namely for an HTTP(S) spec
    whose CA file cannot be read, is not PEM or holds no certificate, or whose
    client does not build; a TCP spec never reads the CA file. *)
Theorem set_spec_spec rf s ck :
  match set_spec rf s ck with
  | (ck', None) => spec ck' = s /\ woken ck' = true
      /\ Checker_new rf s = inr {| spec := s; http := http ck'; woken := false |}
      /\ (mode s = Tcp -> http ck' = None)
      /\ (mode s <> Tcp -> exists roots c, roots_of rf s roots /\ http ck' = Some c
            /\ build {| client_timeout := Z.max (timeout_secs s) 1; trusted := roots |} = Some c)
  | (ck', Some e) => ck' = ck /\ Checker_new rf s = inl e /\ mode s <> Tcp
      /\ match ca_file s with
         | None => e = BuildFailed
         | Some p =>
             match rf p with
             | None => e = CaUnreadable
             | Some pem => match from_pem_bundle pem with
                           | None => e = CaNotPem
                           | Some certs => e = if bool_decide (certs = []) then CaEmpty else BuildFailed
                           end
             end
         end
  end.
Proof.
  unfold set_spec, Checker_new. destruct (client rf s) as [e|c] eqn:Ec.
  - split; [done|]. split; [done|]. unfold client in Ec. case_bool_decide; [done|].
    split; [done|]. repeat case_match; simplify_eq; done.
  - split; [done|]. split; [done|]. split; [done|]. apply client_ok in Ec. cbn [http].
    split; intros Hm.
    + by rewrite Hm in Ec.
    + destruct (mode s); [done|naive_solver|naive_solver].
Qed.

End Health.

(** ** A concrete instance, for the witnesses

    Certificates are byte lists, a bundle is one certificate or, empty, none. *)
#[local] Instance demo_reqwest : Reqwest :=
  {| Cert := list Z; Client := ClientCfg (list Z);
     from_pem_bundle b := Some (if bool_decide (b = []) then [] else [b]);
     build c := Some c |}.

Definition demo_net : NetEnv demo_reqwest :=
  {| read_file p := Some [1; 2; 3]; tcp_connects _ _ := true;
     get c url := if bool_decide (trusted c = Some [[1; 2; 3]])
                     && bool_decide (url = lit "https://10.0.0.7:6443/readyz") then Some 200 else None |}.

Definition demo_spec : HealthSpec :=
  {| mode := Https; path := lit "/readyz"; interval_secs := 2; timeout_secs := 2;
     expect_status := [200]; ca_file := Some (lit "/ca.crt") |}.

Definition demo_pool : Pool * Heap :=
  Pool_new [SockAddr (V4 (Ipv4 10 0 0 7)) 6443; SockAddr (V4 (Ipv4 10 0 0 8)) 6443] [].

Definition demo_checker : Checker :=
  {| spec := demo_spec; http := Some {| client_timeout := 2; trusted := Some [[1; 2; 3]] |};
     woken := false |}.

Lemma round_marks_members_witness :
  checker_for (read_file demo_net) demo_checker
  /\ exists roots, passes demo_net demo_spec roots (SockAddr (V4 (Ipv4 10 0 0 7)) 6443).
Proof.
  assert (checker_for (read_file demo_net) demo_checker) as H
    by (apply (checker_new _ demo_spec); reflexivity).
  split; [exact H|].
  destruct (round_marks_members _ _ demo_net demo_pool.1 demo_pool.2 H) as (roots & _ & _ & _ & Hp).
  exists roots. apply (Hp 0%nat {| addr := SockAddr (V4 (Ipv4 10 0 0 7)) 6443; healthy := false |});
    vm_compute; reflexivity.
Defined.
