(* ===== verification/Checks.v ===== *)
(** * The health loop in time ([run] of [src/src/health.rs])

    [Health.round] is a turn of the loop as one operation.  Here the loop is taken
    apart: each probe begins and ends, connections are balanced and the VIP's spec
    changes in between, and everything has a time.  What is shown is how old the
    health of a backend can be. *)

From S2P Require Import Prelude Str Net Config Pool Health.

Section Checks.
  Context `{R : Reqwest}.

(** ** The loop *)

(** [Duration::from_secs(spec.timeout_secs.max(1))] of a probe and
    [Duration::from_secs(spec.interval_secs.max(1))] of the wait. *)
Definition probe_time (s : HealthSpec) : Z := secs (Z.max (timeout_secs s) 1).
Definition wait_time (s : HealthSpec) : Z := secs (Z.max (interval_secs s) 1).

(** Where the loop is: it waits until a time, or probes the first backend of [rest]
    since a time, with the spec and client it has read for this turn. *)
Inductive Where :=
| Waiting (until : Z)
| Probing (s : HealthSpec) (c : option Client) (rest : list loc) (since : Z).

Record Loop := { l_pool : Pool; l_heap : Heap; l_checker : Checker; l_at : Where }.

(** What can happen: the loop's own steps, and what the registry and the balancer
    do to what it shares with them. *)
Inductive Happening :=
| NewTurn                                         (* the wait is over *)
| Probed (net : NetEnv R)                         (* the probe under way ends *)
| SetMembers (addrs : list SocketAddr)            (* [Pool::set_addrs] *)
| SetSpec (read_file : str -> option (list Z)) (s : HealthSpec)   (* [Checker::set_spec] *)
| WakeUp                                          (* [Checker::wake] *)
| Picked.                                         (* [Pool::pick] *)

(** A verdict on a backend: that of a probe, or of its creation. *)
Record Note := {
  n_loc : loc;
  n_addr : SocketAddr;
  n_since : Z;
  n_probe : option (NetEnv R * HealthSpec * option Client) }.

Definition verdict (n : Note) : bool :=
  match n_probe n with Some (net, s, c) => check net (n_addr n) s c | None => false end.

(** The [for] goes on, or the loop comes to its wait. *)
Definition go_on (s : HealthSpec) (c : option Client) (rest : list loc) (t : Z) : Where :=
  match rest with [] => Waiting (t + wait_time s) | _ => Probing s c rest t end.

(** [timeout(.., wake.notified())]: a pending wake-up ends the wait. *)
Definition settle (t : Z) (st : Loop) : Loop :=
  match l_at st with
  | Waiting until =>
      let ck := l_checker st in
      if woken ck
      then {| l_pool := l_pool st; l_heap := l_heap st;
              l_checker := {| spec := spec ck; http := http ck; woken := false |};
              l_at := Waiting (Z.min until t) |}
      else st
  | _ => st
  end.

(** The backends allocated since the heap was [h]. *)
Definition created (h h' : Heap) (t : Z) : list Note :=
  imap (fun i b => {| n_loc := length h + i; n_addr := addr b; n_since := t; n_probe := None |})
       (drop (length h) h').

Definition with_pool (p : Pool) (h : Heap) (st : Loop) : Loop :=
  {| l_pool := p; l_heap := h; l_checker := l_checker st; l_at := l_at st |}.

Definition with_checker (ck : Checker) (st : Loop) : Loop :=
  {| l_pool := l_pool st; l_heap := l_heap st; l_checker := ck; l_at := l_at st |}.

Definition at_ (w : Where) (st : Loop) : Loop :=
  {| l_pool := l_pool st; l_heap := l_heap st; l_checker := l_checker st; l_at := w |}.

Definition happens (e : Happening) (t : Z) (st : Loop) : Loop * list Note :=
  match e with
  | NewTurn =>
      match l_at st with
      | Waiting _ =>
          let ck := l_checker st in
          (settle t (at_ (go_on (spec ck) (http ck) (backends (l_pool st)) t) st), [])
      | _ => (st, [])
      end
  | Probed net =>
      match l_at st with
      | Probing s c (l :: rest) since =>
          match l_heap st !! l with
          | Some be =>
              let ok := check net (addr be) s c in
              (settle t (at_ (go_on s c rest t) (with_pool (l_pool st) (set_healthy l ok (l_heap st)) st)),
               [{| n_loc := l; n_addr := addr be; n_since := since; n_probe := Some (net, s, c) |}])
          | None => (settle t (at_ (go_on s c rest t) st), [])
          end
      | _ => (st, [])
      end
  | SetMembers addrs =>
      let '(p, h) := set_addrs addrs (l_pool st) (l_heap st) in
      (with_pool p h st, created (l_heap st) h t)
  | SetSpec rf s => (settle t (with_checker (set_spec rf s (l_checker st)).1 st), [])
  | WakeUp => (settle t (with_checker (wake (l_checker st)) st), [])
  | Picked => (with_pool (pick (l_pool st) (l_heap st)).2 (l_heap st) st, [])
  end.

(** A history: what happened, when; with the verdicts it came with. *)
Abbreviation History := (list (Z * Happening)) (only parsing).

Fixpoint run_checks (hist : History) (st : Loop) : Loop * list Note :=
  match hist with
  | [] => (st, [])
  | (t, e) :: hist =>
      let '(st1, ns) := happens e t st in
      let '(st2, ns') := run_checks hist st1 in (st2, ns ++ ns')
  end.

(** A pool with its checker as the registry makes them, its loop spawned at [t]. *)
Definition spawned (addrs : list SocketAddr) (ck : Checker) (t : Z) : Loop * list Note :=
  let '(p, h) := Pool_new addrs [] in
  (settle t {| l_pool := p; l_heap := h; l_checker := ck; l_at := Waiting t |}, created [] h t).

(** ** Keeping time *)

(** When the loop's next step is due, at the latest: a probe ends with its timeout,
    a wait when it is over, each up to [slack] late. *)
Definition due (slack : Z) (st : Loop) : Z :=
  match l_at st with
  | Waiting until => until + slack
  | Probing s _ _ since => since + probe_time s + slack
  end.

(** The loop's own steps come when it is there. *)
Definition ready (e : Happening) (t : Z) (st : Loop) : bool :=
  match e, l_at st with
  | NewTurn, Waiting until => until <=? t
  | NewTurn, Probing _ _ _ _ => false
  | Probed _, Waiting _ => false
  | _, _ => true
  end.

Fixpoint keeps_time (slack : Z) (st : Loop) (clock : Z) (hist : History) (now : Z) : bool :=
  match hist with
  | [] => (clock <=? now) && (now <=? due slack st)
  | (t, e) :: hist =>
      (clock <=? t) && (t <=? due slack st) && ready e t st
      && keeps_time slack (happens e t st).1 t hist now
  end.

(** At most [n] members, and specs of at most [i] seconds between turns and [d]
    seconds per probe. *)
Definition spec_within (i d : Z) (s : HealthSpec) : bool :=
  (Z.max (interval_secs s) 1 <=? i) && (Z.max (timeout_secs s) 1 <=? d).

Definition within (n : nat) (i d : Z) (e : Happening) : bool :=
  match e with
  | SetMembers addrs => bool_decide (length addrs <= n)%nat
  | SetSpec _ s => spec_within i d s
  | _ => true
  end.

(** How old a verdict can be: a wait between two turns of [n] probes. *)
Definition max_age (n : nat) (i d slack : Z) : Z :=
  secs i + slack + 2 * (Z.of_nat n * (secs d + slack)).

(** ** The turn as one operation *)

Definition probes (net : NetEnv R) (t : Z) (k : nat) : History := replicate k (t, Probed net).

Lemma settle_heap t st : l_heap (settle t st) = l_heap st.
Proof. unfold settle. by repeat case_match. Qed.

Lemma settle_pool t st : l_pool (settle t st) = l_pool st.
Proof. unfold settle. by repeat case_match. Qed.

Lemma settle_spec t st : spec (l_checker (settle t st)) = spec (l_checker st)
  /\ http (l_checker (settle t st)) = http (l_checker st).
Proof. unfold settle. by repeat case_match. Qed.

Lemma settle_probing t st s c rest since : l_at st = Probing s c rest since -> settle t st = st.
Proof. unfold settle. by intros ->. Qed.

Lemma happens_probed net t st s c l rest since be :
  l_at st = Probing s c (l :: rest) since -> l_heap st !! l = Some be ->
  happens (Probed net) t st =
  (settle t (at_ (go_on s c rest t)
     (with_pool (l_pool st) (set_healthy l (check net (addr be) s c) (l_heap st)) st)),
   [{| n_loc := l; n_addr := addr be; n_since := since; n_probe := Some (net, s, c) |}]).
Proof. intros H1 H2. unfold happens. by rewrite H1, H2. Qed.

Lemma probes_all net t s c rest : forall st since,
  rest <> [] -> l_at st = Probing s c rest since ->
  l_heap (run_checks (probes net t (length rest)) st).1 = probe_all net s c rest (l_heap st).
Proof.
  induction rest as [|l rest IH]; intros st since Hne Hat; [done|]. cbn [length probes replicate run_checks probe_all].
  set (st1 := (happens (Probed net) t st).1).
  assert (l_heap st1 = match l_heap st !! l with
                       | Some be => set_healthy l (check net (addr be) s c) (l_heap st)
                       | None => l_heap st end
          /\ l_at st1 = l_at (settle t (at_ (go_on s c rest t) st))) as [Hh Ha].
  { unfold st1, happens. rewrite Hat.
    destruct (l_heap st !! l) as [be|] eqn:E; cbn [fst]; rewrite settle_heap; split; try done.
    unfold settle, at_, with_pool. cbn. by repeat case_match. }
  destruct (happens (Probed net) t st) as [st1' ns] eqn:E. cbn [fst] in st1. subst st1.
  destruct (run_checks (replicate (length rest) (t, Probed net)) st1') as [st2 ns2] eqn:E2. cbn [fst].
  assert (l_heap st2 = probe_all net s c rest (l_heap st1')) as ->.
  { destruct rest as [|l2 rest]; [cbn in E2; by injection E2 as <- <-|].
    cbn [go_on] in Ha. rewrite (settle_probing _ (at_ _ st) s c (l2 :: rest) t) in Ha by done.
    pose proof (IH st1' t ltac:(done) Ha) as H1. unfold probes in H1. by rewrite E2 in H1. }
  rewrite Hh. by destruct (l_heap st !! l).
Qed.

(** A turn whose probes all meet the same world is [Health.round]. *)
Theorem turn_is_round net t st until :
  l_at st = Waiting until ->
  l_heap (run_checks ((t, NewTurn) :: probes net t (length (backends (l_pool st)))) st).1
  = (round net (l_pool st) (l_checker st) (l_heap st)).1.
Proof.
  intros Hat. cbn [run_checks]. unfold happens at 1. rewrite Hat. cbn [fst].
  destruct (backends (l_pool st)) as [|l rest] eqn:Eb.
  - cbn [go_on length probes replicate run_checks fst round]. by rewrite settle_heap, Eb.
  - cbn [go_on]. rewrite (settle_probing _ (at_ _ st) (spec (l_checker st)) (http (l_checker st)) (l :: rest) t) by done.
    pose proof (probes_all net t (spec (l_checker st)) (http (l_checker st)) (l :: rest)
      (at_ (Probing (spec (l_checker st)) (http (l_checker st)) (l :: rest) t) st) t ltac:(done) eq_refl) as H.
    destruct (run_checks _ _) as [st2 ns2]. cbn [fst] in *. rewrite H.
    cbn [round fst]. by rewrite Eb.
Qed.

(** ** How old a verdict is *)

(** The health of the backend at [l] is a verdict of [notes] begun since [r]. *)
Definition fresh (r : Z) (notes : list Note) (h : Heap) (l : loc) : Prop :=
  exists n, n ∈ notes /\ n_loc n = l /\ addr_at h l = Some (n_addr n) /\ is_healthy h l = verdict n
            /\ r <= n_since n.

(** The turn under way began at [r1], the one before at [r0]: the backends still to
    probe have the verdict of the turn before, the other members this turn's. *)
Definition timely (n : nat) (i d slack : Z) (notes : list Note) (st : Loop) (r0 r1 : Z) : Prop :=
  match l_at st with
  | Waiting until =>
      until <= r1 + Z.of_nat n * (secs d + slack) + secs i
      /\ forall l, l ∈ backends (l_pool st) -> fresh r1 notes (l_heap st) l
  | Probing s _ rest since =>
      spec_within i d s = true /\ (0 < length rest <= n)%nat
      /\ Forall (fun l => l < length (l_heap st))%nat rest
      /\ r1 <= since <= r1 + (Z.of_nat n - Z.of_nat (length rest)) * (secs d + slack)
      /\ r1 <= r0 + Z.of_nat n * (secs d + slack) + secs i + slack
      /\ forall l, l ∈ backends (l_pool st) -> fresh (if decide (l ∈ rest) then r0 else r1) notes (l_heap st) l
  end.

Definition loop_ok (n : nat) (i d slack : Z) (notes : list Note) (st : Loop) (clock : Z) : Prop :=
  Forall (fun l => l < length (l_heap st))%nat (backends (l_pool st))
  /\ (length (backends (l_pool st)) <= n)%nat
  /\ spec_within i d (spec (l_checker st)) = true
  /\ exists r0 r1, r0 <= r1 <= clock /\ timely n i d slack notes st r0 r1.

Lemma fresh_mono r r' notes notes' h l : r' <= r -> fresh r notes h l -> fresh r' (notes ++ notes') h l.
Proof. intros Hr (n & Hn & H1 & H2 & H3 & H4). exists n. split_and!; try done; [set_solver|lia]. Qed.

Lemma fresh_heap r notes h h' l : addr_at h' l = addr_at h l -> is_healthy h' l = is_healthy h l ->
  fresh r notes h l -> fresh r notes h' l.
Proof. intros E1 E2 (n & H1 & H2 & H3 & H4 & H5). exists n. by rewrite E1, E2. Qed.

Lemma probe_time_bounds i d s : spec_within i d s = true -> secs 1 <= probe_time s <= secs d.
Proof. unfold spec_within, probe_time, secs. intros. bool_to_prop. lia. Qed.

Lemma wait_time_bounds i d s : spec_within i d s = true -> secs 1 <= wait_time s <= secs i.
Proof. unfold spec_within, wait_time, secs. intros. bool_to_prop. lia. Qed.

(** At any time the loop has kept up to, no verdict on a member is too old. *)
Lemma loop_ok_fresh n i d slack notes st clock now : 0 <= slack -> 1 <= d ->
  loop_ok n i d slack notes st clock -> now <= due slack st ->
  forall l, l ∈ backends (l_pool st) -> fresh (now - max_age n i d slack) notes (l_heap st) l.
Proof.
  intros Hs Hd (_ & _ & _ & r0 & r1 & Hr & Ht) Hnow l Hl. unfold timely, due, max_age in *.
  assert (0 <= Z.of_nat n * (secs d + slack)) as Hp by (unfold secs; nia).
  rewrite <- (app_nil_r notes). destruct (l_at st) as [until|s c rest since].
  - destruct Ht as [Hu Hf]. eapply fresh_mono; [|by apply Hf]. lia.
  - destruct Ht as (Hsp & Hlen & _ & Hsi & Hr1 & Hf). apply probe_time_bounds in Hsp.
    eapply fresh_mono; [|by apply Hf].
    assert ((Z.of_nat n - Z.of_nat (length rest)) * (secs d + slack) + (secs d + slack)
            <= Z.of_nat n * (secs d + slack)) by (unfold secs in *; nia).
    case_decide; lia.
Qed.

Lemma settle_ok n i d slack notes st clock t :
  loop_ok n i d slack notes st clock -> clock <= t -> loop_ok n i d slack notes (settle t st) t.
Proof.
  intros (H1 & H2 & H3 & r0 & r1 & Hr & Ht) Hc. unfold settle. destruct (l_at st) as [until|] eqn:Ea.
  - destruct (woken (l_checker st)).
    + split_and!; try done. exists r0, r1. split; [lia|]. unfold timely in *. rewrite Ea in Ht. cbn. split; [lia|apply Ht].
    + split_and!; try done. exists r0, r1. split; [lia|done].
  - split_and!; try done. exists r0, r1. split; [lia|done].
Qed.

(** Each happening keeps it. *)
Lemma new_turn_ok n i d slack notes st clock t : 0 <= slack ->
  loop_ok n i d slack notes st clock -> clock <= t -> t <= due slack st ->
  loop_ok n i d slack notes (happens NewTurn t st).1 t.
Proof.
  intros Hs Hok Hc Hd. unfold happens, due in *. destruct (l_at st) as [until|] eqn:Ea; cbn [fst];
    [|rewrite <- (settle_probing t st _ _ _ _ Ea); by eapply settle_ok].
  apply (settle_ok _ _ _ _ _ _ t); [|lia]. destruct Hok as (H1 & H2 & H3 & r0 & r1 & Hr & Ht).
  pose proof (wait_time_bounds _ _ _ H3) as Hw. pose proof (probe_time_bounds _ _ _ H3) as Hp.
  unfold timely in Ht. rewrite Ea in Ht. destruct Ht as [Hu Hf]. split_and!; try done.
  exists r1, t. split; [lia|]. unfold timely, go_on, at_. cbn [l_at l_pool l_heap].
  destruct (backends (l_pool st)) as [|l rest] eqn:Eb.
  - split; [unfold secs in *; nia|]. intros l Hl. by apply not_elem_of_nil in Hl.
  - split_and!; try done; try lia; try (simpl; lia); [unfold secs in *; simpl in H2 |- *; nia|].
    intros m Hm. rewrite decide_True by done. by apply Hf.
Qed.

Lemma probed_ok n i d slack notes st clock net t : 0 <= slack ->
  loop_ok n i d slack notes st clock -> clock <= t -> t <= due slack st ->
  loop_ok n i d slack (notes ++ (happens (Probed net) t st).2) (happens (Probed net) t st).1 t.
Proof.
  intros Hs Hok Hc Hd. destruct (l_at st) as [|s c [|l rest] since] eqn:Ea.
  1, 2: unfold happens; rewrite Ea; cbn [fst snd]; rewrite app_nil_r; destruct Hok as (H1 & H2 & H3 & r0 & r1 & Hr & Ht);
    split_and!; try done; exists r0, r1; (split; [lia|done]).
  destruct Hok as (H1 & H2 & H3 & r0 & r1 & Hr & Ht). unfold timely, due in *. rewrite Ea in Ht, Hd.
  destruct Ht as (Hsp & Hlen & Hrest & Hsi & Hr1 & Hf). pose proof (probe_time_bounds _ _ _ Hsp) as Hp.
  pose proof (wait_time_bounds _ _ _ Hsp) as Hw. simpl in Hlen. apply Forall_cons_iff in Hrest as [Hl Hrest].
  destruct (lookup_lt_is_Some_2 _ _ Hl) as [be Hbe]. rewrite (happens_probed net t st s c l rest since be) by done.
  cbn [fst snd]. apply (settle_ok _ _ _ _ _ _ t); [|lia]. set (ok := check net (addr be) s c).
  assert (length (set_healthy l ok (l_heap st)) = length (l_heap st)) as El by apply length_alter.
  assert (forall r m, r <= r1 -> (m <> l -> fresh r notes (l_heap st) m) ->
    fresh r (notes ++ [{| n_loc := l; n_addr := addr be; n_since := since; n_probe := Some (net, s, c) |}])
      (set_healthy l ok (l_heap st)) m) as Hfr.
  { intros r m Hrm Hm. destruct (decide (m = l)) as [->|Hne].
    - eexists. split; [apply elem_of_app; right; by apply list_elem_of_singleton|]. cbn [n_loc n_addr n_since n_probe].
      rewrite addr_at_set_healthy, is_healthy_set_healthy, bool_decide_true by done.
      unfold addr_at. rewrite Hbe. split_and!; try done; lia.
    - apply (fresh_mono r); [lia|]. eapply fresh_heap; [| |by apply Hm].
      + apply addr_at_set_healthy.
      + by rewrite is_healthy_set_healthy, bool_decide_false. }
  unfold loop_ok. cbn [l_pool l_heap l_checker at_ with_pool]. rewrite El. split_and!; try done.
  exists r0, r1. split; [lia|]. unfold timely, go_on. cbn [l_at l_pool l_heap at_ with_pool]. destruct rest as [|l2 rest].
  - split; [simpl in *; unfold secs in *; nia|]. intros m Hm. apply Hfr; [lia|]. intros Hne.
    specialize (Hf m Hm). by rewrite decide_False in Hf by set_solver.
  - rewrite El. split_and!; try done; try (simpl in *; lia).
    intros m Hm. apply Hfr; [case_decide; lia|]. intros Hne. specialize (Hf m Hm).
    by rewrite (decide_ext _ (m ∈ l2 :: rest)) in Hf by set_solver.
Qed.

Lemma nub_length l : forall seen, (length (nub seen l) <= length l)%nat.
Proof.
  induction l as [|a l IH]; intros seen; simpl; [lia|].
  pose proof (IH seen). pose proof (IH (seen ++ [a])). case_bool_decide; simpl; lia.
Qed.

(** A backend that [set_addrs] has made has the verdict of its creation. *)
Lemma created_fresh h new t r l :
  Forall (fun b => Pool.healthy b = false) new -> (length h <= l < length (h ++ new))%nat -> r <= t ->
  fresh r (created h (h ++ new) t) (h ++ new) l.
Proof.
  intros Hnew Hl Hr. rewrite length_app in Hl.
  destruct (lookup_lt_is_Some_2 new (l - length h)) as [b Hb]; [lia|].
  pose proof (Forall_lookup_1 _ _ _ _ Hnew Hb) as Hu. cbn in Hu.
  exists {| n_loc := l; n_addr := addr b; n_since := t; n_probe := None |}. cbn [n_loc n_addr n_since].
  unfold addr_at, is_healthy. rewrite lookup_app_r, Hb by lia. split_and!; try done.
  unfold created. rewrite drop_app_length. apply elem_of_lookup_imap.
  exists (l - length h)%nat, b. split; [|done]. f_equal. lia.
Qed.

Lemma set_members_ok n i d slack notes st clock addrs t : 0 <= slack -> (length addrs <= n)%nat ->
  loop_ok n i d slack notes st clock -> clock <= t ->
  loop_ok n i d slack (notes ++ (happens (SetMembers addrs) t st).2) (happens (SetMembers addrs) t st).1 t.
Proof.
  intros Hs Hn (H1 & H2 & H3 & r0 & r1 & Hr & Ht) Hc. unfold happens, set_addrs.
  destruct (set_addrs_loop_spec (backends (l_pool st)) addrs [] (l_heap st) [])
    as (mem & new & -> & Hnew & Hlt & Ha & Hm); auto.
  cbn [app fst snd]. unfold loop_ok, with_pool. cbn [l_pool l_heap l_checker backends]. split_and!; try done.
  { apply (f_equal length) in Ha. rewrite !length_fmap in Ha. rewrite Ha. pose proof (nub_length addrs []). lia. }
  exists r0, r1. split; [lia|].
  assert (forall r l, r <= t -> (l ∈ backends (l_pool st) -> fresh r notes (l_heap st) l) -> l ∈ mem ->
    fresh r (notes ++ created (l_heap st) (l_heap st ++ new) t) (l_heap st ++ new) l) as Hfr.
  { intros r l Hrt Hold Hl. rewrite list.Forall_forall in Hm, Hlt, H1. destruct (Hm l Hl) as [Hcur|[Hge _]].
    - apply (fresh_mono r); [lia|]. eapply fresh_heap; [..|by apply Hold].
      + by apply addr_at_app, H1.
      + by apply is_healthy_app, H1.
    - destruct (created_fresh (l_heap st) new t r l Hnew) as (x & Hx & Hrest); [split; [done|by apply Hlt]|done|].
      exists x. split; [set_solver|done]. }
  unfold timely in *. cbn [l_at l_pool l_heap backends]. destruct (l_at st) as [until|s c rest since].
  - split; [apply Ht|]. intros l Hl. apply Hfr; [lia| |done]. apply Ht.
  - destruct Ht as (Hsp & Hlen & Hrest & Hsi & Hr1 & Hf). split_and!; try done; try lia.
    { by apply Forall_lt_app. }
    intros l Hl. apply Hfr; [case_decide; lia|apply Hf|done].
Qed.

Lemma with_checker_ok n i d slack notes st clock ck t :
  spec_within i d (spec ck) = true ->
  loop_ok n i d slack notes st clock -> clock <= t -> loop_ok n i d slack notes (settle t (with_checker ck st)) t.
Proof.
  intros Hck (H1 & H2 & H3 & r0 & r1 & Hr & Ht) Hc. apply (settle_ok _ _ _ _ _ _ clock); [|done].
  split_and!; try done. by exists r0, r1.
Qed.

Lemma happens_ok n i d slack notes st clock e t : 0 <= slack -> within n i d e = true ->
  loop_ok n i d slack notes st clock -> clock <= t -> t <= due slack st ->
  loop_ok n i d slack (notes ++ (happens e t st).2) (happens e t st).1 t.
Proof.
  intros Hs He Hok Hc Hd. destruct e as [|net|addrs|rf s| |].
  - replace (happens NewTurn t st).2 with (@nil Note) by (unfold happens; by destruct (l_at st)).
    rewrite app_nil_r. by eapply new_turn_ok.
  - by eapply probed_ok.
  - apply bool_decide_eq_true in He. by eapply set_members_ok.
  - cbn [happens fst snd]. rewrite app_nil_r. eapply with_checker_ok; [|done..]. unfold set_spec.
    destruct (client rf s); [apply Hok|done].
  - cbn [happens fst snd]. rewrite app_nil_r. eapply with_checker_ok; [|done..]. apply Hok.
  - cbn [happens fst snd]. rewrite app_nil_r. destruct Hok as (H1 & H2 & H3 & r0 & r1 & Hr & Ht).
    assert (backends (pick (l_pool st) (l_heap st)).2 = backends (l_pool st)) as E
      by (unfold pick; by case_bool_decide).
    unfold loop_ok, timely, with_pool. cbn [l_pool l_heap l_checker l_at]. rewrite E.
    split_and!; try done. exists r0, r1. split; [lia|]. exact Ht.
Qed.

Lemma run_checks_ok n i d slack hist : forall notes st clock now,
  0 <= slack -> forallb (within n i d ∘ snd) hist = true ->
  loop_ok n i d slack notes st clock -> keeps_time slack st clock hist now = true ->
  exists clock', loop_ok n i d slack (notes ++ (run_checks hist st).2) (run_checks hist st).1 clock'
    /\ clock' <= now /\ now <= due slack (run_checks hist st).1.
Proof.
  induction hist as [|[t e] hist IH]; intros notes st clock now Hs Hw Hok Hk; cbn [run_checks keeps_time forallb] in *.
  { bool_to_prop. exists clock. cbn [fst snd]. rewrite app_nil_r. split; [done|lia]. }
  rewrite !andb_true_iff, !Z.leb_le in Hk. destruct Hk as [[[Hc Hd] _] Hk]. apply andb_true_iff in Hw as [He Hw].
  pose proof (happens_ok n i d slack notes st clock e t Hs He Hok Hc Hd) as Hok'.
  destruct (happens e t st) as [st1 ns]. cbn [fst snd] in *.
  destruct (IH _ _ _ _ Hs Hw Hok' Hk) as (clock' & H). destruct (run_checks hist st1) as [st2 ns2]. cbn [fst snd] in *.
  exists clock'. by rewrite app_assoc.
Qed.

Lemma spawned_ok n i d slack addrs ck t : 0 <= slack -> (length addrs <= n)%nat -> spec_within i d (spec ck) = true ->
  let '(st, ns) := spawned addrs ck t in loop_ok n i d slack ns st t /\ l_heap st = (Pool_new addrs []).2.
Proof.
  intros Hs Hn Hck. unfold spawned.
  pose (st0 := {| l_pool := {| backends := []; next := 0 |}; l_heap := []; l_checker := ck; l_at := Waiting t |}).
  assert (loop_ok n i d slack [] st0 t) as H0.
  { pose proof (wait_time_bounds _ _ _ Hck). pose proof (probe_time_bounds _ _ _ Hck).
    split_and!; try done; [simpl; lia|]. exists t, t. split; [lia|]. unfold timely. cbn. unfold secs in *.
    split; [nia|]. intros l Hl. by apply not_elem_of_nil in Hl. }
  pose proof (set_members_ok n i d slack [] st0 t addrs t Hs Hn H0 ltac:(lia)) as H. revert H.
  unfold happens, Pool_new. cbn [l_pool l_heap st0]. destruct (set_addrs _ _ _) as [p h]. cbn [fst snd app].
  intros H. split; [|apply settle_heap]. by eapply settle_ok.
Qed.

(** ** What the probes were *)

(** A spec with the client that was built for it. *)
Definition pair_ok (s : HealthSpec) (c : option Client) : Prop := exists rf, client rf s = inr c.

Definition note_ok (n : Note) : Prop := match n_probe n with Some (_, s, c) => pair_ok s c | None => True end.

Definition pairs_ok (st : Loop) : Prop :=
  pair_ok (spec (l_checker st)) (http (l_checker st))
  /\ match l_at st with Probing s c _ _ => pair_ok s c | _ => True end.

Lemma settle_pairs t st : pairs_ok st -> pairs_ok (settle t st).
Proof.
  unfold pairs_ok, settle. intros [H1 H2].
  destruct (l_at st) eqn:E; [destruct (woken (l_checker st))|]; cbn; rewrite ?E; done.
Qed.

Lemma go_on_pairs s c rest t st : pairs_ok st -> pair_ok s c -> pairs_ok (at_ (go_on s c rest t) st).
Proof. intros [H _] Hp. split; [done|]. unfold go_on. by destruct rest. Qed.

Lemma created_ok h h' t : Forall note_ok (created h h' t).
Proof.
  apply list.Forall_forall. intros n Hn. apply elem_of_lookup_imap in Hn as (k & b & -> & _). exact I.
Qed.

Lemma happens_pairs e t st : pairs_ok st -> pairs_ok (happens e t st).1 /\ Forall note_ok (happens e t st).2.
Proof.
  intros Hp. pose proof Hp as [Hp1 Hp2]. destruct e as [|net|addrs|rf s| |]; unfold happens.
  - destruct (l_at st) eqn:Ea; cbn [fst snd]; split; try done. by apply settle_pairs, go_on_pairs.
  - destruct (l_at st) as [|s c [|l rest] since] eqn:Ea; cbn [fst snd]; try done.
    destruct (l_heap st !! l); cbn [fst snd]; split; try constructor; try done;
      apply settle_pairs, go_on_pairs; done.
  - destruct (set_addrs _ _ _) as [p h]. cbn [fst snd]. split; [done|apply created_ok].
  - cbn [fst snd]. split; [|done]. apply settle_pairs. split; [|done]. unfold set_spec.
    destruct (client rf s) eqn:Ec; [done|]. by exists rf.
  - cbn [fst snd]. split; [|done]. by apply settle_pairs.
  - done.
Qed.

Lemma run_checks_pairs hist : forall st, pairs_ok st -> Forall note_ok (run_checks hist st).2.
Proof.
  induction hist as [|[t e] hist IH]; intros st Hp; cbn [run_checks]; [constructor|].
  destruct (happens_pairs e t st Hp) as [Hp' Hn]. destruct (happens e t st) as [st1 ns]. cbn [fst snd] in *.
  specialize (IH st1 Hp'). destruct (run_checks hist st1) as [st2 ns2]. cbn [snd] in *. by apply Forall_app.
Qed.

(** ** The theorem *)

(** The whole history of a VIP's loop, from when it is spawned. *)
Definition loop_of (addrs : list SocketAddr) (ck : Checker) (t0 : Z) (hist : History) : Loop * list Note :=
  let '(st, ns) := spawned addrs ck t0 in
  let '(st', ns') := run_checks hist st in (st', ns ++ ns').

Definition loop_keeps_time (slack : Z) (addrs : list SocketAddr) (ck : Checker) (t0 : Z) (hist : History) (now : Z)
    : bool := keeps_time slack (spawned addrs ck t0).1 t0 hist now.

Lemma loop_of_ok n i d slack addrs ck rf t0 hist now :
  0 <= slack -> (length addrs <= n)%nat -> checker_for rf ck ->
  spec_within i d (spec ck) = true -> forallb (within n i d ∘ snd) hist = true ->
  loop_keeps_time slack addrs ck t0 hist now = true ->
  let '(st, ns) := loop_of addrs ck t0 hist in
  (forall l, l ∈ backends (l_pool st) -> fresh (now - max_age n i d slack) ns (l_heap st) l) /\ Forall note_ok ns.
Proof.
  intros Hs Hn Hck Hsp Hw Hk. unfold loop_of, loop_keeps_time in *.
  pose proof (spawned_ok n i d slack addrs ck t0 Hs Hn Hsp) as H0.
  assert (pairs_ok (spawned addrs ck t0).1 /\ Forall note_ok (spawned addrs ck t0).2) as [Hp Hn0].
  { unfold spawned. destruct (Pool_new _ _) as [p h]. split; [|apply created_ok]. apply settle_pairs.
    split; [|done]. exists rf. by apply checker_client. }
  destruct (spawned addrs ck t0) as [st0 ns0]. cbn [fst snd] in *. destruct H0 as [H0 _].
  destruct (run_checks_ok n i d slack hist ns0 st0 t0 now Hs Hw H0 Hk) as (clock & H1 & H2 & H3).
  pose proof (run_checks_pairs hist st0 Hp) as Hn1. destruct (run_checks hist st0) as [st ns]. cbn [fst snd] in *.
  split; [|by apply Forall_app]. intros l Hl. eapply loop_ok_fresh; try done.
  unfold spec_within in Hsp. bool_to_prop. lia.
Qed.

(** C3: No verdict on a backend is stale.  In any history of a VIP's health loop,
    its members and spec being changed and connections balanced in between, that
    keeps time up to [slack], with at most [n] members, [i] seconds between turns and
    [d] seconds per probe: the health of every member, as the balancer, VRRP and BGP
    see it, is the verdict of a probe begun no longer ago than two turns of probes
    and the wait between them (or the member has joined since and is not healthy
    yet); and the backend a connection is given then has passed the checks of the spec
    in force at that turn, begun no longer ago than that. *)
Theorem health_is_fresh n i d slack addrs ck rf t0 hist now :
  0 <= slack -> (length addrs <= n)%nat -> checker_for rf ck ->
  spec_within i d (spec ck) = true -> forallb (within n i d ∘ snd) hist = true ->
  loop_keeps_time slack addrs ck t0 hist now = true ->
  let '(st, ns) := loop_of addrs ck t0 hist in
  let oldest := now - (secs i + slack + 2 * (Z.of_nat n * (secs d + slack))) in
  (forall l, l ∈ backends (l_pool st) ->
     exists x, x ∈ ns /\ n_loc x = l /\ addr_at (l_heap st) l = Some (n_addr x) /\ oldest <= n_since x
       /\ is_healthy (l_heap st) l = match n_probe x with
                                     | Some (net, s, c) => check net (n_addr x) s c
                                     | None => false
                                     end)
  /\ (forall l, (pick (l_pool st) (l_heap st)).1 = Some l ->
     exists x a net s c rf' roots, x ∈ ns /\ addr_at (l_heap st) l = Some a /\ n_loc x = l /\ oldest <= n_since x
       /\ n_probe x = Some (net, s, c) /\ client rf' s = inr c
       /\ (mode s <> Tcp -> roots_of rf' s roots) /\ passes net s roots a).
Proof.
  intros Hs Hn Hck Hsp Hw Hk. pose proof (loop_of_ok n i d slack addrs ck rf t0 hist now Hs Hn Hck Hsp Hw Hk) as H.
  destruct (loop_of addrs ck t0 hist) as [st ns]. destruct H as [Hf Hns]. split.
  - intros l Hl. destruct (Hf l Hl) as (x & H1 & H2 & H3 & H4 & H5). by exists x.
  - intros l Hp. unfold pick in Hp. case_bool_decide; [done|]. cbn [fst] in Hp.
    apply pick_loop_member in Hp as [Hl Hh]. destruct (Hf l Hl) as (x & H1 & H2 & H3 & H4 & H5).
    rewrite Hh in H4. unfold verdict in H4.
    destruct (n_probe x) as [[[net s] c]|] eqn:Ep; [|done].
    rewrite list.Forall_forall in Hns. specialize (Hns x H1). unfold note_ok in Hns. rewrite Ep in Hns.
    destruct Hns as [rf' Hrf]. destruct (check_passes net rf' s c Hrf) as (roots & Hr & Hpass).
    exists x, (n_addr x), net, s, c, rf', roots. split_and!; try done. by apply Hpass.
Qed.

(** When every probe begun since [t] has failed, no member is healthy once no older
    verdict can be left. *)
Definition fail_since (t : Z) (ns : list Note) : Prop := Forall (fun x => t <= n_since x -> verdict x = false) ns.

Lemma none_healthy n i d slack addrs ck rf t0 hist now t :
  0 <= slack -> (length addrs <= n)%nat -> checker_for rf ck ->
  spec_within i d (spec ck) = true -> forallb (within n i d ∘ snd) hist = true ->
  loop_keeps_time slack addrs ck t0 hist now = true ->
  let '(st, ns) := loop_of addrs ck t0 hist in
  fail_since t ns -> t + max_age n i d slack <= now -> healthy_count (l_pool st) (l_heap st) = 0%nat.
Proof.
  intros Hs Hn Hck Hsp Hw Hk. pose proof (loop_of_ok n i d slack addrs ck rf t0 hist now Hs Hn Hck Hsp Hw Hk) as H.
  destruct (loop_of addrs ck t0 hist) as [st ns]. destruct H as [Hf _]. intros Hd Ht.
  unfold healthy_count. apply length_zero_iff_nil. destruct (List.filter _ _) as [|l ls] eqn:E; [done|exfalso].
  assert (List.In l (List.filter (is_healthy (l_heap st)) (backends (l_pool st)))) as Hin by (rewrite E; by left).
  apply List.filter_In in Hin as [Hin Hh]. apply list_elem_of_In in Hin.
  destruct (Hf l Hin) as (x & H1 & H2 & H3 & H4 & H5). unfold fail_since in Hd. rewrite list.Forall_forall in Hd.
  rewrite (Hd x H1) in H4 by lia. congruence.
Qed.

End Checks.

(** ** An example

    Two backends checked by TCP every two seconds; the second refuses from 3 s on,
    a third joins at 5 s. *)

#[local] Existing Instance demo_reqwest.

Definition demo_tcp_spec : HealthSpec :=
  {| mode := Tcp; path := []; interval_secs := 2; timeout_secs := 1; expect_status := []; ca_file := None |}.

Definition demo_addr (n : Z) : SocketAddr := SockAddr (V4 (Ipv4 10 0 0 n)) 6443.

Definition demo_tcp (up : list SocketAddr) : NetEnv demo_reqwest :=
  {| read_file _ := None; tcp_connects _ a := bool_decide (a ∈ up); Health.get _ _ := None |}.

Definition demo_tcp_checker : Checker := {| spec := demo_tcp_spec; http := None; woken := false |}.

Definition ms (n : Z) : Z := n * 1000000.

Definition demo_history : list (Z * Happening) :=
  [(ms 0, NewTurn); (ms 1, Probed (demo_tcp [demo_addr 7; demo_addr 8]));
   (ms 2, Probed (demo_tcp [demo_addr 7; demo_addr 8]));
   (ms 1500, Picked); (ms 2002, NewTurn); (ms 2003, Probed (demo_tcp [demo_addr 7; demo_addr 8]));
   (ms 3003, Probed (demo_tcp [demo_addr 7])); (ms 5000, SetMembers [demo_addr 7; demo_addr 8; demo_addr 9]);
   (ms 5000, WakeUp); (ms 5001, NewTurn); (ms 5002, Probed (demo_tcp [demo_addr 7; demo_addr 9]))].

Lemma health_is_fresh_witness :
  let '(st, ns) := loop_of [demo_addr 7; demo_addr 8] demo_tcp_checker 0 demo_history in
  (pick (l_pool st) (l_heap st)).1 = Some 0%nat
  /\ exists x a, x ∈ ns /\ addr_at (l_heap st) 0 = Some a /\ ms 5003 - ms 9020 <= n_since x.
Proof.
  pose proof (health_is_fresh 3 2 1 (ms 3) [demo_addr 7; demo_addr 8] demo_tcp_checker (fun _ => None) 0 demo_history
    (ms 5003) ltac:(decided) ltac:(decided) ltac:(by apply (checker_new _ demo_tcp_spec)) ltac:(vm_compute; reflexivity)
    ltac:(vm_compute; reflexivity) ltac:(vm_compute; reflexivity)) as H.
  destruct (loop_of [demo_addr 7; demo_addr 8] demo_tcp_checker 0 demo_history) as [st ns] eqn:E.
  assert (pick (l_pool st) (l_heap st) = (Some 0%nat, (pick (l_pool st) (l_heap st)).2)) as Hp
    by (vm_compute in E; injection E as <- <-; vm_compute; reflexivity).
  destruct H as [_ H]. rewrite Hp in H |- *. split; [reflexivity|].
  destruct (H 0%nat eq_refl) as (x & a & _ & _ & _ & _ & _ & Hx & Ha & _ & Hs & _).
  exists x, a. split; [exact Hx|]. split; [exact Ha|]. etransitivity; [|exact Hs]. vm_compute. discriminate.
Defined.
