(* ===== verification/Drain.v ===== *)
(** * What a node does when its backends fail

    The health loop of [src/src/health.rs] in time ([Checks]), and the two that read
    the pool's health while it runs: the VRRP thread ([VrrpLoop], with the clock of
    [Timing]), which gives the VIP up, and the health task of [src/src/main.rs] with
    the BGP session ([Anycast]), which withdraws the route. *)

From S2P Require Import Prelude Str Net Config Pool Health Checks Vrrp VrrpLoop Cluster Timing Bgp Anycast.

Section Drain.
  Context `{R : Reqwest}.

(** ** The pool's health over time *)

(** What has happened up to [t]. *)
Definition upto (t : Z) (hist : list (Z * Happening)) : list (Z * Happening) :=
  List.filter (fun te => te.1 <=? t) hist.

Lemma filter_late slack hist : forall st clock now t,
  keeps_time slack st clock hist now = true -> t < clock -> upto t hist = [].
Proof.
  induction hist as [|[u e] hist IH]; intros st clock now t Hk Ht; [done|]. cbn [keeps_time] in Hk.
  rewrite !andb_true_iff, !Z.leb_le in Hk. destruct Hk as [[[Hc _] _] Hk]. unfold upto. cbn [List.filter fst].
  destruct (Z.leb_spec u t); [lia|]. eapply IH; [done|lia].
Qed.

Lemma keeps_time_upto slack hist : forall st clock now t,
  keeps_time slack st clock hist now = true -> clock <= t <= now -> keeps_time slack st clock (upto t hist) t = true.
Proof.
  induction hist as [|[u e] hist IH]; intros st clock now t Hk Ht.
  { cbn in *. rewrite andb_true_iff, !Z.leb_le in *. lia. }
  pose proof Hk as Hk'. cbn [keeps_time] in Hk. rewrite !andb_true_iff, !Z.leb_le in Hk.
  destruct Hk as [[[Hc Hd] Hr] Hk]. unfold upto. cbn [List.filter fst]. destruct (Z.leb_spec u t).
  - cbn [keeps_time]. rewrite !andb_true_iff, !Z.leb_le. split_and!; try done. eapply IH; [done|lia].
  - change (List.filter _ hist) with (upto t hist). rewrite (filter_late _ _ _ _ _ _ Hk) by lia. cbn.
    rewrite andb_true_iff, !Z.leb_le. lia.
Qed.

Lemma upto_prefix slack hist : forall st clock now t,
  keeps_time slack st clock hist now = true -> exists later, hist = upto t hist ++ later.
Proof.
  induction hist as [|[u e] hist IH]; intros st clock now t Hk; [by exists []|]. pose proof Hk as Hk'.
  cbn [keeps_time] in Hk. rewrite !andb_true_iff, !Z.leb_le in Hk. destruct Hk as [[[Hc Hd] Hr] Hk].
  unfold upto. cbn [List.filter fst]. destruct (Z.leb_spec u t).
  - destruct (IH _ _ _ t Hk) as [later E]. exists later. cbn. f_equal. exact E.
  - change (List.filter _ hist) with (upto t hist). rewrite (filter_late _ _ _ _ _ _ Hk) by lia. by exists ((u, e) :: hist).
Qed.

Lemma run_checks_app h1 h2 : forall st,
  run_checks (h1 ++ h2) st =
  let '(st1, ns1) := run_checks h1 st in let '(st2, ns2) := run_checks h2 st1 in (st2, ns1 ++ ns2).
Proof.
  induction h1 as [|[t e] h1 IH]; intros st; cbn [app run_checks]; [by destruct (run_checks h2 st)|].
  destruct (happens e t st) as [st1 ns1]. rewrite IH. destruct (run_checks h1 st1) as [st2 ns2].
  destruct (run_checks h2 st2) as [st3 ns3]. by rewrite app_assoc.
Qed.

(** The VIP, from when it is started: its backends and checker, its health loop's
    history, which keeps time up to [slack] until [now]. *)
Record Vip := {
  v_addrs : list SocketAddr;
  v_checker : Checker;
  v_start : Z;
  v_history : list (Z * Happening) }.

Definition loop_at (v : Vip) (t : Z) : Loop := (loop_of (v_addrs v) (v_checker v) (v_start v) (upto t (v_history v))).1.

(** [pool.healthy_count() > 0], at a time. *)
Definition healthy_at (v : Vip) (t : Z) : bool :=
  bool_decide (0 < healthy_count (l_pool (loop_at v t)) (l_heap (loop_at v t)))%nat.

(** At most [n] members, [i] seconds between turns and [d] per probe. *)
Definition vip_within (n : nat) (i d slack : Z) (v : Vip) (now : Z) : Prop :=
  (length (v_addrs v) <= n)%nat /\ (exists rf, checker_for rf (v_checker v))
  /\ spec_within i d (spec (v_checker v)) = true /\ forallb (within n i d ∘ snd) (v_history v) = true
  /\ loop_keeps_time slack (v_addrs v) (v_checker v) (v_start v) (v_history v) now = true.

(** Every probe begun since [t] has failed. *)
Definition down_since (t : Z) (v : Vip) : Prop :=
  fail_since t (loop_of (v_addrs v) (v_checker v) (v_start v) (v_history v)).2.

(** Then the pool is unhealthy as soon as no older verdict can be left. *)
Lemma down_unhealthy n i d slack v now t u : 0 <= slack ->
  vip_within n i d slack v now -> down_since t v -> v_start v <= t ->
  t + max_age n i d slack <= u <= now -> healthy_at v u = false.
Proof.
  intros Hs (Hn & [rf Hck] & Hsp & Hw & Hk) Hd Ht Hu. unfold healthy_at. apply bool_decide_eq_false.
  assert (0 <= max_age n i d slack) as Hm.
  { unfold max_age, spec_within, secs in *. bool_to_prop. nia. }
  unfold loop_keeps_time in Hk. destruct (upto_prefix _ _ _ _ _ u Hk) as [later El].
  pose proof (none_healthy n i d slack (v_addrs v) (v_checker v) rf (v_start v) (upto u (v_history v)) u t
    Hs Hn Hck Hsp) as H.
  unfold loop_at, down_since, loop_of in *. destruct (spawned _ _ _) as [st ns] eqn:E. 
  rewrite El, run_checks_app in Hd. destruct (run_checks (upto u (v_history v)) st) as [st1 ns1] eqn:E1.
  destruct (run_checks later st1) as [st2 ns2]. cbn [fst snd] in *. rewrite H; [lia| | | |lia].
  - rewrite El in Hw. rewrite forallb_app in Hw. by apply andb_prop in Hw as [Hw _].
  - unfold loop_keeps_time. rewrite E. cbn [fst]. eapply keeps_time_upto; [done|lia].
  - unfold fail_since in *. rewrite app_assoc in Hd. by apply Forall_app in Hd as [Hd _].
Qed.

(** ** VRRP *)

(** The VRRP thread reads the pool's health as it comes round and, when its
    master-down timer runs out, after it has read the clock. *)
Fixpoint reads_health (v : Vip) (slack now : Z) (ts : list Turn) : Prop :=
  match ts with
  | [] => True
  | t :: ts =>
      (exists u, now <= u <= now_wake t /\ VrrpLoop.healthy t = healthy_at v u)
      /\ (exists u, now_recv t <= u <= now_recv t + slack /\ healthy_down t = healthy_at v u)
      /\ reads_health v slack (now_recv t) ts
  end.

Definition clock_after (now : Z) (ts : list Turn) : Z := List.last (now_recv <$> ts) now.

Lemma clock_after_snoc now ts t : clock_after now (ts ++ [t]) = now_recv t.
Proof. unfold clock_after. rewrite fmap_app. apply List.last_last. Qed.

(** The last turn: it began at most half a second and two delays ago, and read what
    the pool's health was since. *)
Lemma last_turn p ip v slack t : forall ts now st acts st',
  punctual p ip slack now st (ts ++ [t]) = true -> reads_health v slack now (ts ++ [t]) ->
  turns p ip st (ts ++ [t]) = (acts, VrrpLoop.Running st') ->
  (exists st0 acts0, turn p ip st0 t = (acts0, VrrpLoop.Running st'))
  /\ exists began, now_recv t - 500 * MILLI - 2 * slack <= began <= now_recv t
       /\ (exists u, began <= u <= now_recv t /\ VrrpLoop.healthy t = healthy_at v u)
       /\ (exists u, now_recv t <= u <= now_recv t + slack /\ healthy_down t = healthy_at v u).
Proof.
  induction ts as [|t0 ts IH]; intros now st acts st' Hp Hr Ht.
  - cbn [app punctual reads_health turns] in *. pose proof (turn_waits p ip st t) as Hw.
    destruct (turn p ip st t) as [acts1 o1] eqn:E1. rewrite !andb_true_iff, !Z.leb_le in Hp.
    destruct Hp as [[[[H1 H2] H3] H4] _]. destruct o1 as [st1| | |]; try done. injection Ht as _ <-.
    assert (now_wake t <= now_recv t) as H5.
    { destruct (recv t); rewrite Z.leb_le in H3; unfold MILLI in *; lia. }
    destruct Hr as (Hh & Hd & _). split; [by eauto|]. exists now. destruct Hw as [Hw _]. split; [lia|]. split; [|done].
    destruct Hh as (u & Hu & Hh). exists u. split; [lia|done].
  - cbn [app punctual reads_health turns] in *. destruct (turn p ip st t0) as [acts1 o1].
    rewrite !andb_true_iff in Hp. destruct Hp as [_ Hp]. destruct o1 as [st1| | |]; try done.
    destruct (turns p ip st1 (ts ++ [t])) as [acts2 o2] eqn:E2. injection Ht as _ ->.
    destruct Hr as (_ & _ & Hr). by eapply IH.
Qed.

(** C4: A node whose backends fail gives the VIP up.  When every probe begun since
    [t] fails, then once the health loop's oldest verdict is from after that (two
    turns of probes and the wait between them) and one turn of the VRRP thread (half a
    second) is over, the node is not Master and its address is released, whatever it
    was before and whatever it has received. *)
Theorem backends_down_release_vip n i d slack v now t p ip clock st ts acts st' :
  0 <= slack -> vip_within n i d slack v now -> down_since t v -> v_start v <= t ->
  punctual p ip slack clock st ts = true -> reads_health v slack clock ts ->
  turns p ip st ts = (acts, VrrpLoop.Running st') -> ts <> [] ->
  t + max_age n i d slack + 500 * MILLI + 2 * slack <= clock_after clock ts <= now - slack ->
  is_master st' = false /\ held (is_master st) acts = false.
Proof.
  intros Hs Hv Hd Ht0 Hp Hr Ht Hne Hc.
  assert (is_master st' = false) as Hm; cycle 1.
  { split; [done|]. pose proof (turns_held p ip st ts) as H. rewrite Ht in H. destruct H as [_ H]. by rewrite H. }
  destruct (exists_last Hne) as (ts0 & t1 & ->). rewrite clock_after_snoc in Hc.
  destruct (last_turn p ip v slack t1 ts0 clock st acts st' Hp Hr Ht)
    as ((st0 & acts0 & E) & began & Hb & (u & Hu & Hh) & (u' & Hu' & Hh')).
  pose proof (turn_held p ip st0 t1) as H. rewrite E in H. destruct H as (_ & _ & H).
  rewrite Hh, Hh', !(down_unhealthy n i d slack v now t) in H by (done || lia).
  destruct (is_master st'); [|done]. destruct H; done.
Qed.

(** ** BGP *)

(** A value of the channel that the session has not read yet. *)
Definition unread (s : Anycast) : bool :=
  match session_at s with Running ph => established ph && negb (seen s) | _ => false end.

(** A sample is of the pool as it is then. *)
Definition samples_pool (v : Vip) (t : Z) (m : Moment) : bool :=
  match m with
  | Sample p h => bool_decide (p = l_pool (loop_at v t)) && bool_decide (h = l_heap (loop_at v t))
  | _ => true
  end.

(** The health task samples the pool every 250 ms, and a session that has something
    to read reads it, each up to [slack] late.  [sampled] is when the last sample was
    taken, [pending] since when the channel has been unread. *)
Fixpoint prompt (c : SessionCfg) (v : Vip) (slack sampled pending clock : Z) (s : Anycast)
    (tms : list (Z * Moment)) (now : Z) : bool :=
  let on_time t := (clock <=? t) && (t <=? sampled + 250 * MILLI + slack) && (negb (unread s) || (t <=? pending + slack)) in
  match tms with
  | [] => on_time now
  | (t, m) :: tms =>
      on_time t && samples_pool v t m
      && let s' := moment c m s in
         prompt c v slack (match m with Sample _ _ => t | _ => sampled end)
           (if unread s' && negb (unread s) then t else pending) t s' tms now
  end.

(** What is unread after a wake was unread before and is announced as before, or the
    session has just come up. *)
Lemma wake_unread c i s ph' :
  session_at (wake c i s) = Running ph' -> unread (wake c i s) = true ->
  (announced_in ph' = false /\ unread s = false)
  \/ (unread s = true /\ exists ph, session_at s = Running ph /\ announced_in ph' = announced_in ph).
Proof.
  unfold wake, unread. destruct (session_at s) as [ph| |] eqn:Es; [|by rewrite Es..].
  unfold reads. destruct (event i) as [t b| | | | |w|] eqn:Ev.
  6: { destruct (established ph && negb (seen s)) eqn:Eu; cbn [event].
       - destruct (session_step c ph _) as [ms o]. cbn [session_at seen]. intros -> H. by rewrite andb_false_r in H.
       - rewrite Es. intros [= ->] H. congruence. }
  all: rewrite Ev; destruct (session_step c ph i) as [ms o] eqn:E; cbn [session_at seen]; intros -> H;
    apply session_step_want in E; rewrite Ev in E;
    destruct ph as [| |hold dl a]; cbn [established announced_in andb negb] in *;
    (left; split; [|reflexivity]) || idtac.
  all: try (rewrite E; reflexivity).
  all: rewrite ?andb_false_r in H; right; destruct (seen s); [rewrite andb_false_r in H; done|];
    split; [done|]; eexists; split; [done|]; rewrite E; done.
Qed.

Section Withdraw.
  Context (c : SessionCfg) (v : Vip) (slack : Z) (t0 now : Z).
  Context (Hslack : 0 <= slack) (Hcfg : cfg_ok c).
  Context (Hdown : forall u, t0 <= u <= now -> healthy_at v u = false).

(** What a prompt run keeps: what was sampled since [t0] is unhealthy, and what has
    become unread after the first such sample is a session that has just come up. *)
Definition withdrawing (s : Anycast) (sampled pending clock : Z) : Prop :=
  in_step c s /\ (t0 <= sampled -> value s = false)
  /\ (unread s = true -> t0 + 250 * MILLI + slack <= pending ->
      forall ph, session_at s = Running ph -> announced_in ph = false).

Lemma sample_withdrawing s sampled pending clock t :
  withdrawing s sampled pending clock -> clock <= t <= sampled + 250 * MILLI + slack -> t <= now ->
  let s' := sample (l_pool (loop_at v t)) (l_heap (loop_at v t)) s in
  withdrawing s' t (if unread s' && negb (unread s) then t else pending) t.
Proof.
  intros (Hin & Hv & Hu) Ht Hn s'. split; [by apply sample_in_step|].
  assert (value s' = healthy_at v t) as Ev by done. split.
  { intros. rewrite Ev. apply Hdown. lia. }
  assert (session_at s' = session_at s) as Ea by done. rewrite Ea.
  destruct (unread s') eqn:Eu; [|done]. destruct (unread s) eqn:Eu0; cbn [andb negb]; [by auto|].
  intros _ Hp ph Eph. exfalso. unfold unread in *. rewrite Ea, Eph in *.
  destruct (established ph); [|done]. cbn [andb] in *. apply negb_true_iff in Eu. apply negb_false_iff in Eu0.
  unfold s', sample in Eu. cbn [seen] in Eu. rewrite Eu0 in Eu. cbn [andb] in Eu.
  change (bool_decide _) with (healthy_at v t) in Eu.
  rewrite Hv, Hdown in Eu by (unfold MILLI in *; lia). done.
Qed.

Lemma wake_value i s : value (wake c i s) = value s.
Proof.
  unfold wake. destruct (session_at s); [|done..]. destruct (reads _ _ _); [|done].
  by destruct (session_step _ _ _).
Qed.

Lemma moment_withdrawing m s sampled pending clock t :
  withdrawing s sampled pending clock -> clock <= t <= sampled + 250 * MILLI + slack -> t <= now ->
  samples_pool v t m = true -> let s' := moment c m s in
  withdrawing s' (match m with Sample _ _ => t | _ => sampled end)
    (if unread s' && negb (unread s) then t else pending) t.
Proof.
  intros Hw Ht Hn Hm. destruct m as [p h|i|b b']; cbn [moment].
  - unfold samples_pool in Hm. bool_to_prop. subst. by eapply sample_withdrawing.
  - destruct Hw as (Hin & Hv & Hu). split; [by apply wake_in_step|]. rewrite wake_value. split; [done|].
    destruct (unread (wake c i s)) eqn:Eu; [|done]. intros _ Hp ph Eph.
    destruct (wake_unread c i s ph Eph Eu) as [[Ha _]|(Eu0 & ph0 & E0 & Ha)]; [done|].
    rewrite Eu0 in Hp. cbn [andb negb] in Hp. rewrite Ha. by apply Hu.
  - destruct Hw as (Hin & Hv & Hu). split; [by apply retry_in_step|].
    unfold retry. destruct (session_at s) as [ph| |] eqn:Es.
    + split; [done|]. destruct (unread s) eqn:Eu; cbn [andb negb]; [|done]. rewrite Es. auto.
    + unfold session. destruct b, b'; (split; [done|]); done.
    + split; [done|]. unfold unread. by rewrite Es.
Qed.

Lemma prompt_clock tms : forall s sampled pending clock,
  prompt c v slack sampled pending clock s tms now = true -> clock <= now.
Proof.
  induction tms as [|[t m] tms IH]; intros s sampled pending clock Hp; cbn [prompt] in Hp;
    rewrite !andb_true_iff, !Z.leb_le in Hp; [lia|]. destruct Hp as [[[H1 _] _] Hp]. apply IH in Hp. lia.
Qed.

Lemma prompt_withdrawing tms : forall s sampled pending clock,
  withdrawing s sampled pending clock -> prompt c v slack sampled pending clock s tms now = true ->
  exists sampled' pending' clock', withdrawing (run c tms.*2 s) sampled' pending' clock'
    /\ now <= sampled' + 250 * MILLI + slack /\ (unread (run c tms.*2 s) = true -> now <= pending' + slack).
Proof.
  induction tms as [|[t m] tms IH]; intros s sampled pending clock Hw Hp; pose proof (prompt_clock _ _ _ _ _ Hp) as Hc;
    cbn [prompt] in Hp; rewrite !andb_true_iff, orb_true_iff, !Z.leb_le, negb_true_iff in Hp.
  { exists sampled, pending, clock. split_and!; [done|lia|]. intros Hu. change (unread s = true) in Hu.
    destruct Hp as [_ [Hp|Hp]]; [congruence|done]. }
  destruct Hp as [[[Ht _] Hm] Hp]. eapply IH; [|exact Hp].
  eapply moment_withdrawing; try done. by apply (prompt_clock _ _ _ _ _ Hp).
Qed.

End Withdraw.

(** C5: A node whose backends fail leaves the fabric.  When every probe begun since
    [t] fails, then once the health loop's oldest verdict is from after that, and the
    250 ms of the health task and the two tasks' delays are over, whatever the peer
    and the timers have done and however often the session has come up: the table the
    peer has of the running session holds no route of ours. *)
Theorem backends_down_withdraw_route n i d slack v now t c clock tms ph :
  0 <= slack -> vip_within n i d slack v now -> down_since t v -> v_start v <= t -> cfg_ok c ->
  prompt c v slack clock clock clock started tms now = true ->
  t + max_age n i d slack + 250 * MILLI + 2 * slack <= now ->
  let s := run c tms.*2 started in
  session_at s = Running ph -> announced_in ph = false /\ peer_rib (sent s) = Some ∅.
Proof.
  intros Hs Hv Hd Ht0 Hc Hp Hn s Eph.
  assert (forall u, t + max_age n i d slack <= u <= now -> healthy_at v u = false) as Hdn.
  { intros u Hu. by eapply down_unhealthy. }
  assert (withdrawing c slack (t + max_age n i d slack) started clock clock clock) as H0.
  { split; [done|]. split; [done|]. done. }
  destruct (prompt_withdrawing c v slack _ now Hs Hc Hdn tms _ _ _ _ H0 Hp)
    as (sampled & pending & clock' & (Hin & Hval & Hu) & H1 & H2). fold s in Hin, Hval, Hu, H2.
  unfold in_step in Hin. rewrite Eph in Hin. destruct Hin as [(l & El & Hl & Hr) Hseen].
  assert (announced_in ph = false) as Ha.
  { destruct (established ph) eqn:Ee; [|by destruct ph].
    destruct (seen s) eqn:Es.
    - rewrite Hseen by done. apply Hval. lia.
    - assert (unread s = true) as Eu by (unfold unread; by rewrite Eph, Ee, Es).
      apply Hu; [done| |done]. specialize (H2 Eu). lia. }
  split; [done|]. rewrite Ha in Hr. by rewrite El, peer_rib_own.
Qed.

End Drain.

(** ** An example

    A node with one backend, which refuses from 3 s on, checked by TCP every second. *)

#[local] Existing Instance demo_reqwest.

(** [k] turns of the health loop, one probe each, that take 2 ms and wait a second. *)
Fixpoint demo_turns (k : nat) (t : Z) (up : Z -> bool) : list (Z * Happening) :=
  match k with
  | O => []
  | S k =>
      (t, NewTurn) :: (t + ms 2, Probed (demo_tcp (if up t then [demo_addr 7] else [])))
      :: demo_turns k (t + ms 1002) up
  end.

Definition demo_down : Vip :=
  {| v_addrs := [demo_addr 7];
     v_checker := {| spec := {| mode := Tcp; path := []; interval_secs := 1; timeout_secs := 1;
                                expect_status := []; ca_file := None |};
                     http := None; woken := false |};
     v_start := 0; v_history := demo_turns 8 0 (fun t => t <? ms 3000) |}.

Lemma demo_down_within : vip_within 1 1 1 (ms 10) demo_down (ms 7150).
Proof.
  unfold vip_within. split; [simpl; lia|]. split.
  { exists (fun _ => None). by apply (checker_new _ (spec (v_checker demo_down))). }
  split; [reflexivity|]. split; [reflexivity|]. vm_compute. reflexivity.
Qed.

Lemma demo_down_fails : down_since (ms 3000) demo_down.
Proof.
  unfold down_since, fail_since. apply list.Forall_forall. intros x Hx.
  assert (forallb (fun x => negb (ms 3000 <=? n_since x) || negb (verdict x))
    (loop_of (v_addrs demo_down) (v_checker demo_down) (v_start demo_down) (v_history demo_down)).2 = true) as H
    by (vm_compute; reflexivity).
  rewrite forallb_forall in H. apply list_elem_of_In in Hx. specialize (H x Hx). intros Ht.
  apply orb_true_iff in H as [H|H]; bool_to_prop; [lia|done].
Qed.

(** [k] turns of a VRRP thread that nobody talks to and that reads the pool. *)
Fixpoint demo_vrrp (v : Vip) (p : Params) (ip : Ipv4Addr) (k : nat) (now : Z) (st : LoopState) : list Turn :=
  match k with
  | O => []
  | S k =>
      let t0 := {| stop := false; VrrpLoop.healthy := healthy_at v now; now_resign := now; now_wake := now;
                   timeout_set := true; recv := TimedOut; now_recv := now; healthy_down := false |} in
      let later := now + waited (turn p ip st t0).1 in
      let t := {| stop := false; VrrpLoop.healthy := healthy_at v now; now_resign := now; now_wake := now;
                  timeout_set := true; recv := TimedOut; now_recv := later; healthy_down := healthy_at v later |} in
      match turn p ip st t with
      | (_, VrrpLoop.Running st') => t :: demo_vrrp v p ip k later st'
      | _ => [t]
      end
  end.

Lemma demo_vrrp_reads v p ip slack k : 0 <= slack -> forall now st, reads_health v slack now (demo_vrrp v p ip k now st).
Proof.
  intros Hs. induction k as [|k IH]; intros now st; cbn [demo_vrrp]; [done|].
  set (later := now + _). set (t := {| stop := false; now_recv := later |}).
  destruct (turn p ip st t) as [acts [st'| | |]]; cbn [reads_health];
    (split; [exists now; split; [cbn; lia|done]|]); (split; [exists later; split; [cbn; lia|done]|]); done || apply IH.
Qed.

Lemma backends_down_release_vip_witness :
  let p := n_params (demo_node 100 2) in
  let ip := Ipv4 10 0 0 2 in
  let st := {| vr := (start true (new 51 255 true 1)).1; next_advert := ms 100; master_down_deadline := ms 5000 |} in
  let ts := demo_vrrp demo_down p ip 14 (ms 100) st in
  is_master st = true
  /\ exists acts st', turns p ip st ts = (acts, VrrpLoop.Running st') /\ is_master st' = false
     /\ held true acts = false.
Proof.
  intros p ip st ts. split; [reflexivity|].
  destruct (turns p ip st ts) as [acts o] eqn:E.
  assert (exists st', o = VrrpLoop.Running st') as [st' ->]
    by (vm_compute in E; injection E as <- <-; eexists; reflexivity).
  exists acts, st'. split; [reflexivity|].
  assert (is_master st' = false /\ held (is_master st) acts = false) as H.
  { refine (backends_down_release_vip 1 1 1 (ms 10) demo_down (ms 7150) (ms 3000) p ip (ms 100) st ts acts st'
      _ _ _ _ _ _ E _ _).
    - vm_compute. discriminate.
    - apply demo_down_within.
    - apply demo_down_fails.
    - vm_compute. discriminate.
    - vm_compute. reflexivity.
    - apply demo_vrrp_reads. vm_compute. discriminate.
    - vm_compute. discriminate.
    - split; vm_compute; discriminate. }
  exact H.
Defined.

(** [k] samples from [t] on, each read by the session at once. *)
Fixpoint demo_samples (v : Vip) (k : nat) (t : Z) : list (Z * Moment) :=
  match k with
  | O => []
  | S k => (t, Sample (l_pool (loop_at v t)) (l_heap (loop_at v t)))
           :: (t, Wake (at_time t (Advertise true))) :: demo_samples v k (t + ms 250)
  end.

Lemma backends_down_withdraw_route_witness :
  let tms := [(0, Retry true true); (0, Wake (at_time 0 (Recvd OPEN (4 :: be16 65002 ++ be16 90 ++ [10; 0; 0; 2; 0]))));
              (0, Wake (at_time 0 (Recvd KEEPALIVE [])))] ++ demo_samples demo_down 29 0 in
  announced_in (Established 90 (secs 90) false) = false
  /\ peer_rib (sent (run demo_cfg (take 20 tms).*2 started)) = Some (route demo_cfg true)
  /\ peer_rib (sent (run demo_cfg tms.*2 started)) = Some ∅.
Proof.
  intros tms. split; [reflexivity|]. split; [vm_compute; reflexivity|].
  refine (proj2 (backends_down_withdraw_route 1 1 1 (ms 10) demo_down (ms 7150) (ms 3000) demo_cfg 0 tms
    (Established 90 (secs 90) false) _ _ _ _ _ _ _ _)).
  - vm_compute. discriminate.
  - apply demo_down_within.
  - apply demo_down_fails.
  - vm_compute. discriminate.
  - unfold cfg_ok. decided.
  - vm_compute. reflexivity.
  - vm_compute. discriminate.
  - vm_compute. reflexivity.
Defined.
