(* ===== verification/Vips.v ===== *)
(** * Named VIPs ([src/src/vips.rs])

    [Registry] is the state a process keeps: its entries, the saved VIPs that
    did not start, and what it started or shares.  A pool with its checker and
    health loop is a [Core], a listener's accept loop a [Serve], a VRRP thread a
    [VrrpTask]; entries hold their indices, as the code holds [Arc]s and
    [JoinHandle]s.  The outside of one operation is its [Env]. *)

From stdpp Require Import sorting.
From S2P Require Import Prelude Str Net Vrrp VrrpLoop Config Pool Health.

Local Open Scope Z_scope.

Definition CONFIG_VIP : str := lit "default".

(** ** Specs *)

Record BackendSpec := { b_address : str; b_port : Z }.

Record VrrpSpec := {
  interface : str;
  vs_vrid : Z;
  vs_priority : Z;
  vs_preempt : bool;
  advert_interval_secs : Z }.

Record VipSpec := {
  address : str;
  port : Z;
  bind : option str;
  vbackends : list BackendSpec;
  vhealth : HealthSpec;
  vvrrp : option VrrpSpec }.

(** A [vrrp] object, absent fields taking serde's defaults. *)
Definition default_vrid : Z := 51.
Definition default_priority : Z := 100.
Definition default_advert : Z := 1.
Definition default_preempt : bool := true.

Definition VrrpSpec_of (interface : str) (vrid priority : option Z) (preempt : option bool)
    (advert : option Z) : VrrpSpec :=
  {| interface := interface; vs_vrid := default default_vrid vrid;
     vs_priority := default default_priority priority; vs_preempt := default default_preempt preempt;
     advert_interval_secs := default default_advert advert |}.

(** A VIP's object. *)
Definition VipSpec_of (address : str) (port : Z) (bind : option str) (backends : option (list BackendSpec))
    (health : option HealthSpec) (vrrp : option VrrpSpec) : VipSpec :=
  {| address := address; port := port; bind := bind; vbackends := default [] backends;
     vhealth := default HealthSpec_default health; vvrrp := vrrp |}.

#[export] Instance BackendSpec_eq_dec : EqDecision BackendSpec.
Proof. solve_decision. Defined.
#[export] Instance VrrpSpec_eq_dec : EqDecision VrrpSpec.
Proof. solve_decision. Defined.
#[export] Instance VipSpec_eq_dec : EqDecision VipSpec.
Proof. solve_decision. Defined.

(** The messages, as constructors. *)
Inductive Why :=
| BadAddress | ZeroPort | BadBind | BadBackend (a : str) | ZeroBackendPort (a : str)
| BadPath | ZeroSecs | NoStatus | VrrpNeedsIpv4 | NoVrrpInterface | BadVrid | BadAdvert
| BadName | BadHealth (e : ClientError).

Inductive ApplyError :=
| Invalid (why : Why)
| InUse (listen : SocketAddr) (other : str)     (* Conflict *)
| CannotBind (listen : SocketAddr)              (* Conflict *)
| ReadOnly (name : str)                         (* Conflict *)
| NotFound (name : str)
| NotSaved.

(** ** Validation *)

Record Checked := { c_listen : SocketAddr; c_backends : list SocketAddr; c_vrrp_vip : option Ipv4Addr }.

Fixpoint check_backends (bs : list BackendSpec) : Why + list SocketAddr :=
  match bs with
  | [] => inr []
  | b :: bs =>
      match parse_ip (b_address b) with
      | None => inl (BadBackend (b_address b))
      | Some ip =>
          if b_port b =? 0 then inl (ZeroBackendPort (b_address b)) else
          match check_backends bs with
          | inl w => inl w
          | inr l => inr (SockAddr ip (b_port b) :: l)
          end
      end
  end.

Definition check_health (h : HealthSpec) : option Why :=
  if negb (starts_with (lit "/") (path h)) then Some BadPath
  else if (interval_secs h =? 0) || (timeout_secs h =? 0) then Some ZeroSecs
  else if bool_decide (expect_status h = []) then Some NoStatus
  else None.

Definition check_vrrp (vip : IpAddr) (v : option VrrpSpec) : Why + option Ipv4Addr :=
  match v with
  | None => inr None
  | Some v =>
      match vip with
      | V6 _ => inl VrrpNeedsIpv4
      | V4 v4 =>
          if bool_decide (interface v = []) then inl NoVrrpInterface
          else if (vs_vrid v =? 0) || (vs_priority v =? 0) then inl BadVrid
          else if (advert_interval_secs v =? 0) || (40 <? advert_interval_secs v) then inl BadAdvert
          else inr (Some v4)
      end
  end.

Definition check (s : VipSpec) : ApplyError + Checked :=
  match parse_ip (address s) with
  | None => inl (Invalid BadAddress)
  | Some vip =>
      if port s =? 0 then inl (Invalid ZeroPort) else
      match (match bind s with None => Some vip | Some b => parse_ip b end) with
      | None => inl (Invalid BadBind)
      | Some bind_ip =>
          match check_backends (vbackends s) with
          | inl w => inl (Invalid w)
          | inr bs =>
              match check_health (vhealth s) with
              | Some w => inl (Invalid w)
              | None =>
                  match check_vrrp vip (vvrrp s) with
                  | inl w => inl (Invalid w)
                  | inr v => inr {| c_listen := SockAddr bind_ip (port s); c_backends := bs; c_vrrp_vip := v |}
                  end
              end
          end
      end
  end.

Definition valid_name (name : str) : bool :=
  let bytes := utf8_encode name in
  negb (bool_decide (name = [])) && bool_decide (length bytes <= 63)%nat
  && forallb (fun b => is_lower b || is_digit b || (b =? 45)) bytes
  && negb (starts_with [45] name) && negb (starts_with [45] (rev name)).

(** The [[vip]] table as a spec. *)
Definition config_spec (cfg : Config) : option VipSpec :=
  match vip cfg with
  | None => None
  | Some v =>
      Some {| address := v_address v; port := v_port v; bind := Some (v_bind v);
              vbackends := (fun b => {| b_address := be_address b; b_port := be_port b |})
                             <$> Config.backends cfg;
              vhealth := Config.health cfg;
              vvrrp := if vc_enabled (vrrp cfg) then
                         Some {| interface := vc_interface (vrrp cfg); vs_vrid := vc_vrid (vrrp cfg);
                                 vs_priority := vc_priority (vrrp cfg);
                                 vs_preempt := vc_preempt (vrrp cfg);
                                 advert_interval_secs := vc_advert_interval_secs (vrrp cfg) |}
                       else None |}
  end.

(** JSON of the state file ([serde_json]): an interface, with its law. *)
Class StateJson := {
  to_json : gmap str VipSpec -> str;
  from_json : str -> option (gmap str VipSpec);
  json_roundtrip m : from_json (to_json m) = Some m }.

(** ** The registry *)

Section Vips.
  Context `{R : Reqwest} `{J : StateJson}.

Record Core := { pool : Pool; checker : Checker; health_aborted : bool }.
Record Serve := { s_listen : SocketAddr; s_core : nat; s_vip : str; s_aborted : bool }.
Record VrrpTask := { t_params : Params; t_core : nat; t_stopped : bool }.

Record Entry := {
  e_spec : VipSpec;
  from_config : bool;
  e_listen : SocketAddr;
  e_core : nat;
  e_serve : nat;
  e_vrrp : option nat }.

Record Registry := {
  vips : gmap str Entry;
  pending : gmap str VipSpec;
  state_file : option str;
  heap : Heap;
  cores : list Core;
  serves : list Serve;
  vrrps : list VrrpTask;
  files : gmap str str }.

(** The outside of one operation: which addresses can be bound, the CA files
    as read first and as read again, and how the write of the state file goes
    ([Some t]: writing the temporary file fails leaving [t]). *)
Record Env := {
  can_bind : SocketAddr -> bool;
  fs : str -> option (list Z);
  fs_again : str -> option (list Z);
  mkdir_ok : bool;
  write_fails : option (option str);
  rename_ok : bool }.

Definition new (file : option str) (disk : gmap str str) : Registry :=
  {| vips := ∅; pending := ∅; state_file := file; heap := []; cores := []; serves := [];
     vrrps := []; files := disk |}.

Definition set_vips (v : gmap str Entry) (r : Registry) : Registry :=
  {| vips := v; pending := pending r; state_file := state_file r; heap := heap r;
     cores := cores r; serves := serves r; vrrps := vrrps r; files := files r |}.
Definition set_pending (p : gmap str VipSpec) (r : Registry) : Registry :=
  {| vips := vips r; pending := p; state_file := state_file r; heap := heap r;
     cores := cores r; serves := serves r; vrrps := vrrps r; files := files r |}.
Definition set_files (f : gmap str str) (r : Registry) : Registry :=
  {| vips := vips r; pending := pending r; state_file := state_file r; heap := heap r;
     cores := cores r; serves := serves r; vrrps := vrrps r; files := f |}.
Definition set_cores (h : Heap) (c : list Core) (r : Registry) : Registry :=
  {| vips := vips r; pending := pending r; state_file := state_file r; heap := h;
     cores := c; serves := serves r; vrrps := vrrps r; files := files r |}.
Definition set_serves (s : list Serve) (r : Registry) : Registry :=
  {| vips := vips r; pending := pending r; state_file := state_file r; heap := heap r;
     cores := cores r; serves := s; vrrps := vrrps r; files := files r |}.
Definition set_vrrps (v : list VrrpTask) (r : Registry) : Registry :=
  {| vips := vips r; pending := pending r; state_file := state_file r; heap := heap r;
     cores := cores r; serves := serves r; vrrps := v; files := files r |}.

Definition abort_serve (s : Serve) : Serve :=
  {| s_listen := s_listen s; s_core := s_core s; s_vip := s_vip s; s_aborted := true |}.
Definition abort_health (c : Core) : Core :=
  {| pool := pool c; checker := checker c; health_aborted := true |}.
(** [Handle::stop]. *)
Definition stop_vrrp (t : VrrpTask) : VrrpTask :=
  {| t_params := t_params t; t_core := t_core t; t_stopped := true |}.

(** [start_vrrp]: the thread it starts. *)
Definition vrrp_task (s : VipSpec) (vip : option Ipv4Addr) (core : nat) : option VrrpTask :=
  v ← vvrrp s; vip ← vip;
  Some {| t_params := {| p_vrid := vs_vrid v; p_priority := vs_priority v;
                         p_preempt := vs_preempt v;
                         p_advert_interval_secs := advert_interval_secs v;
                         p_iface := interface v; p_vip := vip |};
          t_core := core; t_stopped := false |}.

Definition start_vrrp (s : VipSpec) (vip : option Ipv4Addr) (core : nat) (ts : list VrrpTask)
    : option nat * list VrrpTask :=
  match vrrp_task s vip core with
  | Some t => (Some (length ts), ts ++ [t])
  | None => (None, ts)
  end.

(** [Entry]'s [Drop]. *)
Definition drop_entry (e : Entry) (r : Registry) : Registry :=
  let r := set_cores (heap r) (alter abort_health (e_core e) (cores r)) r in
  let r := set_serves (alter abort_serve (e_serve e) (serves r)) r in
  match e_vrrp e with Some i => set_vrrps (alter stop_vrrp i (vrrps r)) r | None => r end.

(** The update of a running VIP, after what can fail: the listener moved if
    [moved], the members replaced, the checker's spec set, VRRP restarted if its
    settings or the address changed. *)
Definition update_listener (name : str) (listen : SocketAddr) (e : Entry) (r : Registry)
    : Entry * Registry :=
  if bool_decide (listen = e_listen e) then (e, r) else
  ({| e_spec := e_spec e; from_config := from_config e; e_listen := listen; e_core := e_core e;
      e_serve := length (serves r); e_vrrp := e_vrrp e |},
   set_serves (alter abort_serve (e_serve e) (serves r)
               ++ [{| s_listen := listen; s_core := e_core e; s_vip := name; s_aborted := false |}]) r).

Definition update_vrrp (s : VipSpec) (vip : option Ipv4Addr) (e : Entry) (r : Registry)
    : Entry * Registry :=
  let keep := bool_decide (vvrrp s = vvrrp (e_spec e)) && bool_decide (address s = address (e_spec e)) in
  let '(v, ts) :=
    if keep then (e_vrrp e, vrrps r)
    else start_vrrp s vip (e_core e)
           (match e_vrrp e with Some i => alter stop_vrrp i (vrrps r) | None => vrrps r end) in
  ({| e_spec := s; from_config := from_config e; e_listen := e_listen e; e_core := e_core e;
      e_serve := e_serve e; e_vrrp := v |}, set_vrrps ts r).

Definition update (env : Env) (name : str) (s : VipSpec) (c : Checked) (e : Entry) (r : Registry)
    : Registry * (ApplyError + bool) :=
  match client (fs env) (vhealth s) with
  | inl ce => (r, inl (Invalid (BadHealth ce)))
  | inr _ =>
      if negb (bool_decide (c_listen c = e_listen e)) && negb (can_bind env (c_listen c))
      then (r, inl (CannotBind (c_listen c)))
      else
        match cores r !! e_core e with
        | None => (r, inl (NotFound name))                (* not reachable: [Arc] *)
        | Some core =>
            let '(e, r) := update_listener name (c_listen c) e r in
            let '(p, h) := set_addrs (c_backends c) (pool core) (heap r) in
            let '(ck, err) := set_spec (fs_again env) (vhealth s) (checker core) in
            let core := {| pool := p; checker := ck; health_aborted := health_aborted core |} in
            let r := set_cores h (<[e_core e := core]> (cores r)) r in
            match err with
            | Some ce => (set_vips (<[name := e]> (vips r)) r, inl (Invalid (BadHealth ce)))
            | None =>
                let '(e, r) := update_vrrp s (c_vrrp_vip c) e r in
                (set_vips (<[name := e]> (vips r)) r, inr false)
            end
        end
  end.

Definition create (env : Env) (name : str) (s : VipSpec) (from_config : bool) (c : Checked) (r : Registry)
    : Registry * (ApplyError + bool) :=
  match Checker_new (fs env) (vhealth s) with
  | inl ce => (r, inl (Invalid (BadHealth ce)))
  | inr ck =>
      if negb (can_bind env (c_listen c)) then (r, inl (CannotBind (c_listen c))) else
      let '(p, h) := Pool_new (c_backends c) (heap r) in
      let core := length (cores r) in
      let serve := length (serves r) in
      let '(v, ts) := start_vrrp s (c_vrrp_vip c) core (vrrps r) in
      let r := set_cores h (cores r ++ [{| pool := p; checker := ck; health_aborted := false |}]) r in
      let r := set_serves (serves r ++ [{| s_listen := c_listen c; s_core := core; s_vip := name;
                                           s_aborted := false |}]) r in
      let r := set_vrrps ts r in
      (set_vips (<[name := {| e_spec := s; from_config := from_config; e_listen := c_listen c;
                              e_core := core; e_serve := serve; e_vrrp := v |}]> (vips r)) r,
       inr true)
  end.

(** The other VIP on [listen], the first in the map's order. *)
Definition other_on (name : str) (listen : SocketAddr) (m : gmap str Entry) : option str :=
  fst <$> List.find (fun ne => negb (bool_decide (ne.1 = name)) && bool_decide (e_listen ne.2 = listen))
            (btree m).

Definition put (env : Env) (name : str) (s : VipSpec) (from_config : bool) (r : Registry)
    : Registry * (ApplyError + bool) :=
  match check s with
  | inl e => (r, inl e)
  | inr c =>
      match other_on name (c_listen c) (vips r) with
      | Some other => (r, inl (InUse (c_listen c) other))
      | None =>
          match vips r !! name with
          | Some e => update env name s c e r
          | None => create env name s from_config c r
          end
      end
  end.

(** ** The state file *)

(** [Path::with_extension("tmp")] of a path that ends in a file name. *)
Definition with_extension_tmp (p : str) : str :=
  let '(dir, name) := match rsplit_once 47 p with
                      | Some (d, n) => (d ++ [47], n)
                      | None => ([], p)
                      end in
  let stem := match rsplit_once 46 name with Some ([], _) => name | Some (s, _) => s | None => name end in
  dir ++ stem ++ lit ".tmp".

Definition write_atomic (env : Env) (path text : str) (disk : gmap str str) : gmap str str * bool :=
  if negb (mkdir_ok env) then (disk, false) else
  let tmp := with_extension_tmp path in
  match write_fails env with
  | Some None => (disk, false)
  | Some (Some t) => (<[tmp := t]> disk, false)
  | None =>
      let disk := <[tmp := text]> disk in
      if rename_ok env then (<[path := text]> (delete tmp disk), true) else (disk, false)
  end.

(** The specs of the API VIPs that run. *)
Definition api_specs (m : gmap str Entry) : gmap str VipSpec :=
  omap (fun e => if from_config e then None else Some (e_spec e)) m.

(** What [save] writes: an entry wins over a pending spec of its name. *)
Definition saved_view (r : Registry) : gmap str VipSpec := api_specs (vips r) ∪ pending r.

Definition save (env : Env) (r : Registry) : Registry * option ApplyError :=
  match state_file r with
  | None => (r, None)
  | Some path =>
      let '(disk, ok) := write_atomic env path (to_json (saved_view r)) (files r) in
      (set_files disk r, if ok then None else Some NotSaved)
  end.

(** ** The operations *)

Definition start_config (env : Env) (s : VipSpec) (r : Registry) : Registry * (ApplyError + bool) :=
  put env CONFIG_VIP s true r.

Definition is_config (name : str) (r : Registry) : bool :=
  match vips r !! name with Some e => from_config e | None => false end.

Definition apply (env : Env) (name : str) (s : VipSpec) (r : Registry)
    : Registry * (ApplyError + bool) :=
  if negb (valid_name name) then (r, inl (Invalid BadName))
  else if is_config name r then (r, inl (ReadOnly name))
  else
    match put env name s false r with
    | (r, inl e) => (r, inl e)
    | (r, inr created) =>
        let r := set_pending (delete name (pending r)) r in
        match save env r with
        | (r, None) => (r, inr created)
        | (r, Some e) => (r, inl e)
        end
    end.

Definition remove (env : Env) (name : str) (r : Registry) : Registry * option ApplyError :=
  match vips r !! name with
  | None =>
      match pending r !! name with
      | None => (r, Some (NotFound name))
      | Some _ => save env (set_pending (delete name (pending r)) r)
      end
  | Some e =>
      if from_config e then (r, Some (ReadOnly name))
      else save env (drop_entry e (set_vips (delete name (vips r)) r))
  end.

Definition stop_all (r : Registry) : Registry :=
  foldr (fun ne => drop_entry ne.2) (set_vips ∅ r) (reverse (btree (vips r))).

Inductive LoadError := Unreadable | BadJson.

(** The loop of [load_state]; [envs] is the outside of each [put]. *)
Fixpoint load_all (envs : str -> Env) (l : list (str * VipSpec)) (r : Registry) : Registry * nat :=
  match l with
  | [] => (r, O)
  | (name, s) :: l =>
      match put (envs name) name s false r with
      | (r, inr _) => let '(r, n) := load_all envs l r in (r, S n)
      | (r, inl _) => load_all envs l (set_pending (<[name := s]> (pending r)) r)
      end
  end.

(** [readable]: whether reading an existing file succeeds. *)
Definition load_state (envs : str -> Env) (readable : bool) (r : Registry)
    : Registry * (LoadError + nat) :=
  match state_file r with
  | None => (r, inr O)
  | Some path =>
      match files r !! path with
      | None => (r, inr O)
      | Some text =>
          if negb readable then (r, inl Unreadable) else
          match from_json text with
          | None => (r, inl BadJson)
          | Some saved => let '(r, n) := load_all envs (btree saved) r in (r, inr n)
          end
      end
  end.

(** ** What [GET] returns *)

Record BackendStatus := { bs_address : str; bs_port : Z; bs_healthy : bool }.

Record VipView := {
  view_name : str;
  view_spec : VipSpec;
  listening : str;
  source_config : bool;               (* [source]: config or api *)
  view_healthy : nat;
  view_backends : list BackendStatus;
  has_vrrp : bool }.                  (* [vrrp] present; its state is the thread's *)

Definition backend_status (h : Heap) (l : loc) : option BackendStatus :=
  b ← h !! l;
  Some {| bs_address := show_ip (sa_ip (addr b)); bs_port := sa_port (addr b);
          bs_healthy := Pool.healthy b |}.

Definition view (name : str) (e : Entry) (r : Registry) : option VipView :=
  core ← cores r !! e_core e;
  let bs := omap (backend_status (heap r)) (Pool.backends (pool core)) in
  Some {| view_name := name; view_spec := e_spec e; listening := show_sockaddr (e_listen e);
          source_config := from_config e;
          view_healthy := length (List.filter bs_healthy bs);
          view_backends := bs;
          has_vrrp := match e_vrrp e with Some _ => true | None => false end |}.

Definition get (name : str) (r : Registry) : option VipView :=
  e ← vips r !! name; view name e r.

Definition list_views (r : Registry) : list VipView :=
  omap (fun ne => view ne.1 ne.2 r) (btree (vips r)).

(** ** Specification *)

(** The CA files do not change between the two reads of an update. *)
Definition stable (env : Env) : Prop := fs_again env = fs env.

(** A spec's fields are in the range of their types. *)
Definition spec_typed (s : VipSpec) : Prop :=
  is_u16 (port s) /\ Forall (fun b => is_u16 (b_port b)) (vbackends s)
  /\ is_u64 (interval_secs (vhealth s)) /\ is_u64 (timeout_secs (vhealth s))
  /\ match vvrrp s with
     | Some v => is_u8 (vs_vrid v) /\ is_u8 (vs_priority v) /\ is_u64 (advert_interval_secs v)
     | None => True
     end.

(** What an accepted spec is, in the words of the API's documentation. *)
Definition acceptable (s : VipSpec) (c : Checked) : Prop :=
  exists vip,
    parse_ip (address s) = Some vip /\ port s <> 0
    /\ (exists ip, match bind s with None => ip = vip | Some b => parse_ip b = Some ip end
          /\ c_listen c = SockAddr ip (port s))
    /\ Forall2 (fun b a => b_port b <> 0 /\ exists ip, parse_ip (b_address b) = Some ip
                           /\ a = SockAddr ip (b_port b)) (vbackends s) (c_backends c)
    /\ starts_with (lit "/") (path (vhealth s)) = true
    /\ interval_secs (vhealth s) <> 0 /\ timeout_secs (vhealth s) <> 0
    /\ expect_status (vhealth s) <> []
    /\ match vvrrp s with
       | None => c_vrrp_vip c = None
       | Some v => exists v4, vip = V4 v4 /\ interface v <> [] /\ vs_vrid v <> 0
                     /\ vs_priority v <> 0 /\ 1 <= advert_interval_secs v <= 40
                     /\ c_vrrp_vip c = Some v4
       end.

(** Environments that may do anything. *)
Definition any_env (_ : Env) : Prop := True.

(** The spec whose listener and backends are in force is the entry's own, unless an
    update can be refused half-way. *)
Definition in_force (ok : Env -> Prop) (s' s : VipSpec) : Prop := (forall env, ok env -> stable env) -> s' = s.

(** An entry and what it owns: its spec is valid, a valid spec's listener and
    backends are in force ([s'], checked to [c']), its checker has the spec's health
    section, the VRRP thread is the spec's, and the accept loop, the health loop and
    the thread run. *)
Definition entry_ok (ok : Env -> Prop) (r : Registry) (n : str) (e : Entry) : Prop :=
  exists s' c' c core,
    in_force ok s' (e_spec e) /\ check s' = inr c' /\ check (e_spec e) = inr c /\ c_listen c' = e_listen e
    /\ cores r !! e_core e = Some core /\ health_aborted core = false
    /\ spec (checker core) = vhealth (e_spec e)
    /\ pool_ok (pool core) (heap r)
    /\ member_addrs (pool core) (heap r) = Some <$> nub [] (c_backends c')
    /\ serves r !! e_serve e
       = Some {| s_listen := e_listen e; s_core := e_core e; s_vip := n; s_aborted := false |}
    /\ match e_vrrp e with
       | Some i => exists t, vrrp_task (e_spec e) (c_vrrp_vip c) (e_core e) = Some t
                             /\ vrrps r !! i = Some t
       | None => vrrp_task (e_spec e) (c_vrrp_vip c) (e_core e) = None
       end.

(** Two entries share nothing. *)
Definition apart (e1 e2 : Entry) : Prop :=
  e_listen e1 <> e_listen e2 /\ e_core e1 <> e_core e2 /\ e_serve e1 <> e_serve e2
  /\ forall i, e_vrrp e1 = Some i -> e_vrrp e2 <> Some i.

(** What runs belongs to an entry. *)
Definition owned (r : Registry) : Prop :=
  (forall i s, serves r !! i = Some s -> s_aborted s = false ->
     exists n e, vips r !! n = Some e /\ e_serve e = i)
  /\ (forall i t, vrrps r !! i = Some t -> t_stopped t = false ->
        exists n e, vips r !! n = Some e /\ e_vrrp e = Some i)
  /\ (forall i c, cores r !! i = Some c -> health_aborted c = false ->
        exists n e, vips r !! n = Some e /\ e_core e = i).

Definition registry_inv (ok : Env -> Prop) (r : Registry) : Prop :=
  (forall n e, vips r !! n = Some e -> entry_ok ok r n e)
  /\ (forall n1 n2 e1 e2, vips r !! n1 = Some e1 -> vips r !! n2 = Some e2 -> n1 <> n2 -> apart e1 e2)
  /\ owned r.

(** What happens to a registry: the operations, in environments that are [ok], and
    the pools' own life. *)
Inductive step (ok : Env -> Prop) : Registry -> Registry -> Prop :=
| step_start_config env s r : ok env -> step ok r (start_config env s r).1
| step_apply env name s r : ok env -> step ok r (apply env name s r).1
| step_remove env name r : step ok r (remove env name r).1
| step_load envs readable r : (forall n, ok (envs n)) -> step ok r (load_state envs readable r).1
| step_stop_all r : step ok r (stop_all r)
| step_verdict l v r : step ok r (set_cores (set_healthy l v (heap r)) (cores r) r)
| step_pick i c r : cores r !! i = Some c ->
    step ok r (set_cores (heap r) (<[i := {| pool := (pick (pool c) (heap r)).2; checker := checker c;
                                         health_aborted := health_aborted c |}]> (cores r)) r)
| step_wake i c r : cores r !! i = Some c ->
    step ok r (set_cores (heap r) (<[i := {| pool := pool c; checker := wake (checker c);
                                         health_aborted := health_aborted c |}]> (cores r)) r)
| step_round net i c r : cores r !! i = Some c -> health_aborted c = false ->
    let turn := round net (pool c) (checker c) (heap r) in
    step ok r (set_cores turn.1 (<[i := {| pool := pool c; checker := turn.2;
                                        health_aborted := health_aborted c |}]> (cores r)) r).

Inductive reaches (ok : Env -> Prop) (file : option str) (disk : gmap str str) : Registry -> Prop :=
| reaches_new : reaches ok file disk (new file disk)
| reaches_step r r' : reaches ok file disk r -> step ok r r' -> reaches ok file disk r'.

(** ** Validation *)

Lemma check_backends_spec bs l :
  check_backends bs = inr l <->
  Forall2 (fun b a => b_port b <> 0 /\ exists ip, parse_ip (b_address b) = Some ip
                      /\ a = SockAddr ip (b_port b)) bs l.
Proof.
  revert l. induction bs as [|b bs IH]; intros l; simpl.
  { split; [intros [= <-]; constructor|]. by inversion 1. }
  split.
  - destruct (parse_ip (b_address b)) as [ip|] eqn:E; [|done].
    destruct (Z.eqb_spec (b_port b) 0); [done|].
    destruct (check_backends bs) as [|l'] eqn:E'; [done|]. intros [= <-].
    constructor; [eauto|]. by apply IH.
  - inversion 1 as [|? ? ? ? (Hp & ip & E & ->) H']; subst. rewrite E.
    destruct (Z.eqb_spec (b_port b) 0); [done|]. apply IH in H'. by rewrite H'.
Qed.

Lemma check_health_None h :
  check_health h = None <->
  starts_with (lit "/") (path h) = true /\ interval_secs h <> 0 /\ timeout_secs h <> 0
  /\ expect_status h <> [].
Proof.
  unfold check_health. destruct (starts_with (lit "/") (path h)); cbn [negb]; [|by split; [|intros []]].
  destruct (Z.eqb_spec (interval_secs h) 0), (Z.eqb_spec (timeout_secs h) 0); cbn [orb];
    try (split; [done|]; by intros (_ & ? & ? & _)).
  case_bool_decide; split; naive_solver.
Qed.

Lemma check_vrrp_spec vip v o :
  0 <= default 1 (advert_interval_secs <$> v) ->
  check_vrrp vip v = inr o <->
  match v with
  | None => o = None
  | Some v => exists v4, vip = V4 v4 /\ interface v <> [] /\ vs_vrid v <> 0
                /\ vs_priority v <> 0 /\ 1 <= advert_interval_secs v <= 40 /\ o = Some v4
  end.
Proof.
  intros Hu. destruct v as [v|]; simpl in *; [|split; [by intros [= <-]|by intros ->]].
  split.
  - destruct vip as [v4|]; [|done]. case_bool_decide; [done|].
    destruct (_ || _) eqn:E; [done|]. destruct (_ || _) eqn:E' in |- *; [done|].
    intros [= <-]. bool_to_prop. exists v4. split_and!; (done || lia).
  - intros (v4 & -> & Hi & Hv & Hp & Ha & ->). rewrite bool_decide_false by done.
    rewrite (proj2 (Z.eqb_neq _ _) Hv), (proj2 (Z.eqb_neq _ _) Hp). cbn [orb].
    destruct (Z.eqb_spec (advert_interval_secs v) 0), (Z.ltb_spec 40 (advert_interval_secs v)); (lia || done).
Qed.

Lemma check_acceptable s c : spec_typed s -> check s = inr c <-> acceptable s c.
Proof.
  intros (_ & _ & _ & _ & Ht). unfold check, acceptable.
  assert (0 <= default 1 (advert_interval_secs <$> vvrrp s)) as Hu.
  { destruct (vvrrp s); simpl; [unfold is_u64 in *; lia|lia]. }
  split.
  - destruct (parse_ip (address s)) as [vip|] eqn:Ea; [|done].
    destruct (Z.eqb_spec (port s) 0); [done|].
    destruct (match bind s with None => Some vip | Some b => parse_ip b end) as [bip|] eqn:Eb; [|done].
    destruct (check_backends (vbackends s)) as [|bs] eqn:Ebs; [done|].
    destruct (check_health (vhealth s)) eqn:Eh; [done|].
    destruct (check_vrrp vip (vvrrp s)) as [|v] eqn:Ev; [done|]. intros [= <-]. cbn.
    apply check_backends_spec in Ebs. apply check_health_None in Eh as (? & ? & ? & ?).
    apply check_vrrp_spec in Ev; [|done].
    exists vip. split_and!; try done. exists bip. split; [|done]. destruct (bind s); congruence.
  - intros (vip & -> & Hp & (ip & Hb & Hl) & Hbs & H1 & H2 & H3 & H4 & Hv).
    destruct (Z.eqb_spec (port s) 0); [done|].
    assert (match bind s with None => Some vip | Some b => parse_ip b end = Some ip) as ->
      by (destruct (bind s); congruence).
    apply check_backends_spec in Hbs. rewrite Hbs.
    rewrite (proj2 (check_health_None _)) by done.
    assert (check_vrrp vip (vvrrp s) = inr (c_vrrp_vip c)) as -> by (by apply check_vrrp_spec).
    destruct c as [cl cb cv]. cbn in *. congruence.
Qed.

Lemma vrrp_task_params s c core t :
  spec_typed s -> acceptable s c -> vrrp_task s (c_vrrp_vip c) core = Some t -> params_ok (t_params t).
Proof.
  intros (_ & _ & _ & _ & Ht) (vip & Ha & _ & _ & _ & _ & _ & _ & _ & Hv). unfold vrrp_task.
  destruct (vvrrp s) as [v|]; [|done]. destruct Hv as (v4 & -> & _ & _ & _ & Hs & ->).
  cbn [mbind option_bind]. intros [= <-]. apply parse_ip_v4_ok in Ha.
  unfold params_ok, secs_ok. cbn. split_and!; try apply Ht; try done; lia.
Qed.

(** Validation accepts exactly the specs the API documents: an IP address, a
    port that is not 0, a [bind] that is an IP address when given, backends that
    are IP addresses with ports that are not 0, a health path that begins with a
    slash, intervals of at least a second, at least one expected status, and for
    VRRP an IPv4 address, an interface, a vrid and priority that are not 0 and
    an interval of 1 to 40 s.  The listener is then bind (or the address) and
    port, the members the backends in order, and the VRRP thread, if any, gets
    parameters for which the theorems about the VRRP loop hold.  A refusal is
    always [Invalid], a 400. *)
Theorem check_spec s :
  spec_typed s ->
  (forall c, check s = inr c <-> acceptable s c)
  /\ (forall e, check s = inl e -> exists why, e = Invalid why)
  /\ (forall c core t, check s = inr c -> vrrp_task s (c_vrrp_vip c) core = Some t ->
        params_ok (t_params t) /\ t_core t = core /\ t_stopped t = false).
Proof.
  intros Ht. split_and!.
  - intros c. by apply check_acceptable.
  - intros e. unfold check. repeat case_match; intros; simplify_eq; eauto.
  - intros c core t Hc E. split.
    + eapply vrrp_task_params; [done|by apply check_acceptable|done].
    + unfold vrrp_task in E. destruct (vvrrp s), (c_vrrp_vip c); by simplify_eq/=.
Qed.

(** ** Refusals *)

Lemma set_spec_stable rf s ck c :
  client rf s = inr c -> set_spec rf s ck = ({| spec := s; http := c; woken := true |}, None).
Proof. intros E. unfold set_spec. by rewrite E. Qed.

Lemma update_listener_fields name l e r e' r' :
  update_listener name l e r = (e', r') ->
  vips r' = vips r /\ pending r' = pending r /\ state_file r' = state_file r /\ files r' = files r
  /\ heap r' = heap r /\ cores r' = cores r /\ vrrps r' = vrrps r
  /\ e_spec e' = e_spec e /\ from_config e' = from_config e /\ e_listen e' = l
  /\ e_core e' = e_core e /\ e_vrrp e' = e_vrrp e.
Proof. unfold update_listener. case_bool_decide; intros [= <- <-]; by split_and!. Qed.

Lemma update_vrrp_fields s v e r e' r' :
  update_vrrp s v e r = (e', r') ->
  vips r' = vips r /\ pending r' = pending r /\ state_file r' = state_file r /\ files r' = files r
  /\ heap r' = heap r /\ cores r' = cores r /\ serves r' = serves r
  /\ e_spec e' = s /\ from_config e' = from_config e /\ e_listen e' = e_listen e
  /\ e_core e' = e_core e /\ e_serve e' = e_serve e.
Proof.
  unfold update_vrrp. destruct (_ && _); [|destruct (start_vrrp _ _ _ _)];
    intros [= <- <-]; by split_and!.
Qed.

Lemma put_refused env name s fc r r' e :
  stable env -> put env name s fc r = (r', inl e) -> r' = r /\ e <> NotSaved.
Proof.
  intros Hst. unfold put. destruct (check s) as [e'|c] eqn:Ec.
  { intros [= <- <-]. split; [done|]. intros ->. unfold check in Ec. by repeat case_match. }
  destruct (other_on _ _ _); [by intros [= <- <-]|].
  destruct (vips r !! name) as [en|].
  - unfold update. destruct (client (fs env) (vhealth s)) eqn:Ecl; [by intros [= <- <-]|].
    destruct (negb _ && negb _); [by intros [= <- <-]|].
    destruct (cores r !! e_core en) as [core|]; [|by intros [= <- <-]].
    destruct (update_listener _ _ _ _) as [en1 r1]. destruct (set_addrs _ _ _) as [p h].
    rewrite Hst, (set_spec_stable _ _ _ _ Ecl). by destruct (update_vrrp _ _ _ _).
  - unfold create. destruct (Checker_new _ _); [by intros [= <- <-]|].
    destruct (negb _); [by intros [= <- <-]|]. destruct (Pool_new _ _). by destruct (start_vrrp _ _ _ _).
Qed.

(** What an entry says of its VIP, whatever runs. *)
Definition stands (e : Entry) : VipSpec * bool := (e_spec e, from_config e).

(** A refusal in an environment that does anything: every spec stands. *)
Lemma put_refused_stands env name s fc r r' e :
  put env name s fc r = (r', inl e) ->
  e <> NotSaved /\ stands <$> vips r' = stands <$> vips r
  /\ pending r' = pending r /\ state_file r' = state_file r /\ files r' = files r
  /\ (vips r !! name = None -> r' = r).
Proof.
  unfold put. destruct (check s) as [e'|c] eqn:Ec.
  { intros [= <- <-]. split; [|done]. intros ->. unfold check in Ec. by repeat case_match. }
  destruct (other_on _ _ _); [by intros [= <- <-]|].
  destruct (vips r !! name) as [en|] eqn:En.
  - unfold update. destruct (client (fs env) (vhealth s)) eqn:Ecl; [by intros [= <- <-]|].
    destruct (negb _ && negb _); [by intros [= <- <-]|].
    destruct (cores r !! e_core en) as [core|]; [|by intros [= <- <-]].
    destruct (update_listener _ _ _ _) as [en1 r1] eqn:Eu. destruct (set_addrs _ _ _) as [p h].
    destruct (set_spec _ _ _) as [ck [ce|]]; [|by destruct (update_vrrp _ _ _ _)]. intros [= <- <-].
    apply update_listener_fields in Eu as (E1 & E2 & E3 & E4 & _ & _ & _ & E5 & E6 & _).
    split; [done|]. cbn. rewrite E1, E2, E3, E4. split_and!; try done. rewrite fmap_insert.
    apply insert_id. rewrite lookup_fmap, En. cbn. unfold stands. by rewrite E5, E6.
  - unfold create. destruct (Checker_new _ _); [by intros [= <- <-]|].
    destruct (negb _); [by intros [= <- <-]|]. destruct (Pool_new _ _). by destruct (start_vrrp _ _ _ _).
Qed.

Lemma put_changes env name s fc r r' b :
  put env name s fc r = (r', inr b) ->
  pending r' = pending r /\ state_file r' = state_file r /\ files r' = files r
  /\ exists e', vips r' = <[name := e']> (vips r) /\ e_spec e' = s
       /\ from_config e' = match vips r !! name with Some e => from_config e | None => fc end
       /\ b = negb (bool_decide (is_Some (vips r !! name))).
Proof.
  unfold put. destruct (check s) as [e'|c] eqn:Ec; [done|].
  destruct (other_on _ _ _); [done|]. destruct (vips r !! name) as [en|] eqn:En.
  - unfold update. destruct (client (fs env) (vhealth s)) eqn:Ecl; [done|].
    destruct (negb _ && negb _); [done|].
    destruct (cores r !! e_core en) as [core|]; [|done].
    destruct (update_listener _ _ _ _) as [en1 r1] eqn:Eu. destruct (set_addrs _ _ _) as [p h].
    destruct (set_spec _ _ _) as [ck [ce|]]; [done|].
    destruct (update_vrrp _ _ _ _) as [en2 r2] eqn:Ev. intros [= <- <-].
    apply update_listener_fields in Eu as (E1 & E2 & E3 & E4 & _ & _ & _ & _ & E5 & _).
    apply update_vrrp_fields in Ev as (F1 & F2 & F3 & F4 & _ & _ & _ & F5 & F6 & _).
    cbn in F1, F2, F3, F4 |- *. rewrite F1, F2, F3, F4, E1, E2, E3, E4. split_and!; try done.
    exists en2. split_and!; try done. by rewrite F6.
  - unfold create. destruct (Checker_new _ _); [done|].
    destruct (negb _); [done|]. destruct (Pool_new _ _). destruct (start_vrrp _ _ _ _).
    intros [= <- <-]. cbn. split_and!; try done. eexists. split; [done|]. cbn. split_and!; try done.
Qed.

Lemma save_keeps env r : forall r' o, save env r = (r', o) ->
  r' = set_files (files r') r /\ (o = None \/ o = Some NotSaved).
Proof.
  intros r' o. unfold save. destruct (state_file r).
  - destruct (write_atomic _ _ _ _) as [d []]; intros [= <- <-]; destruct r; auto.
  - intros [= <- <-]. destruct r; auto.
Qed.

(** C24: A refusal changes nothing.  While the CA file of the spec does not
    change under it, an [apply] or [remove] that is refused leaves the registry
    as it was: entries, listeners, pools, health loops, VRRP threads, pending
    VIPs and files.  The only other failure is [NotSaved], which means the change
    is made and runs but the state file could not be written. *)
Theorem refusal_changes_nothing env name s r :
  stable env ->
  (forall r' e, apply env name s r = (r', inl e) ->
     (e <> NotSaved /\ r' = r)
     \/ (e = NotSaved /\ exists en, vips r' = <[name := en]> (vips r) /\ e_spec en = s
           /\ state_file r <> None))
  /\ (forall r' e, remove env name r = (r', Some e) ->
     (e <> NotSaved /\ r' = r)
     \/ (e = NotSaved /\ vips r' = delete name (vips r) /\ pending r' !! name = None
         \/ e = NotSaved /\ vips r' = delete name (vips r) /\ vips r !! name <> None)).
Proof.
  intros Hst. split; intros r' e.
  - unfold apply. destruct (negb (valid_name name)); [intros [= <- <-]; by left|].
    destruct (is_config name r); [intros [= <- <-]; by left|].
    destruct (put env name s false r) as [r1 [e1|b]] eqn:Ep.
    { apply put_refused in Ep as [-> ?]; [|done]. intros [= <- <-]. by left. }
    apply put_changes in Ep as (Hp & Hf & Hd & en & Hv & He & _).
    destruct (save _ _) as [r2 [e2|]] eqn:Es; [|done]. intros [= <- <-].
    pose proof Es as Es'. apply save_keeps in Es as [E2 [?|[= ->]]]; [done|]. right. split; [done|].
    exists en. rewrite E2. cbn. split_and!; try done. rewrite <- Hf. intros E.
    unfold save in Es'. cbn in Es'. by rewrite E in Es'.
  - unfold remove. destruct (vips r !! name) as [en|] eqn:En.
    + destruct (from_config en); [intros [= <- <-]; by left|]. intros Es.
      apply save_keeps in Es as [E2 [?|[= ->]]]; [done|]. right. right. split; [done|].
      rewrite E2. unfold drop_entry. by destruct (e_vrrp en).
    + destruct (pending r !! name) eqn:Epn; [|intros [= <- <-]; by left]. intros Es.
      apply save_keeps in Es as [E2 [?|[= ->]]]; [done|]. right. left. split; [done|].
      rewrite E2. cbn. rewrite lookup_delete_eq. split; [|done]. by rewrite delete_id.
Qed.

(** ** The invariant *)

Lemma other_on_None name l m : other_on name l m = None ->
  forall n e, m !! n = Some e -> n <> name -> e_listen e <> l.
Proof.
  unfold other_on. destruct (List.find _ _) eqn:E; [done|]. intros _ n e Hm Hn Hl.
  apply elem_of_btree, list_elem_of_In in Hm. apply (List.find_none _ _ E) in Hm. cbn in Hm.
  rewrite bool_decide_false, bool_decide_true in Hm; done.
Qed.

Lemma other_on_Some name l m o : other_on name l m = Some o ->
  exists e, m !! o = Some e /\ o <> name /\ e_listen e = l.
Proof.
  unfold other_on. destruct (List.find _ _) as [[n e]|] eqn:E; [|done]. intros [= <-].
  apply List.find_some in E as [Hin E]. cbn in E. bool_to_prop.
  apply list_elem_of_In, elem_of_btree in Hin. by exists e.
Qed.

(** The heap grew, or only health flags changed. *)
Definition heap_le (h h' : Heap) : Prop :=
  forall p, pool_ok p h -> pool_ok p h' /\ member_addrs p h' = member_addrs p h.

Lemma heap_le_refl h : heap_le h h.
Proof. by intros p H. Qed.

Lemma heap_le_app h new : heap_le h (h ++ new).
Proof. intros p H. split; [by apply pool_ok_app|]. apply member_addrs_app, H. Qed.

Lemma heap_le_set_healthy h l v : heap_le h (set_healthy l v h).
Proof.
  intros p H. split; [by apply pool_ok_set_healthy|]. rewrite !member_addrs_eq.
  apply list_fmap_ext. intros i x _. apply addr_at_set_healthy.
Qed.

Lemma heap_le_trans h1 h2 h3 : heap_le h1 h2 -> heap_le h2 h3 -> heap_le h1 h3.
Proof.
  intros H12 H23 p H. destruct (H12 p H) as [H2 <-]. by apply H23.
Qed.

Lemma heap_le_probe net s c bs h : heap_le h (probe_all net s c bs h).
Proof.
  revert h. induction bs as [|l bs IH]; intros h; cbn [probe_all]; [apply heap_le_refl|].
  destruct (h !! l); [|done]. eapply heap_le_trans; [apply heap_le_set_healthy|done].
Qed.

Section Invariant.
  Context (ok : Env -> Prop).

(** An entry is still in order when what it owns is as it was. *)
Lemma entry_ok_frame r r' n e :
  entry_ok ok r n e -> heap_le (heap r) (heap r') ->
  (forall c, cores r !! e_core e = Some c -> exists c', cores r' !! e_core e = Some c'
     /\ health_aborted c' = health_aborted c /\ spec (checker c') = spec (checker c)
     /\ backends (pool c') = backends (pool c) /\ (pool_ok (pool c) (heap r) -> is_u64 (next (pool c')))) ->
  (forall t, serves r !! e_serve e = Some t -> serves r' !! e_serve e = Some t) ->
  (forall i t, e_vrrp e = Some i -> vrrps r !! i = Some t -> vrrps r' !! i = Some t) ->
  entry_ok ok r' n e.
Proof.
  intros (s' & c' & c & core & Hs0 & Hc' & Hc & Hl & Hcore & Hab & Hsp & Hp & Hm & Hs & Hv) Hh Hcores Hserves Hvrrps.
  destruct (Hcores _ Hcore) as (core' & Hcore' & Ha' & Hsp' & Hb' & Hu).
  destruct (Hh _ Hp) as [Hp' Hm']. exists s', c', c, core'. split_and!; try done; try congruence.
  - destruct Hp' as (P1 & P2 & _). unfold pool_ok, member_addrs in *. rewrite Hb'. auto.
  - unfold member_addrs in *. rewrite Hb'. congruence.
  - by apply Hserves.
  - destruct (e_vrrp e) as [i|]; [|done]. destruct Hv as (t & Ht & Hi). exists t. eauto.
Qed.

(** The usual case: the core itself is untouched. *)
Lemma entry_ok_frame_same r r' n e :
  entry_ok ok r n e -> heap_le (heap r) (heap r') ->
  cores r' !! e_core e = cores r !! e_core e ->
  (forall t, serves r !! e_serve e = Some t -> serves r' !! e_serve e = Some t) ->
  (forall i t, e_vrrp e = Some i -> vrrps r !! i = Some t -> vrrps r' !! i = Some t) ->
  entry_ok ok r' n e.
Proof.
  intros He Hh Hc Hs Hv. apply (entry_ok_frame r); try done.
  intros c E. exists c. rewrite Hc. split_and!; try done. by intros (_ & _ & ?).
Qed.

Lemma inv_same r r' :
  vips r' = vips r -> heap_le (heap r) (heap r') -> cores r' = cores r -> serves r' = serves r ->
  vrrps r' = vrrps r -> registry_inv ok r -> registry_inv ok r'.
Proof.
  intros Ev Eh Ec Es Et (H1 & H2 & H3 & H4 & H5). unfold registry_inv, owned.
  rewrite Ev, Es, Et, Ec. split_and!; try done. intros n e He.
  apply (entry_ok_frame_same r); try done; rewrite ?Ec, ?Es, ?Et; auto.
Qed.

Lemma alter_live {A} (f : A -> A) (dead : A -> bool) (i : nat) (l : list A) (j : nat) x :
  (forall y, dead (f y) = true) -> alter f i l !! j = Some x -> dead x = false ->
  j <> i /\ l !! j = Some x.
Proof.
  intros Hf Hj Hd. destruct (decide (i = j)) as [->|Hne].
  - rewrite list_lookup_alter_eq in Hj. destruct (l !! j); [|done]. simplify_eq/=. by rewrite Hf in Hd.
  - by rewrite list_lookup_alter_ne in Hj.
Qed.

Lemma lookup_alter_snoc {A} (f : A -> A) (i : nat) (l : list A) x (j : nat) t :
  j <> i -> l !! j = Some t -> (alter f i l ++ [x]) !! j = Some t.
Proof.
  intros Hne Hj. rewrite lookup_app_l, list_lookup_alter_ne; try done.
  rewrite length_alter. by eapply lookup_lt_Some.
Qed.

Lemma lookup_snoc_keeps {A} (l : list A) x (j : nat) t : l !! j = Some t -> (l ++ [x]) !! j = Some t.
Proof. intros Hj. rewrite lookup_app_l; [done|]. by eapply lookup_lt_Some. Qed.

Lemma lookup_snoc_new {A} (l : list A) x : (l ++ [x]) !! length l = Some x.
Proof. rewrite lookup_app_r, Nat.sub_diag by lia. done. Qed.

Lemma lookup_snoc_inv {A} (l : list A) x (j : nat) t :
  (l ++ [x]) !! j = Some t -> l !! j = Some t \/ (j = length l /\ t = x).
Proof.
  intros H. apply lookup_app_Some in H as [?|[Hle H]]; [by left|right].
  apply list_lookup_singleton_Some in H as [? ->]. split; [lia|done].
Qed.

(** ** Removing an entry *)

Lemma drop_entry_fields e r :
  vips (drop_entry e r) = vips r /\ heap (drop_entry e r) = heap r
  /\ cores (drop_entry e r) = alter abort_health (e_core e) (cores r)
  /\ serves (drop_entry e r) = alter abort_serve (e_serve e) (serves r)
  /\ vrrps (drop_entry e r) = match e_vrrp e with Some i => alter stop_vrrp i (vrrps r) | None => vrrps r end.
Proof. unfold drop_entry. by destruct (e_vrrp e). Qed.

Lemma inv_drop n e r :
  registry_inv ok r -> vips r !! n = Some e ->
  registry_inv ok (drop_entry e (set_vips (delete n (vips r)) r)).
Proof.
  intros (H1 & H2 & H3 & H4 & H5) He.
  destruct (drop_entry_fields e (set_vips (delete n (vips r)) r)) as (Ev & Eh & Ec & Es & Et).
  cbn in Ev, Eh, Ec, Es, Et. unfold registry_inv, owned. rewrite Ev. split_and!.
  - intros n' e' [Hn He']%lookup_delete_Some.
    destruct (H2 _ _ _ _ He He' ltac:(done)) as (_ & A1 & A2 & A3).
    apply (entry_ok_frame_same r); [by apply H1|rewrite Eh; apply heap_le_refl|..].
    + rewrite Ec. by apply list_lookup_alter_ne.
    + intros t. by rewrite Es, list_lookup_alter_ne.
    + intros i t Hi. rewrite Et. destruct (e_vrrp e) as [k|] eqn:Ek; [|done].
      rewrite list_lookup_alter_ne; [done|]. intros ->. by apply (A3 i).
  - intros n1 n2 e1 e2 [_ ?]%lookup_delete_Some [_ ?]%lookup_delete_Some. by apply H2.
  - intros i t. rewrite Es. intros Hi Ha.
    apply (alter_live abort_serve s_aborted) in Hi as [Hne Hi]; [|done..].
    destruct (H3 _ _ Hi Ha) as (n' & e' & Hn' & <-). exists n', e'. split; [|done].
    apply lookup_delete_Some. split; [|done]. intros ->. congruence.
  - intros i t. rewrite Et. intros Hi Ha.
    assert (vrrps r !! i = Some t /\ e_vrrp e <> Some i) as [Hi' Hne].
    { destruct (e_vrrp e) as [k|]; [|done].
      apply (alter_live stop_vrrp t_stopped) in Hi as [? ?]; [|done..]. split; congruence. }
    destruct (H4 _ _ Hi' Ha) as (n' & e' & Hn' & Hv). exists n', e'. split; [|done].
    apply lookup_delete_Some. split; [|done]. intros ->. congruence.
  - intros i t. rewrite Ec. intros Hi Ha.
    apply (alter_live abort_health health_aborted) in Hi as [Hne Hi]; [|done..].
    destruct (H5 _ _ Hi Ha) as (n' & e' & Hn' & <-). exists n', e'. split; [|done].
    apply lookup_delete_Some. split; [|done]. intros ->. congruence.
Qed.

(** ** Adding or replacing an entry *)

Lemma apart_sym e1 e2 : apart e1 e2 -> apart e2 e1.
Proof.
  intros (A1 & A2 & A3 & A4). unfold apart. split_and!; try done.
  intros i H2 H1. by apply (A4 i).
Qed.

(** A live item of [l'] is the entry's own, [own], or was live in [l] and not the
    one the entry had before, [old]. *)
Definition lives {A} (dead : A -> bool) (l l' : list A) (own : option nat) (old : nat -> Prop) : Prop :=
  forall (i : nat) x, l' !! i = Some x -> dead x = false ->
    own = Some i \/ (l !! i = Some x /\ ~ old i).

Lemma inv_insert r r' name e' :
  registry_inv ok r -> vips r' = <[name := e']> (vips r) -> entry_ok ok r' name e' ->
  (forall n e, n <> name -> vips r !! n = Some e -> entry_ok ok r' n e /\ apart e e') ->
  lives s_aborted (serves r) (serves r') (Some (e_serve e'))
    (fun i => exists e, vips r !! name = Some e /\ e_serve e = i) ->
  lives t_stopped (vrrps r) (vrrps r') (e_vrrp e')
    (fun i => exists e, vips r !! name = Some e /\ e_vrrp e = Some i) ->
  lives health_aborted (cores r) (cores r') (Some (e_core e'))
    (fun i => exists e, vips r !! name = Some e /\ e_core e = i) ->
  registry_inv ok r'.
Proof.
  intros (_ & H2 & H3 & H4 & H5) Ev Hok Ho L1 L2 L3. unfold registry_inv, owned. rewrite Ev.
  split_and!.
  - intros n e [[<- <-]|[Hn He]]%lookup_insert_Some; [done|]. by apply Ho.
  - intros n1 n2 e1 e2 [[<- <-]|[Hn1 He1]]%lookup_insert_Some [[<- <-]|[Hn2 He2]]%lookup_insert_Some Hne;
      [done|by apply apart_sym, (Ho n2)|by apply (Ho n1)|by apply (H2 n1 n2)].
  - intros i x Hi Hx. destruct (L1 i x Hi Hx) as [[= <-]|[Hi' Hold]].
    { exists name, e'. by rewrite lookup_insert_eq. }
    destruct (H3 i x Hi' Hx) as (n & e & Hn & He). exists n, e. split; [|done].
    rewrite lookup_insert_ne; [done|]. intros ->. apply Hold. eauto.
  - intros i x Hi Hx. destruct (L2 i x Hi Hx) as [Eo|[Hi' Hold]].
    { exists name, e'. by rewrite lookup_insert_eq. }
    destruct (H4 i x Hi' Hx) as (n & e & Hn & He). exists n, e. split; [|done].
    rewrite lookup_insert_ne; [done|]. intros ->. apply Hold. eauto.
  - intros i x Hi Hx. destruct (L3 i x Hi Hx) as [[= <-]|[Hi' Hold]].
    { exists name, e'. by rewrite lookup_insert_eq. }
    destruct (H5 i x Hi' Hx) as (n & e & Hn & He). exists n, e. split; [|done].
    rewrite lookup_insert_ne; [done|]. intros ->. apply Hold. eauto.
Qed.

Lemma start_vrrp_spec s vip core ts v ts' : start_vrrp s vip core ts = (v, ts') ->
  match v with
  | Some i => i = length ts /\ exists t, vrrp_task s vip core = Some t /\ ts' = ts ++ [t]
  | None => vrrp_task s vip core = None /\ ts' = ts
  end.
Proof. unfold start_vrrp. destruct (vrrp_task _ _ _); intros [= <- <-]; eauto. Qed.

(** A fresh index is no other entry's. *)
Lemma entry_ok_bounds r n e : entry_ok ok r n e ->
  (e_core e < length (cores r))%nat /\ (e_serve e < length (serves r))%nat
  /\ forall i, e_vrrp e = Some i -> (i < length (vrrps r))%nat.
Proof.
  intros (s' & c' & c & core & _ & _ & _ & _ & Hc & _ & _ & _ & _ & Hs & Hv).
  split; [by eapply lookup_lt_Some|]. split; [by eapply lookup_lt_Some|].
  intros i Hi. rewrite Hi in Hv. destruct Hv as (t & _ & Ht). by eapply lookup_lt_Some.
Qed.

Lemma inv_create env name s fc c r r' b :
  registry_inv ok r -> check s = inr c -> other_on name (c_listen c) (vips r) = None ->
  vips r !! name = None -> create env name s fc c r = (r', inr b) -> registry_inv ok r'.
Proof.
  intros Hinv Hc Hoth Hnone. pose proof Hinv as (H1 & _). unfold create.
  destruct (Checker_new (fs env) (vhealth s)) as [|ck] eqn:Eck; [done|].
  destruct (negb (can_bind env (c_listen c))); [done|].
  destruct (set_addrs_ok (c_backends c) {| backends := []; next := 0 |} (heap r)) as (p & new & Ep & Hp & Hm);
    [apply pool_ok_empty|].
  unfold Pool_new. rewrite Ep. destruct (start_vrrp _ _ _ _) as [v ts] eqn:Ev.
  apply start_vrrp_spec in Ev. intros [= <- <-].
  apply (inv_insert r _ name {| e_spec := s; from_config := fc; e_listen := c_listen c;
    e_core := length (cores r); e_serve := length (serves r); e_vrrp := v |}); try done.
  - exists s, c, c, {| pool := p; checker := ck; health_aborted := false |}. cbn.
    split_and!; try done; [apply lookup_snoc_new| |apply lookup_snoc_new|].
    + unfold Checker_new in Eck. destruct (client _ _); by simplify_eq.
    + destruct v as [i|].
      * destruct Ev as (-> & t & Ht & ->). exists t. split; [done|apply lookup_snoc_new].
      * apply Ev.
  - intros n e Hn He. pose proof (entry_ok_bounds _ _ _ (H1 _ _ He)) as (B1 & B2 & B3). split.
    + apply (entry_ok_frame_same r); [by apply H1|apply heap_le_app|..]; cbn.
      * by rewrite lookup_app_l.
      * intros t. apply lookup_snoc_keeps.
      * intros i t Hi. destruct v; [destruct Ev as (_ & t' & _ & ->); apply lookup_snoc_keeps|].
        by destruct Ev as [_ ->].
    + unfold apart. cbn. split_and!; [by eapply other_on_None|lia|lia|].
      intros i Hi ->. destruct Ev as [-> _]. specialize (B3 _ Hi). lia.
  - intros i x Hi Hx. cbn in Hi. apply lookup_snoc_inv in Hi as [Hi|[-> _]]; [right|by left].
    split; [done|]. intros (e & He & _). congruence.
  - intros i x Hi Hx. cbn in Hi. destruct v as [k|].
    + destruct Ev as (-> & t & _ & ->). apply lookup_snoc_inv in Hi as [Hi|[-> _]]; [right|by left].
      split; [done|]. intros (e & He & _). congruence.
    + destruct Ev as [_ ->]. right. split; [done|]. intros (e & He & _). congruence.
  - intros i x Hi Hx. cbn in Hi. apply lookup_snoc_inv in Hi as [Hi|[-> _]]; [right|by left].
    split; [done|]. intros (e & He & _). congruence.
Qed.

Lemma update_listener_serves name l e r e1 r1 :
  update_listener name l e r = (e1, r1) ->
  serves r !! e_serve e
    = Some {| s_listen := e_listen e; s_core := e_core e; s_vip := name; s_aborted := false |} ->
  serves r1 !! e_serve e1 = Some {| s_listen := l; s_core := e_core e; s_vip := name; s_aborted := false |}
  /\ (forall j t, j <> e_serve e -> serves r !! j = Some t -> serves r1 !! j = Some t /\ j <> e_serve e1)
  /\ lives s_aborted (serves r) (serves r1) (Some (e_serve e1)) (eq (e_serve e)).
Proof.
  unfold update_listener. intros Eu Hs. case_bool_decide as E; simplify_eq/=.
  - split; [done|]. split; [done|]. intros i x Hi Hx.
    destruct (decide (e_serve e1 = i)) as [->|]; [by left|right]. done.
  - split_and!.
    + replace (length (serves r)) with (length (alter abort_serve (e_serve e) (serves r)))
        by apply length_alter. apply lookup_snoc_new.
    + intros j t Hne Hj. split; [by apply lookup_alter_snoc|].
      apply lookup_lt_Some in Hj. lia.
    + intros i x Hi Hx. apply lookup_snoc_inv in Hi as [Hi|[-> _]].
      * apply (alter_live abort_serve s_aborted) in Hi as [? ?]; [|done..]. right. by split.
      * left. f_equal. symmetry. apply length_alter.
Qed.

Lemma update_vrrp_tasks s vip e r e1 r1 :
  update_vrrp s vip e r = (e1, r1) ->
  (vvrrp s = vvrrp (e_spec e) -> address s = address (e_spec e) ->
     match e_vrrp e with
     | Some i => exists t, vrrp_task s vip (e_core e) = Some t /\ vrrps r !! i = Some t
     | None => vrrp_task s vip (e_core e) = None
     end) ->
  (forall i, e_vrrp e = Some i -> (i < length (vrrps r))%nat) ->
  match e_vrrp e1 with
  | Some i => exists t, vrrp_task s vip (e_core e) = Some t /\ vrrps r1 !! i = Some t
  | None => vrrp_task s vip (e_core e) = None
  end
  /\ (forall j t, e_vrrp e <> Some j -> vrrps r !! j = Some t -> vrrps r1 !! j = Some t /\ e_vrrp e1 <> Some j)
  /\ lives t_stopped (vrrps r) (vrrps r1) (e_vrrp e1) (fun i => e_vrrp e = Some i).
Proof.
  unfold update_vrrp. intros Eu Hkeep Hb. destruct (bool_decide _ && bool_decide _) eqn:Ek.
  { bool_to_prop. specialize (Hkeep ltac:(done) ltac:(done)). simplify_eq/=.
    split; [exact Hkeep|]. split; [done|]. intros i x Hi Hx.
    destruct (decide (e_vrrp e = Some i)); [by left|by right]. }
  clear Hkeep. set (ts0 := match e_vrrp e with Some i => alter stop_vrrp i (vrrps r) | None => vrrps r end) in *.
  assert (length ts0 = length (vrrps r)) as Hlen.
  { unfold ts0. destruct (e_vrrp e); [apply length_alter|done]. }
  assert (forall j t, e_vrrp e <> Some j -> vrrps r !! j = Some t -> ts0 !! j = Some t) as Hk.
  { intros j t Hne Hj. unfold ts0. destruct (e_vrrp e); [|done]. rewrite list_lookup_alter_ne; congruence. }
  assert (lives t_stopped (vrrps r) ts0 None (fun i => e_vrrp e = Some i)) as Hl.
  { intros i x Hi Hx. right. unfold ts0 in Hi. destruct (e_vrrp e); [|by split].
    apply (alter_live stop_vrrp t_stopped) in Hi as [? ?]; [|done..]. split; [done|congruence]. }
  destruct (start_vrrp s vip (e_core e) ts0) as [v ts] eqn:Ev. apply start_vrrp_spec in Ev.
  simplify_eq/=. destruct v as [k|].
  - destruct Ev as (-> & t & Ht & ->). split_and!.
    + exists t. split; [done|apply lookup_snoc_new].
    + intros j t' Hne Hj. split; [by apply lookup_snoc_keeps, Hk|].
      apply lookup_lt_Some in Hj. intros [= <-]. lia.
    + intros i x Hi Hx. apply lookup_snoc_inv in Hi as [Hi|[-> _]]; [|by left].
      destruct (Hl i x Hi Hx) as [|]; [done|by right].
  - destruct Ev as [Ht ->]. split_and!; [done| |].
    + intros j t' Hne Hj. split; [by apply Hk|done].
    + intros i x Hi Hx. destruct (Hl i x Hi Hx) as [|]; [done|by right].
Qed.

Lemma check_same_vrrp s s' c c' :
  check s = inr c -> check s' = inr c' -> vvrrp s = vvrrp s' -> address s = address s' ->
  c_vrrp_vip c = c_vrrp_vip c'.
Proof.
  unfold check. intros E E' Ev Ea. rewrite Ev, Ea in E.
  destruct (parse_ip (address s')) as [vip|]; [|done].
  repeat match goal with
  | H : context [match ?x with _ => _ end] |- _ => first [is_var x; fail 1 | destruct x eqn:?; try discriminate H]
  end; simplify_eq; done.
Qed.

Lemma vrrp_task_same s s' v core :
  vvrrp s = vvrrp s' -> vrrp_task s v core = vrrp_task s' v core.
Proof. intros E. unfold vrrp_task. by rewrite E. Qed.

Lemma lives_weaken {A} (dead : A -> bool) l l' v (P Q : nat -> Prop) :
  lives dead l l' v P -> (forall i, Q i -> P i) -> lives dead l l' v Q.
Proof. intros H HQ i x Hi Hx. destruct (H i x Hi Hx) as [|[? HP]]; [by left|right]. split; [done|]. auto. Qed.

Lemma lives_insert {A} (dead : A -> bool) (l : list A) (i : nat) x : lives dead l (<[i := x]> l) (Some i) (eq i).
Proof.
  intros j y Hj _. destruct (decide (i = j)) as [->|Hne]; [by left|right].
  by rewrite list_lookup_insert_ne in Hj.
Qed.

(** An update of the entry [e] to [e']: its listener and its members those of [s],
    which the drift of the entry's spec allows, its VRRP thread that of its spec. *)
Lemma inv_updated s c c1 name e e' core core' new r r' :
  registry_inv ok r -> vips r !! name = Some e -> cores r !! e_core e = Some core ->
  check s = inr c -> check (e_spec e') = inr c1 -> in_force ok s (e_spec e') ->
  other_on name (c_listen c) (vips r) = None -> e_listen e' = c_listen c -> e_core e' = e_core e ->
  vips r' = <[name := e']> (vips r) -> heap r' = heap r ++ new -> cores r' = <[e_core e := core']> (cores r) ->
  health_aborted core' = false -> spec (checker core') = vhealth (e_spec e') ->
  pool_ok (pool core') (heap r') -> member_addrs (pool core') (heap r') = Some <$> nub [] (c_backends c) ->
  serves r' !! e_serve e' = Some {| s_listen := c_listen c; s_core := e_core e; s_vip := name; s_aborted := false |} ->
  (forall j t, j <> e_serve e -> serves r !! j = Some t -> serves r' !! j = Some t /\ j <> e_serve e') ->
  lives s_aborted (serves r) (serves r') (Some (e_serve e')) (eq (e_serve e)) ->
  match e_vrrp e' with
  | Some i => exists t, vrrp_task (e_spec e') (c_vrrp_vip c1) (e_core e) = Some t /\ vrrps r' !! i = Some t
  | None => vrrp_task (e_spec e') (c_vrrp_vip c1) (e_core e) = None
  end ->
  (forall j t, e_vrrp e <> Some j -> vrrps r !! j = Some t -> vrrps r' !! j = Some t /\ e_vrrp e' <> Some j) ->
  lives t_stopped (vrrps r) (vrrps r') (e_vrrp e') (fun i => e_vrrp e = Some i) ->
  registry_inv ok r'.
Proof.
  intros Hinv He Hcore Hc Hc1 Hf Hoth El Eco Ev Eh Ec Hab Hsp Hp Hm S1 S2 S3 V1 V2 V3.
  pose proof Hinv as (H1 & H2 & _). apply (inv_insert r _ name e'); try done.
  - exists s, c, c1, core'. rewrite Eco, El. split_and!; try done.
    rewrite Ec. apply list_lookup_insert_eq. by eapply lookup_lt_Some.
  - intros n e0 Hn He0. destruct (H2 _ _ _ _ He0 He Hn) as (A1 & A2 & A3 & A4).
    pose proof (H1 _ _ He0) as (s0 & c0' & c0 & core0 & _ & _ & _ & _ & _ & _ & _ & _ & _ & Hs0 & Hv0). split.
    + apply (entry_ok_frame_same r); [by apply H1|..].
      * rewrite Eh. apply heap_le_app.
      * by rewrite Ec, list_lookup_insert_ne.
      * intros t Ht. by apply S2.
      * intros i t Hi Ht. apply V2; [|done]. by apply A4.
    + unfold apart. rewrite El, Eco. split_and!; [by eapply other_on_None|done|by eapply S2|].
      intros i Hi. rewrite Hi in Hv0. destruct Hv0 as (t & _ & Ht). eapply V2; [by apply A4|exact Ht].
  - apply (lives_weaken _ _ _ _ _ _ S3). intros i (e0 & He0 & E). congruence.
  - apply (lives_weaken _ _ _ _ _ _ V3). intros i (e0 & He0 & E). congruence.
  - rewrite Ec, Eco. apply (lives_weaken _ _ _ _ _ _ (lives_insert _ _ _ _)).
    intros i (e0 & He0 & E). congruence.
Qed.

Lemma update_listener_vrrps name l e r e1 r1 : update_listener name l e r = (e1, r1) ->
  (forall j t, e_vrrp e <> Some j -> vrrps r !! j = Some t -> vrrps r1 !! j = Some t /\ e_vrrp e1 <> Some j)
  /\ lives t_stopped (vrrps r) (vrrps r1) (e_vrrp e1) (fun i => e_vrrp e = Some i).
Proof.
  intros (_ & _ & _ & _ & _ & _ & -> & _ & _ & _ & _ & ->)%update_listener_fields. split; [done|].
  intros i x Hi Hx. destruct (decide (e_vrrp e = Some i)); [by left|by right].
Qed.

Lemma inv_update env name s c e r : ok env ->
  registry_inv ok r -> check s = inr c -> other_on name (c_listen c) (vips r) = None ->
  vips r !! name = Some e -> registry_inv ok (update env name s c e r).1.
Proof.
  intros Hok Hinv Hc Hoth He. pose proof Hinv as (H1 & _).
  destruct (H1 _ _ He) as (s0 & c0' & c0 & core & Hf0 & _ & Hc0 & _ & Hcore & Hab & Hsp & Hp & _ & Hserve & Hvrrp).
  pose proof (entry_ok_bounds _ _ _ (H1 _ _ He)) as (_ & _ & Hvb).
  unfold update. destruct (client (fs env) (vhealth s)) as [|cl] eqn:Ecl; [done|].
  destruct (negb _ && negb _); [done|]. rewrite Hcore.
  destruct (update_listener name (c_listen c) e r) as [e1 r1] eqn:Eu.
  pose proof (update_listener_serves _ _ _ _ _ _ Eu Hserve) as (S1 & S2 & S3).
  pose proof (update_listener_vrrps _ _ _ _ _ _ Eu) as (U2 & U3).
  apply update_listener_fields in Eu as (Ev1 & _ & _ & _ & Eh1 & Ec1 & Et1 & Es1 & _ & El1 & Eco1 & Evr1).
  rewrite Eh1. destruct (set_addrs_ok (c_backends c) (pool core) (heap r) Hp) as (p & new & Ep & Hp' & Hm).
  rewrite Ep. unfold set_spec. destruct (client (fs_again env) (vhealth s)) as [ce|cl'] eqn:Ecl'; cbn zeta.
  { cbn [fst]. eapply (inv_updated s c c0 name e e1 core
      {| pool := p; checker := checker core; health_aborted := health_aborted core |} new r); try done; cbn; try done;
      rewrite ?Ev1, ?Ec1, ?Eco1, ?Es1, ?Et1, ?Evr1; try done.
    intros Hst. specialize (Hst env Hok). unfold stable in Hst. congruence. }
  set (core' := {| pool := p; checker := _; health_aborted := _ |}).
  set (r2 := set_cores (heap r ++ new) (<[e_core e1:=core']> (cores r1)) r1).
  destruct (update_vrrp s (c_vrrp_vip c) e1 r2) as [e2 r3] eqn:Ev.
  pose proof (update_vrrp_tasks _ _ _ _ _ _ Ev) as Hv.
  apply update_vrrp_fields in Ev as (Ev3 & _ & _ & _ & Eh3 & Ec3 & Es3 & Esp3 & _ & El3 & Eco3 & Ese3).
  cbn in Ev3, Eh3, Ec3, Es3, Hv. rewrite Ev1 in Ev3. rewrite Et1, Evr1, Eco1, Es1 in Hv.
  destruct Hv as (V1 & V2 & V3).
  { intros Hsame Hsame'. rewrite (check_same_vrrp _ _ _ _ Hc Hc0 Hsame Hsame').
    by rewrite (vrrp_task_same _ _ _ _ Hsame). }
  { exact Hvb. }
  cbn [fst]. eapply (inv_updated s c c name e e2 core core' new r); try done; cbn [vips heap cores serves vrrps set_vips];
    rewrite ?Esp3, ?Es3, ?Ese3, ?Eco3, ?Ev3, ?Eh3, ?Ec3, ?El3, ?Eco1, ?Ec1; try done.
Qed.

Lemma inv_put env name s fc r : ok env -> registry_inv ok r -> registry_inv ok (put env name s fc r).1.
Proof.
  intros Hok Hinv. unfold put. destruct (check s) as [|c] eqn:Ec; [done|].
  destruct (other_on _ _ _) eqn:Eo; [done|]. destruct (vips r !! name) eqn:En; [by apply inv_update|].
  destruct (create env name s fc c r) as [r' [e|b]] eqn:E; [|by eapply inv_create].
  enough (r' = r) as -> by done. revert E. unfold create. destruct (Checker_new _ _); [by intros [= <- _]|].
  destruct (negb _); [by intros [= <- _]|]. destruct (Pool_new _ _). by destruct (start_vrrp _ _ _ _).
Qed.

Lemma inv_pending p r : registry_inv ok r -> registry_inv ok (set_pending p r).
Proof. apply inv_same; done. Qed.

Lemma inv_save env r : registry_inv ok r -> registry_inv ok (save env r).1.
Proof.
  destruct (save env r) as [r' o] eqn:E. apply save_keeps in E as [-> _]. cbn.
  apply inv_same; done.
Qed.

Lemma inv_load_all envs l : (forall n, ok (envs n)) -> forall r,
  registry_inv ok r -> registry_inv ok (load_all envs l r).1.
Proof.
  intros Hst. induction l as [|[n s] l IH]; intros r Hr; [done|]. cbn [load_all].
  pose proof (inv_put (envs n) n s false r (Hst n) Hr) as Hp.
  destruct (put (envs n) n s false r) as [r1 [e|b]]; cbn in Hp.
  - by apply IH, inv_pending.
  - specialize (IH _ Hp). by destruct (load_all envs l r1).
Qed.

(** ** Stopping everything *)

Lemma drop_entry_set_vips e v r : drop_entry e (set_vips v r) = set_vips v (drop_entry e r).
Proof. unfold drop_entry. by destruct (e_vrrp e). Qed.

(** Dropping the entries of [l] one after the other, each out of the map first. *)
Definition drop_all (l : list (str * Entry)) (r : Registry) : Registry :=
  foldr (fun ne r => drop_entry ne.2 (set_vips (delete ne.1 (vips r)) r)) r l.

Lemma drop_all_vips l r n :
  vips (drop_all l r) !! n = if decide (n ∈ l.*1) then None else vips r !! n.
Proof.
  induction l as [|[k e] l IH].
  { rewrite decide_False; [done|]. csimpl. set_solver. }
  change (drop_all ((k, e) :: l) r)
    with (drop_entry e (set_vips (delete k (vips (drop_all l r))) (drop_all l r))).
  destruct (drop_entry_fields e (set_vips (delete k (vips (drop_all l r))) (drop_all l r))) as [-> _].
  cbn [vips set_vips]. destruct (decide (k = n)) as [->|Hne].
  - rewrite lookup_delete_eq, decide_True; [done|]. csimpl. set_solver.
  - rewrite lookup_delete_ne, IH by done. destruct (decide (n ∈ l.*1)).
    + rewrite decide_True; [done|]. csimpl. set_solver.
    + rewrite decide_False; [done|]. csimpl. set_solver.
Qed.

Lemma set_vips_twice v v' r : set_vips v (set_vips v' r) = set_vips v r.
Proof. done. Qed.

Lemma stop_all_drop_all r : stop_all r = set_vips ∅ (drop_all (reverse (btree (vips r))) r).
Proof.
  unfold stop_all. generalize (reverse (btree (vips r))). intros l.
  induction l as [|[k e] l IH]; [done|]. cbn [foldr]. rewrite IH. cbn [snd].
  change (drop_all ((k, e) :: l) r)
    with (drop_entry e (set_vips (delete k (vips (drop_all l r))) (drop_all l r))).
  by rewrite !drop_entry_set_vips.
Qed.

Lemma inv_drop_all l : forall r, NoDup l.*1 -> (forall n e, (n, e) ∈ l -> vips r !! n = Some e) ->
  registry_inv ok r -> registry_inv ok (drop_all l r).
Proof.
  induction l as [|[k e] l IH]; intros r Hnd Hin Hr; [done|].
  change (drop_all ((k, e) :: l) r)
    with (drop_entry e (set_vips (delete k (vips (drop_all l r))) (drop_all l r))).
    csimpl in Hnd. apply list.NoDup_cons in Hnd as [Hk Hnd].
  apply inv_drop.
  - apply IH; [done| |done]. intros. apply Hin. set_solver.
  - rewrite drop_all_vips, decide_False by done. apply Hin. set_solver.
Qed.

Lemma btree_keys_NoDup (m : gmap str Entry) : NoDup (reverse (btree m)).*1.
Proof.
  rewrite fmap_reverse, reverse_Permutation. unfold btree. rewrite merge_sort_Permutation.
  apply NoDup_fst_map_to_list.
Qed.

Lemma inv_stop_all r : registry_inv ok r -> registry_inv ok (stop_all r).
Proof.
  intros Hr. rewrite stop_all_drop_all. set (l := reverse (btree (vips r))).
  assert (forall n e, (n, e) ∈ l <-> vips r !! n = Some e) as Hl.
  { intros n e. unfold l. rewrite elem_of_reverse. apply elem_of_btree. }
  pose proof (inv_drop_all l r (btree_keys_NoDup _) (fun n e => proj1 (Hl n e)) Hr) as Hd.
  assert (vips (drop_all l r) = ∅) as E.
  { apply map_eq. intros n. rewrite drop_all_vips, lookup_empty. case_decide as Hn; [done|].
    destruct (vips r !! n) as [e|] eqn:En; [|done]. exfalso. apply Hn.
    apply list_elem_of_fmap. exists (n, e). split; [done|]. by apply Hl. }
  rewrite <- E. by apply (inv_same (drop_all l r)).
Qed.

Lemma inv_core r i c c' :
  registry_inv ok r -> cores r !! i = Some c -> health_aborted c' = health_aborted c ->
  spec (checker c') = spec (checker c) -> backends (pool c') = backends (pool c) ->
  (pool_ok (pool c) (heap r) -> is_u64 (next (pool c'))) ->
  registry_inv ok (set_cores (heap r) (<[i := c']> (cores r)) r).
Proof.
  intros (H1 & H2 & H3 & H4 & H5) Hi Ha Hs Hb Hu. split; [|split; [done|split; [done|split; [done|]]]].
  - intros n e He. apply (entry_ok_frame r); [by apply H1|apply heap_le_refl|..]; cbn; try done.
    intros c0 Hc0. destruct (decide (i = e_core e)) as [->|Hne].
    + exists c'. rewrite list_lookup_insert_eq by (by eapply lookup_lt_Some). simplify_eq. by split_and!.
    + exists c0. rewrite list_lookup_insert_ne by done. split_and!; try done. by intros (_ & _ & ?).
  - cbn. intros j c0 Hj Hc0. destruct (decide (i = j)) as [->|Hne].
    + rewrite list_lookup_insert_eq in Hj by (by eapply lookup_lt_Some). simplify_eq.
      apply (H5 j c Hi). congruence.
    + rewrite list_lookup_insert_ne in Hj by done. by apply (H5 j c0).
Qed.

Lemma inv_step r r' : step ok r r' -> registry_inv ok r -> registry_inv ok r'.
Proof.
  destruct 1; intros Hr.
  - by apply inv_put.
  - unfold apply. destruct (negb (valid_name name)); [done|]. destruct (is_config name r); [done|].
    pose proof (inv_put env name s false r ltac:(done) Hr) as Hp.
    destruct (put env name s false r) as [r1 [e|b]]; [done|]. cbn in Hp.
    pose proof (inv_save env _ (inv_pending (delete name (pending r1)) _ Hp)) as Hs.
    by destruct (save env _) as [r2 [e|]].
  - unfold remove. destruct (vips r !! name) as [e|] eqn:En.
    + destruct (from_config e); [done|]. by apply inv_save, inv_drop.
    + destruct (pending r !! name); [|done]. by apply inv_save, inv_pending.
  - unfold load_state. destruct (state_file r); [|done]. destruct (files r !! _); [|done].
    destruct readable; [|done]. cbn [negb]. destruct (from_json _) as [saved|]; [|done].
    pose proof (inv_load_all envs (btree saved) ltac:(done) r Hr) as Hl.
    by destruct (load_all envs (btree saved) r).
  - by apply inv_stop_all.
  - apply (inv_same r); try done. apply heap_le_set_healthy.
  - eapply inv_core; try done; cbn.
    + unfold pick. by case_bool_decide.
    + intros Hp. by apply (pool_ok_pick _ _ Hp).
  - eapply inv_core; try done. by intros (_ & _ & ?).
  - apply (inv_core (set_cores turn.1 (cores r) r) i c); try done; [|by intros (_ & _ & ?)].
    apply (inv_same r); try done. apply heap_le_probe.
Qed.

Lemma reaches_inv file disk r : reaches ok file disk r -> registry_inv ok r.
Proof.
  induction 1 as [|r r' _ IH Hs]; [|by eapply inv_step].
  split; [by intros n e; cbn; rewrite lookup_empty|]. split.
  - intros n1 n2 e1 e2. cbn. by rewrite lookup_empty.
  - split_and!; intros i x; cbn; by rewrite lookup_nil.
Qed.

End Invariant.

(** When no file changes under an update, the spec in force is the entry's. *)
Lemma entry_settled r n e : entry_ok stable r n e -> exists c core,
  check (e_spec e) = inr c /\ c_listen c = e_listen e
  /\ cores r !! e_core e = Some core /\ health_aborted core = false
  /\ spec (checker core) = vhealth (e_spec e)
  /\ pool_ok (pool core) (heap r)
  /\ member_addrs (pool core) (heap r) = Some <$> nub [] (c_backends c)
  /\ serves r !! e_serve e
     = Some {| s_listen := e_listen e; s_core := e_core e; s_vip := n; s_aborted := false |}
  /\ match e_vrrp e with
     | Some i => exists t, vrrp_task (e_spec e) (c_vrrp_vip c) (e_core e) = Some t
                           /\ vrrps r !! i = Some t
     | None => vrrp_task (e_spec e) (c_vrrp_vip c) (e_core e) = None
     end.
Proof.
  intros (s' & c' & c & core & -> & Hc' & Hc & H); [|done]. assert (c' = c) as -> by congruence. by exists c, core.
Qed.

(** C9: The registry's invariant, over every run: after any operations, whatever
    can be bound, read and written and however they fail, and with connections being
    balanced and backends probed meanwhile, every entry has a valid spec, a health
    loop on that spec's health section, and a VRRP thread exactly if the spec asks
    for one, with its parameters; an accept loop runs on the listener of a valid spec
    and the pool's members are that spec's backends (duplicates once); two entries
    share no listener, pool, loop or thread; and no accept loop, health loop or VRRP
    thread runs that no entry owns.  The spec with the listener and the backends is
    the entry's own in every run in which no CA file changes between the two reads of
    one update ([stable]); otherwise it may be another valid one, as after an update
    that was refused when it had moved them ([update_may_be_half_made]). *)
Theorem reachable_registry_inv ok file disk r :
  reaches ok file disk r ->
  registry_inv ok r
  /\ ((forall env, ok env -> stable env) -> forall n e, vips r !! n = Some e ->
      exists c core, check (e_spec e) = inr c /\ c_listen c = e_listen e /\ cores r !! e_core e = Some core
        /\ member_addrs (pool core) (heap r) = Some <$> nub [] (c_backends c)).
Proof.
  intros Hr%reaches_inv. split; [done|]. intros Hst n e He.
  destruct (proj1 Hr n e He) as (s' & c' & c & core & Hf & Hc' & Hc & Hl & Hcore & _ & _ & _ & Hm & _).
  rewrite (Hf Hst) in Hc'. assert (c' = c) as -> by congruence. by exists c, core.
Qed.

(** ** The configuration's VIP *)

(** The VIP of the configuration file is read-only for the API: whatever is
    applied or removed, its entry stays, and an [apply] (with a valid name) or
    [remove] of it is refused with [ReadOnly], a conflict, leaving the registry
    as it was. *)
Theorem config_vip_is_read_only env name s r n e :
  stable env -> vips r !! n = Some e -> from_config e = true ->
  vips (apply env name s r).1 !! n = Some e /\ vips (remove env name r).1 !! n = Some e
  /\ (valid_name n = true -> apply env n s r = (r, inl (ReadOnly n)))
  /\ remove env n r = (r, Some (ReadOnly n)).
Proof.
  intros Hst He Hf. split_and!.
  - unfold apply. destruct (negb _); [done|]. destruct (is_config name r) eqn:Ec; [done|].
    destruct (put env name s false r) as [r1 [e1|b]] eqn:Ep.
    { by apply put_refused in Ep as [-> _]. }
    apply put_changes in Ep as (_ & _ & _ & en & Hv & _).
    destruct (save env _) as [r2 [e2|]] eqn:Es; apply save_keeps in Es as [-> _]; cbn;
      (rewrite Hv, lookup_insert_ne; [done|]; intros ->; unfold is_config in Ec; rewrite He in Ec; congruence).
  - unfold remove. destruct (vips r !! name) as [en|] eqn:En.
    + destruct (from_config en) eqn:Ef; [done|]. destruct (save env _) as [r2 o] eqn:Es.
      apply save_keeps in Es as [-> _]. cbn.
      destruct (drop_entry_fields en (set_vips (delete name (vips r)) r)) as [-> _].
      cbn. rewrite lookup_delete_ne; [done|]. intros ->. congruence.
    + destruct (pending r !! name); [|done]. destruct (save env _) as [r2 o] eqn:Es.
      by apply save_keeps in Es as [-> _].
  - intros Hn. unfold apply, is_config. by rewrite Hn, He, Hf.
  - unfold remove. by rewrite He, Hf.
Qed.

(** Loading the state file replaces the configuration's VIP.  A VIP saved under the name
    [default] (made through the API while the file had no [[vip]] table) is put
    over the configuration's VIP at the next start: its spec becomes the saved
    one, while the entry still counts as the configuration's. *)
Theorem load_state_replaces_config_vip env r e core s c cl path :
  stable env -> vips r !! CONFIG_VIP = Some e -> from_config e = true ->
  cores r !! e_core e = Some core ->
  check s = inr c -> client (fs env) (vhealth s) = inr cl -> can_bind env (c_listen c) = true ->
  other_on CONFIG_VIP (c_listen c) (vips r) = None ->
  state_file r = Some path -> files r !! path = Some (to_json {[ CONFIG_VIP := s ]}) ->
  exists r' e', load_state (fun _ => env) true r = (r', inr 1%nat)
    /\ vips r' !! CONFIG_VIP = Some e' /\ e_spec e' = s /\ from_config e' = true.
Proof.
  intros Hst He Hf Hcore Hc Hcl Hbind Hoth Hpath Hfile.
  unfold load_state. rewrite Hpath, Hfile. cbn [negb]. rewrite json_roundtrip.
  assert (btree {[ CONFIG_VIP := s ]} = [(CONFIG_VIP, s)]) as ->.
  { apply Permutation_singleton_r. unfold btree. rewrite merge_sort_Permutation. by rewrite map_to_list_singleton. }
  cbn [load_all]. destruct (put env CONFIG_VIP s false r) as [r' [er|b]] eqn:Ep.
  - exfalso. unfold put in Ep. rewrite Hc, Hoth, He in Ep. unfold update in Ep.
    rewrite Hcl, Hbind, Hcore, andb_false_r in Ep. destruct (update_listener _ _ _ _), (set_addrs _ _ _).
    rewrite Hst, (set_spec_stable _ _ _ _ Hcl) in Ep. by destruct (update_vrrp _ _ _ _).
  - apply put_changes in Ep as (_ & _ & _ & e' & Hv & Hs & Hfc & _).
    exists r', e'. rewrite Hv, lookup_insert_eq. split_and!; try done. by rewrite Hfc, He.
Qed.

(** When the CA file changes under an update, the update can be refused
    half made.  If the file is good when [put] first reads it and not when
    [set_spec] reads it again, the answer is [Invalid], a 400, but the listener
    has already moved and the members are replaced, while the entry still
    shows its old spec. *)
Theorem update_may_be_half_made env name s r e core c cl ce :
  vips r !! name = Some e -> cores r !! e_core e = Some core ->
  check s = inr c -> other_on name (c_listen c) (vips r) = None ->
  client (fs env) (vhealth s) = inr cl -> client (fs_again env) (vhealth s) = inl ce ->
  can_bind env (c_listen c) = true ->
  exists r' e' core', put env name s false r = (r', inl (Invalid (BadHealth ce)))
    /\ vips r' !! name = Some e' /\ e_spec e' = e_spec e /\ e_listen e' = c_listen c
    /\ cores r' !! e_core e' = Some core' /\ spec (checker core') = spec (checker core)
    /\ pool core' = (set_addrs (c_backends c) (pool core) (heap r)).1.
Proof.
  intros He Hcore Hc Hoth Hcl Hce Hbind. unfold put. rewrite Hc, Hoth, He. unfold update.
  rewrite Hcl, Hbind, Hcore, andb_false_r.
  destruct (update_listener name (c_listen c) e r) as [e1 r1] eqn:Eu.
  apply update_listener_fields in Eu as (Ev & _ & _ & _ & Eh & Ec & _ & Es & _ & El & Eco & _).
  rewrite Eh. destruct (set_addrs _ _ _) as [p h]. unfold set_spec. rewrite Hce. cbn zeta.
  eexists _, e1, {| pool := p; checker := checker core; health_aborted := health_aborted core |}.
  split; [reflexivity|]. cbn. rewrite lookup_insert_eq, Ec, Eco.
  rewrite list_lookup_insert_eq by (by eapply lookup_lt_Some). done.
Qed.

(** ** The state file *)

Lemma api_specs_insert m n e : from_config e = false ->
  api_specs (<[n := e]> m) = <[n := e_spec e]> (api_specs m).
Proof. intros H. unfold api_specs. rewrite omap_insert, H. done. Qed.

Lemma api_specs_lookup m n :
  api_specs m !! n = match m !! n with
                     | Some e => if from_config e then None else Some (e_spec e)
                     | None => None
                     end.
Proof. unfold api_specs. rewrite lookup_omap. by destruct (m !! n). Qed.

Lemma saved_view_lookup r n :
  saved_view r !! n = match vips r !! n with
                      | Some e => if from_config e then pending r !! n else Some (e_spec e)
                      | None => pending r !! n
                      end.
Proof.
  unfold saved_view. rewrite lookup_union, api_specs_lookup.
  destruct (vips r !! n) as [e|]; [destruct (from_config e)|]; by destruct (pending r !! n).
Qed.

Lemma save_ok env r r' path :
  state_file r = Some path -> save env r = (r', None) ->
  vips r' = vips r /\ pending r' = pending r /\ files r' !! path = Some (to_json (saved_view r)).
Proof.
  intros Hp. unfold save. rewrite Hp. unfold write_atomic.
  destruct (mkdir_ok env); cbn [negb]; [|done]. destruct (write_fails env) as [[t|]|]; [done..|].
  destruct (rename_ok env); [|done]. intros [= <-]. cbn. by rewrite lookup_insert_eq.
Qed.

Lemma load_all_saved envs l : forall r,
  NoDup l.*1 -> (forall n s, (n, s) ∈ l -> vips r !! n = None) ->
  forall n, saved_view (load_all envs l r).1 !! n
            = match (list_to_map l : gmap str VipSpec) !! n with
              | Some s => Some s | None => saved_view r !! n end.
Proof.
  induction l as [|[k s] l IH]; intros r Hnd Hf n; [done|].
  csimpl in Hnd. apply list.NoDup_cons in Hnd as [Hk Hnd].
  assert (vips r !! k = None) as Hnone by (apply (Hf k s); left).
  assert (forall r1, (forall n' s', (n', s') ∈ l -> vips r1 !! n' = None) ->
    (forall n', saved_view r1 !! n' = if decide (n' = k) then Some s else saved_view r !! n') ->
    saved_view (load_all envs l r1).1 !! n
    = match (list_to_map ((k, s) :: l) : gmap str VipSpec) !! n with
      | Some s => Some s | None => saved_view r !! n end) as Hstep.
  { intros r1 Hf1 H1. rewrite IH by done. rewrite list_to_map_cons.
    destruct (decide (n = k)) as [->|Hne].
    - rewrite lookup_insert_eq, (not_elem_of_list_to_map_1 (M := gmap str)) by done. rewrite H1. by rewrite decide_True.
    - rewrite lookup_insert_ne by done. destruct (list_to_map l !! n); [done|].
      rewrite H1. by rewrite decide_False. }
  cbn [load_all]. destruct (put (envs k) k s false r) as [r1 [e|b]] eqn:Ep.
  - apply put_refused_stands in Ep as (_ & _ & _ & _ & _ & ->); [|done]. apply Hstep.
    + intros n' s' Hin. cbn. apply (Hf n' s'). by right.
    + intros n'. rewrite !saved_view_lookup. cbn. case_decide as E; [subst|].
      * by rewrite Hnone, lookup_insert_eq.
      * by rewrite lookup_insert_ne.
  - apply put_changes in Ep as (Hp & _ & _ & e' & Hv & Hs & Hfc & _).
    rewrite Hnone in Hfc.
    assert (saved_view (load_all envs l r1).1 !! n
            = match (list_to_map ((k, s) :: l) : gmap str VipSpec) !! n with
              | Some s => Some s | None => saved_view r !! n end) as H.
    { apply Hstep.
      - intros n' s' Hin. rewrite Hv, lookup_insert_ne; [apply (Hf n' s'); by right|].
        intros ->. apply Hk. apply list_elem_of_fmap. by exists (n', s').
      - intros n'. rewrite !saved_view_lookup, Hp, Hv. case_decide as E; [subst|].
        + rewrite lookup_insert_eq, Hfc. done.
        + by rewrite lookup_insert_ne. }
    by destruct (load_all envs l r1).
Qed.

Lemma apply_saved env path r : state_file r = Some path ->
  forall name s r' b, apply env name s r = (r', inr b) ->
    saved_view r' = <[name := s]> (saved_view r) /\ files r' !! path = Some (to_json (saved_view r')).
Proof.
  intros Hpath name s r' b. unfold apply. destruct (negb (valid_name name)); [done|].
  destruct (is_config name r) eqn:Ec; [done|].
  destruct (put env name s false r) as [r1 [e1|b1]] eqn:Ep; [done|].
  apply put_changes in Ep as (Hp & Hsf & _ & en & Hv & Hs & Hfc & _).
  destruct (save env _) as [r2 [|]] eqn:Es; [done|]. intros [= <- <-].
  eapply save_ok in Es as (Ev & Epn & Ef); [|by rewrite <- Hpath, <- Hsf].
  cbn in Ev, Epn.
  assert (saved_view r2 = <[name := s]> (saved_view r)) as E.
  { apply map_eq. intros n. rewrite saved_view_lookup, Ev, Epn, Hv, Hp.
    destruct (decide (n = name)) as [->|Hne].
    - rewrite !lookup_insert_eq, Hfc. unfold is_config in Ec.
      destruct (vips r !! name); [rewrite Ec|]; by rewrite Hs.
    - rewrite !lookup_insert_ne, lookup_delete_ne by done. by rewrite saved_view_lookup. }
  split; [done|]. rewrite Ef. do 2 f_equal. apply map_eq. intros n.
  rewrite !saved_view_lookup. cbn. by rewrite Ev, Epn.
Qed.

(** No VIP of the API both runs and waits: then a name has one spec. *)
Definition not_twice (r : Registry) : Prop :=
  forall n e, vips r !! n = Some e -> from_config e = false -> pending r !! n = None.

Lemma remove_saved env path r : state_file r = Some path -> not_twice r ->
  forall name r', remove env name r = (r', None) ->
    saved_view r' = delete name (saved_view r)
    /\ vips r' !! name = None /\ files r' !! path = Some (to_json (saved_view r')).
Proof.
  intros Hpath Hone name r' Er.
  assert (vips r' = delete name (vips r) /\ pending r' = delete name (pending r)
          /\ files r' !! path = Some (to_json (saved_view r'))) as (Ev & Ep & Ef).
  { assert (forall rd, state_file rd = Some path -> save env rd = (r', None) ->
      vips r' = vips rd /\ pending r' = pending rd /\ files r' !! path = Some (to_json (saved_view r'))) as Hs.
    { intros rd Hd Es. eapply save_ok in Es as (E1 & E2 & E3); [|done]. split_and!; [done|done|].
      rewrite E3. do 2 f_equal. apply map_eq. intros n. by rewrite !saved_view_lookup, E1, E2. }
    revert Er. unfold remove. destruct (vips r !! name) as [en|] eqn:En.
    - destruct (from_config en) eqn:Ecfg; [done|]. intros (E1 & E2 & E3)%Hs; [|unfold drop_entry; by destruct (e_vrrp en)].
      destruct (drop_entry_fields en (set_vips (delete name (vips r)) r)) as [Ed _]. rewrite E1, Ed, E2, E3.
      rewrite (delete_id (pending r)) by (by eapply Hone). unfold drop_entry. by destruct (e_vrrp en).
    - destruct (pending r !! name); [|done]. intros (E1 & E2 & E3)%Hs; [|done]. rewrite E1, E2, E3. cbn.
      by rewrite delete_id. }
  split_and!; [|by rewrite Ev, lookup_delete_eq|done].
  apply map_eq. intros n. rewrite saved_view_lookup, Ev, Ep. destruct (decide (n = name)) as [->|Hne].
  - by rewrite !lookup_delete_eq.
  - by rewrite !lookup_delete_ne, saved_view_lookup.
Qed.

Lemma not_twice_save env r : not_twice r -> not_twice (save env r).1.
Proof. intros H. destruct (save env r) as [r' o] eqn:E. apply save_keeps in E as [-> _]. done. Qed.

Lemma not_twice_put env name s r r' x : put env name s false r = (r', x) -> not_twice r ->
  match x with
  | inl _ => not_twice r'
  | inr _ => not_twice (set_pending (delete name (pending r')) r')
  end.
Proof.
  intros Ep H. destruct x as [e|b].
  - apply put_refused_stands in Ep as (_ & Hm & Hp & _). intros n en Hn Hc. rewrite Hp.
    assert ((stands <$> vips r) !! n = Some (stands en)) as Hs by (by rewrite <- Hm, lookup_fmap, Hn).
    rewrite lookup_fmap in Hs. destruct (vips r !! n) as [e0|] eqn:E0; [|done]. cbn in Hs.
    apply (H n e0); [done|]. unfold stands in Hs. congruence.
  - apply put_changes in Ep as (Hp & _ & _ & e' & Hv & _). intros n en. cbn. rewrite Hv, Hp.
    intros [[<- <-]|[Hne Hn]]%lookup_insert_Some Hc; [by rewrite lookup_delete_eq|].
    rewrite lookup_delete_ne by done. by eapply H.
Qed.

Lemma not_twice_apply env name s r : not_twice r -> not_twice (apply env name s r).1.
Proof.
  intros H. unfold apply. destruct (negb _); [done|]. destruct (is_config name r); [done|].
  destruct (put env name s false r) as [r1 [e|b]] eqn:Ep; apply not_twice_put in Ep; try done.
  apply (not_twice_save env) in Ep. by destruct (save env _) as [r2 [|]].
Qed.

Lemma not_twice_remove env name r : not_twice r -> not_twice (remove env name r).1.
Proof.
  intros H. unfold remove. destruct (vips r !! name) as [en|] eqn:En.
  - destruct (from_config en); [done|]. apply not_twice_save. intros n e.
    destruct (drop_entry_fields en (set_vips (delete name (vips r)) r)) as [-> _]. cbn.
    intros [_ Hn]%lookup_delete_Some. unfold drop_entry. destruct (e_vrrp en); by apply H.
  - destruct (pending r !! name); [|done]. apply not_twice_save. intros n e Hn Hc. cbn in Hn |- *.
    destruct (decide (n = name)) as [->|]; [congruence|]. rewrite lookup_delete_ne by done. by eapply H.
Qed.

Lemma not_twice_load_all envs l : forall r, NoDup l.*1 -> not_twice r ->
  (forall n s, (n, s) ∈ l -> vips r !! n = None /\ pending r !! n = None) -> not_twice (load_all envs l r).1.
Proof.
  induction l as [|[k s] l IH]; intros r Hnd H Hf; [done|]. csimpl in Hnd. apply list.NoDup_cons in Hnd as [Hk Hnd].
  destruct (Hf k s ltac:(left)) as [Hv Hp].
  assert (forall n' s', (n', s') ∈ l -> n' <> k /\ vips r !! n' = None /\ pending r !! n' = None) as Hf'.
  { intros n' s' Hin. split; [|by apply (Hf n' s'); right]. intros ->. apply Hk, list_elem_of_fmap. by exists (k, s'). }
  cbn [load_all]. destruct (put (envs k) k s false r) as [r1 [e|b]] eqn:Ep.
  - apply put_refused_stands in Ep as (_ & _ & _ & _ & _ & ->); [|done]. apply IH; [done| |].
    + intros n e' Hn Hc. cbn. rewrite lookup_insert_ne by (intros ->; cbn in Hn; congruence). by eapply H.
    + intros n' s' (Hne & ? & ?)%Hf'. cbn. by rewrite lookup_insert_ne.
  - pose proof Ep as (Ep' & _ & _ & e' & Hv' & _)%put_changes. apply not_twice_put in Ep; [|done].
    assert (not_twice (load_all envs l r1).1) as Hl; [|by destruct (load_all envs l r1)]. apply IH; [done| |].
    + intros n en Hn Hc. specialize (Ep n en Hn Hc). cbn in Ep. rewrite Ep' in Ep |- *.
      destruct (decide (n = k)) as [->|]; [done|]. by rewrite lookup_delete_ne in Ep.
    + intros n' s' (Hne & ? & ?)%Hf'. by rewrite Ep', Hv', lookup_insert_ne.
Qed.

Lemma save_failed_keeps_file env path r : state_file r = Some path -> with_extension_tmp path <> path ->
  forall r' e, save env r = (r', Some e) -> files r' !! path = files r !! path.
Proof.
  intros Hpath.
  intros Hne r' e. unfold save. rewrite Hpath. unfold write_atomic.
  destruct (mkdir_ok env); cbn [negb]; [|by intros [= <- <-]].
  destruct (write_fails env) as [[t|]|]; [| |destruct (rename_ok env); [done|]];
    intros [= <- <-]; cbn; rewrite ?lookup_insert_ne; done.
Qed.

Lemma load_restores path envs r0 r1 n saved :
  state_file r0 = Some path -> files r0 !! path = Some (to_json saved) ->
  pending r0 = ∅ -> (forall k e, vips r0 !! k = Some e -> from_config e = true /\ saved !! k = None) ->
  load_state envs true r0 = (r1, n) -> saved_view r1 = saved /\ not_twice r1.
Proof.
  intros Hp0 Hf0 Hpend Hcfg. unfold load_state.
  rewrite Hp0, Hf0, json_roundtrip. cbn [negb].
  pose proof (load_all_saved envs (btree saved) r0) as Hload.
  pose proof (not_twice_load_all envs (btree saved) r0) as Hone.
  destruct (load_all envs (btree saved) r0) as [r2 k]. intros [= <- <-]. cbn in Hload, Hone.
  assert (NoDup (btree saved).*1) as Hnd.
  { unfold btree. rewrite merge_sort_Permutation. apply NoDup_fst_map_to_list. }
  assert (forall k' s', (k', s') ∈ btree saved -> vips r0 !! k' = None) as Hnew.
  { intros k' s' Hin. apply elem_of_btree in Hin. destruct (vips r0 !! k') eqn:Ev; [|done].
    apply Hcfg in Ev as [_ Ev]. congruence. }
  split; [|apply Hone; [done|intros m e Hm Hc; by rewrite Hpend, lookup_empty|
    intros m s' Hin; split; [by eapply Hnew|by rewrite Hpend, lookup_empty]]]. clear Hone.
  assert ((list_to_map (btree saved) : gmap str VipSpec) = saved) as Emap.
  { etrans; [apply list_to_map_proper|apply list_to_map_to_list].
    - unfold btree. rewrite merge_sort_Permutation. apply NoDup_fst_map_to_list.
    - unfold btree. by rewrite merge_sort_Permutation. }
  apply map_eq. intros m. rewrite Hload, Emap by done. destruct (saved !! m) eqn:Em; [done|].
  rewrite saved_view_lookup, Hpend, lookup_empty. destruct (vips r0 !! m) as [e|] eqn:Ev; [|done].
  by destruct (Hcfg _ _ Ev) as [-> _].
Qed.

(** C23: The state file is the API's VIPs.  Of a registry in which no VIP of the API
    both runs and is pending: an [apply] that succeeds leaves in the file the VIPs
    there were, running and pending, with that one put; a [remove] that succeeds
    leaves them without that one, which no longer runs and is not pending either; a
    save that fails leaves the file as it was, if its name does not end in [.tmp]
    itself.  A new process that starts from the file, whatever can be started then,
    has every saved VIP (none of which is named like its configured one, see
    [load_state_replaces_config_vip]) either running with its spec or pending, not
    both, and no other, so its own saves lose none; and no call of the API ever makes a VIP both
    run and be pending, however it fails. *)
Theorem state_file_roundtrip env path r :
  state_file r = Some path -> not_twice r ->
  (forall name s r' b, apply env name s r = (r', inr b) ->
     saved_view r' = <[name := s]> (saved_view r)
     /\ files r' !! path = Some (to_json (saved_view r')))
  /\ (forall name r', remove env name r = (r', None) ->
     saved_view r' = delete name (saved_view r)
     /\ vips r' !! name = None /\ files r' !! path = Some (to_json (saved_view r')))
  /\ (with_extension_tmp path <> path -> forall r' e, save env r = (r', Some e) ->
     files r' !! path = files r !! path)
  /\ (forall envs r0 r1 n saved,
     state_file r0 = Some path -> files r0 !! path = Some (to_json saved) ->
     pending r0 = ∅ -> (forall k e, vips r0 !! k = Some e -> from_config e = true /\ saved !! k = None) ->
     load_state envs true r0 = (r1, n) -> saved_view r1 = saved /\ not_twice r1)
  /\ (forall name s, not_twice (apply env name s r).1 /\ not_twice (remove env name r).1).
Proof.
  intros Hpath Hone. split_and!; [by apply apply_saved|by apply remove_saved| |intros *; apply load_restores|].
  - intros Hne. by apply save_failed_keeps_file.
  - intros name s. split; [by apply not_twice_apply|by apply not_twice_remove].
Qed.

End Vips.

(** ** A concrete instance, for the witnesses

    The state file's text is the map's code number, a one-character string. *)
#[export] Instance HealthMode_countable : Countable HealthMode.
Proof.
  refine (inj_countable' (fun m => match m with Tcp => 0 | Http => 1 | Https => 2 end)
            (fun z => if z =? 0 then Tcp else if z =? 1 then Http else Https) _).
  by intros [].
Defined.
#[export] Instance HealthSpec_countable : Countable HealthSpec.
Proof.
  refine (inj_countable' (fun h => (mode h, path h, interval_secs h, timeout_secs h, expect_status h, ca_file h))
            (fun '(a, b, c, d, e, f) => {| mode := a; path := b; interval_secs := c; timeout_secs := d;
                                           expect_status := e; ca_file := f |}) _).
  by intros [].
Defined.
#[export] Instance BackendSpec_countable : Countable BackendSpec.
Proof.
  refine (inj_countable' (fun b => (b_address b, b_port b))
            (fun '(a, p) => {| b_address := a; b_port := p |}) _).
  by intros [].
Defined.
#[export] Instance VrrpSpec_countable : Countable VrrpSpec.
Proof.
  refine (inj_countable' (fun v => (interface v, vs_vrid v, vs_priority v, vs_preempt v, advert_interval_secs v))
            (fun '(a, b, c, d, e) => {| interface := a; vs_vrid := b; vs_priority := c; vs_preempt := d;
                                        advert_interval_secs := e |}) _).
  by intros [].
Defined.
#[export] Instance VipSpec_countable : Countable VipSpec.
Proof.
  refine (inj_countable' (fun s => (address s, port s, bind s, vbackends s, vhealth s, vvrrp s))
            (fun '(a, b, c, d, e, f) => {| address := a; port := b; bind := c; vbackends := d;
                                           vhealth := e; vvrrp := f |}) _).
  by intros [].
Defined.

#[local] Instance demo_json : StateJson.
Proof.
  refine {| to_json m := [Z.pos (encode m)];
            from_json t := match t with [Z.pos p] => decode p | _ => None end |}.
  intros m. apply decode_encode.
Defined.

#[local] Existing Instance demo_reqwest.

Definition demo_vip (a : string) (p : Z) (ca : option str) : VipSpec :=
  {| address := lit a; port := p; bind := None;
     vbackends := [{| b_address := lit "10.0.0.7"; b_port := 6443 |}];
     vhealth := {| mode := Https; path := lit "/readyz"; interval_secs := 2; timeout_secs := 2;
                   expect_status := [200]; ca_file := ca |};
     vvrrp := Some {| interface := lit "eth0"; vs_vrid := 51; vs_priority := 100; vs_preempt := true;
                      advert_interval_secs := 1 |} |}.

Definition demo_env (ca ca_again : list Z) : Env :=
  {| can_bind _ := true; fs _ := Some ca; fs_again _ := Some ca_again; mkdir_ok := true;
     write_fails := None; rename_ok := true |}.

Definition good_env : Env := demo_env [1] [1].

Definition demo_spec1 : VipSpec := demo_vip "10.0.0.50" 443 None.
Definition demo_spec2 : VipSpec := demo_vip "10.0.0.51" 443 (Some (lit "/ca.crt")).
Definition demo_path : str := lit "/data/state.json".

(** One API VIP, and the configuration's. *)
Definition demo_reg : Registry :=
  (apply good_env (lit "web") demo_spec1 (new (Some demo_path) ∅)).1.
Definition demo_cfg_reg (disk : gmap str str) : Registry :=
  (start_config good_env demo_spec1 (new (Some demo_path) disk)).1.


#[export] Instance spec_typed_dec s : Decision (spec_typed s).
Proof. unfold spec_typed. destruct (vvrrp s); apply _. Defined.

Lemma check_spec_witness :
  spec_typed demo_spec1
  /\ exists c, check demo_spec1 = inr c /\ acceptable demo_spec1 c.
Proof.
  assert (spec_typed demo_spec1) as H by decided. split; [exact H|].
  destruct (check demo_spec1) as [|c] eqn:E; [vm_compute in E; discriminate|].
  exists c. split; [reflexivity|]. exact (proj1 (proj1 (check_spec demo_spec1 H) c) E).
Defined.

Lemma refusal_changes_nothing_witness :
  stable good_env
  /\ let '(r', res) := apply good_env (lit "other") demo_spec1 demo_reg in
     match res with inl e => e <> NotSaved /\ r' = demo_reg | inr _ => False end.
Proof.
  split; [reflexivity|].
  destruct (apply good_env (lit "other") demo_spec1 demo_reg) as [r' [e|b]] eqn:E.
  - destruct (proj1 (refusal_changes_nothing good_env (lit "other") demo_spec1 demo_reg eq_refl) r' e E)
      as [H|(-> & _)]; [exact H|].
    exfalso.
    assert ((apply good_env (lit "other") demo_spec1 demo_reg).2 = inl NotSaved) as H by (rewrite E; reflexivity).
    vm_compute in H. discriminate.
  - assert ((apply good_env (lit "other") demo_spec1 demo_reg).2 = inr b) as H by (rewrite E; reflexivity).
    vm_compute in H. discriminate.
Defined.

(** The half-made update: an update of [web] under which the CA file goes. *)
Definition torn_reg : Registry :=
  (apply (demo_env [1] []) (lit "web") (demo_vip "10.0.0.51" 443 (Some (lit "/ca.crt"))) demo_reg).1.

Lemma reachable_registry_inv_witness :
  (registry_inv stable demo_reg /\ is_Some (vips demo_reg !! lit "web"))
  /\ registry_inv any_env torn_reg
  /\ (exists e, vips torn_reg !! lit "web" = Some e /\ e_spec e = demo_spec1
        /\ e_listen e = SockAddr (V4 (Ipv4 10 0 0 51)) 443).
Proof.
  assert (forall ok, ok good_env -> reaches ok (Some demo_path) ∅ demo_reg) as H.
  { intros ok Hok. eapply reaches_step; [apply reaches_new|]. by apply step_apply. }
  split; [split; [exact (proj1 (reachable_registry_inv _ _ _ _ (H stable eq_refl)))|decided]|].
  split; [|vm_compute; eexists; split; [reflexivity|]; split; reflexivity].
  apply (reachable_registry_inv any_env (Some demo_path) ∅ torn_reg).
  eapply reaches_step; [by apply H|]. by apply step_apply.
Defined.

Lemma config_vip_is_read_only_witness :
  exists e, vips (demo_cfg_reg ∅) !! CONFIG_VIP = Some e /\ from_config e = true
    /\ remove good_env CONFIG_VIP (demo_cfg_reg ∅) = (demo_cfg_reg ∅, Some (ReadOnly CONFIG_VIP)).
Proof.
  destruct (vips (demo_cfg_reg ∅) !! CONFIG_VIP) as [e|] eqn:E; [|vm_compute in E; discriminate].
  exists e. assert (from_config e = true) as Hf by (vm_compute in E; injection E as <-; reflexivity).
  split; [reflexivity|]. split; [exact Hf|].
  exact (proj2 (proj2 (proj2 (config_vip_is_read_only good_env CONFIG_VIP demo_spec2
           (demo_cfg_reg ∅) CONFIG_VIP e eq_refl E Hf)))).
Defined.

Definition demo_disk : gmap str str := {[ demo_path := to_json {[ CONFIG_VIP := demo_spec2 ]} ]}.

Lemma load_state_replaces_config_vip_witness :
  exists e, vips (demo_cfg_reg demo_disk) !! CONFIG_VIP = Some e /\ e_spec e = demo_spec1
    /\ exists r' e', load_state (fun _ => good_env) true (demo_cfg_reg demo_disk) = (r', inr 1%nat)
         /\ vips r' !! CONFIG_VIP = Some e' /\ e_spec e' = demo_spec2 /\ from_config e' = true.
Proof.
  destruct (vips (demo_cfg_reg demo_disk) !! CONFIG_VIP) as [e|] eqn:E; [|vm_compute in E; discriminate].
  exists e. split; [reflexivity|].
  assert (e_spec e = demo_spec1 /\ from_config e = true
          /\ exists core, cores (demo_cfg_reg demo_disk) !! e_core e = Some core) as (H1 & H2 & core & H3)
    by (vm_compute in E; injection E as <-; vm_compute; eauto).
  split; [exact H1|].
  destruct (check demo_spec2) as [|c] eqn:Ec; [vm_compute in Ec; discriminate|].
  destruct (client (fs good_env) (vhealth demo_spec2)) as [|cl] eqn:Ecl; [vm_compute in Ecl; discriminate|].
  apply (load_state_replaces_config_vip good_env (demo_cfg_reg demo_disk) e core demo_spec2 c cl demo_path);
    try assumption; try reflexivity.
Defined.

Lemma update_may_be_half_made_witness :
  let env := demo_env [1] [] in
  let s := demo_vip "10.0.0.51" 443 (Some (lit "/ca.crt")) in
  exists r' e', put env (lit "web") s false demo_reg = (r', inl (Invalid (BadHealth CaEmpty)))
    /\ vips r' !! lit "web" = Some e' /\ e_spec e' = demo_spec1
    /\ e_listen e' = SockAddr (V4 (Ipv4 10 0 0 51)) 443.
Proof.
  intros env s.
  destruct (vips demo_reg !! lit "web") as [e|] eqn:E; [|vm_compute in E; discriminate].
  assert (e_spec e = demo_spec1 /\ exists core, cores demo_reg !! e_core e = Some core) as (H1 & core & H2)
    by (vm_compute in E; injection E as <-; vm_compute; eauto).
  destruct (check s) as [|c] eqn:Ec; [vm_compute in Ec; discriminate|].
  assert (c_listen c = SockAddr (V4 (Ipv4 10 0 0 51)) 443
          /\ other_on (lit "web") (c_listen c) (vips demo_reg) = None) as [H3 H4]
    by (vm_compute in Ec; injection Ec as <-; vm_compute; split; reflexivity).
  destruct (client (fs env) (vhealth s)) as [|cl] eqn:Ecl; [vm_compute in Ecl; discriminate|].
  destruct (update_may_be_half_made env (lit "web") s demo_reg e core c cl CaEmpty E H2 Ec H4 Ecl
              eq_refl eq_refl) as (r' & e' & core' & P1 & P2 & P3 & P4 & _).
  exists r', e'. rewrite P3, P4. split; [exact P1|]. split; [exact P2|]. split; [exact H1|exact H3].
Defined.

Lemma demo_not_twice : not_twice demo_reg.
Proof.
  intros n e _ _. change (pending demo_reg) with (delete (lit "web") (∅ : gmap str VipSpec)).
  by rewrite delete_empty, lookup_empty.
Qed.

Lemma state_file_roundtrip_witness :
  state_file demo_reg = Some demo_path
  /\ exists r' b, apply good_env (lit "api") demo_spec2 demo_reg = (r', inr b)
       /\ saved_view r' = <[lit "api" := demo_spec2]> (saved_view demo_reg)
       /\ exists r2, remove good_env (lit "web") demo_reg = (r2, None)
            /\ saved_view r2 = delete (lit "web") (saved_view demo_reg).
Proof.
  split; [reflexivity|].
  destruct (state_file_roundtrip good_env demo_path demo_reg eq_refl demo_not_twice) as (Ha & Hr & _).
  destruct (apply good_env (lit "api") demo_spec2 demo_reg) as [r' [e|b]] eqn:E.
  - assert ((apply good_env (lit "api") demo_spec2 demo_reg).2 = inl e) as H by (rewrite E; reflexivity).
    vm_compute in H. discriminate.
  - exists r', b. split; [reflexivity|]. split; [exact (proj1 (Ha _ _ _ _ E))|].
    destruct (remove good_env (lit "web") demo_reg) as [r2 [e|]] eqn:E2.
    + assert ((remove good_env (lit "web") demo_reg).2 = Some e) as H by (rewrite E2; reflexivity).
      vm_compute in H. discriminate.
    + exists r2. split; [reflexivity|]. exact (proj1 (Hr _ _ E2)).
Defined.
