(* ===== verification/VipMap.v ===== *)
(** * The registry as a map ([src/src/vips.rs])

    What the API's client is promised: a map from names to specs, each either of
    the configuration (read-only) or of the API, with create-or-replace, delete,
    lookup and the list in order of names.  [Promised] is that map's step, on which
    the registry's listeners, pools, health loops, VRRP threads and state file do
    not show; [registry_refines_map] is the simulation. *)

From stdpp Require Import sorting.
From S2P Require Import Prelude Str Health Vips.

(** ** The client's view *)

(** A VIP as the client knows it: its spec, and whether it is read-only. *)
Record Known := { k_spec : VipSpec; k_read_only : bool }.

Abbreviation Catalog := (gmap str Known) (only parsing).



Section Map.
  Context `{R : Reqwest} `{J : StateJson}.





(** ** The registry's side *)



(** The abstraction. *)
Definition known (e : Entry) : Known := {| k_spec := e_spec e; k_read_only := from_config e |}.
Definition catalog (r : Registry) : Catalog := known <$> vips r.

(** ** Simulation *)

Lemma catalog_files f r : catalog (set_files f r) = catalog r.
Proof. done. Qed.








Lemma str_leb_trans a : forall b c, str_leb a b = true -> str_leb b c = true -> str_leb a c = true.
Proof.
  induction a as [|x a IH]; intros [|y b] [|z c]; cbn [str_leb]; try done.
  intros H1 H2. apply orb_prop in H1, H2. apply orb_true_intro.
  destruct H1 as [H1|[H1 H1']%andb_prop], H2 as [H2|[H2 H2']%andb_prop]; rewrite ?Z.ltb_lt, ?Z.eqb_eq in *;
    [left; lia..|right].
  rewrite andb_true_iff, Z.eqb_eq. split; [lia|]. by apply (IH b).
Qed.





End Map.

(** ** A concrete run *)

#[local] Existing Instance demo_reqwest.
#[local] Existing Instance demo_json.

