(* ===== verification/Takedown.v ===== *)
(** * Removing and restarting a VIP's VRRP thread ([src/src/vips.rs] with [src/src/vrrp.rs])

    Dropping an entry only sets a flag; the thread that owns the address looks at
    it at its next turn, while a new thread may already run.  Here the registry of
    [Vips], the loop of [VrrpLoop] with the clock of [Timing] and the controller
    interface of [Controller] are put together: what a removal leaves on the
    interface, and what a change of the VRRP settings does to it. *)

From S2P Require Import Prelude Str Net Vrrp VrrpLoop Cluster Timing Controller Config Pool Health Vips.

Local Open Scope Z_scope.

(** The calls of two threads, each in its order. *)
Inductive interleaving {A} : list A -> list A -> list A -> Prop :=
| inter_nil : interleaving [] [] []
| inter_left x a b c : interleaving a b c -> interleaving (x :: a) b (x :: c)
| inter_right x a b c : interleaving a b c -> interleaving a (x :: b) (x :: c).

Definition is_release (a : Act) : bool := match a with Release => true | _ => false end.

(** Actions without a call of the controller. *)
Definition calls_nothing (acts : list Act) : bool := forallb (fun a => negb (is_claim a || is_release a)) acts.

Lemma held_idle h acts : calls_nothing acts = true -> held h acts = h.
Proof. revert h. induction acts as [|[] acts IH]; intros h H; cbn in *; auto; done. Qed.

Lemma alternating_no_claim acts : alternating false acts = true -> existsb is_claim acts = false ->
  calls_nothing acts = true.
Proof. induction acts as [|[] acts IH]; cbn; auto; done. Qed.

Lemma alternating_no_release acts : alternating true acts = true -> existsb is_release acts = false ->
  calls_nothing acts = true.
Proof. induction acts as [|[] acts IH]; cbn; auto; done. Qed.


Lemma interleaving_app_l {A} (a b : list A) : interleaving a b (a ++ b).
Proof. induction a; cbn; [induction b|]; by constructor. Qed.

(** ** The registry *)

Section Registry.
  Context `{R : Reqwest} `{J : StateJson}.

Lemma check_vrrp_vip s c v : check s = inr c -> vvrrp s = Some v ->
  exists ip, c_vrrp_vip c = Some ip /\ parse_ip (address s) = Some (V4 ip) /\ ipv4_ok ip.
Proof.
  unfold check. intros E Ev. destruct (parse_ip (address s)) as [vip|] eqn:Ea; [|done].
  destruct (port s =? 0); [done|].
  destruct (match bind s with None => Some vip | Some b => parse_ip b end); [|done].
  destruct (check_backends (vbackends s)); [done|]. destruct (check_health (vhealth s)); [done|].
  destruct (check_vrrp vip (vvrrp s)) as [|o] eqn:Eo; [done|]. injection E as <-. cbn [c_vrrp_vip].
  rewrite Ev in Eo. destruct vip as [v4|]; [|done]. exists v4. split_and!; [|done|by eapply parse_ip_v4_ok].
  unfold check_vrrp in Eo. repeat (case_match; try discriminate Eo). congruence.
Qed.

Lemma vrrp_task_inv s vip core t : vrrp_task s vip core = Some t ->
  exists v ip, vvrrp s = Some v /\ vip = Some ip /\ p_vip (t_params t) = ip /\ p_iface (t_params t) = interface v
    /\ p_priority (t_params t) = vs_priority v /\ t_core t = core /\ t_stopped t = false.
Proof. unfold vrrp_task. destruct (vvrrp s) as [v|], vip as [ip|]; intros; simplify_eq/=; eauto 10. Qed.

Lemma task_vip_ok s c core t : check s = inr c -> vrrp_task s (c_vrrp_vip c) core = Some t ->
  ipv4_ok (p_vip (t_params t)).
Proof.
  intros Hc Ht. apply vrrp_task_inv in Ht as (v & ip & Hv & Eip & -> & _).
  destruct (check_vrrp_vip s c v Hc Hv) as (ip' & E & _ & Hok). congruence.
Qed.


(** An update that changes the VRRP settings: the old thread is told to stop and a
    new one is started. *)
Lemma put_restarts ok env name s fc r r' e i t v b :
  stable env -> registry_inv ok r -> vips r !! name = Some e -> e_vrrp e = Some i -> vrrps r !! i = Some t ->
  vvrrp s = Some v -> vvrrp (e_spec e) <> Some v -> put env name s fc r = (r', inr b) ->
  vrrps r' !! i = Some (stop_vrrp t)
  /\ exists e' j t' c, vips r' !! name = Some e' /\ e_spec e' = s /\ e_vrrp e' = Some j /\ j <> i
       /\ check s = inr c /\ vrrp_task s (c_vrrp_vip c) (e_core e) = Some t' /\ vrrps r' !! j = Some t'.
Proof.
  intros Hst Hinv He Hi Ht Hv Hne. unfold put. destruct (check s) as [|c] eqn:Ec; [done|].
  destruct (other_on _ _ _); [done|]. rewrite He. unfold update.
  destruct (client (fs env) (vhealth s)) eqn:Ecl; [done|]. destruct (negb _ && negb _); [done|].
  destruct (cores r !! e_core e) as [core|]; [|done].
  destruct (update_listener name (c_listen c) e r) as [e1 r1] eqn:Eu.
  apply update_listener_fields in Eu as (_ & _ & _ & _ & _ & _ & Et1 & Es1 & _ & _ & Eco1 & Evr1).
  destruct (set_addrs _ _ _) as [p h]. rewrite Hst, (set_spec_stable _ _ _ _ Ecl). unfold update_vrrp.
  rewrite Es1, (bool_decide_false (vvrrp s = vvrrp (e_spec e))) by congruence.
  cbn [andb vrrps set_cores]. rewrite Evr1, Hi, Et1, Eco1. unfold start_vrrp.
  destruct (check_vrrp_vip s c v Ec Hv) as (ip & Eip & _).
  destruct (vrrp_task s (c_vrrp_vip c) (e_core e)) as [t'|] eqn:Etk.
  2: { exfalso. unfold vrrp_task in Etk. by rewrite Hv, Eip in Etk. }
  intros [= <- <-]. cbn [vrrps set_vips set_vrrps vips].
  assert ((alter stop_vrrp i (vrrps r)) !! i = Some (stop_vrrp t)) as Hold by (by rewrite list_lookup_alter_eq, Ht).
  split; [by apply lookup_snoc_keeps|].
  eexists _, _, t', c. rewrite lookup_insert_eq. split; [done|]. cbn [e_spec e_vrrp].
  split_and!; try done; [|apply lookup_snoc_new].
  apply lookup_lt_Some in Hold. lia.
Qed.

End Registry.

(** ** A run and its continuation *)

Lemma run_running p s ts acts st : run p s ts = (acts, Running st) ->
  run_loop p s ts = (acts, Running st).
Proof. unfold run. destruct (run_loop p s ts) as [a []]; congruence. Qed.

Lemma run_loop_more p s ts ts' acts st : run_loop p s ts = (acts, Running st) ->
  exists ip, interface_ipv4 s = Some ip
    /\ run_loop p s (ts ++ ts') = let '(a, o) := turns p ip st ts' in (acts ++ a, o).
Proof.
  unfold run_loop. destruct (interface_ipv4 s) as [ip|]; [|done]. intros E. exists ip. split; [done|].
  destruct (sockets_ready s); [|done]. cbn [negb] in *. destruct (loop_start p s) as [a0 st0].
  rewrite turns_app. destruct (turns p ip st0 ts) as [a1 o]. destruct o; simplify_eq.
  destruct (turns p ip st ts') as [a2 o2]. by rewrite app_assoc.
Qed.

(** The rest of a run, from a run that goes on. *)
Lemma rest_held p s ts ts' acts st : run_loop p s ts = (acts, Running st) ->
  exists rest, run_loop p s (ts ++ ts') = (acts ++ rest, (run_loop p s (ts ++ ts')).2)
    /\ alternating (is_master st) rest = true
    /\ held false (acts ++ rest) = held (is_master st) rest.
Proof.
  intros E. destruct (run_loop_more p s ts ts' acts st E) as (ip & _ & E').
  pose proof (turns_held p ip st ts') as H. rewrite E'. destruct (turns p ip st ts') as [a o].
  exists a. pose proof (run_loop_held p s ts) as Hh. rewrite E in Hh. destruct H as [Ha _], Hh as [_ Hh].
  by rewrite held_app, Hh.
Qed.




Section Threads.
  Context `{R : Reqwest} `{J : StateJson}.
  Context {S : Type} `{L : Lawful S}.


(** ** A restart *)

Lemma perform_same p p' acts (k : S) : p_vip p = p_vip p' -> p_iface p = p_iface p' ->
  perform p acts k = perform p' acts k.
Proof.
  intros E1 E2. unfold perform. revert k. induction acts as [|[] acts IH]; intros k; cbn; auto; by rewrite IH, E1, E2.
Qed.

(** The parameters of a restarted thread, on the same address and interface. *)
Lemma restart_params s s' c c' core core' t t' v v' :
  check s = inr c -> check s' = inr c' ->
  vrrp_task s (c_vrrp_vip c) core = Some t -> vrrp_task s' (c_vrrp_vip c') core' = Some t' ->
  vvrrp s = Some v -> vvrrp s' = Some v' -> address s' = address s -> interface v' = interface v ->
  p_vip (t_params t) = p_vip (t_params t') /\ p_iface (t_params t) = p_iface (t_params t')
  /\ p_priority (t_params t') = vs_priority v' /\ ipv4_ok (p_vip (t_params t')).
Proof.
  intros Hc Hc' Ht Ht' Hv Hv' Ha Hi. pose proof (task_vip_ok _ _ _ _ Hc' Ht') as Hok.
  destruct (check_vrrp_vip _ _ _ Hc Hv) as (ip & Ei & Ep & _), (check_vrrp_vip _ _ _ Hc' Hv') as (ip' & Ei' & Ep' & _).
  apply vrrp_task_inv in Ht as (w & jp & Ew & Ej & Ejp & Eif & _).
  apply vrrp_task_inv in Ht' as (w' & jp' & Ew' & Ej' & Ejp' & Eif' & Epr & _).
  split_and!; try done; congruence.
Qed.


(** What the registry starts and stops in such an update. *)
Lemma restart_tasks ok file disk env name s fc r r' e b i v v' :
  reaches ok file disk r -> stable env -> vips r !! name = Some e -> e_vrrp e = Some i ->
  vvrrp (e_spec e) = Some v -> vvrrp s = Some v' -> v <> v' ->
  address s = address (e_spec e) -> interface v' = interface v -> put env name s fc r = (r', inr b) ->
  exists t e' j t', vrrps r !! i = Some t /\ vrrps r' !! i = Some (stop_vrrp t)
    /\ vips r' !! name = Some e' /\ e_vrrp e' = Some j /\ vrrps r' !! j = Some t' /\ t_stopped t' = false
    /\ p_vip (t_params t) = p_vip (t_params t') /\ p_iface (t_params t) = p_iface (t_params t')
    /\ p_priority (t_params t') = vs_priority v' /\ ipv4_ok (p_vip (t_params t'))
    /\ (spec_typed s -> params_ok (t_params t')).
Proof.
  intros Hr Hst He Hi Hv Hv' Hne Ha Hif' Hput.
  pose proof (reaches_inv _ _ _ _ Hr) as Hinv. pose proof Hinv as (H1 & _).
  destruct (H1 _ _ He) as (_ & _ & c & core & _ & _ & Hck & _ & _ & _ & _ & _ & _ & _ & Htk). rewrite Hi in Htk.
  destruct Htk as (t & Htk & Ht).
  destruct (put_restarts ok env name s fc r r' e i t v' b Hst Hinv He Hi Ht Hv' ltac:(congruence) Hput)
    as (Hold & e' & j & t' & c' & He' & Hs' & Hj & _ & Hck' & Htk' & Hnew).
  destruct (restart_params _ _ _ _ _ _ _ _ _ _ Hck Hck' Htk Htk' Hv Hv' Ha Hif') as (Evip & Eif & Epr & Hok).
  exists t, e', j, t'. split_and!; try done; [by apply vrrp_task_inv in Htk' as (? & ? & _ & _ & _ & _ & _ & _ & ?)|].
  intros Hty. exact (vrrp_task_params s c' _ t' Hty (proj1 (check_acceptable _ _ Hty) Hck') Htk').
Qed.


(** A restart of the address owner takes the address off the air: with a priority
    of 255 the new thread starts as Master and claims the address before the old
    one has seen its flag (the kernel says it is there already); then the old one
    resigns and deletes it, and the new one, Master until it resigns, never looks
    again. *)
Theorem restart_drops_owner_vip ok file disk env name s fc r r' e b i v v' (k : S) :
  reaches ok file disk r -> stable env -> vips r !! name = Some e -> e_vrrp e = Some i ->
  vvrrp (e_spec e) = Some v -> vvrrp s = Some v' -> v <> v' ->
  address s = address (e_spec e) -> interface v' = interface v -> vs_priority v' = 255 ->
  put env name s fc r = (r', inr b) ->
  exists t e' j t', vrrps r !! i = Some t /\ vrrps r' !! i = Some (stop_vrrp t)
    /\ vips r' !! name = Some e' /\ e_vrrp e' = Some j /\ vrrps r' !! j = Some t' /\ t_stopped t' = false
    /\ let p := t_params t in let p' := t_params t' in
       let on acts := holds (perform p' acts k) (p_iface p') (p_vip p') in
       forall setup ts acts st t2 setup' ip',
         has_iface k (p_iface p') -> on [] = false ->
         run p setup ts = (acts, Running st) -> stop t2 = true ->
         VrrpLoop.interface_ipv4 setup' = Some ip' -> sockets_ready setup' = true ->
         healthy_at_start setup' = true ->
         exists young last st', run p' setup' [] = (young, Running st') /\ is_master st' = true
           /\ run p setup (ts ++ [t2]) = (acts ++ last, Stopped)
           /\ (is_master st = true -> on (acts ++ young ++ last) = false
                /\ forall later more st'', run p' setup' later = (young ++ more, Running st'') ->
                     existsb is_release more = false ->
                     is_master st'' = true /\ on (acts ++ young ++ last ++ more) = false).
Proof.
  intros Hr Hst He Hi Hv Hv' Hne Ha Hif' Hpr Hput.
  destruct (restart_tasks _ _ _ _ _ _ _ _ _ _ _ _ _ _ Hr Hst He Hi Hv Hv' Hne Ha Hif' Hput)
    as (t & e' & j & t' & Ht & Hold & He' & Hj & Hnew & Hrun' & Evip & Eif & Epr & Hok & _).
  exists t, e', j, t'. split_and!; try done.
  intros p p' on setup ts acts st t2 setup' ip' Hif H0 Hrun Hs2 Hip Hsk Hh.
  apply run_running in Hrun. destruct (run_loop_more p setup ts [t2] acts st Hrun) as (ip & _ & Er).
  cbn [turns] in Er. rewrite stop_resigns in Er by done.
  assert (exists st', run p' setup' [] = ([SetState Master; Claim], Running st') /\ is_master st' = true)
    as (st' & Ey & Hm).
  { unfold run, run_loop. rewrite Hip, Hsk. cbn [negb]. unfold loop_start, start. cbn [priority Vrrp.new].
    replace (p_priority p') with 255 by (unfold p'; congruence). rewrite Hh. cbn. by eexists. }
  set (last := (if is_master st then [send p ip 0; Release] else []) ++ [SetState Initialize]).
  exists [SetState Master; Claim], last, st'. split; [done|]. split; [done|].
  split; [unfold run; rewrite Er; unfold last; by rewrite <- app_assoc|]. intros Hold_master.
  assert (forall x, calls_nothing x = true -> on (acts ++ [SetState Master; Claim] ++ last ++ x) = false) as Hon.
  { intros x Hx. unfold on.
    destruct (perform_holds p' (acts ++ [SetState Master; Claim] ++ last ++ x) Hok k Hif) as [_ Hy].
    unfold on in H0. cbn in H0. rewrite Hy, bool_decide_true, H0, !held_app by done.
    rewrite held_idle by done. unfold last. by rewrite Hold_master. }
  split; [rewrite <- (app_nil_r last); by apply Hon|].
  intros later more st'' Hl Hnr. apply run_running in Hl.
  pose proof (run_loop_held p' setup' later) as Hx. rewrite Hl, alternating_app in Hx. destruct Hx as [Hx Hy].
  apply andb_true_iff in Hx as [_ Hx]. cbn in Hx. pose proof (alternating_no_release more Hx Hnr) as Hn.
  split; [|by apply Hon]. rewrite <- Hy, held_app. cbn. by apply held_idle.
Qed.

(** A process that ends takes nothing down.  No signal is handled and [main] never
    calls [stop_all], so the thread of a Master is cut off where it is: the address
    stays on the interface, and the thread of the next process leaves it there for
    as long as it has not claimed it itself, that is, for as long as it is Backup,
    while another node is Master. *)
Theorem killed_master_keeps_address p s ts acts st s' ts' (k : S) :
  ipv4_ok (p_vip p) -> has_iface k (p_iface p) -> holds k (p_iface p) (p_vip p) = false ->
  run p s ts = (acts, Running st) -> is_master st = true ->
  let '(acts', o) := run p s' ts' in
  existsb is_claim acts' = false ->
  holds (perform p (acts ++ acts') k) (p_iface p) (p_vip p) = true
  /\ match o with Running st' => is_master st' = false | _ => True end.
Proof.
  intros Hv Hif H0 Hr Hm. apply run_running in Hr. pose proof (run_loop_held p s ts) as Hl. rewrite Hr in Hl.
  destruct Hl as [_ Hl]. pose proof (run_loop_held p s' ts') as Hl'. unfold run.
  destruct (run_loop p s' ts') as [acts' o]. destruct Hl' as [Ha Ho].
  assert (forall x, calls_nothing x = true -> holds (perform p (acts ++ x) k) (p_iface p) (p_vip p) = true) as Hx.
  { intros x Hx. destruct (perform_holds p (acts ++ x) Hv k Hif) as [_ Hh].
    by rewrite Hh, bool_decide_true, H0, held_app, Hl, Hm, held_idle. }
  assert (existsb is_claim acts' = false -> calls_nothing acts' = true) as Hc by (by apply alternating_no_claim).
  assert (calls_nothing acts' = true -> calls_nothing (acts' ++ [SetState Initialize]) = true) as Hc'.
  { intros Hi. unfold calls_nothing in *. by rewrite forallb_app, Hi. }
  destruct o as [st'| | |]; try done; intros Hn.
  - split; [by apply Hx, Hc|]. rewrite <- Ho. by apply held_idle, Hc.
  - rewrite existsb_claim_app in Hn. apply orb_false_iff in Hn as [Hn _]. split; [by apply Hx, Hc', Hc|done].
  - rewrite existsb_claim_app in Hn. apply orb_false_iff in Hn as [Hn _]. split; [by apply Hx, Hc', Hc|done].
Qed.

End Threads.

(** ** An example, over the kernel of [Controller] *)

#[local] Existing Instance demo_reqwest.
#[local] Existing Instance demo_json.
#[local] Existing Instance demo_kernel.
#[local] Existing Instance demo_rtnetlink.








