(* ===== verification/Serving.v ===== *)
(** * What a VIP's listener does with a connection

    The registry of [src/src/vips.rs], the health loop of [src/src/health.rs], the
    pool of [src/src/pool.rs] and the balancer of [src/src/balancer.rs] put
    together: whatever was applied, removed and loaded before, a connection
    accepted on an address goes to a backend of the VIP that has this address, as
    it is specified now, that passed the last turn of the checks specified now. *)

From S2P Require Import Prelude Str Metrics Net Config Pool Health Vips Balancer.

Local Open Scope Z_scope.

Section Serving.
  Context `{R : Reqwest} `{J : StateJson}.

(** Every checker came about by [Checker_new] and [set_spec]. *)
Definition came_about (c : Core) : Prop := exists rf, checker_for rf (checker c).

Definition checkers_ok (r : Registry) : Prop := forall i c, cores r !! i = Some c -> came_about c.

Lemma checkers_insert (cs : list Core) i c :
  (forall j c', cs !! j = Some c' -> came_about c') -> came_about c ->
  forall j c', <[i := c]> cs !! j = Some c' -> came_about c'.
Proof.
  intros H Hc j c' Hj. apply list_lookup_insert_Some in Hj as [(_ & <- & _)|[_ Hj]]; [done|by eapply H].
Qed.

Lemma checkers_drop e r : checkers_ok r -> checkers_ok (drop_entry e r).
Proof.
  intros H i c. destruct (drop_entry_fields e r) as (_ & _ & -> & _). intros Hc.
  destruct (decide (e_core e = i)) as [<-|Hne].
  - rewrite list_lookup_alter_eq in Hc. destruct (cores r !! e_core e) as [c0|] eqn:E; [|done].
    injection Hc as <-. exact (H _ _ E).
  - rewrite list_lookup_alter_ne in Hc by done. by eapply H.
Qed.

Lemma checkers_same r r' : cores r' = cores r -> checkers_ok r -> checkers_ok r'.
Proof. unfold checkers_ok. by intros ->. Qed.

Lemma checkers_put env name s fc r : checkers_ok r -> checkers_ok (put env name s fc r).1.
Proof.
  intros H. unfold put. destruct (Vips.check s) as [|c]; [done|]. destruct (other_on _ _ _); [done|].
  destruct (vips r !! name) as [e|].
  - unfold update. destruct (client (fs env) (vhealth s)); [done|]. destruct (negb _ && negb _); [done|].
    destruct (cores r !! e_core e) as [core|] eqn:Ec; [|done].
    destruct (update_listener name (c_listen c) e r) as [e1 r1] eqn:Eu.
    apply update_listener_fields in Eu as (_ & _ & _ & _ & _ & Ec1 & _).
    destruct (set_addrs _ _ _) as [p h]. destruct (H _ _ Ec) as [rf Hrf].
    destruct (set_spec (fs_again env) (vhealth s) (checker core)) as [ck err] eqn:Es.
    assert (exists rf, checker_for rf ck) as Hck.
    { destruct err; [exists rf; by eapply checker_refused|eexists; by eapply checker_set]. }
    assert (checkers_ok (set_cores h (<[e_core e1 := {| pool := p; checker := ck; health_aborted := health_aborted core |}]>
      (cores r1)) r1)) as H2 by (intros i c'; cbn; rewrite Ec1; by apply checkers_insert).
    destruct err; [exact H2|]. destruct (update_vrrp _ _ _ _) as [e2 r2] eqn:Ev.
    apply update_vrrp_fields in Ev as (_ & _ & _ & _ & _ & Ec2 & _). cbn. eapply checkers_same; [|exact H2].
    cbn in Ec2 |- *. exact Ec2.
  - unfold create. destruct (Checker_new (fs env) (vhealth s)) as [|ck] eqn:Eck; [done|].
    destruct (negb _); [done|]. destruct (Pool_new _ _) as [p h]. destruct (start_vrrp _ _ _ _).
    intros i c'. cbn. intros Hi. apply lookup_snoc_inv in Hi as [Hi|[_ ->]]; [by eapply H|].
    exists (fs env). by eapply checker_new.
Qed.

Lemma checkers_load envs l : forall r, checkers_ok r -> checkers_ok (load_all envs l r).1.
Proof.
  induction l as [|[n s] l IH]; intros r H; cbn [load_all]; [done|].
  pose proof (checkers_put (envs n) n s false r H) as Hp. destruct (put _ _ _ _ _) as [r1 [e|b]].
  - apply IH. by eapply checkers_same.
  - specialize (IH r1 Hp). by destruct (load_all envs l r1).
Qed.

Lemma checkers_save env r : checkers_ok r -> checkers_ok (save env r).1.
Proof.
  intros H. destruct (save env r) as [r' o] eqn:E. apply save_keeps in E as [E _]. cbn. rewrite E.
  by eapply checkers_same.
Qed.

Lemma checkers_step ok r r' : step ok r r' -> checkers_ok r -> checkers_ok r'.
Proof.
  destruct 1; intros Hr.
  - by apply checkers_put.
  - unfold apply. destruct (negb (valid_name name)); [done|]. destruct (is_config name r); [done|].
    pose proof (checkers_put env name s false r Hr) as Hp. destruct (put env name s false r) as [r1 [e|b]]; [done|].
    pose proof (checkers_save env (set_pending (delete name (pending r1)) r1) ltac:(by eapply checkers_same)) as Hs.
    by destruct (save env _) as [r2 [e|]].
  - unfold remove. destruct (vips r !! name) as [e|].
    + destruct (from_config e); [done|]. apply checkers_save, checkers_drop. by eapply checkers_same.
    + destruct (pending r !! name); [|done]. apply checkers_save. by eapply checkers_same.
  - unfold load_state. destruct (state_file r); [|done]. destruct (files r !! _); [|done].
    destruct readable; [|done]. cbn [negb]. destruct (from_json _) as [saved|]; [|done].
    pose proof (checkers_load envs (btree saved) r Hr) as Hl. by destruct (load_all envs (btree saved) r).
  - unfold stop_all. generalize (reverse (btree (vips r))). intros l.
    induction l as [|ne l IH]; cbn [foldr]; [by eapply checkers_same|by apply checkers_drop].
  - by eapply checkers_same.
  - intros j c'. cbn. apply checkers_insert; [done|]. exact (Hr i c H).
  - intros j c'. cbn. apply checkers_insert; [done|].
    destruct (Hr i c H) as [rf Hrf]. exists rf. by apply checker_wake.
  - intros j c'. cbn. apply checkers_insert; [done|].
    destruct (Hr i c H) as [rf Hrf]. exists rf. exact (checker_round rf _ net (pool c) (heap r) Hrf).
Qed.

Lemma reaches_checkers ok file disk r : reaches ok file disk r -> checkers_ok r.
Proof. induction 1 as [|r r' _ IH Hs]; [by intros i c; cbn; rewrite lookup_nil|by eapply checkers_step]. Qed.

(** ** Members and addresses *)

(** A pool of the addresses [l]: its members are at them. *)
Lemma member_at p h l m : member_addrs p h = Some <$> nub [] l -> m ∈ backends p ->
  exists b, h !! m = Some b /\ addr b ∈ l.
Proof.
  intros E Hm. assert (addr_at h m ∈ member_addrs p h) as H.
  { rewrite member_addrs_eq. apply list_elem_of_fmap. eauto. }
  rewrite E in H. apply list_elem_of_fmap in H as (a & Ea & Ha). apply elem_of_nub in Ha as [Ha _].
  unfold addr_at in Ea. destruct (h !! m) as [b|]; [|done]. exists b. split; [done|]. by injection Ea as ->.
Qed.

Lemma at_member p h l a : member_addrs p h = Some <$> nub [] l -> a ∈ l ->
  exists m b, m ∈ backends p /\ h !! m = Some b /\ addr b = a.
Proof.
  intros E Ha. assert (Some a ∈ member_addrs p h) as H.
  { rewrite E. apply list_elem_of_fmap. exists a. split; [done|]. apply elem_of_nub. set_solver. }
  rewrite member_addrs_eq in H. apply list_elem_of_fmap in H as (m & Em & Hm). unfold addr_at in Em.
  destruct (h !! m) as [b|] eqn:Eb; [|done]. exists m, b. by injection Em as ->.
Qed.

(** After a turn of its health loop: which members are healthy, by address. *)
Lemma round_by_address rf net p ck h l : checker_for rf ck -> member_addrs p h = Some <$> nub [] l ->
  exists roots, (mode (spec ck) <> Tcp -> roots_of rf (spec ck) roots)
  /\ forall m, m ∈ backends p -> exists b, (round net p ck h).1 !! m = Some b /\ addr b ∈ l
       /\ (healthy b = true <-> passes net (spec ck) roots (addr b)).
Proof.
  intros Hck E. destruct (check_passes net rf (spec ck) (http ck) (checker_client _ _ Hck)) as (roots & Hr & Hp).
  exists roots. split; [done|]. intros m Hm. destruct (member_at _ _ _ _ E Hm) as (b & Hb & Ha).
  cbn [round fst]. rewrite probe_all_lookup, decide_True, Hb by done. eexists. split; [done|]. split; [done|]. apply Hp.
Qed.

(** A backend of a heap that differs only in health. *)
Lemma round_at_address net p ck h l a : member_addrs p h = Some <$> nub [] l -> a ∈ l ->
  exists m b, m ∈ backends p /\ (round net p ck h).1 !! m = Some b /\ addr b = a.
Proof.
  intros E Ha. destruct (at_member _ _ _ _ E Ha) as (m & b & Hm & Hb & <-). exists m. cbn [round fst].
  rewrite probe_all_lookup, decide_True, Hb by done. by eexists.
Qed.

(** C12: A VIP serves its own backends, checked.  In a registry as any operations
    have left it, a running accept loop belongs to the VIP of its name, and listens
    where a valid spec [s'] says: the VIP's own, unless the CA file changed between
    the two reads of an update, which is then refused with its listener and backends
    in force and its checks not.  After a turn of the VIP's health loop, a connection
    it accepts is proxied to an address among the backends of [s'] that passes the
    checks of the VIP's spec and can be dialled; or dropped because the picked one,
    which passes, cannot be dialled; or dropped because none of the backends passes
    (as long as the round-robin counter is not within a pool's length of 2^64, where
    the scan's sum overflows).  And the VRRP thread and the API see a healthy VIP
    exactly when some backend passes. *)
Theorem vip_serves_checked_backends ok file disk r i sv net :
  reaches ok file disk r -> serves r !! i = Some sv -> s_aborted sv = false ->
  exists e s' c core rf roots,
    vips r !! s_vip sv = Some e /\ e_serve e = i
    /\ ((forall env, ok env -> stable env) -> s' = e_spec e) /\ (exists c0, Vips.check (e_spec e) = inr c0)
    /\ Vips.check s' = inr c /\ c_listen c = s_listen sv /\ cores r !! s_core sv = Some core
    /\ (mode (vhealth (e_spec e)) <> Tcp -> roots_of rf (vhealth (e_spec e)) roots)
    /\ let h := (round net (pool core) (checker core) (heap r)).1 in
       let good a := a ∈ c_backends c /\ passes net (vhealth (e_spec e)) roots a in
       ((0 < healthy_count (pool core) h)%nat <-> exists a, good a)
       /\ (next (pool core) + Z.of_nat (length (backends (pool core))) <= 18446744073709551616 ->
           forall connects,
           let '(_, s, _) := serve_one (s_vip sv) connects h (pool core) in
           match s with
           | Proxied l => exists a, addr_at h l = Some a /\ good a /\ connects a = true
           | ConnectFailed l => exists a, addr_at h l = Some a /\ good a /\ connects a = false
           | NoBackend => forall a, ~ good a
           end).
Proof.
  intros Hr Hsv Hlive. pose proof (reaches_inv _ _ _ _ Hr) as (H1 & _ & H3 & _).
  destruct (H3 i sv Hsv Hlive) as (n & e & He & Hi).
  destruct (H1 n e He) as (s' & c & c0 & core & Hs' & Hc & Hc0 & Hl & Hcore & _ & Hsp & Hpool & Hm & Hs & _).
  rewrite Hi, Hsv in Hs. injection Hs as ->. cbn [s_vip s_listen s_core].
  destruct (reaches_checkers _ _ _ _ Hr _ _ Hcore) as [rf Hrf].
  destruct (round_by_address rf net _ _ _ _ Hrf Hm) as (roots & Hroots & Hmem).
  rewrite Hsp in Hroots, Hmem.
  exists e, s', c, core, rf, roots. do 3 (split; [done|]). split; [by exists c0|]. do 4 (split; [done|]).
  set (h := (round net (pool core) (checker core) (heap r)).1) in *.
  pose (good := fun a => a ∈ c_backends c /\ passes net (vhealth (e_spec e)) roots a).
  assert (forall l, l ∈ backends (pool core) -> is_healthy h l = true ->
    exists a, addr_at h l = Some a /\ good a) as Hgood.
  { intros l Hl' Hh. destruct (Hmem l Hl') as (b & Hb & Ha & Hp). unfold is_healthy in Hh.
    rewrite Hb in Hh. exists (addr b). unfold addr_at. rewrite Hb. split; [done|]. split; [done|by apply Hp]. }
  assert (forall a, good a -> exists l, l ∈ backends (pool core) /\ is_healthy h l = true) as Hback.
  { intros a [Ha Hp]. destruct (round_at_address net _ (checker core) _ _ a Hm Ha) as (l & b & Hl' & Hb & Hab).
    exists l. split; [done|]. fold h in Hb. destruct (Hmem l Hl') as (b' & Hb' & _ & Hp').
    unfold is_healthy. rewrite Hb. rewrite Hb in Hb'. injection Hb' as <-. apply Hp'. by rewrite Hab. }
  split.
  - unfold healthy_count. split.
    + intros Hlen. destruct (List.filter (is_healthy h) (backends (pool core))) as [|l ls] eqn:Ef; [cbn in Hlen; lia|].
      assert (List.In l (List.filter (is_healthy h) (backends (pool core)))) as Hin by (rewrite Ef; by left).
      apply List.filter_In in Hin as [Hin Hh]. apply list_elem_of_In in Hin.
      destruct (Hgood l Hin Hh) as (a & _ & Hg). by exists a.
    + intros (a & Hg). destruct (Hback a Hg) as (l & Hl' & Hh).
      assert (List.In l (List.filter (is_healthy h) (backends (pool core)))) as Hin
        by (apply List.filter_In; split; [by apply list_elem_of_In|done]).
      destruct (List.filter _ _); [done|cbn; lia].
  - intros Hb connects. pose proof (serve_one_spec n connects h (pool core)) as Hspec.
    destruct (serve_one n connects h (pool core)) as [[p' s] cs].
    destruct Hspec as [Hw _]; [apply Hpool|done|].
    destruct s as [|l|l]; cbn [serves_well met_heap met_connects met_members] in Hw.
    + intros a Hg. destruct (Hback a Hg) as (l & Hl' & Hh). rewrite list.Forall_forall in Hw.
      rewrite (Hw l Hl') in Hh. done.
    + destruct Hw as (Hin & Hh & Hd). destruct (Hgood l Hin Hh) as (a & Ha & Hg). exists a. split; [done|]. split; [done|].
      unfold dials, addr_at in *. destruct (h !! l); [|done]. by injection Ha as <-.
    + destruct Hw as (Hin & Hh & Hd). destruct (Hgood l Hin Hh) as (a & Ha & Hg). exists a. split; [done|]. split; [done|].
      unfold dials, addr_at in *. destruct (h !! l); [|done]. by injection Ha as <-.
Qed.

End Serving.

(** ** An example *)

#[local] Existing Instance demo_reqwest.
#[local] Existing Instance demo_json.

(** Every check answers 200. *)
Definition demo_up : NetEnv demo_reqwest :=
  {| read_file _ := None; tcp_connects _ _ := true; Health.get _ _ := Some 200 |}.

Lemma vip_serves_checked_backends_witness :
  exists core, cores demo_reg !! 0%nat = Some core
    /\ let h := (round demo_up (pool core) (checker core) (heap demo_reg)).1 in
       exists l p cs, serve_one (lit "web") (fun _ => true) h (pool core) = (p, Proxied l, cs)
         /\ addr_at h l = Some (SockAddr (V4 (Ipv4 10 0 0 7)) 6443).
Proof.
  assert (reaches stable (Some demo_path) ∅ demo_reg) as Hr.
  { eapply reaches_step; [apply reaches_new|]. apply step_apply. reflexivity. }
  destruct (serves demo_reg !! 0%nat) as [sv|] eqn:Es; [|vm_compute in Es; discriminate].
  assert (s_aborted sv = false /\ s_core sv = 0%nat /\ s_vip sv = lit "web") as (H1 & H2 & H3)
    by (vm_compute in Es; injection Es as <-; split_and!; reflexivity).
  destruct (vip_serves_checked_backends stable (Some demo_path) ∅ demo_reg 0 sv demo_up Hr Es H1)
    as (e & s' & c & core & rf & roots & He & _ & Hs' & _ & Hc & _ & Hcore & _ & H).
  rewrite H2 in Hcore. exists core. split; [exact Hcore|]. intros h. cbv zeta in H. destruct H as [_ H].
  rewrite H3 in He, H.
  assert (e_spec e = demo_spec1) as Ee by (vm_compute in He; injection He as <-; reflexivity).
  rewrite (Hs' ltac:(done)), Ee in Hc. vm_compute in Hc. injection Hc as <-. cbn [c_backends] in H.
  assert (serve_one (lit "web") (fun _ => true) h (pool core)
          = ((pick (pool core) h).2, Proxied 0, [vip_count "stormlb_vip_connections_total" (lit "web")])) as E
    by (unfold h; vm_compute in Hcore; injection Hcore as <-; vm_compute; reflexivity).
  exists 0%nat. do 2 eexists. split; [exact E|].
  specialize (H ltac:(vm_compute in Hcore; injection Hcore as <-; vm_compute; discriminate) (fun _ => true)).
  fold h in H. rewrite E in H. destruct H as (a & Ha & [Hin _] & _).
  rewrite Ha. apply list_elem_of_singleton in Hin as ->. reflexivity.
Defined.
