(* ===== verification/Tls.v ===== *)
(** * The router's certificates ([src/src/tls.rs])

    [Certs] holds each configured pair as last loaded; [reload] re-reads what
    changed, [pick] answers a handshake.  X.509, keys and PEM are the libraries'
    (the interface [Pki]); the files are an argument. *)

From S2P Require Import Prelude Str Metrics Config.

(** What rustls, webpki and the PEM reader provide.  A chain or a key file reads
    to an error, or what it holds. *)
Class Pki := {
  Cert : Type;
  PrivateKey : Type;
  Signer : Type;
  ServerName : Type;
  server_name : str -> option ServerName;                 (* [ServerName::try_from] *)
  any_supported_type : PrivateKey -> str + Signer;
  keys_match : list Cert -> Signer -> option str;          (* [None]: they match *)
  end_entity : Cert -> option str;                         (* [None]: webpki parses it *)
  valid_for : Cert -> ServerName -> bool }.                (* [verify_is_valid_for_subject_name] *)

Section Tls.
  Context `{P : Pki}.

Record CertifiedKey := { chain : list Cert; signer : Signer }.

(** A file's modification time. *)
Abbreviation Stamp := (prod (option Z) (option Z)) (only parsing).

Record Loaded := { leaf : Cert; key : CertifiedKey; stamp : Stamp }.

Record Certs := { pairs : list CertPair; loaded : list (option Loaded); errors : list (option str) }.

(** The files as one check finds them: times, and what reading gives.  A chain
    is the error of opening it, or of one of its certificates, or the chain. *)
Record Files := {
  mtime : str -> option Z;
  pem_chain : str -> str + (str + list Cert);
  pem_key : str -> str + PrivateKey }.

(** [{e:#}] of an error with its context. *)
Definition context (what e : str) : str := what ++ lit ": " ++ e.

Definition load (fs : Files) (p : CertPair) : str + Cert * CertifiedKey :=
  match pem_chain fs (cert_file p) with
  | inl e => inl (context (lit "reading " ++ cert_file p) e)
  | inr (inl e) => inl (context (lit "parsing " ++ cert_file p) e)
  | inr (inr []) => inl (cert_file p ++ lit ": no certificate in it")
  | inr (inr ((leaf :: _) as chain)) =>
      match pem_key fs (key_file p) with
      | inl e => inl (context (lit "reading the key " ++ key_file p) e)
      | inr k =>
          match any_supported_type k with
          | inl e => inl (context (key_file p) e)
          | inr s =>
              match keys_match chain s with
              | Some e => inl (context (key_file p ++ lit " does not belong to " ++ cert_file p) e)
              | None =>
                  match end_entity leaf with
                  | Some e => inl (context (cert_file p) e)
                  | None => inr (leaf, {| chain := chain; signer := s |})
                  end
              end
          end
      end
  end.

Definition reloads (result : string) : Count :=
  {| metric := "stormlb_router_tls_reloads_total"; labels := [("result", lit result)]%string |}.

(** What a check does of one pair: its slot and last error after it, and what
    it counts. *)
Definition reload_one (fs : Files) (p : CertPair) (slot : option Loaded) (err : option str)
    : option Loaded * option str * list Count :=
  let st := (mtime fs (cert_file p), mtime fs (key_file p)) in
  if bool_decide (stamp <$> slot = Some st) then (slot, err, []) else
  match load fs p with
  | inr (l, k) => (Some {| leaf := l; key := k; stamp := st |}, None, [reloads "ok"])
  | inl msg => if bool_decide (err = Some msg) then (slot, err, []) else (slot, Some msg, [reloads "error"])
  end.

(** The loop over the pairs; the outer option is an index out of range. *)
Fixpoint reload_loop (fs : Files) (i : nat) (ps : list CertPair) (c : Certs)
    : option (Certs * list Count) :=
  match ps with
  | [] => Some (c, [])
  | p :: ps =>
      slot ← loaded c !! i; err ← errors c !! i;
      let '(slot, err, cs) := reload_one fs p slot err in
      '(c, cs') ← reload_loop fs (S i) ps
        {| pairs := pairs c; loaded := <[i := slot]> (loaded c); errors := <[i := err]> (errors c) |};
      Some (c, cs ++ cs')
  end.

Definition cert_count (c : Certs) : nat := length (List.filter (fun l => bool_decide (is_Some l)) (loaded c)).

(** [reload]: the certificates after it, the counts, and how many are loaded,
    which is also what the gauge is set to. *)
Definition reload (fs : Files) (c : Certs) : option (Certs * list Count * nat) :=
  '(c, cs) ← reload_loop fs 0 (pairs c) c;
  Some (c, cs, cert_count c).

Definition Certs_new (fs : Files) (ps : list CertPair) : option (Certs * list Count * nat) :=
  reload fs {| pairs := ps; loaded := replicate (length ps) None; errors := replicate (length ps) None |}.

(** The pairs loaded, in order. *)
Definition present (c : Certs) : list Loaded := omap id (loaded c).

Definition suits (name : ServerName) (l : Loaded) : bool :=
  match end_entity (leaf l) with None => valid_for (leaf l) name | Some _ => false end.

Definition pick (c : Certs) (sni : option str) : option CertifiedKey :=
  let first := key <$> head (present c) in
  match (s ← sni; server_name s) with
  | Some name => match List.find (suits name) (present c) with Some l => Some (key l) | None => first end
  | None => first
  end.

(** [resolve] of the [ServerConfig]: the answer to a client's hello. *)
Definition resolve (c : Certs) (server_name : option str) : option CertifiedKey := pick c server_name.

(** [server_config]: no client certificates, HTTP/1.1 only. *)
Record ServerConfig := { resolver : Certs; client_auth : bool; alpn_protocols : list (list Z) }.

Definition server_config (c : Certs) : ServerConfig :=
  {| resolver := c; client_auth := false; alpn_protocols := [lit "http/1.1"] |}.

(** Checks, one after another; [None] a panic. *)
Fixpoint reloads_all (fss : list Files) (c : Certs) : option Certs :=
  match fss with
  | [] => Some c
  | fs :: fss => '(c, _, _) ← reload fs c; reloads_all fss c
  end.

(** ** Specification *)

(** A loaded pair passed every check of [load]. *)
Definition loaded_ok (l : Loaded) : Prop :=
  head (chain (key l)) = Some (leaf l) /\ keys_match (chain (key l)) (signer (key l)) = None
  /\ end_entity (leaf l) = None.

Definition certs_ok (c : Certs) : Prop :=
  length (loaded c) = length (pairs c) /\ length (errors c) = length (pairs c)
  /\ Forall (fun s => match s with Some l => loaded_ok l | None => True end) (loaded c).

(** What a check makes of a pair's slot: kept when the files did not change or do
    not load, else the pair as it loads. *)
Definition checked (fs : Files) (p : CertPair) (slot : option Loaded) : option Loaded :=
  let st := (mtime fs (cert_file p), mtime fs (key_file p)) in
  if bool_decide (stamp <$> slot = Some st) then slot else
  match load fs p with
  | inr (l, k) => Some {| leaf := l; key := k; stamp := st |}
  | inl _ => slot
  end.

(** ** A check *)

Lemma load_ok fs p l k st : load fs p = inr (l, k) -> loaded_ok {| leaf := l; key := k; stamp := st |}.
Proof.
  unfold load. destruct (pem_chain fs (cert_file p)) as [|[|[|x xs]]]; try done.
  destruct (pem_key fs (key_file p)); [done|]. destruct (any_supported_type _) as [|s]; [done|].
  destruct (keys_match (x :: xs) s) eqn:Ek; [done|]. destruct (end_entity x) eqn:Ee; [done|].
  intros [= <- <-]. split; [done|]. by split.
Qed.

Lemma reload_one_slot fs p slot err : (reload_one fs p slot err).1.1 = checked fs p slot.
Proof.
  unfold reload_one, checked. cbv zeta. destruct (bool_decide _); [done|].
  destruct (load fs p) as [msg|[l k]]; [by destruct (bool_decide _)|done].
Qed.

Lemma checked_ok fs p slot :
  match slot with Some l => loaded_ok l | None => True end ->
  match checked fs p slot with Some l => loaded_ok l | None => True end.
Proof.
  unfold checked. cbv zeta. destruct (bool_decide _); [done|].
  destruct (load fs p) as [msg|[l k]] eqn:E; [done|]. intros _. by eapply load_ok.
Qed.

Lemma checked_Some fs p l : is_Some (checked fs p (Some l)).
Proof. unfold checked. cbv zeta. destruct (bool_decide _); [done|]. by destruct (load fs p) as [|[]]. Qed.

(** The loop from [i] changes the slots from [i] on, each by its own pair. *)
Lemma reload_loop_spec fs ps : forall i c,
  pairs c = take i (pairs c) ++ ps -> (i <= length (pairs c))%nat -> certs_ok c ->
  exists c' cs, reload_loop fs i ps c = Some (c', cs) /\ certs_ok c' /\ pairs c' = pairs c
    /\ loaded c' = take i (loaded c) ++ zip_with (checked fs) ps (drop i (loaded c)).
Proof.
  induction ps as [|p ps IH]; intros i c Hp Hi Hc; cbn [reload_loop].
  { exists c, []. split; [done|]. split; [done|]. split; [done|]. cbn [zip_with]. rewrite app_nil_r.
    destruct Hc as (Hl & _). rewrite take_ge; [done|]. apply (f_equal length) in Hp.
    rewrite app_nil_r, length_take in Hp. lia. }
  destruct Hc as (Hl & He & Hok). pose proof (f_equal length Hp) as Hlen.
  rewrite length_app, length_take in Hlen. cbn [length] in Hlen.
  destruct (lookup_lt_is_Some_2 (loaded c) i ltac:(lia)) as [slot Es].
  destruct (lookup_lt_is_Some_2 (errors c) i ltac:(lia)) as [err Ee].
  rewrite Es, Ee. cbn [mbind option_bind].
  pose proof (reload_one_slot fs p slot err) as Hslot.
  destruct (reload_one fs p slot err) as [[slot' err'] cs1]. cbn [fst] in Hslot. subst slot'.
  set (c1 := {| pairs := pairs c; loaded := <[i:=checked fs p slot]> (loaded c); errors := <[i:=err']> (errors c) |}).
  destruct (IH (S i) c1) as (c' & cs & -> & Hc' & Hp' & Hl').
  { unfold c1. cbn [pairs]. rewrite Hp at 1. rewrite (take_S_r (pairs c) i p); [by rewrite <- app_assoc|].
    rewrite Hp, lookup_app_r, length_take, Nat.min_l, Nat.sub_diag by (rewrite ?length_take; lia). done. }
  { unfold c1. cbn [pairs]. lia. }
  { unfold certs_ok, c1. cbn [pairs loaded errors]. rewrite !length_insert. split; [done|]. split; [done|].
    apply Forall_insert; [done|]. apply checked_ok. rewrite list.Forall_forall in Hok.
    by apply (Hok slot), list_elem_of_lookup_2 with i. }
  cbn [mbind option_bind]. exists c', (cs1 ++ cs). split; [done|]. split; [done|]. split; [by rewrite Hp'|].
  rewrite Hl'. unfold c1. cbn [loaded].
  rewrite (take_S_r _ i (checked fs p slot)) by (rewrite list_lookup_insert_eq by lia; done).
  rewrite take_insert_ge, drop_insert_lt by lia. rewrite <- app_assoc.
  rewrite (drop_S (loaded c) slot i Es). done.
Qed.

Lemma reload_total fs c : certs_ok c -> exists c' cs,
  reload fs c = Some (c', cs, cert_count c') /\ certs_ok c' /\ pairs c' = pairs c
  /\ loaded c' = zip_with (checked fs) (pairs c) (loaded c).
Proof.
  intros Hc. destruct (reload_loop_spec fs (pairs c) 0 c) as (c' & cs & E & Hc' & Hp & Hl); [done|lia|done|].
  exists c', cs. unfold reload. rewrite E. cbn [mbind option_bind]. by rewrite Hl.
Qed.

Lemma count_mono fs ps ls : length ls = length ps ->
  (length (List.filter (fun l => bool_decide (is_Some l)) ls)
   <= length (List.filter (fun l => bool_decide (is_Some l)) (zip_with (checked fs) ps ls)))%nat.
Proof.
  revert ps. induction ls as [|l ls IH]; intros [|p ps] H; try done. cbn [zip_with List.filter].
  specialize (IH ps ltac:(by injection H)). destruct l as [l|].
  - rewrite !bool_decide_true by (done || apply checked_Some). cbn [length]. lia.
  - rewrite (bool_decide_false (is_Some None)) by (by intros [? ?]).
    destruct (bool_decide _); cbn [length]; lia.
Qed.

(** C33: A check of the certificate files keeps what works.  It never panics and
    does to each pair, alone, one of three things: nothing when its files have
    the times they were loaded with; the new pair when they changed and load,
    the key matching the chain; the last good pair when they do not load.  So a
    renewal is served, also after failed checks, and the number of loaded pairs
    never goes down. *)
Theorem reload_keeps_last_good fs c :
  certs_ok c ->
  exists c' cs, reload fs c = Some (c', cs, cert_count c') /\ certs_ok c' /\ pairs c' = pairs c
    /\ (forall i p slot, pairs c !! i = Some p -> loaded c !! i = Some slot ->
          loaded c' !! i = Some (checked fs p slot))
    /\ (cert_count c <= cert_count c')%nat.
Proof.
  intros Hc. destruct (reload_total fs c Hc) as (c' & cs & E & Hc' & Hp & Hl). exists c', cs.
  split; [done|]. split; [done|]. split; [done|]. split.
  - intros i p slot Hi Hs. rewrite Hl, lookup_zip_with, Hi. cbn. by rewrite Hs.
  - unfold cert_count. rewrite Hl. apply count_mono. by destruct Hc as (-> & _).
Qed.

(** ** A handshake *)

Lemma certs_ok_start ps :
  certs_ok {| pairs := ps; loaded := replicate (length ps) None; errors := replicate (length ps) None |}.
Proof.
  unfold certs_ok. cbn. rewrite !length_replicate. split; [done|]. split; [done|].
  apply Forall_replicate. done.
Qed.

Lemma reloads_all_ok fss : forall c, certs_ok c -> exists c', reloads_all fss c = Some c' /\ certs_ok c'.
Proof.
  induction fss as [|fs fss IH]; intros c Hc; cbn [reloads_all]; [by exists c|].
  destruct (reload_total fs c Hc) as (c1 & cs & -> & Hc1 & _). cbn [mbind option_bind]. by apply IH.
Qed.

Lemma present_ok c l : certs_ok c -> l ∈ present c -> loaded_ok l.
Proof.
  intros (_ & _ & Hok). unfold present. intros (s & Hs & E)%list_elem_of_omap. unfold id in E. subst s.
  rewrite list.Forall_forall in Hok. by apply (Hok (Some l)).
Qed.

Lemma find_first {A} (f : A -> bool) l x : List.find f l = Some x ->
  exists a b, l = a ++ x :: b /\ Forall (fun y => f y = false) a /\ f x = true.
Proof.
  induction l as [|y l IH]; cbn; [done|]. destruct (f y) eqn:E.
  - intros [= ->]. by exists [], l.
  - intros H. destruct (IH H) as (a & b & -> & Ha & Hx). exists (y :: a), b. split; [done|]. by split; [constructor|].
Qed.

(** C34: A handshake gets a certificate whenever one is loaded, the right one if
    there is one, and always one whose key is its own.  After loading and any
    checks of the files: no answer only when nothing is loaded; a name that some
    loaded certificate covers gets the first that covers it, in the configured
    order; any other name, no name or a name that is none gets the first loaded. *)
Theorem handshake_certificate fs fss ps sni :
  exists c0 cs n c, Certs_new fs ps = Some (c0, cs, n) /\ reloads_all fss c0 = Some c /\ pairs c0 = ps
    /\ (pick c sni = None <-> present c = [])
    /\ forall k, pick c sni = Some k ->
         exists before l after, present c = before ++ l :: after /\ k = key l /\ loaded_ok l
           /\ match (s ← sni; server_name s) with
              | Some name => (valid_for (leaf l) name = true
                              /\ Forall (fun x => valid_for (leaf x) name = false) before)
                             \/ (before = [] /\ Forall (fun x => valid_for (leaf x) name = false) (present c))
              | None => before = []
              end.
Proof.
  destruct (reload_total fs _ (certs_ok_start ps)) as (c0 & cs & E0 & Hc0 & Hp & _).
  destruct (reloads_all_ok fss c0 Hc0) as (c & E & Hc).
  exists c0, cs, (cert_count c0), c. split; [done|]. split; [done|]. split; [done|].
  assert (forall l name, l ∈ present c -> suits name l = valid_for (leaf l) name) as Hsuits.
  { intros l name Hl. destruct (present_ok c l Hc Hl) as (_ & _ & He). unfold suits. by rewrite He. }
  unfold pick. set (name := s ← sni; server_name s). split.
  - destruct name as [nm|]; [destruct (List.find _ _) as [l|] eqn:Ef|].
    + split; [done|]. intros E1. by rewrite E1 in Ef.
    + by destruct (present c).
    + by destruct (present c).
  - intros k. destruct name as [nm|].
    + destruct (List.find (suits nm) (present c)) as [l|] eqn:Ef.
      * intros [= <-]. apply find_first in Ef as (a & b & Ea & Ha & Hl). exists a, l, b.
        assert (l ∈ present c) as Hin by (rewrite Ea; set_solver).
        split; [done|]. split; [done|]. split; [by apply (present_ok c)|]. left.
        split; [by rewrite <- Hsuits|]. rewrite list.Forall_forall in Ha |- *. intros x Hx.
        rewrite <- Hsuits; [by apply Ha|]. rewrite Ea. set_solver.
      * destruct (present c) as [|l ls] eqn:Ep; [done|]. intros [= <-]. exists [], l, ls.
        split; [done|]. split; [done|]. split; [apply (present_ok c); [done|rewrite Ep; set_solver]|].
        right. split; [done|]. apply list.Forall_forall. intros x Hx. rewrite <- Hsuits by done.
        eapply find_none in Ef; [exact Ef|]. by rewrite <- list_elem_of_In.
    + destruct (present c) as [|l ls] eqn:Ep; [done|]. intros [= <-]. exists [], l, ls.
      split; [done|]. split; [done|]. split; [apply (present_ok c); [done|rewrite Ep; set_solver]|done].
Qed.

End Tls.

(** ** A concrete PKI

    A certificate is the names it covers and a key's number. *)
Record ToyCert := { covers : list (list Z); public : Z }.

#[local] Instance toy_pki : Pki :=
  {| Cert := ToyCert; PrivateKey := Z; Signer := Z; ServerName := list Z;
     server_name := fun s => if bool_decide (s = []) then None else Some s;
     any_supported_type := fun k => if k <? 0 then inl (lit "unsupported") else inr k;
     keys_match := fun ch s => match ch with c :: _ => if public c =? s then None else Some (lit "mismatch")
                               | [] => Some (lit "empty") end;
     end_entity := fun _ => None;
     valid_for := fun c n => bool_decide (n ∈ covers c) |}.

Definition toy_a : ToyCert := {| covers := [lit "a.lan"]; public := 1 |}.
Definition toy_b (k : Z) : ToyCert := {| covers := [lit "b.lan"; lit "a.lan"]; public := k |}.
Definition toy_pairs : list CertPair :=
  [{| cert_file := lit "a.crt"; key_file := lit "a.key" |}; {| cert_file := lit "b.crt"; key_file := lit "b.key" |}].

(** The files at time [t]: pair [a] loads from time 2 on, [b]'s certificate is
    for the key [k] and its key file holds 2. *)
Definition toy_files (t k : Z) : Files :=
  {| mtime := fun _ => Some t;
     pem_chain := fun p => if bool_decide (p = lit "a.crt")
                           then (if t <? 2 then inl (lit "no such file") else inr (inr [toy_a]))
                           else inr (inr [toy_b k]);
     pem_key := fun p => inr (if bool_decide (p = lit "a.key") then 1 else 2) |}.

Definition toy_certs : Certs :=
  {| pairs := toy_pairs;
     loaded := [None; Some {| leaf := toy_b 2; key := {| chain := [toy_b 2]; signer := 2 |};
                              stamp := (Some 1, Some 1) |}];
     errors := [None; None] |}.

(** [b]'s new certificate is for another key: the last good one stays, [a] loads. *)
Lemma reload_keeps_last_good_witness :
  exists c' cs, reload (toy_files 2 7) toy_certs = Some (c', cs, 2%nat)
    /\ loaded c' !! 1%nat = loaded toy_certs !! 1%nat /\ (cert_count toy_certs <= cert_count c')%nat.
Proof.
  destruct (reload_keeps_last_good (toy_files 2 7) toy_certs) as (c' & cs & E & _ & _ & Hs & Hn).
  { split; [reflexivity|]. split; [reflexivity|]. constructor; [exact I|].
    constructor; [|constructor]. split; [reflexivity|]. split; reflexivity. }
  exists c', cs. split; [rewrite E; f_equal; f_equal; injection E as <- _; vm_compute; reflexivity|].
  split; [|exact Hn]. rewrite (Hs 1%nat _ _ eq_refl eq_refl). vm_compute. reflexivity.
Defined.

Lemma handshake_certificate_witness :
  exists c0 cs n c, Certs_new (toy_files 1 2) toy_pairs = Some (c0, cs, n)
    /\ reloads_all [toy_files 2 7] c0 = Some c
    /\ pick c (Some (lit "b.lan")) = Some {| chain := [toy_b 2]; signer := 2 |}.
Proof.
  destruct (handshake_certificate (toy_files 1 2) [toy_files 2 7] toy_pairs (Some (lit "b.lan")))
    as (c0 & cs & n & c & E0 & E & _ & _ & _).
  exists c0, cs, n, c. split; [exact E0|]. split; [exact E|].
  vm_compute in E0. injection E0 as <- <- <-. vm_compute in E. injection E as <-. vm_compute. reflexivity.
Defined.
