(* ===== verification/Http.v ===== *)
(** * HTTP/1.1 heads

    What the API ([src/src/api.rs]) and the router ([src/src/router.rs]) share:
    the end of a head in a buffer and its lines.  [http_head] is a well-formed
    head, for the theorems about what they read and write. *)

From S2P Require Import Prelude Str.

Definition crlf : list Z := [13; 10].

(** [buf.windows(4).position(|w| w == b"\r\n\r\n").map(|i| i + 4)]. *)
Fixpoint head_end (buf : list Z) : option nat :=
  match buf with
  | [] => None
  | x :: buf' => if bool_decide (take 4 buf = [13; 10; 13; 10]) then Some 4%nat
                 else S <$> head_end buf'
  end.

(** [head.split("\r\n")]: splits at each CR LF, at least one piece. *)
Fixpoint split_crlf (s : str) : list str :=
  match s with
  | [] => [[]]
  | 13 :: ((10 :: s') as s1) => [] :: split_crlf s'
  | c :: s => match split_crlf s with w :: ws => (c :: w) :: ws | [] => [[c]] end
  end.

(** A head of these lines, the blank line included. *)
Definition http_head (lines : list (list Z)) : list Z :=
  mjoin ((fun l => l ++ crlf) <$> lines) ++ crlf.

(** A line of a head: not empty, no LF in it (a lone CR may be). *)
Definition line_ok (l : list Z) : Prop := l <> [] /\ 10 ∉ l.

#[export] Instance line_ok_dec l : Decision (line_ok l).
Proof. unfold line_ok. apply _. Defined.

(** ** The end of the head *)

Lemma take_4_prefix (a b : list Z) :
  take 4 a = [13; 10; 13; 10] -> take 4 (a ++ b) = [13; 10; 13; 10].
Proof.
  intros H. rewrite take_app_le; [done|]. apply (f_equal length) in H.
  rewrite length_take in H. cbn [length] in H. lia.
Qed.

Lemma take_4_length (a : list Z) : take 4 a = [13; 10; 13; 10] -> (4 <= length a)%nat.
Proof. intros H. apply (f_equal length) in H. rewrite length_take in H. cbn [length] in H. lia. Qed.

Lemma head_end_cons x b :
  head_end (x :: b) = if bool_decide (take 4 (x :: b) = [13; 10; 13; 10]) then Some 4%nat
                      else S <$> head_end b.
Proof. done. Qed.

Lemma head_end_bound b i : head_end b = Some i -> (4 <= i <= length b)%nat.
Proof.
  revert i. induction b as [|x b IH]; intros i; [done|]. rewrite head_end_cons.
  case_bool_decide as E.
  - intros [= <-]. apply take_4_length in E. lia.
  - destruct (head_end b) as [j|]; [|done]. intros [= <-]. specialize (IH j eq_refl).
    cbn [length]. lia.
Qed.

Lemma head_end_app b c i : head_end b = Some i -> head_end (b ++ c) = Some i.
Proof.
  revert i. induction b as [|x b IH]; intros i; [done|]. rewrite <- app_comm_cons, !head_end_cons.
  case_bool_decide as E.
  - intros [= <-]. rewrite bool_decide_true; [done|]. by apply (take_4_prefix (x :: b)).
  - destruct (head_end b) as [j|] eqn:Ej; [|done]. intros [= <-].
    rewrite bool_decide_false; [by rewrite (IH j)|]. intros E'. apply E.
    apply head_end_bound in Ej. rewrite app_comm_cons, take_app_le in E' by (cbn [length]; lia). done.
Qed.

(** A buffer without the end of the head is shorter than the head. *)
Lemma head_end_None_lt b c i : head_end b = None -> head_end (b ++ c) = Some i -> (length b < i)%nat.
Proof.
  revert i. induction b as [|x b IH]; intros i Hn.
  { intros H. apply head_end_bound in H. cbn [length]. lia. }
  rewrite <- app_comm_cons. rewrite head_end_cons in Hn |- *. case_bool_decide as E; [done|].
  destruct (head_end b) eqn:Eb; [done|]. case_bool_decide as E'.
  - intros [= <-]. destruct (decide (length (x :: b) < 4)%nat) as [|Hge]; [done|]. exfalso. apply E.
    rewrite app_comm_cons, take_app_le in E' by lia. done.
  - destruct (head_end (b ++ c)) as [j|]; [|done]. intros [= <-].
    specialize (IH j eq_refl eq_refl). cbn [length]. lia.
Qed.

(** ** Well-formed heads *)

Lemma http_head_cons l ls : http_head (l :: ls) = l ++ crlf ++ http_head ls.
Proof. unfold http_head. csimpl. by rewrite <- !app_assoc. Qed.

Lemma http_head_nil : http_head [] = crlf.
Proof. done. Qed.

Lemma http_head_length_pos ls : (2 <= length (http_head ls))%nat.
Proof. unfold http_head. rewrite length_app. simpl. lia. Qed.

Lemma head_end_line l b : 10 ∉ l ->
  head_end (l ++ 13 :: b) = (fun n => length l + n)%nat <$> head_end (13 :: b).
Proof.
  induction l as [|x l IH]; intros H; cbn [app length].
  - by destruct (head_end (13 :: b)).
  - rewrite head_end_cons, bool_decide_false.
    + rewrite IH by set_solver. by destruct (head_end (13 :: b)).
    + destruct l as [|y l]; cbn; intros [=]; set_solver.
Qed.

Lemma head_end_crlf l b : line_ok l ->
  head_end (crlf ++ l ++ 13 :: b) = (fun n => 2 + n)%nat <$> head_end (l ++ 13 :: b).
Proof.
  intros [Hne H]. destruct l as [|x l]; [done|]. cbn [crlf app].
  rewrite head_end_cons, bool_decide_false.
  2:{ destruct l as [|y l]; cbn; intros [=]; set_solver. }
  rewrite head_end_cons, bool_decide_false by (by intros [=]).
  by destruct (head_end (x :: l ++ 13 :: b)).
Qed.

Lemma head_end_http ls b : Forall line_ok ls -> ls <> [] ->
  head_end (http_head ls ++ b) = Some (length (http_head ls)).
Proof.
  intros H Hne. induction H as [|l ls [Hl Hlf] Hls IH]; [done|]. clear Hne.
  rewrite http_head_cons, <- !app_assoc. change (crlf ++ http_head ls ++ b) with (13 :: 10 :: http_head ls ++ b).
  rewrite head_end_line, !length_app by done.
  destruct ls as [|l' ls].
  - unfold http_head. cbn. done.
  - specialize (IH ltac:(done)). rewrite http_head_cons in IH |- *.
    apply Forall_cons_iff in Hls as [Hl' _]. rewrite <- !app_assoc in IH |- *.
    change (crlf ++ http_head ls ++ b) with (13 :: 10 :: http_head ls ++ b) in IH |- *.
    pose proof (head_end_crlf l' (10 :: http_head ls ++ b) Hl') as E. cbn [crlf app] in E.
    rewrite E, IH. done.
Qed.

Lemma split_crlf_line l s : 10 ∉ l -> split_crlf (l ++ crlf ++ s) = l :: split_crlf s.
Proof.
  induction l as [|c l IH]; intros H; [done|]. rewrite <- app_comm_cons.
  assert (split_crlf (c :: l ++ crlf ++ s)
          = match split_crlf (l ++ crlf ++ s) with w :: ws => (c :: w) :: ws | [] => [[c]] end) as E.
  { assert (exists y t, l ++ crlf ++ s = y :: t /\ y <> 10) as (y & t & -> & Hy).
    { destruct l as [|y l]; eexists _, _; (split; [done|]); [done|set_solver]. }
    cbn [split_crlf]. destruct c as [|p|]; try done. repeat (destruct p; try done).
    destruct y as [|q|]; try done. repeat (destruct q; try done). }
  rewrite E, IH by set_solver. done.
Qed.

Lemma split_crlf_http ls : Forall line_ok ls -> split_crlf (http_head ls) = ls ++ [[]; []].
Proof.
  induction 1 as [|l ls [_ Hlf] _ IH]; [done|].
  rewrite http_head_cons, split_crlf_line by done. by rewrite IH.
Qed.

Lemma split_inclusive_line l s : 10 ∉ l -> split_inclusive 10 (l ++ 10 :: s) = (l ++ [10]) :: split_inclusive 10 s.
Proof.
  induction l as [|c l IH]; intros H; [done|]. cbn [app split_inclusive].
  destruct (Z.eqb_spec c 10); [set_solver|]. by rewrite IH by set_solver.
Qed.

Lemma split_inclusive_http ls : Forall line_ok ls ->
  split_inclusive 10 (http_head ls) = ((fun l => l ++ crlf) <$> ls) ++ [crlf].
Proof.
  induction 1 as [|l ls [_ Hlf] _ IH]; [done|].
  rewrite http_head_cons, fmap_cons. unfold crlf at 1.
  change (l ++ [13; 10] ++ http_head ls) with (l ++ [13] ++ 10 :: http_head ls).
  rewrite app_assoc, split_inclusive_line, IH by set_solver. by rewrite <- !app_assoc.
Qed.

Lemma http_head_mjoin ls : mjoin (((fun l => l ++ crlf) <$> ls) ++ [crlf]) = http_head ls.
Proof.
  unfold http_head. induction ls as [|l ls IH]; csimpl; [done|]. by rewrite IH, app_assoc.
Qed.

(** The lines at LF keep their CR; after the last one comes an empty piece. *)
Lemma split_on_lf_http ls : Forall line_ok ls ->
  split_on 10 (http_head ls) = ((fun l => l ++ [13]) <$> ls) ++ [[13]; []].
Proof.
  induction 1 as [|l ls [_ Hlf] _ IH]; [done|].
  rewrite http_head_cons, fmap_cons. unfold crlf at 1.
  change (l ++ [13; 10] ++ http_head ls) with (l ++ [13] ++ 10 :: http_head ls).
  rewrite app_assoc, split_on_line, IH by set_solver. done.
Qed.

(** ** Text *)

Lemma utf8_encode_crlf : utf8_encode crlf = crlf.
Proof. done. Qed.

Lemma utf8_encode_head ls : utf8_encode (http_head ls) = http_head (utf8_encode <$> ls).
Proof.
  induction ls as [|l ls IH]; [done|].
  rewrite fmap_cons, !http_head_cons, !utf8_encode_app, IH. done.
Qed.

Lemma utf8_char_nonempty c : utf8_char c <> [].
Proof. unfold utf8_char. by repeat case_match. Qed.

Lemma utf8_encode_nonempty s : s <> [] -> utf8_encode s <> [].
Proof.
  destruct s as [|c s]; [done|]. intros _. unfold utf8_encode. cbn [map concat].
  pose proof (utf8_char_nonempty c). by destruct (utf8_char c).
Qed.

Lemma line_ok_encode l : Forall is_char l -> line_ok l -> line_ok (utf8_encode l).
Proof.
  intros Hc [Hne Hlf]. split; [by apply utf8_encode_nonempty|]. intros H. apply Hlf.
  by apply utf8_encode_ascii_byte in H.
Qed.

Lemma http_head_chars ls : Forall (Forall is_char) ls -> Forall is_char (http_head ls).
Proof.
  assert (Forall is_char crlf) as Hcr by (unfold is_char; repeat constructor; lia).
  induction 1 as [|l ls Hl _ IH]; [done|]. rewrite http_head_cons, !Forall_app. done.
Qed.
