(* ===== verification/Api.v ===== *)
(** * The VIP API ([src/src/api.rs])

    [read_request] reads a request from the chunks a connection delivers,
    [handle] answers it over the [Registry], [conn_task] writes the answer.  The
    token file and the JSON of specs and answers are arguments; [None] is a
    panic, which ends the connection's task with nothing written. *)

From S2P Require Import Prelude Str Net Config Health Vips Http.

Definition MAX_HEAD : nat := 16 * 1024.
Definition MAX_BODY : Z := 1024 * 1024.

(** ** Reading a request *)

(** One [conn.read]: some bytes (at most 4096, at least one), the end, or an error. *)
Inductive Read := Chunk (b : list Z) | Eof | ReadError.

(** Why a request is refused before it is handled; a status each. *)
Inductive BadRequest :=
| HeadTooLong | ReadFailed | ClosedInHead | NotUtf8 | NoRequestLine
| BadLength (v : str) | Chunked | BodyTooLong | ClosedInBody.

Definition bad_status (e : BadRequest) : Z :=
  match e with HeadTooLong => 431 | Chunked => 411 | BodyTooLong => 413 | _ => 400 end.

Record Request := { method : str; rpath : str; authorization : option str; body : list Z }.

(** The outcome of reading: a result, or the reads run out ([Waiting]). *)
Inductive Reading (A : Type) := Got (a : A) (rest : list Read) | Refused (e : BadRequest) | Waiting.
Arguments Got {A}. Arguments Refused {A}. Arguments Waiting {A}.

Fixpoint read_head (buf : list Z) (rs : list Read) : Reading (list Z * nat) :=
  match head_end buf with
  | Some i => Got (buf, i) rs
  | None =>
      if bool_decide (MAX_HEAD < length buf)%nat then Refused HeadTooLong else
      match rs with
      | [] => Waiting
      | ReadError :: _ => Refused ReadFailed
      | Eof :: _ => Refused ClosedInHead
      | Chunk b :: rs => read_head (buf ++ b) rs
      end
  end.

Fixpoint read_body (length_ : Z) (buf : list Z) (rs : list Read) : Reading (list Z) :=
  if length_ <=? Z.of_nat (length buf) then Got (take (Z.to_nat length_) buf) rs else
  match rs with
  | [] => Waiting
  | ReadError :: _ => Refused ReadFailed
  | Eof :: _ => Refused ClosedInBody
  | Chunk b :: rs => read_body length_ (buf ++ b) rs
  end.

(** [usize::MAX]. *)
Definition USIZE_MAX : Z := 18446744073709551615.

(** The headers that matter: content-length and authorization, last one wins. *)
Fixpoint headers (ls : list str) (len : Z) (auth : option str) : BadRequest + Z * option str :=
  match ls with
  | [] => inr (len, auth)
  | l :: ls =>
      match split_once 58 l with
      | None => headers ls len auth
      | Some (k, v) =>
          let v := trim v in
          if eq_ignore_ascii_case k (lit "content-length") then
            match parse_uint USIZE_MAX v with
            | Some n => headers ls n auth
            | None => inl (BadLength v)
            end
          else if eq_ignore_ascii_case k (lit "authorization") then headers ls len (Some v)
          else if eq_ignore_ascii_case k (lit "transfer-encoding") then inl Chunked
          else headers ls len auth
      end
  end.

(** The request line and headers of a head: method, path, length, authorization. *)
Definition parse_head (head : list Z) : BadRequest + str * str * Z * option str :=
  match utf8_decode head with
  | None => inl NotUtf8
  | Some head =>
      match split_crlf head with
      | [] => inl NoRequestLine
      | first :: lines =>
          match split_on 32 first with
          | m :: p :: _ =>
              if bool_decide (m = []) then inl NoRequestLine else
              match headers lines 0 None with
              | inl e => inl e
              | inr (len, auth) => inr (m, p, len, auth)
              end
          | _ => inl NoRequestLine
          end
      end
  end.

Definition read_request (rs : list Read) : Reading Request :=
  match read_head [] rs with
  | Waiting => Waiting
  | Refused e => Refused e
  | Got (buf, i) rs =>
      match parse_head (take i buf) with
      | inl e => Refused e
      | inr (m, p, len, auth) =>
          if MAX_BODY <? len then Refused BodyTooLong else
          match read_body len (drop i buf) rs with
          | Got b rs => Got {| method := m; rpath := p; authorization := auth; body := b |} rs
          | Refused e => Refused e
          | Waiting => Waiting
          end
      end
  end.

(** ** Authorisation *)

(** The fold over the zipped bytes: zero exactly when they agree. *)
Fixpoint xor_bytes (a b : list Z) (acc : Z) : Z :=
  match a, b with
  | x :: a, y :: b => xor_bytes a b (Z.lor acc (Z.lxor x y))
  | _, _ => acc
  end.

Inductive AuthError := TokenUnreadable | TokenEmpty | WrongToken.

Definition auth_status (e : AuthError) : Z := match e with WrongToken => 401 | _ => 500 end.

(** [read_text] reads the token file ([read_to_string]). *)
Definition authorize (read_text : str -> option str) (token_file : str) (header : option str)
    : option AuthError :=
  match read_text token_file with
  | None => Some TokenUnreadable
  | Some want =>
      let want := trim want in
      if bool_decide (want = []) then Some TokenEmpty else
      let got := match header with
                 | Some h => match strip_prefix (lit "Bearer ") h with Some t => trim t | None => [] end
                 | None => []
                 end in
      let a := utf8_encode got in let b := utf8_encode want in
      if bool_decide (length a = length b) && (xor_bytes a b 0 =? 0) then None else Some WrongToken
  end.

(** ** Handling *)

Inductive Answer :=
| StatusOk
| Vips_ (l : list VipView)
| Vip_ (v : option VipView)
| Deleted (name : str)
| NoPath (path : str)
| NoVip (name : str)
| NotAllowed
| BadBody
| Unauthorized (e : AuthError)
| Failed (e : ApplyError)
| Malformed (e : BadRequest).

Definition error (e : ApplyError) : Z * Answer :=
  (match e with
   | Invalid _ => 400
   | NotFound _ => 404
   | InUse _ _ | CannotBind _ | ReadOnly _ => 409
   | NotSaved => 500
   end, Failed e).

Definition method_not_allowed : Z * Answer := (405, NotAllowed).

Definition reason (status : Z) : string :=
  if status =? 200 then "OK" else if status =? 201 then "Created"
  else if status =? 400 then "Bad Request" else if status =? 401 then "Unauthorized"
  else if status =? 404 then "Not Found" else if status =? 405 then "Method Not Allowed"
  else if status =? 409 then "Conflict" else if status =? 411 then "Length Required"
  else if status =? 413 then "Payload Too Large"
  else if status =? 431 then "Request Header Fields Too Large" else "Internal Server Error".

(** A reading without what is left to read. *)
Definition outcome {A} (x : Reading A) : Reading A :=
  match x with Got a _ => Got a [] | Refused e => Refused e | Waiting => Waiting end.

(** What the bytes of a request mean, all of them at hand. *)
Definition parse_request (full : list Z) (i : nat) : Reading Request :=
  match parse_head (take i full) with
  | inl e => Refused e
  | inr (m, p, len, auth) =>
      if MAX_BODY <? len then Refused BodyTooLong
      else if len <=? Z.of_nat (length (drop i full))
           then Got {| method := m; rpath := p; authorization := auth;
                       body := take (Z.to_nat len) (drop i full) |} []
           else Waiting
  end.

Section Api.
  Context `{R : Reqwest} `{J : StateJson}.

(** The parts of the outside [handle] uses: the registry's, the token file, and
    [serde_json::from_slice::<VipSpec>]. *)
Record ApiEnv := {
  reg_env : Env;
  read_text : str -> option str;
  parse_spec : list Z -> option VipSpec }.

(** [&name[1..]]: a panic when the first character is not one byte. *)
Definition drop_first_byte (name : str) : option str :=
  match name with
  | c :: name => if c <? 128 then Some name else None
  | [] => None
  end.

Definition handle (env : ApiEnv) (token_file : option str) (req : Request) (r : Registry)
    : option (Registry * (Z * Answer)) :=
  let path := match split_on 63 (rpath req) with p :: _ => p | [] => [] end in
  if bool_decide (path = lit "/healthz") then
    Some (r, if bool_decide (method req = lit "GET") then (200, StatusOk) else method_not_allowed)
  else
  match strip_prefix (lit "/api/v1/vips") path with
  | None => Some (r, (404, NoPath path))
  | Some rest =>
      match (match token_file with
             | Some tf => authorize (read_text env) tf (authorization req)
             | None => None
             end) with
      | Some e => Some (r, (auth_status e, Unauthorized e))
      | None =>
          if bool_decide (rest = [] \/ rest = lit "/") then
            Some (r, if bool_decide (method req = lit "GET") then (200, Vips_ (list_views r))
                     else method_not_allowed)
          else
          name ← drop_first_byte rest;
          if bool_decide (47 ∈ name \/ name = []) then Some (r, (404, NoPath path))
          else if bool_decide (method req = lit "GET") then
            Some (r, match get name r with Some v => (200, Vip_ (Some v)) | None => (404, NoVip name) end)
          else if bool_decide (method req = lit "PUT") then
            match parse_spec env (body req) with
            | None => Some (r, (400, BadBody))
            | Some spec =>
                match apply (reg_env env) name spec r with
                | (r, inr created) => Some (r, (if created then 201 else 200, Vip_ (get name r)))
                | (r, inl e) => Some (r, error e)
                end
            end
          else if bool_decide (method req = lit "DELETE") then
            match remove (reg_env env) name r with
            | (r, None) => Some (r, (200, Deleted name))
            | (r, Some e) => Some (r, error e)
            end
          else Some (r, method_not_allowed)
      end
  end.

(** The bytes of an answer; [json] writes an answer's JSON. *)
Definition response (json : Answer -> str) (status : Z) (a : Answer) : list Z :=
  let text := utf8_encode (json a ++ [10]) in
  let crlf := [13; 10] in
  utf8_encode (lit "HTTP/1.1 " ++ dec status ++ lit " " ++ lit (reason status) ++ crlf
               ++ lit "content-type: application/json" ++ crlf
               ++ lit "content-length: " ++ dec (Z.of_nat (length text)) ++ crlf
               ++ lit "connection: close" ++ crlf ++ crlf) ++ text.

(** [conn_task]: the registry after it and the bytes written; the outer option
    is a panic, [Waiting] the 30 s timeout before the request is whole. *)
Definition conn_task (json : Answer -> str) (env : ApiEnv) (token_file : option str)
    (rs : list Read) (r : Registry) : option (Registry * list Z) :=
  match read_request rs with
  | Waiting => Some (r, [])
  | Refused e => Some (r, response json (bad_status e) (Malformed e))
  | Got req _ =>
      '(r, (status, a)) ← handle env token_file req r;
      Some (r, response json status a)
  end.

(** [run]'s checks before it binds: the address, [None] when it refuses. *)
Definition may_listen (ip : IpAddr) (token_file : option str) : bool :=
  match token_file with Some _ => true | None => is_loopback ip end.

(** How [run] begins: an error, or the address it serves on; [can_bind] is
    whether the port is free there (an IPv6 address with its scope). *)
Inductive RunError := BadListen | NeedsToken | CannotListen.

Definition run (can_bind : SocketAddr * Z -> bool) (cfg : ApiCfg) : RunError + SocketAddr * Z :=
  match parse_sockaddr (listen cfg) with
  | None => inl BadListen
  | Some a =>
      if negb (may_listen (sa_ip a.1) (Config.token_file cfg)) then inl NeedsToken
      else if can_bind a then inr a else inl CannotListen
  end.

(** [serve] over what [accept] yields: an error, which is logged, or a connection
    with what its 30 seconds read; the bytes written on each.  A panic ends only
    the task of its connection, and comes before anything is changed. *)
Fixpoint serve (json : Answer -> str) (token_file : option str) (l : list (option (ApiEnv * list Read))) (r : Registry)
    : Registry * list (list Z) :=
  match l with
  | [] => (r, [])
  | None :: l => serve json token_file l r
  | Some (env, rs) :: l =>
      let '(r, out) := default (r, []) (conn_task json env token_file rs r) in
      let '(r, outs) := serve json token_file l r in (r, out :: outs)
  end.

(** ** Specification *)

(** An answer that tells something of the VIPs, or of a change to them. *)
Definition reveals (a : Answer) : Prop :=
  match a with StatusOk | NoPath _ | NotAllowed | Unauthorized _ => False | _ => True end.

(** The request carries the token of the file, blanks around both apart. *)
Definition bears_token (env : ApiEnv) (tf : str) (req : Request) : Prop :=
  exists want t, read_text env tf = Some want /\ trim want <> []
    /\ authorization req = Some (lit "Bearer " ++ t)
    /\ utf8_encode (trim t) = utf8_encode (trim want).

(** The text of files and headers is made of characters. *)
Definition texts_ok (env : ApiEnv) (req : Request) : Prop :=
  (forall p t, read_text env p = Some t -> Forall is_char t)
  /\ match authorization req with Some h => Forall is_char h | None => True end.

(** A connection whose request, if it sends one, does not bear the token. *)
Definition stranger (env : ApiEnv) (tf : str) (rs : list Read) : Prop :=
  forall req rest, read_request rs = Got req rest -> texts_ok env req /\ ~ bears_token env tf req.

(** What a client makes of an answer: the status line and the body, when the
    content-length is that of what follows the head. *)
Definition client_reads (out : list Z) : option (str * list Z) :=
  i ← head_end out; head ← utf8_decode (take i out);
  match split_crlf head with
  | first :: ls =>
      match headers ls 0 None with
      | inr (len, _) => if len =? Z.of_nat (length out - i) then Some (first, drop i out) else None
      | inl _ => None
      end
  | [] => None
  end.

(** ** Chunks *)

Lemma read_head_chunks i cs : (i <= MAX_HEAD)%nat -> forall buf,
  head_end (buf ++ mjoin cs) = Some i ->
  exists buf' cs', read_head buf (Chunk <$> cs) = Got (buf', i) (Chunk <$> cs')
    /\ buf' ++ mjoin cs' = buf ++ mjoin cs /\ (i <= length buf')%nat.
Proof.
  intros Hi. induction cs as [|c cs IH]; intros buf H; cbn [fmap list_fmap read_head].
  - change (buf ++ mjoin []) with (buf ++ []) in H. rewrite app_nil_r in H. rewrite H.
    exists buf, []. split; [done|]. split; [done|]. apply head_end_bound in H. lia.
  - destruct (head_end buf) as [j|] eqn:Ej.
    + pose proof (head_end_app _ (mjoin (c :: cs)) _ Ej) as E. rewrite H in E. injection E as <-.
      exists buf, (c :: cs). split; [done|]. split; [done|]. apply head_end_bound in Ej. lia.
    + pose proof (head_end_None_lt _ _ _ Ej H). rewrite bool_decide_false by lia.
      change (mjoin (c :: cs)) with (c ++ mjoin cs) in H |- *. rewrite app_assoc in H |- *.
      by apply IH.
Qed.

Lemma read_body_chunks len cs : 0 <= len -> forall buf,
  outcome (read_body len buf (Chunk <$> cs)) =
  if len <=? Z.of_nat (length (buf ++ mjoin cs)) then Got (take (Z.to_nat len) (buf ++ mjoin cs)) []
  else Waiting.
Proof.
  intros Hlen. induction cs as [|c cs IH]; intros buf; cbn [fmap list_fmap read_body].
  - change (buf ++ mjoin []) with (buf ++ []). rewrite app_nil_r. by destruct (len <=? _).
  - change (mjoin (c :: cs)) with (c ++ mjoin cs). rewrite app_assoc.
    destruct (Z.leb_spec len (Z.of_nat (length buf))) as [Hle|Hgt]; [|apply IH].
    destruct (Z.leb_spec len (Z.of_nat (length ((buf ++ c) ++ mjoin cs)))) as [|Hlt];
      [|rewrite !length_app in Hlt; lia].
    cbn [outcome]. by rewrite <- app_assoc, take_app_le by lia.
Qed.

Lemma headers_length ls : forall len auth n a,
  0 <= len -> headers ls len auth = inr (n, a) -> 0 <= n.
Proof.
  induction ls as [|l ls IH]; intros len auth n a Hl; cbn [headers]; [by intros [= <- _]|].
  destruct (split_once 58 l) as [[k v]|]; [|by apply IH].
  repeat case_match; try done; try by apply IH.
  apply IH. by eapply parse_uint_nonneg.
Qed.

(** ** Answers *)

Lemma headers_blank ls : forall len auth, headers (ls ++ [[]; []]) len auth = headers ls len auth.
Proof.
  induction ls as [|l ls IH]; intros len auth; [done|]. rewrite <- app_comm_cons. cbn [headers].
  destruct (split_once 58 l) as [[k v]|]; [|apply IH].
  repeat case_match; done || apply IH.
Qed.

(** A head of text lines and a body of the length it says. *)
Lemma client_reads_http first ls text a :
  Forall line_ok (first :: ls) -> Forall (Forall is_char) (first :: ls) ->
  headers ls 0 None = inr (Z.of_nat (length text), a) ->
  client_reads (utf8_encode (http_head (first :: ls)) ++ text) = Some (first, text).
Proof.
  intros Hok Hch Hh. pose proof (http_head_chars _ Hch) as Hhc.
  assert (Forall line_ok (utf8_encode <$> first :: ls)) as Hok'.
  { apply Forall_fmap, list.Forall_forall. intros l Hl. rewrite list.Forall_forall in Hok, Hch.
    apply line_ok_encode; auto. }
  unfold client_reads. rewrite utf8_encode_head, head_end_http by done. cbn [mbind option_bind].
  rewrite take_app_length, drop_app_length, length_app, <- utf8_encode_head, utf8_decode_encode by done.
  cbn [mbind option_bind]. rewrite split_crlf_http by done. rewrite <- app_comm_cons, headers_blank, Hh.
  rewrite (proj2 (Z.eqb_eq _ _)) by lia. done.
Qed.

(** The content-length line, however the number goes. *)
Lemma headers_length_line n ls len auth : 0 <= n <= USIZE_MAX ->
  headers ((lit "content-length: " ++ dec n) :: ls) len auth = headers ls n auth.
Proof.
  intros Hn. cbn [headers].
  change (lit "content-length: " ++ dec n) with (lit "content-length" ++ 58 :: 32 :: dec n).
  rewrite split_once_line by decided. cbn [fst snd].
  rewrite trim_digits by (apply dec_digits; lia).
  rewrite parse_dec by done. done.
Qed.

(** A request means the same however the network cuts it.  For any bytes
    with the end of the head within the limit, delivered in any chunks, reading
    gives what [parse_request] makes of the bytes as a whole: the same request,
    the same refusal, or waiting for more of the body. *)
Theorem read_request_any_chunking (cs : list (list Z)) (i : nat) :
  head_end (mjoin cs) = Some i -> (i <= MAX_HEAD)%nat ->
  outcome (read_request (Chunk <$> cs)) = parse_request (mjoin cs) i.
Proof.
  intros Hi Hmax. destruct (read_head_chunks i cs Hmax [] Hi) as (buf & cs' & E & Hb & Hl).
  unfold read_request, parse_request. rewrite E. cbn [app] in Hb. rewrite <- Hb.
  rewrite take_app_le by done. destruct (parse_head (take i buf)) as [e|[[[m p] len] auth]] eqn:Ep; [done|].
  destruct (MAX_BODY <? len); [done|]. rewrite drop_app_le by done.
  assert (0 <= len) as Hlen.
  { unfold parse_head in Ep. destruct (utf8_decode _); [|done]. destruct (split_crlf _) as [|f ls]; [done|].
    destruct (split_on 32 f) as [|m' [|p' ws]]; [done..|]. case_bool_decide; [done|].
    destruct (headers ls 0 None) as [|[n a]] eqn:Eh; [done|]. simplify_eq.
    by eapply headers_length in Eh. }
  pose proof (read_body_chunks len cs' Hlen (drop i buf)) as Hbody.
  destruct (read_body len (drop i buf) (Chunk <$> cs')) as [b rs|e|]; cbn [outcome] in *;
    destruct (len <=? _); try done; by injection Hbody as <-.
Qed.

(** ** Authorisation *)

Lemma xor_bytes_zero a : forall b acc, bytes_ok a -> bytes_ok b -> length a = length b -> 0 <= acc ->
  xor_bytes a b acc = 0 <-> acc = 0 /\ a = b.
Proof.
  induction a as [|x a IH]; intros [|y b] acc Ha Hb Hl Hacc; try done; cbn [xor_bytes].
  { by split; [intros ->|intros [-> _]]. }
  apply bytes_ok_cons in Ha as [Hx Ha], Hb as [Hy Hb]. unfold is_u8 in *.
  assert (0 <= Z.lxor x y) as Hxy by (apply Z.lxor_nonneg; lia).
  rewrite IH; [|done|done|by injection Hl|by apply Z.lor_nonneg].
  rewrite Z.lor_eq_0_iff, Z.lxor_eq_0_iff. naive_solver.
Qed.

Lemma utf8_char_bytes c : is_char c -> bytes_ok (utf8_char c).
Proof.
  unfold is_char, utf8_char. intros Hc.
  destruct (Z.ltb_spec c 128); [solve_bytes|]. destruct (Z.ltb_spec c 2048); [solve_bytes|].
  destruct (Z.ltb_spec c 65536); solve_bytes.
Qed.

Lemma utf8_encode_bytes s : Forall is_char s -> bytes_ok (utf8_encode s).
Proof.
  unfold utf8_encode. induction 1 as [|c s Hc _ IH]; [constructor|]. cbn [map concat].
  apply bytes_ok_app. split; [by apply utf8_char_bytes|done].
Qed.

Lemma trim_chars s : Forall is_char s -> Forall is_char (trim s).
Proof. rewrite !list.Forall_forall. intros H c Hc. by apply H, trim_sub. Qed.

Lemma authorize_None env tf req : texts_ok env req ->
  authorize (read_text env) tf (authorization req) = None <-> bears_token env tf req.
Proof.
  intros [Ht Hh]. unfold authorize, bears_token. destruct (read_text env tf) as [want|] eqn:Ew.
  2:{ split; [done|]. by intros (w & t & ? & _). }
  apply Ht in Ew. case_bool_decide as Ee.
  { split; [done|]. intros (w & t & [= <-] & ? & _). done. }
  destruct (authorization req) as [h|].
  - destruct (strip_prefix (lit "Bearer ") h) as [t|] eqn:Es.
    + apply strip_prefix_Some in Es as ->. apply Forall_app in Hh as [_ Hh].
      pose proof (utf8_encode_bytes _ (trim_chars _ Ew)) as Bw.
      pose proof (utf8_encode_bytes _ (trim_chars _ Hh)) as Bt.
      split.
      * destruct (_ && _) eqn:E; [|done]. intros _. bool_to_prop.
        apply xor_bytes_zero in H0 as [_ H0]; try done. eauto 6.
      * intros (w & t' & [= <-] & _ & Ht' & E). apply (inj Some), (inj (app _)) in Ht' as <-.
        rewrite E, bool_decide_true by done.
        rewrite (proj2 (Z.eqb_eq _ 0)); [done|]. by apply xor_bytes_zero.
    + split; [|intros (w & t & _ & _ & Eh & _); apply (inj Some) in Eh;
               apply strip_prefix_Some in Eh; congruence].
      intros E. exfalso. destruct (utf8_encode (trim want)) eqn:Eu.
      * destruct (trim want) as [|c w]; [done|]. unfold utf8_encode, utf8_char in Eu. cbn in Eu.
        by repeat case_match.
      * by rewrite bool_decide_false in E.
  - split; [|by intros (w & t & _ & _ & ? & _)].
    intros E. exfalso. destruct (utf8_encode (trim want)) eqn:Eu.
    + destruct (trim want) as [|c w]; [done|]. unfold utf8_encode, utf8_char in Eu. cbn in Eu.
      by repeat case_match.
    + by rewrite bool_decide_false in E.
Qed.

(** A request without the token: refused, and nothing else. *)
Lemma handle_stranger env tf req r : texts_ok env req -> ~ bears_token env tf req ->
  exists status a, handle env (Some tf) req r = Some (r, (status, a)) /\ ~ reveals a
    /\ (forall rest, strip_prefix (lit "/api/v1/vips") (default [] (head (split_on 63 (rpath req)))) = Some rest ->
          status = 401 \/ status = 500).
Proof.
  intros Ht Hb. pose proof (authorize_None env tf req Ht) as Ha. unfold handle.
  set (path := match split_on 63 (rpath req) with p :: _ => p | [] => [] end).
  assert (default [] (head (split_on 63 (rpath req))) = path) as ->
    by (unfold path; by destruct (split_on 63 (rpath req))).
  destruct (authorize (read_text env) tf (authorization req)) as [e|] eqn:Ee; [|by destruct Hb; apply Ha].
  case_bool_decide as Ep.
  { destruct (bool_decide (method req = lit "GET")); eexists _, _; (split; [done|]); (split; [by intros []|]);
      rewrite Ep; done. }
  destruct (strip_prefix (lit "/api/v1/vips") path) as [rest|]; eexists _, _;
    (split; [done|]); (split; [by intros []|]); [|done].
  intros _ _. destruct e; cbn; auto.
Qed.

(** C22: With a token file, only its token opens the API.  A request that bears
    the token (Bearer, as bytes, read from the file now) is handled as without
    a token file; any other request, also with an unreadable or empty file,
    changes nothing and learns nothing of the VIPs, and its answer under
    [/api/v1/vips] is 401, or 500 for the file.  The comparison in constant
    time is equality. *)
Theorem api_needs_the_token env tf req r :
  texts_ok env req ->
  (bears_token env tf req -> handle env (Some tf) req r = handle env None req r)
  /\ (~ bears_token env tf req -> exists status a,
        handle env (Some tf) req r = Some (r, (status, a)) /\ ~ reveals a
        /\ (forall rest, strip_prefix (lit "/api/v1/vips") (default [] (head (split_on 63 (rpath req)))) = Some rest ->
              status = 401 \/ status = 500)).
Proof.
  intros Ht. split; [|by apply handle_stranger].
  intros Hb%(authorize_None env tf req Ht). unfold handle. by rewrite Hb.
Qed.

(** C21: An API that other hosts can reach is closed to them.  [run] serves on an
    address that is not loopback only with a token file; and then connections
    without its token, however many and whatever they send, leave the registry
    as it is, and each is closed or gets one answer that tells nothing of the
    VIPs: a refusal of its bytes or of the request. *)
Theorem exposed_api_is_closed can_bind cfg a json l r :
  run can_bind cfg = inr a -> is_loopback (sa_ip a.1) = false ->
  exists tf, Config.token_file cfg = Some tf /\
    (Forall (fun c => match c with Some (env, rs) => stranger env tf rs | None => True end) l ->
     exists outs, serve json (Some tf) l r = (r, outs)
       /\ Forall (fun out => out = [] \/ (exists e, out = response json (bad_status e) (Malformed e))
                            \/ exists status a, ~ reveals a /\ out = response json status a) outs).
Proof.
  intros Hr Hl. unfold run in Hr. destruct (parse_sockaddr (listen cfg)) as [b|]; [|done].
  destruct (Config.token_file cfg) as [tf|]; cbn [may_listen] in Hr.
  2:{ destruct (is_loopback (sa_ip b.1)) eqn:Eb; [|done]. cbn [negb] in Hr.
      destruct (can_bind b); [|done]. injection Hr as ->. by rewrite Hl in Eb. }
  exists tf. split; [done|]. induction 1 as [|[[env rs]|] l Hs _ (outs & E & Ho)]; cbn [serve].
  - by exists [].
  - unfold conn_task. destruct (read_request rs) as [req rest|e|] eqn:Er.
    + destruct (Hs _ _ Er) as [Ht Hb].
      destruct (handle_stranger env tf req r Ht Hb) as (status & ans & -> & Hv & _).
      cbn [mbind option_bind from_option id]. rewrite E. eexists. split; [reflexivity|]. constructor; [|exact Ho].
      right. right. by exists status, ans.
    + cbn [from_option id]. rewrite E. eexists. split; [reflexivity|]. constructor; [|exact Ho].
      right. left. by exists e.
    + cbn [from_option id]. rewrite E. eexists. split; [reflexivity|]. constructor; [by left|exact Ho].
  - by exists outs.
Qed.

(** ** Names *)

(** The separator before a VIP's name is not checked.  Where the
    documentation has [/api/v1/vips/{name}], any ASCII character in place of the
    last slash gives the same answer and the same change, so
    [DELETE /api/v1/vips-web] removes [web]; and with a character that is not ASCII
    there, an authorised request panics: its connection closes unanswered. *)
Theorem separator_is_not_checked env tf m c name auth b r :
  name <> [] -> 47 ∉ name -> 63 ∉ name -> c <> 63 -> 0 <= c ->
  match tf with Some tf => authorize (read_text env) tf auth | None => None end = None ->
  let req sep := {| method := m; rpath := lit "/api/v1/vips" ++ sep :: name;
                    authorization := auth; body := b |} in
  handle env tf (req c) r = if c <? 128 then handle env tf (req 47) r else None.
Proof.
  intros Hn Hs Hq Hc Hpos Hauth. cbv zeta.
  assert (forall sep, sep <> 63 ->
    match split_on 63 (lit "/api/v1/vips" ++ sep :: name) with p :: _ => p | [] => [] end
    = lit "/api/v1/vips" ++ sep :: name) as Hsplit.
  { intros sep Hsep. rewrite split_on_absent; [done|]. intros Hin.
    apply elem_of_app in Hin as [Hin|Hin]; [revert Hin; decided|]. set_solver. }
  unfold handle. cbn [rpath authorization method body]. rewrite !Hsplit by done.
  assert (forall sep, bool_decide (lit "/api/v1/vips" ++ sep :: name = lit "/healthz") = false) as Hz
    by (intros; by apply bool_decide_false).
  rewrite !Hz.
  assert (forall sep, strip_prefix (lit "/api/v1/vips") (lit "/api/v1/vips" ++ sep :: name) = Some (sep :: name)) as Hst
    by (intros; by apply strip_prefix_Some).
  rewrite !Hst, Hauth.
  assert (forall sep, bool_decide (sep :: name = [] \/ sep :: name = lit "/") = false) as Hr.
  { intros sep. apply bool_decide_false. intros [?|[= _ ?]]; done. }
  rewrite !Hr. cbn [drop_first_byte]. change (47 <? 128) with true.
  destruct (c <? 128); [|done]. cbn [mbind option_bind].
  rewrite (bool_decide_false (47 ∈ name \/ name = [])) by naive_solver. done.
Qed.

(** ** Answers on the wire *)

Definition statuses : list Z := [200; 201; 400; 401; 404; 405; 409; 411; 413; 431; 500].

Lemma handle_status env tf req r r' st a : handle env tf req r = Some (r', (st, a)) -> st ∈ statuses.
Proof.
  unfold handle, method_not_allowed. destruct (bool_decide _).
  { destruct (bool_decide _); intros [= _ <- _]; decided. }
  destruct (strip_prefix _ _) as [rest|]; [|intros [= _ <- _]; decided].
  set (au := match tf with Some tf => _ | None => None end). destruct au as [e|].
  { intros [= _ <- _]. destruct e; decided. }
  destruct (bool_decide _); [destruct (bool_decide _); intros [= _ <- _]; decided|].
  destruct (drop_first_byte rest) as [name|]; [|done]. cbn [mbind option_bind].
  destruct (bool_decide _); [intros [= _ <- _]; decided|].
  destruct (bool_decide _); [destruct (get name r); intros [= _ <- _]; decided|].
  destruct (bool_decide _).
  { destruct (parse_spec env (body req)) as [spec|]; [|intros [= _ <- _]; decided].
    destruct (apply (reg_env env) name spec r) as [r0 [e|[]]]; intros [= _ <- _]; [|decided..].
    destruct e; decided. }
  destruct (bool_decide _); [|intros [= _ <- _]; decided].
  destruct (remove (reg_env env) name r) as [r0 [e|]]; intros [= _ <- _]; [|decided].
  destruct e; decided.
Qed.

Lemma bad_status_known e : bad_status e ∈ statuses.
Proof. destruct e; decided. Qed.

(** A status line is a line of ASCII text. *)
Lemma status_lines_ok st : st ∈ statuses ->
  let l := lit "HTTP/1.1 " ++ dec st ++ lit " " ++ lit (reason st) in line_ok l /\ Forall is_char l.
Proof.
  assert (Forall (fun st => let l := lit "HTTP/1.1 " ++ dec st ++ lit " " ++ lit (reason st) in
                            line_ok l /\ Forall is_char l) statuses) as H.
  { repeat (constructor; [split; [decided|unfold is_char; decided]|]). constructor. }
  rewrite list.Forall_forall in H. apply H.
Qed.

Lemma response_http json st a : st ∈ statuses ->
  Z.of_nat (length (utf8_encode (json a ++ [10]))) <= USIZE_MAX ->
  client_reads (response json st a)
  = Some (lit "HTTP/1.1 " ++ dec st ++ lit " " ++ lit (reason st), utf8_encode (json a ++ [10])).
Proof.
  intros Hst Hlen. unfold response. set (text := utf8_encode (json a ++ [10])) in *. cbv zeta.
  set (first := lit "HTTP/1.1 " ++ dec st ++ lit " " ++ lit (reason st)).
  set (lens := lit "content-length: " ++ dec (Z.of_nat (length text))).
  pose proof (status_lines_ok st Hst) as [Hl Hc]. fold first in Hl, Hc.
  destruct (dec_digits (Z.of_nat (length text))) as [_ Hd]; [lia|].
  replace (lit "HTTP/1.1 " ++ _) with
    (http_head [first; lit "content-type: application/json"; lens; lit "connection: close"])
    by (rewrite !http_head_cons, http_head_nil; unfold first, lens; rewrite <- !app_assoc; done).
  apply (client_reads_http _ _ _ None).
  - constructor; [done|]. constructor; [decided|]. constructor; [|constructor; [decided|constructor]].
    split; [done|]. unfold lens. rewrite not_elem_of_app. split; [decided|]. by apply digit_not.
  - constructor; [done|]. unfold is_char at 1. constructor; [decided|]. constructor; [|constructor; [|constructor]].
    + unfold lens. apply Forall_app. split; [unfold is_char; decided|].
      by apply ascii_chars, digits_ascii.
    + unfold is_char. decided.
  - change (headers (lit "content-type: application/json" :: lens :: [lit "connection: close"]) 0 None)
      with (headers (lens :: [lit "connection: close"]) 0 None).
    unfold lens. rewrite headers_length_line by lia. done.
Qed.

(** What the API writes is one whole HTTP answer or nothing.  Nothing is
    written only when the request was not whole within the time or the task
    panicked; otherwise a client that trusts the content-length reads the status
    line of one of eleven known statuses and the JSON of the answer with its
    final newline, to the last byte. *)
Theorem answers_are_whole json env tf rs r r' out :
  (forall a, Z.of_nat (length (utf8_encode (json a ++ [10]))) <= USIZE_MAX) ->
  conn_task json env tf rs r = Some (r', out) ->
  (read_request rs = Waiting /\ out = [] /\ r' = r)
  \/ exists st a, st ∈ statuses
       /\ client_reads out = Some (lit "HTTP/1.1 " ++ dec st ++ lit " " ++ lit (reason st),
                                   utf8_encode (json a ++ [10])).
Proof.
  intros Hlen. unfold conn_task. destruct (read_request rs) as [req rs'|e|].
  - destruct (handle env tf req r) as [[r1 [st a]]|] eqn:E; [|done]. cbn [mbind option_bind].
    intros [= <- <-]. right. exists st, a. apply handle_status in E. split; [done|]. by apply response_http.
  - intros [= <- <-]. right. exists (bad_status e), (Malformed e).
    pose proof (bad_status_known e). split; [done|]. by apply response_http.
  - intros [= <- <-]. by left.
Qed.

End Api.

Lemma read_request_any_chunking_witness :
  let cs := [lit "PUT /api/v1/vips/web HT"; lit "TP/1.1" ++ [13]; [10] ++ lit "Content-Length: 2" ++ [13; 10; 13];
             [10; 123]; [125; 0]] in
  head_end (mjoin cs) = Some 52%nat
  /\ outcome (read_request (Chunk <$> cs))
     = Got {| method := lit "PUT"; rpath := lit "/api/v1/vips/web"; authorization := None; body := [123; 125] |} [].
Proof.
  intros cs. assert (head_end (mjoin cs) = Some 52%nat) as H by (vm_compute; reflexivity).
  split; [exact H|]. rewrite (read_request_any_chunking cs 52 H) by (apply Nat.leb_le; vm_compute; reflexivity).
  vm_compute. reflexivity.
Defined.

#[local] Existing Instance demo_reqwest.
#[local] Existing Instance demo_json.

Definition demo_api : ApiEnv :=
  {| reg_env := good_env; read_text _ := Some (lit "s3cret" ++ [10]); parse_spec _ := Some demo_spec2 |}.

Definition demo_request (m p : string) (auth : option str) : Request :=
  {| method := lit m; rpath := lit p; authorization := auth; body := [] |}.

Lemma api_needs_the_token_witness :
  let req := demo_request "DELETE" "/api/v1/vips/web" (Some (lit "Bearer s3cre7")) in
  texts_ok demo_api req
  /\ exists status a, handle demo_api (Some (lit "/token")) req demo_reg = Some (demo_reg, (status, a))
       /\ ~ reveals a.
Proof.
  intros req.
  assert (texts_ok demo_api req) as H.
  { split; [|unfold is_char; decided]. intros p t. injection 1 as <-. unfold is_char. decided. }
  split; [exact H|].
  destruct (proj2 (api_needs_the_token demo_api (lit "/token") req demo_reg H)) as (s & a & E & Hr & _).
  - intros (w & t & Hw & _ & Ha & E). injection Hw as <-. injection Ha as <-. vm_compute in E. discriminate.
  - exists s, a. split; [exact E|exact Hr].
Defined.

Lemma exposed_api_is_closed_witness :
  let json (a : Answer) := lit "{}" in
  let cfg := {| listen := lit "192.168.8.10:9103"; Config.token_file := Some (lit "/token");
    Config.state_file := None |} in
  let rs := [Chunk (lit "DELETE /api/v1/vips/web HTTP/1.1" ++ [13; 10; 13; 10])] in
  exists outs, serve json (Some (lit "/token")) [None; Some (demo_api, rs)] demo_reg = (demo_reg, outs).
Proof.
  intros json cfg rs.
  destruct (exposed_api_is_closed (fun _ => true) cfg (SockAddr (V4 (Ipv4 192 168 8 10)) 9103, 0) json
              [None; Some (demo_api, rs)] demo_reg) as (tf & [= <-] & H); [vm_compute; reflexivity..|].
  destruct H as (outs & E & _); [|by exists outs].
  constructor; [done|]. constructor; [|done]. intros req rest.
  assert (read_request rs = Got (demo_request "DELETE" "/api/v1/vips/web" None) []) as -> by (vm_compute; reflexivity).
  intros [= <- <-]. split.
  - split; [|done]. intros p t. injection 1 as <-. unfold is_char. decided.
  - intros (w & t & _ & _ & Ha & _). discriminate Ha.
Defined.

Lemma separator_is_not_checked_witness :
  handle demo_api None (demo_request "DELETE" "/api/v1/vips-web" None) demo_reg
  = handle demo_api None (demo_request "DELETE" "/api/v1/vips/web" None) demo_reg.
Proof.
  apply (separator_is_not_checked demo_api None (lit "DELETE") 45 (lit "web") None [] demo_reg);
    try decided; reflexivity.
Defined.

Lemma answers_are_whole_witness :
  let json (a : Answer) := lit "{}" in
  let rs := [Chunk (lit "GET /nowhere HTTP/1.1" ++ [13; 10; 13; 10])] in
  conn_task json demo_api None rs demo_reg = Some (demo_reg, response json 404 (NoPath (lit "/nowhere")))
  /\ ((read_request rs = Waiting /\ response json 404 (NoPath (lit "/nowhere")) = [] /\ demo_reg = demo_reg)
      \/ exists st a, st ∈ statuses
           /\ client_reads (response json 404 (NoPath (lit "/nowhere")))
              = Some (lit "HTTP/1.1 " ++ dec st ++ lit " " ++ lit (reason st), utf8_encode (json a ++ [10]))).
Proof.
  intros json rs.
  assert (conn_task json demo_api None rs demo_reg = Some (demo_reg, response json 404 (NoPath (lit "/nowhere")))) as H
    by reflexivity.
  split; [exact H|]. eapply answers_are_whole; [|exact H]. intros a. apply Z.leb_le. reflexivity.
Defined.
