(* ===== verification/Router.v ===== *)
(** * The L7 router ([src/src/router.rs])

    Byte level: [host_of], [request_path], [forwarded_https] and the router's own
    answers.  [serve_conn] is the decision of one connection, from the reads to
    what is written, forwarded and counted.  The reads left to a forwarded
    connection are what is copied after the head. *)

From S2P Require Import Prelude Str Metrics Net Config Health Vips Http Api.

(** ** The request head *)

Definition find_head_end (buf : list Z) : option nat := head_end buf.

Definition strip_port (v : str) : str :=
  match rsplit_once 58 v with
  | Some (h, p) => if forallb is_digit p then h else v
  | None => v
  end.

Fixpoint host_lines (ls : list (list Z)) : option str :=
  match ls with
  | [] => None
  | l :: ls =>
      match utf8_decode l with
      | None => None
      | Some line =>
          let line := trim line in
          if bool_decide (line = []) then None else
          match split_once 58 line with
          | Some (k, v) =>
              if eq_ignore_ascii_case (trim k) (lit "host") then Some (strip_port (lower (trim v)))
              else host_lines ls
          | None => host_lines ls
          end
      end
  end.

Definition host_of (head : list Z) : option str := host_lines (tl (split_on 10 head)).

(** The first line of the head, as text. *)
Definition first_line (head : list Z) : option str :=
  match split_on 10 head with l :: _ => utf8_decode l | [] => None end.

Definition request_path (head : list Z) : option str :=
  line ← first_line head;
  path ← split_whitespace line !! 1%nat;
  match split_on 63 path with p :: _ => Some p | [] => Some path end.

Definition request_target (head : list Z) : option str :=
  line ← first_line head;
  t ← split_whitespace line !! 1%nat;
  if starts_with (lit "/") t then Some t else None.

(** A header line's name: what is before its first colon. *)
Definition line_name (l : list Z) : list Z :=
  match split_on 58 l with n :: _ => n | [] => [] end.

Definition is_forwarded_proto (l : list Z) : bool :=
  eq_ignore_ascii_case (line_name l) (lit "x-forwarded-proto").

Definition https_line : list Z := lit "X-Forwarded-Proto: https" ++ [13; 10].

(** The outer option is the panic of [head[..end]] out of range. *)
Definition forwarded_https (head : list Z) (end_ : nat) : option (list Z) :=
  h ← slice head 0 end_; rest ← slice_from head end_;
  Some (match split_inclusive 10 h with
        | first :: lines => first ++ https_line ++ mjoin (List.filter (fun l => negb (is_forwarded_proto l)) lines)
        | [] => https_line
        end ++ rest).

(** The three digits of a status line, bytes 9 to 11. *)
Definition status_code (b : list Z) : option str :=
  s ← slice b 0 12; _ ← utf8_decode s; _ ← strip_prefix (lit "HTTP/1.") s;
  let code := drop 9 s in
  if forallb is_digit code then Some code else None.

(** ** Answers *)

Definition bad_request : list Z :=
  lit "HTTP/1.1 400 Bad Request" ++ crlf ++ lit "content-length: 26" ++ crlf
  ++ lit "connection: close" ++ crlf ++ crlf ++ lit "this router needs a Host" ++ [10; 10].

Definition redirect_to (host : str) (port : Z) (target : str) : list Z :=
  let port := if port =? 443 then [] else lit ":" ++ dec port in
  utf8_encode (lit "HTTP/1.1 308 Permanent Redirect" ++ crlf ++ lit "location: https://" ++ host ++ port
    ++ target ++ crlf ++ lit "content-length: 0" ++ crlf ++ lit "connection: close" ++ crlf ++ crlf).

Definition text_answer (status : str) (body : str) : list Z :=
  let bytes := utf8_encode body in
  utf8_encode (lit "HTTP/1.1 " ++ status ++ crlf ++ lit "content-type: text/plain" ++ crlf
    ++ lit "content-length: " ++ dec (Z.of_nat (length bytes)) ++ crlf
    ++ lit "connection: close" ++ crlf ++ crlf) ++ bytes.

Definition alive : list Z := text_answer (lit "200 OK") (lit "router alive" ++ [10]).
Definition no_route (host : str) : list Z :=
  text_answer (lit "404 Not Found") (lit "no route for host " ++ host ++ [10]).

(** ** One connection *)

Record Backend := { b_addr : str; b_tls : option str }.

#[export] Instance Backend_eq_dec : EqDecision Backend.
Proof. solve_decision. Defined.

Abbreviation Table := (gmap (list Z) Backend) (only parsing).

Definition requests_total (host : str) (code : string) : Count :=
  {| metric := "stormlb_router_requests_total"; labels := [("host", host); ("code", lit code)]%string |}.
Definition upstream_error (host : str) (kind : string) : Count :=
  {| metric := "stormlb_router_upstream_errors_total"; labels := [("host", host); ("kind", lit kind)]%string |}.

(** The plain listener's redirect: the TLS port, and whether a certificate is
    loaded now. *)
Record Redirect := { certs_loaded : bool; tls_port : Z }.

(** What a connection meets: connecting to an address, whether a CA is loaded,
    whether a name is a server name, and the TLS handshake with the backend. *)
Record Dial := {
  connects : str -> bool;
  ca_loaded : bool;
  valid_name_ : str -> bool;
  handshake : bool }.

(** The end of a connection: the router's own answer; the head and first bytes
    handed to a backend, over TLS for a name, with the reads that are then
    copied; or neither. *)
Inductive Served :=
| Answered (bytes : list Z)
| Forwarded (addr : str) (tls : option str) (bytes : list Z) (rest : list Read)
| Dropped
| Panics.

Definition MAX_HEAD : nat := 16 * 1024.

(** The read loop: the buffer, the end of the head in it and the reads left. *)
Fixpoint read_until_head (head : list Z) (rs : list Read) : option (list Z * nat * list Read) :=
  match rs with
  | Chunk b :: rs =>
      let head := head ++ b in
      match find_head_end head with
      | Some e => Some (head, e, rs)
      | None => if bool_decide (MAX_HEAD < length head)%nat then None else read_until_head head rs
      end
  | _ => None
  end.

(** After the head: the answer or the backend. *)
Definition demux (table : Table) (redirect : option Redirect) (tls : bool) (d : Dial)
    (head : list Z) (end_ : nat) (rest : list Read) : Served * list Count :=
  match slice head 0 end_ with
  | None => (Panics, [])
  | Some h =>
      match host_of h with
      | None => (Answered bad_request, [requests_total (lit "unrouted") "400"])
      | Some host =>
          let backend := table !! host in
          let label := match backend with Some _ => host | None => lit "unrouted" end in
          let healthz := bool_decide (request_path h = Some (lit "/healthz")) in
          let to_https := match redirect with
                          | Some r => if negb tls && certs_loaded r then Some (tls_port r) else None
                          | None => None
                          end in
          match to_https, healthz with
          | Some port, false =>
              (Answered (redirect_to host port (default (lit "/") (request_target h))),
               [requests_total label "308"])
          | _, _ =>
              match backend with
              | None =>
                  if healthz then (Answered alive, [requests_total (lit "unrouted") "200"])
                  else (Answered (no_route host), [requests_total (lit "unrouted") "404"])
              | Some b =>
                  let fail kind := [upstream_error host kind; requests_total host "error"] in
                  if negb (connects d (b_addr b)) then (Dropped, fail "connect"%string) else
                  match (if tls then forwarded_https head end_ else Some head) with
                  | None => (Panics, [])
                  | Some head =>
                      match b_tls b with
                      | None => (Forwarded (b_addr b) None head rest, [])
                      | Some name =>
                          if negb (ca_loaded d) then (Dropped, fail "tls"%string)
                          else if negb (valid_name_ d name) then (Dropped, [])
                          else if negb (handshake d) then (Dropped, fail "tls"%string)
                          else (Forwarded (b_addr b) (Some name) head rest, [])
                      end
                  end
              end
          end
      end
  end.

Definition serve_conn (table : Table) (redirect : option Redirect) (tls : bool) (d : Dial)
    (rs : list Read) : Served * list Count :=
  match read_until_head [] rs with
  | None => (Dropped, [])
  | Some (head, e, rest) => demux table redirect tls d head e rest
  end.

(** [record_first]: what the backend's first bytes count as. *)
Definition record_first (host : str) (first : option (list Z)) : list Count :=
  match first with
  | Some b => [{| metric := "stormlb_router_requests_total";
                  labels := [("host", host); ("code", default (lit "other") (status_code b))]%string |}]
  | None => [upstream_error host "no_response"; requests_total host "error"]
  end.

(** ** Listening *)

(** [rsplit(':').next()]. *)
Definition port_of (listen : str) : str := match rsplit_once 58 listen with Some (_, p) => p | None => listen end.

(** The redirect's port ([run]): the TLS listener's, 443 when it is no number. *)
Definition redirect_port (listen : str) : Z := default 443 (parse_uint 65535 (port_of listen)).

(** [bind_addrs]; [probe] is the source address the kernel would use. *)
Definition bind_addrs (listen : str) (probe : option str) : option (list str) :=
  if negb (starts_with (lit "auto") listen) then None else
  ip ← probe;
  if starts_with (lit "127.") ip || starts_with (lit "169.254.") ip || bool_decide (ip = lit "0.0.0.0")
  then None
  else Some [ip ++ lit ":" ++ port_of listen; lit "127.0.0.1:" ++ port_of listen].

(** [bind_listeners]: the addresses bound, [None] an error. *)
Definition bind_listeners (listen : str) (probe : option str) (can_bind : str -> bool) : option (list str) :=
  match bind_addrs listen probe with
  | Some addrs =>
      let bound := List.filter can_bind addrs in
      if bool_decide (bound = []) then None else Some bound
  | None =>
      let a := if starts_with (lit "auto") listen then lit "0.0.0.0:" ++ port_of listen else listen in
      if can_bind a then Some [a] else None
  end.


(** ** The head sent on *)

(** The header [n] on a line without its CR LF: the name before the first colon. *)
Definition names (n : string) (l : list Z) : bool :=
  match split_once 58 l with Some (k, _) => eq_ignore_ascii_case k (lit n) | None => false end.

Lemma line_name_once l : line_name l = match split_once 58 l with Some (k, _) => k | None => l end.
Proof.
  unfold line_name. induction l as [|c l IH]; [done|]. unfold split_on in *. cbn [split_by split_once].
  destruct (Z.eqb_spec c 58) as [->|Hc]; [done|]. destruct (Z.eqb_spec 58 c); [congruence|].
  destruct (split_by (Z.eqb 58) l) as [|w ws], (split_once 58 l) as [[k v]|]; subst; done.
Qed.

Lemma is_forwarded_proto_names l : is_forwarded_proto (l ++ crlf) = names "x-forwarded-proto" l.
Proof.
  unfold is_forwarded_proto, names. rewrite line_name_once.
  destruct (split_once 58 l) as [[k v]|] eqn:E.
  - apply split_once_Some in E as [-> H]. rewrite <- app_assoc, <- app_comm_cons, split_once_line by done. done.
  - destruct (split_once 58 (l ++ crlf)) as [[k v]|] eqn:E'.
    + exfalso. apply split_once_Some in E' as [E' H].
      assert (58 ∈ l ++ crlf) as Hin by (rewrite E'; set_solver).
      apply elem_of_app in Hin as [Hin|Hin]; [|revert Hin; decided].
      apply list_elem_of_split_l in Hin as (a & b & -> & Ha).
      by rewrite split_once_line in E.
    + unfold eq_ignore_ascii_case. apply bool_decide_false. unfold lower. rewrite map_app.
      intros Heq. apply (f_equal (@rev Z)) in Heq. by rewrite rev_app_distr in Heq.
Qed.

Definition kept (hs : list (list Z)) : list (list Z) :=
  List.filter (fun l => negb (names "x-forwarded-proto" l)) hs.

Definition https_header : list Z := lit "X-Forwarded-Proto: https".

Lemma filter_crlf hs :
  List.filter (fun l => negb (is_forwarded_proto l)) (((fun l => l ++ crlf) <$> hs) ++ [crlf])
  = ((fun l => l ++ crlf) <$> kept hs) ++ [crlf].
Proof.
  unfold kept. induction hs as [|l hs IH]; [done|]. rewrite fmap_cons, <- app_comm_cons.
  cbn [List.filter]. rewrite is_forwarded_proto_names, IH. by destruct (names _ l).
Qed.

Lemma kept_line_ok hs : Forall line_ok hs -> Forall line_ok (kept hs).
Proof.
  unfold kept. induction 1 as [|l hs Hl _ IH]; [done|]. cbn [List.filter].
  destruct (negb _); [by constructor|done].
Qed.

Lemma forwarded_https_http first hs body : Forall line_ok (first :: hs) ->
  forwarded_https (http_head (first :: hs) ++ body) (length (http_head (first :: hs)))
  = Some (http_head (first :: https_header :: kept hs) ++ body).
Proof.
  intros H. unfold forwarded_https. rewrite slice_Some, slice_from_Some by (rewrite ?length_app; lia).
  cbn [mbind option_bind]. rewrite Nat.sub_0_r, drop_0, take_app_length, drop_app_length.
  rewrite split_inclusive_http, fmap_cons, <- app_comm_cons, filter_crlf, http_head_mjoin by done.
  rewrite !http_head_cons. unfold https_line, https_header. by rewrite <- !app_assoc.
Qed.

(** A line that names X-Forwarded-Proto does not name the host. *)
Lemma host_lines_skip l ls : names "x-forwarded-proto" l = true ->
  match host_lines ((l ++ [13]) :: ls) with Some h => host_lines ls = Some h | None => True end.
Proof.
  unfold names. destruct (split_once 58 l) as [[k v]|] eqn:E; [|done].
  apply split_once_Some in E as [-> Hk]. unfold eq_ignore_ascii_case at 1. intros Hx. bool_to_prop.
  assert (Forall (fun c => 33 <= c < 127) k) as Hg.
  { apply (lower_eq_ascii (lit "x-forwarded-proto")); [|by rewrite Hx]. decided. }
  assert (is_ascii k) as Ha.
  { unfold is_ascii. rewrite list.Forall_forall in Hg |- *. intros c Hc. specialize (Hg c Hc). cbn beta in Hg. lia. }
  cbn [host_lines]. rewrite <- app_assoc, utf8_decode_app_ascii, <- app_comm_cons by done.
  cbn [utf8_decode]. change (58 <? 128) with true. cbn iota.
  destruct (utf8_decode (v ++ [13])) as [v'|]; [|done]. cbn [fmap option_fmap option_map].
  assert (exists t, trim (k ++ 58 :: v') = k ++ 58 :: t) as [t ->].
  { exists (trim_end_by is_whitespace v'). unfold trim. rewrite trim_start_by_app by done.
    destruct k as [|c k]; [by vm_compute in Hx|].
    rewrite trim_start_by_nop; [by rewrite trim_end_by_app|].
    apply Forall_cons_iff in Hg as [Hc _]. unfold is_whitespace.
    repeat rewrite orb_false_iff || rewrite andb_false_iff. rewrite ?Z.leb_gt, ?Z.eqb_neq. lia. }
  rewrite bool_decide_false by (by destruct k). rewrite split_once_line by done.
  rewrite trim_graphic by done. unfold eq_ignore_ascii_case. rewrite Hx, bool_decide_false by decided.
  by destruct (host_lines ls).
Qed.

Lemma host_lines_mono x ls ls' h : (host_lines ls = Some h -> host_lines ls' = Some h) ->
  host_lines (x :: ls) = Some h -> host_lines (x :: ls') = Some h.
Proof. cbn [host_lines]. intros H. repeat case_match; auto; done. Qed.

Lemma host_lines_kept hs tl h :
  host_lines (((fun l => l ++ [13]) <$> hs) ++ tl) = Some h ->
  host_lines (((fun l => l ++ [13]) <$> kept hs) ++ tl) = Some h.
Proof.
  unfold kept. induction hs as [|l hs IH]; [done|]. rewrite fmap_cons, <- app_comm_cons.
  cbn [List.filter]. destruct (names _ l) eqn:El; cbn [negb].
  - intros H. pose proof (host_lines_skip l (((fun l => l ++ [13]) <$> hs) ++ tl) El) as Hs.
    rewrite H in Hs. by apply IH.
  - by apply host_lines_mono.
Qed.

Lemma head_lines first hs : Forall line_ok (first :: hs) ->
  split_on 10 (http_head (first :: hs)) = (first ++ [13]) :: ((fun l => l ++ [13]) <$> hs) ++ [[13]; []].
Proof. intros H. by rewrite split_on_lf_http. Qed.

Lemma https_header_ok : line_ok https_header.
Proof. decided. Qed.

Lemma host_of_forwarded first hs h : Forall line_ok (first :: hs) ->
  host_of (http_head (first :: hs)) = Some h ->
  host_of (http_head (first :: https_header :: kept hs)) = Some h.
Proof.
  intros H. pose proof H as H'. apply Forall_cons_iff in H' as [Hf Hh].
  assert (Forall line_ok (first :: https_header :: kept hs)) as Hok
    by (constructor; [done|constructor; [apply https_header_ok|by apply kept_line_ok]]).
  unfold host_of. rewrite !head_lines by done.
  cbn [tl]. intros E. apply host_lines_kept in E. rewrite fmap_cons, <- app_comm_cons.
  cbn [host_lines]. exact E.
Qed.

(** The head an https client's backend gets is the client's, with one
    truthful X-Forwarded-Proto.  For a head of well-formed lines and whatever
    followed it in the buffer: the request line, the order of the other headers
    and the bytes after the head are unchanged, the end of the head is where the
    backend finds it, exactly one header of that name is left and it says https,
    and the backend sees the host the router routed by. *)
Theorem forwarded_https_spec first hs rest :
  Forall line_ok (first :: hs) ->
  let head := http_head (first :: hs) ++ rest in
  let e := length (http_head (first :: hs)) in
  let e' := length (http_head (first :: https_header :: kept hs)) in
  find_head_end head = Some e
  /\ exists out, forwarded_https head e = Some out
       /\ find_head_end out = Some e' /\ drop e' out = rest
       /\ split_crlf (take e' out) = first :: https_header :: kept hs ++ [[]; []]
       /\ List.filter (names "x-forwarded-proto") (https_header :: kept hs) = [https_header]
       /\ request_target (take e' out) = request_target (take e head)
       /\ request_path (take e' out) = request_path (take e head)
       /\ (forall h, host_of (take e head) = Some h -> host_of (take e' out) = Some h).
Proof.
  intros H. cbv zeta. pose proof H as H'. apply Forall_cons_iff in H' as [Hf Hh].
  assert (Forall line_ok (first :: https_header :: kept hs)) as Hok
    by (constructor; [done|constructor; [apply https_header_ok|by apply kept_line_ok]]).
  split; [by apply head_end_http|]. eexists. split; [by apply forwarded_https_http|].
  split; [by apply head_end_http|]. rewrite drop_app_length, !take_app_length. split; [done|].
  rewrite split_crlf_http by done. split; [done|]. split.
  { cbn [List.filter]. change (names "x-forwarded-proto" https_header) with true. cbn iota. f_equal.
    unfold kept. clear. induction hs as [|l hs IH]; [done|]. cbn [List.filter].
    destruct (names _ l) eqn:E; cbn [negb]; [done|]. cbn [List.filter]. by rewrite E. }
  unfold request_target, request_path, first_line. rewrite !head_lines by done.
  split; [done|]. split; [done|]. intros h. by apply host_of_forwarded.
Qed.

Lemma forwarded_https_spec_witness :
  let hs := [lit "X-FORWARDED-PROTO: http"; lit "Host: Web.Lan:8443"; lit "x-forwarded-proto:http"] in
  let head := http_head (lit "GET /a?b HTTP/1.1" :: hs) ++ [1; 2] in
  exists out, forwarded_https head (length (http_head (lit "GET /a?b HTTP/1.1" :: hs))) = Some out
    /\ host_of (take (length (http_head [lit "GET /a?b HTTP/1.1"; https_header; lit "Host: Web.Lan:8443"])) out)
       = Some (lit "web.lan").
Proof.
  intros hs head.
  destruct (forwarded_https_spec (lit "GET /a?b HTTP/1.1") hs [1; 2]) as (_ & out & E & _ & _ & _ & _ & _ & _ & Hh);
    [decided|].
  exists out. split; [exact E|].
  change [lit "GET /a?b HTTP/1.1"; https_header; lit "Host: Web.Lan:8443"]
    with (lit "GET /a?b HTTP/1.1" :: https_header :: kept hs) at 1.
  apply Hh. vm_compute. reflexivity.
Defined.

(** ** Reading *)

Lemma read_until_head_spec rs : forall head0 head e rest,
  find_head_end head0 = None -> read_until_head head0 rs = Some (head, e, rest) ->
  find_head_end head = Some e /\ exists cs, rs = (Chunk <$> cs) ++ rest /\ head = head0 ++ mjoin cs.
Proof.
  induction rs as [|[b| |] rs IH]; intros head0 head e rest H0; cbn [read_until_head]; [done| |done..].
  destruct (find_head_end (head0 ++ b)) as [i|] eqn:E.
  - intros [= <- <- <-]. split; [done|]. exists [b]. split; [done|]. cbn. by rewrite app_nil_r.
  - case_bool_decide; [done|]. intros Hr. destruct (IH _ _ _ _ E Hr) as (? & cs & -> & ->).
    split; [done|]. exists (b :: cs). split; [done|]. by rewrite <- app_assoc.
Qed.

Lemma read_until_head_total cs i rest : (i <= MAX_HEAD)%nat -> forall head0,
  find_head_end head0 = None -> find_head_end (head0 ++ mjoin cs) = Some i ->
  exists head cs', read_until_head head0 ((Chunk <$> cs) ++ rest) = Some (head, i, (Chunk <$> cs') ++ rest)
    /\ head ++ mjoin cs' = head0 ++ mjoin cs /\ (i <= length head)%nat.
Proof.
  intros Hi. induction cs as [|c cs IH]; intros head0 H0 H.
  { change (mjoin []) with (@nil Z) in H. rewrite app_nil_r in H. congruence. }
  change (mjoin (c :: cs)) with (c ++ mjoin cs) in H |- *. rewrite app_assoc in H |- *.
  rewrite fmap_cons, <- app_comm_cons. cbn [read_until_head].
  destruct (find_head_end (head0 ++ c)) as [j|] eqn:E.
  - unfold find_head_end in *. pose proof (head_end_app _ (mjoin cs) _ E) as E'.
    rewrite H in E'. injection E' as <-. apply head_end_bound in E. exists (head0 ++ c), cs.
    split; [done|]. split; [done|]. lia.
  - rewrite bool_decide_false; [by apply IH|].
    pose proof (head_end_None_lt _ _ _ E H). unfold MAX_HEAD in *. lia.
Qed.

(** ** Decisions *)

(** Plain HTTP is sent to https now. *)
Definition https_only (redirect : option Redirect) (tls : bool) : bool :=
  match redirect with Some r => negb tls && certs_loaded r | None => false end.

(** A count's host label is a route's hostname or [unrouted]. *)
Definition label_ok (table : Table) (c : Count) : Prop :=
  forall h, ("host"%string, h) ∈ labels c -> h = lit "unrouted" \/ is_Some (table !! h).

(** The backend of an https route is up and proves its name, or the route is plain. *)
Definition verified (d : Dial) (name : option str) : Prop :=
  match name with Some n => ca_loaded d = true /\ valid_name_ d n = true /\ handshake d = true | None => True end.

Lemma forwarded_https_total head e : find_head_end head = Some e -> is_Some (forwarded_https head e).
Proof.
  intros H. apply head_end_bound in H. unfold forwarded_https.
  rewrite slice_Some, slice_from_Some by lia. done.
Qed.

Lemma label_ok_unrouted table code : label_ok table (requests_total (lit "unrouted") code).
Proof.
  intros h. cbn [labels requests_total]. rewrite !elem_of_cons.
  intros [[= ->]|[[=]|[]%not_elem_of_nil]]. by left.
Qed.

Lemma label_ok_routed table host b m k v : table !! host = Some b -> k <> "host"%string ->
  label_ok table {| metric := m; labels := [("host"%string, host); (k, v)] |}.
Proof.
  intros Hb Hk h. cbn [labels]. rewrite !elem_of_cons. intros [[= ->]|[[= Hk']|[]%not_elem_of_nil]]; [|by destruct Hk].
  right. by exists b.
Qed.

Ltac label_tac :=
  repeat (constructor; [first [apply label_ok_unrouted | by eapply label_ok_routed]|]); constructor.

(** What [demux] may forward, count, and that it does not panic. *)
Lemma demux_safe table redirect tls d head e rest : find_head_end head = Some e ->
  match demux table redirect tls d head e rest with
  | (Panics, _) => False
  | (Forwarded addr name bytes rest', cs) =>
      rest' = rest /\ cs = []
      /\ exists host, host_of (take e head) = Some host
           /\ table !! host = Some {| b_addr := addr; b_tls := name |}
           /\ verified d name
           /\ (https_only redirect tls = true -> request_path (take e head) = Some (lit "/healthz"))
           /\ (if tls then forwarded_https head e = Some bytes else bytes = head)
  | (_, cs) => Forall (label_ok table) cs
  end.
Proof.
  intros He. pose proof (forwarded_https_total _ _ He) as [fh Hfh]. apply head_end_bound in He.
  unfold demux. rewrite slice_Some by lia. rewrite Nat.sub_0_r, drop_0.
  destruct (host_of (take e head)) as [host|] eqn:Eh; [|label_tac].
  set (to_https := match redirect with Some r => _ | None => None end).
  assert (to_https = None -> https_only redirect tls = false) as Hto.
  { unfold to_https, https_only. destruct redirect as [r|]; [|done]. by destruct (negb tls && certs_loaded r). }
  destruct (table !! host) as [b|] eqn:Eb.
  - assert (forall cs, cs = [upstream_error host "connect"; requests_total host "error"]
                       \/ cs = [upstream_error host "tls"; requests_total host "error"] -> Forall (label_ok table) cs)
      as Hfail by (intros cs [->| ->]; label_tac).
    assert (match (if tls then forwarded_https head e else Some head) with
            | Some x => if tls then Some x = forwarded_https head e else x = head
            | None => False
            end) as Hx by (destruct tls; [by rewrite Hfh|done]).
    destruct (if tls then forwarded_https head e else Some head) as [bytes|] eqn:Ex; [|done].
    assert (to_https = None \/ bool_decide (request_path (take e head) = Some (lit "/healthz")) = true ->
      https_only redirect tls = true -> request_path (take e head) = Some (lit "/healthz")) as Hr.
    { intros [Hn|Hz] Ho; [by rewrite Hto in Ho|by bool_to_prop]. }
    destruct to_https as [port|]; [destruct (bool_decide _) eqn:Ez; [|label_tac]|];
    (destruct (connects d (b_addr b)); cbn [negb]; [|by apply Hfail; left]);
    destruct (b_tls b) as [name|] eqn:En.
    1,3: destruct (ca_loaded d) eqn:Ec; cbn [negb]; [|by apply Hfail; right];
         destruct (valid_name_ d name) eqn:Ev; cbn [negb]; [|constructor];
         destruct (handshake d) eqn:Eha; cbn [negb]; [|by apply Hfail; right].
    all: split; [done|]; split; [done|]; exists host; split; [done|].
    all: split; [rewrite Eb; destruct b; cbn in *; by subst|].
    all: split; [by cbn|]; split; [apply Hr; auto|]; destruct tls; congruence.
  - destruct to_https; destruct (bool_decide _); label_tac.
Qed.

(** What a connection ends in, by its reads. *)
Lemma serve_conn_forwards table redirect tls d rs s cs :
  serve_conn table redirect tls d rs = (s, cs) ->
  s <> Panics /\ Forall (label_ok table) cs
  /\ forall addr name bytes rest, s = Forwarded addr name bytes rest ->
       exists chunks e host,
         rs = (Chunk <$> chunks) ++ rest /\ find_head_end (mjoin chunks) = Some e
         /\ host_of (take e (mjoin chunks)) = Some host
         /\ table !! host = Some {| b_addr := addr; b_tls := name |}
         /\ verified d name
         /\ (https_only redirect tls = true -> request_path (take e (mjoin chunks)) = Some (lit "/healthz"))
         /\ (if tls then forwarded_https (mjoin chunks) e = Some bytes else bytes = mjoin chunks).
Proof.
  unfold serve_conn. destruct (read_until_head [] rs) as [[[head e] rest0]|] eqn:Er.
  2:{ intros [= <- <-]. split; [done|]. split; [constructor|]. by intros. }
  apply read_until_head_spec in Er as (He & chunks & -> & ->); [|done]. cbn [app] in *.
  pose proof (demux_safe table redirect tls d _ e rest0 He) as Hd. intros E. rewrite E in Hd.
  destruct s as [b|a n b r| |]; [by split_and!|..|done].
  - destruct Hd as (-> & -> & host & Hh & Ht & Hv & Hr & Hb). split; [done|]. split; [constructor|].
    intros ? ? ? ? [= <- <- <- <-]. by exists chunks, e, host.
  - by split_and!.
Qed.

(** C17: The router forwards only what the route table says, and fails closed.
    Bytes reach a backend only for a whole head read from the client, to the
    address of the route that claims its Host; to an https backend only with a
    CA loaded, a usable name and a completed handshake; past an active redirect
    only [/healthz].  They are the bytes read, with the forwarded header exactly
    on TLS.  Nothing panics, and every count is under a route's hostname or
    [unrouted]. *)
Theorem forwards_only_the_table table redirect tls d rs s cs :
  serve_conn table redirect tls d rs = (s, cs) ->
  s <> Panics /\ Forall (label_ok table) cs
  /\ forall addr name bytes rest, s = Forwarded addr name bytes rest ->
       exists chunks e host,
         rs = (Chunk <$> chunks) ++ rest /\ find_head_end (mjoin chunks) = Some e
         /\ host_of (take e (mjoin chunks)) = Some host
         /\ table !! host = Some {| b_addr := addr; b_tls := name |}
         /\ verified d name
         /\ (https_only redirect tls = true -> request_path (take e (mjoin chunks)) = Some (lit "/healthz"))
         /\ (if tls then forwarded_https (mjoin chunks) e = Some bytes else bytes = mjoin chunks).
Proof. apply serve_conn_forwards. Qed.

(** A request whose host the table has. *)
Lemma serve_conn_reaches table redirect tls d first hs body chunks more host b :
  Forall line_ok (first :: hs) -> (length (http_head (first :: hs)) <= MAX_HEAD)%nat ->
  mjoin chunks = http_head (first :: hs) ++ body ->
  host_of (http_head (first :: hs)) = Some host -> table !! host = Some b ->
  https_only redirect tls = false -> connects d (b_addr b) = true -> verified d (b_tls b) ->
  exists bytes left,
    serve_conn table redirect tls d ((Chunk <$> chunks) ++ more)
    = (Forwarded (b_addr b) (b_tls b) bytes ((Chunk <$> left) ++ more), [])
    /\ bytes ++ mjoin left
       = http_head (if tls then first :: https_header :: kept hs else first :: hs) ++ body.
Proof.
  intros Hok Hlen Hc Hh Hb Hr Hconn Hv. set (hd := http_head (first :: hs)) in *.
  assert (find_head_end (mjoin chunks) = Some (length hd)) as He by (rewrite Hc; by apply head_end_http).
  destruct (read_until_head_total chunks (length hd) more Hlen [] eq_refl He) as (head & left & Er & Hcat & Hle).
  cbn [app] in Hcat. rewrite Hc in Hcat. unfold serve_conn. rewrite Er.
  assert (take (length hd) head = hd) as Htake.
  { apply (f_equal (take (length hd))) in Hcat. by rewrite take_app_le, take_app_length in Hcat by done. }
  assert (head = hd ++ drop (length hd) head) as Hhead by (rewrite <- Htake at 1; by rewrite take_drop).
  unfold demux. rewrite slice_Some by lia. rewrite Nat.sub_0_r, drop_0, Htake, Hh, Hb, Hconn.
  assert ((match redirect with Some r => if negb tls && certs_loaded r then Some (tls_port r) else None
           | None => None end) = None) as ->.
  { unfold https_only in Hr. destruct redirect as [r|]; [|done]. by rewrite Hr. }
  cbn [negb]. set (body1 := drop (length hd) head) in *.
  assert (body1 ++ mjoin left = body) as Hbody.
  { rewrite Hhead, <- app_assoc in Hcat. by apply (inj (app hd)) in Hcat. }
  assert (exists bytes, (if tls then forwarded_https head (length hd) else Some head) = Some bytes
    /\ bytes ++ mjoin left = http_head (if tls then first :: https_header :: kept hs else first :: hs) ++ body)
    as (bytes & -> & Hbytes).
  { destruct tls.
    - rewrite Hhead. unfold hd. rewrite forwarded_https_http by done. eexists. split; [done|].
      by rewrite <- app_assoc, Hbody.
    - eexists. split; [done|]. rewrite Hhead, <- app_assoc, Hbody. done. }
  exists bytes, left. split; [|done].
  destruct (b_tls b) as [n|]; [|done]. destruct Hv as (-> & -> & ->). done.
Qed.

(** C15: A request reaches its backend whole, however the network cuts it.  A
    well-formed head of at most 16 KiB whose Host a route claims, over TLS or
    with no redirect active, the backend accepting and proving its name: what
    the router sends and then copies is the client's stream, byte for byte (with
    the forwarded header on TLS). *)
Theorem request_reaches_its_backend table redirect tls d first hs body chunks more host b :
  Forall line_ok (first :: hs) -> (length (http_head (first :: hs)) <= MAX_HEAD)%nat ->
  mjoin chunks = http_head (first :: hs) ++ body ->
  host_of (http_head (first :: hs)) = Some host -> table !! host = Some b ->
  https_only redirect tls = false -> connects d (b_addr b) = true -> verified d (b_tls b) ->
  exists bytes left,
    serve_conn table redirect tls d ((Chunk <$> chunks) ++ more)
    = (Forwarded (b_addr b) (b_tls b) bytes ((Chunk <$> left) ++ more), [])
    /\ bytes ++ mjoin left
       = http_head (if tls then first :: https_header :: kept hs else first :: hs) ++ body.
Proof. apply serve_conn_reaches. Qed.

(** A route table, a backend that is up, and a request in three reads. *)
Definition demo_table : Table :=
  {[ lit "web.lan" := {| b_addr := lit "10.0.0.1:443"; b_tls := Some (lit "web") |} ]}.
Definition demo_dial (handshake : bool) : Dial :=
  {| connects _ := true; ca_loaded := true; valid_name_ _ := true; handshake := handshake |}.
Definition demo_hs : list (list Z) := [lit "Host: WEB.lan:443"; lit "X-Forwarded-Proto: http"].
Definition demo_chunks : list (list Z) :=
  let all := http_head (lit "GET / HTTP/1.1" :: demo_hs) ++ [1; 2; 3] in
  [take 5 all; take 30 (drop 5 all); drop 35 all].

Lemma request_reaches_its_backend_witness :
  exists bytes left,
    serve_conn demo_table None true (demo_dial true) ((Chunk <$> demo_chunks) ++ [Eof])
    = (Forwarded (lit "10.0.0.1:443") (Some (lit "web")) bytes ((Chunk <$> left) ++ [Eof]), [])
    /\ bytes ++ mjoin left = http_head (lit "GET / HTTP/1.1" :: https_header :: kept demo_hs) ++ [1; 2; 3].
Proof.
  apply (request_reaches_its_backend demo_table None true (demo_dial true) (lit "GET / HTTP/1.1") demo_hs [1; 2; 3]
           demo_chunks [Eof] (lit "web.lan") {| b_addr := lit "10.0.0.1:443"; b_tls := Some (lit "web") |});
    try (vm_compute; reflexivity); [decided|decided|by split_and!].
Defined.

Lemma forwards_only_the_table_witness :
  let rs := Chunk <$> demo_chunks in
  serve_conn demo_table None true (demo_dial false) rs
  = (Dropped, [upstream_error (lit "web.lan") "tls"; requests_total (lit "web.lan") "error"])
  /\ Forall (label_ok demo_table) [upstream_error (lit "web.lan") "tls"; requests_total (lit "web.lan") "error"].
Proof.
  intros rs.
  assert (serve_conn demo_table None true (demo_dial false) rs
    = (Dropped, [upstream_error (lit "web.lan") "tls"; requests_total (lit "web.lan") "error"])) as H
    by (vm_compute; reflexivity).
  split; [exact H|]. exact (proj1 (proj2 (forwards_only_the_table _ _ _ _ _ _ _ H))).
Defined.

(** ** The router's own answers *)

(** Text that stays within a line. *)
Definition in_line (s : str) : Prop := forall c, c ∈ s -> is_char c /\ c <> 10.

Lemma in_line_sub s t : (forall c, c ∈ t -> c ∈ s) -> in_line s -> in_line t.
Proof. intros H Hs c Hc. by apply Hs, H. Qed.

Lemma in_line_app a b : in_line a -> in_line b -> in_line (a ++ b).
Proof. intros Ha Hb c [?|?]%elem_of_app; auto. Qed.

Lemma in_line_lower s : in_line s -> in_line (lower s).
Proof.
  intros H c Hc. unfold lower in Hc. rewrite list_elem_of_In in Hc. apply in_map_iff in Hc as (x & <- & Hx).
  rewrite <- list_elem_of_In in Hx. destruct (H x Hx) as [Hch Hn]. unfold lower_char, is_upper, is_char in *.
  destruct (_ && _) eqn:E; [bool_to_prop; lia|done].
Qed.

Lemma in_line_ascii s : is_ascii s -> 10 ∉ s -> in_line s.
Proof.
  intros Ha Hn c Hc. pose proof (ascii_chars s Ha) as H. rewrite list.Forall_forall in H.
  split; [auto|set_solver].
Qed.

Lemma in_line_spec s : in_line s -> Forall is_char s /\ 10 ∉ s.
Proof.
  intros H. split; [apply list.Forall_forall; intros c Hc; by apply H|]. intros Hin. by destruct (H 10 Hin).
Qed.

Lemma line_decoded b l s : bytes_ok b -> l ∈ split_on 10 b -> utf8_decode l = Some s -> in_line s.
Proof.
  intros Hb Hl Hs. assert (bytes_ok l) as Hbl.
  { unfold bytes_ok in *. rewrite list.Forall_forall in Hb |- *. intros c Hc. apply Hb. by eapply split_by_sub. }
  intros c Hc. pose proof (utf8_decode_chars _ _ Hbl Hs) as Hch. rewrite list.Forall_forall in Hch.
  split; [by apply Hch|]. intros ->. apply (utf8_decode_mem 10 _ _ ltac:(lia) Hbl Hs) in Hc.
  by pose proof (split_by_sep _ _ _ _ Hl Hc).
Qed.

Lemma in_line_strip_port s : in_line s -> in_line (strip_port s).
Proof.
  unfold strip_port. destruct (rsplit_once 58 s) as [[h p]|] eqn:E; [|done].
  destruct (forallb is_digit p); [|done]. apply in_line_sub. intros c. by eapply rsplit_once_sub.
Qed.

Lemma host_lines_in_line ls h :
  (forall l s, l ∈ ls -> utf8_decode l = Some s -> in_line s) -> host_lines ls = Some h -> in_line h.
Proof.
  induction ls as [|l ls IH]; intros H; cbn [host_lines]; [done|].
  specialize (IH ltac:(intros l' s Hl'; apply H; set_solver)).
  destruct (utf8_decode l) as [s|] eqn:Es; [|done]. apply H in Es; [|set_solver].
  case_bool_decide; [done|]. destruct (split_once 58 (trim s)) as [[k v]|] eqn:E; [|done].
  destruct (eq_ignore_ascii_case _ _); [|done]. intros [= <-]. apply split_once_Some in E as [E _].
  apply in_line_strip_port, in_line_lower. eapply in_line_sub; [|exact Es]. intros c Hc.
  apply trim_sub. rewrite E. apply trim_sub in Hc. set_solver.
Qed.

Lemma host_of_in_line b h : bytes_ok b -> host_of b = Some h -> in_line h.
Proof.
  intros Hb. apply host_lines_in_line. intros l s Hl. apply (line_decoded b); [done|].
  destruct (split_on 10 b); [done|]. cbn in Hl. set_solver.
Qed.

Lemma request_target_in_line b t : bytes_ok b -> request_target b = Some t -> in_line t.
Proof.
  intros Hb. unfold request_target, first_line. destruct (split_on 10 b) as [|l ls] eqn:El; [done|].
  destruct (utf8_decode l) as [s|] eqn:Es; [|done]. cbn [mbind option_bind].
  destruct (split_whitespace s !! 1%nat) as [w|] eqn:Ew; [|done]. cbn [mbind option_bind].
  destruct (starts_with _ w); [|done]. intros [= <-]. apply list_elem_of_lookup_2 in Ew.
  unfold split_whitespace in Ew. rewrite list_elem_of_In, filter_In, <- list_elem_of_In in Ew.
  apply (in_line_sub s); [intros c; by eapply split_by_sub, Ew|].
  eapply line_decoded; [done| |done]. rewrite El. set_solver.
Qed.

(** An answer with its type and length. *)
Lemma answer_reads status ctype body : in_line status -> status <> [] -> in_line ctype ->
  Z.of_nat (length (utf8_encode body)) <= USIZE_MAX ->
  client_reads (utf8_encode (lit "HTTP/1.1 " ++ status ++ crlf ++ lit "content-type: " ++ ctype ++ crlf
    ++ lit "content-length: " ++ dec (Z.of_nat (length (utf8_encode body))) ++ crlf
    ++ lit "connection: close" ++ crlf ++ crlf) ++ utf8_encode body)
  = Some (lit "HTTP/1.1 " ++ status, utf8_encode body).
Proof.
  intros Hs Hne Hct Hlen. set (text := utf8_encode body) in *.
  set (lens := lit "content-length: " ++ dec (Z.of_nat (length text))).
  set (ct := lit "content-type: " ++ ctype).
  destruct (dec_digits (Z.of_nat (length text))) as [_ Hd]; [lia|].
  assert (in_line ct) as Hcl by (apply in_line_app; [apply in_line_ascii; decided|done]).
  apply in_line_spec in Hs as [Hc Hlf]. apply in_line_spec in Hcl as [Hcc Hcf].
  replace (lit "HTTP/1.1 " ++ _) with
    (http_head [lit "HTTP/1.1 " ++ status; ct; lens; lit "connection: close"])
    by (rewrite !http_head_cons, http_head_nil; unfold lens, ct; rewrite <- !app_assoc; done).
  apply (client_reads_http _ _ _ None).
  - constructor; [split; [done|rewrite not_elem_of_app; split; [decided|done]]|].
    constructor; [by split|]. constructor; [|constructor; [decided|constructor]].
    split; [done|]. unfold lens. rewrite not_elem_of_app. split; [decided|]. by apply digit_not.
  - constructor; [apply Forall_app; split; [apply ascii_chars; decided|done]|].
    constructor; [done|]. constructor; [|constructor; [|constructor]].
    + unfold lens. apply Forall_app. split; [apply ascii_chars; decided|]. by apply ascii_chars, digits_ascii.
    + apply ascii_chars. decided.
  - cbn [headers]. unfold ct.
    change (lit "content-type: " ++ ctype) with (lit "content-type" ++ 58 :: 32 :: ctype).
    rewrite split_once_line by decided. cbn [fst snd].
    change (headers (lens :: [lit "connection: close"]) 0 None = inr (Z.of_nat (length text), None)).
    unfold lens. rewrite headers_length_line by lia. done.
Qed.

Lemma text_answer_reads status body : in_line status -> status <> [] ->
  Z.of_nat (length (utf8_encode body)) <= USIZE_MAX ->
  client_reads (text_answer status body) = Some (lit "HTTP/1.1 " ++ status, utf8_encode body).
Proof.
  intros Hs Hne Hlen. apply (answer_reads status (lit "text/plain") body); [done|done| |done].
  apply in_line_ascii; decided.
Qed.

Lemma redirect_reads host port target : in_line host -> 0 <= port -> in_line target ->
  client_reads (redirect_to host port target) = Some (lit "HTTP/1.1 308 Permanent Redirect", []).
Proof.
  intros Hh Hp Ht. unfold redirect_to. cbv zeta. set (p := if port =? 443 then [] else lit ":" ++ dec port).
  assert (in_line p) as Hport.
  { unfold p. destruct (port =? 443); [by intros c ?%not_elem_of_nil|]. destruct (dec_digits port Hp) as [_ Hd].
    apply in_line_app; [apply in_line_ascii; decided|].
    apply in_line_ascii; [by apply digits_ascii|by apply digit_not]. }
  set (loc := lit "location: https://" ++ host ++ p ++ target).
  assert (in_line loc) as Hl.
  { unfold loc. apply in_line_app; [apply in_line_ascii; decided|]. by repeat apply in_line_app. }
  apply in_line_spec in Hl as [Hc Hlf].
  rewrite <- (app_nil_r (utf8_encode _)).
  replace (lit "HTTP/1.1 308 Permanent Redirect" ++ _) with
    (http_head [lit "HTTP/1.1 308 Permanent Redirect"; loc; lit "content-length: 0"; lit "connection: close"])
    by (rewrite !http_head_cons, http_head_nil; unfold loc; rewrite <- !app_assoc; done).
  apply (client_reads_http _ _ _ None).
  - constructor; [decided|]. constructor; [by split|]. constructor; [decided|]. constructor; [decided|constructor].
  - constructor; [apply ascii_chars; decided|]. constructor; [done|]. constructor; [apply ascii_chars; decided|].
    constructor; [apply ascii_chars; decided|constructor].
  - unfold loc. cbn [headers].
    change (lit "location: https://" ++ host ++ p ++ target)
      with (lit "location" ++ 58 :: lit " https://" ++ host ++ p ++ target).
    rewrite split_once_line by decided. done.
Qed.

(** ** Sizes *)

(** One [conn.read] into the 2048-byte buffer. *)
Definition read_ok (r : Read) : Prop :=
  match r with Chunk b => bytes_ok b /\ (length b <= 2048)%nat | _ => True end.

#[export] Instance read_ok_dec r : Decision (read_ok r).
Proof. destruct r; unfold read_ok; apply _. Defined.

Lemma host_lines_length n ls h :
  (forall l, l ∈ ls -> bytes_ok l /\ (length l <= n)%nat) -> host_lines ls = Some h -> (length h <= n)%nat.
Proof.
  induction ls as [|l ls IH]; intros H; cbn [host_lines]; [done|].
  specialize (IH ltac:(intros l' Hl'; apply H; set_solver)).
  destruct (H l ltac:(set_solver)) as [Hb Hl]. destruct (utf8_decode l) as [s|] eqn:Es; [|done].
  destruct (utf8_decode_inv (length l) l s (le_n _) Hb Es) as [_ E]. pose proof (utf8_encode_length s) as Hs.
  rewrite E in Hs. case_bool_decide; [done|].
  destruct (split_once 58 (trim s)) as [[k v]|] eqn:Ek; [|done]. destruct (eq_ignore_ascii_case _ _); [|done].
  intros [= <-]. apply split_once_Some in Ek as [Ek _]. apply (f_equal length) in Ek.
  rewrite length_app in Ek. cbn [length] in Ek. pose proof (trim_length s). pose proof (trim_length v).
  assert (length (lower (trim v)) <= n)%nat by (unfold lower; rewrite length_map; lia).
  unfold strip_port. destruct (rsplit_once 58 _) as [[a b]|] eqn:Er; [|done].
  destruct (forallb is_digit b); [|done]. apply rsplit_once_length in Er. lia.
Qed.

Lemma host_of_length b h : bytes_ok b -> host_of b = Some h -> (length h <= length b)%nat.
Proof.
  intros Hb. apply host_lines_length. intros l Hl.
  assert (l ∈ split_on 10 b) as Hl' by (destruct (split_on 10 b); [done|]; cbn in Hl; set_solver).
  split; [|by eapply split_by_length]. unfold bytes_ok in *. rewrite list.Forall_forall in Hb |- *.
  intros c Hc. apply Hb. by eapply split_by_sub.
Qed.

Lemma read_until_head_ok rs : Forall read_ok rs -> forall head0 head e rest,
  bytes_ok head0 -> (length head0 <= MAX_HEAD)%nat -> read_until_head head0 rs = Some (head, e, rest) ->
  bytes_ok head /\ (length head <= MAX_HEAD + 2048)%nat.
Proof.
  induction 1 as [|[b| |] rs Hr _ IH]; intros head0 head e rest Hb Hl; cbn [read_until_head]; [done| |done..].
  destruct Hr as [Hbb Hlb].
  assert (bytes_ok (head0 ++ b)) as Hb' by (by apply bytes_ok_app).
  destruct (find_head_end (head0 ++ b)).
  - intros [= <- _ _]. split; [done|]. rewrite length_app. lia.
  - case_bool_decide; [done|]. apply IH; [done|lia].
Qed.

(** The status line and the code counted for each answer of the router's own. *)
Definition own_answers : list (string * string) :=
  [("HTTP/1.1 400 Bad Request", "400"); ("HTTP/1.1 308 Permanent Redirect", "308");
   ("HTTP/1.1 200 OK", "200"); ("HTTP/1.1 404 Not Found", "404")]%string.

(** An answer of the router's own, whole, and its count. *)
Definition own_answer (out : list Z) (cs : list Count) : Prop :=
  exists line code body label, (line, code) ∈ own_answers
    /\ client_reads out = Some (lit line, body) /\ cs = [requests_total label code].

Lemma own_answer_intro line code body label out :
  (line, code) ∈ own_answers -> client_reads out = Some (lit line, body) ->
  own_answer out [requests_total label code].
Proof. intros. by exists line, code, body, label. Qed.

Lemma demux_answers table redirect tls d head e rest out cs :
  bytes_ok head -> (length head <= MAX_HEAD + 2048)%nat -> find_head_end head = Some e ->
  match redirect with Some r => is_u16 (tls_port r) | None => True end ->
  demux table redirect tls d head e rest = (Answered out, cs) -> own_answer out cs.
Proof.
  intros Hb Hl He Hp. apply head_end_bound in He. unfold demux. rewrite slice_Some by lia.
  rewrite Nat.sub_0_r, drop_0.
  assert (bytes_ok (take e head)) as Hbt by (by apply Forall_take).
  destruct (host_of (take e head)) as [host|] eqn:Eh.
  2:{ intros [= <- <-]. eapply (own_answer_intro "HTTP/1.1 400 Bad Request"); [decided|].
      instantiate (1 := lit "this router needs a Host" ++ [10; 10]). vm_compute. reflexivity. }
  pose proof (host_of_in_line _ _ Hbt Eh) as Hi. pose proof (host_of_length _ _ Hbt Eh) as Hhl.
  rewrite length_take in Hhl.
  set (to_https := match redirect with Some r => _ | None => None end).
  assert (forall port, to_https = Some port -> 0 <= port) as Hport.
  { unfold to_https. intros port. destruct redirect as [r|]; [|done].
    destruct (_ && _); [|done]. intros [= <-]. by destruct Hp. }
  assert (forall cs, (Answered alive, [requests_total (lit "unrouted") "200"]) = (Answered out, cs) ->
    own_answer out cs) as Halive.
  { intros ? [= <- <-]. eapply (own_answer_intro "HTTP/1.1 200 OK"); [decided|].
    instantiate (1 := lit "router alive" ++ [10]). vm_compute. reflexivity. }
  assert (forall cs, (Answered (no_route host), [requests_total (lit "unrouted") "404"]) = (Answered out, cs) ->
    own_answer out cs) as Hnone.
  { intros ? [= <- <-]. eapply (own_answer_intro "HTTP/1.1 404 Not Found"); [decided|].
    apply (text_answer_reads (lit "404 Not Found")); [apply in_line_ascii; decided|done|].
    pose proof (utf8_encode_length (lit "no route for host " ++ host ++ [10])) as H. rewrite !length_app in H.
    change (length (lit "no route for host ")) with 18%nat in H. cbn [length] in H.
    unfold MAX_HEAD, USIZE_MAX in *. lia. }
  destruct to_https as [port|] eqn:Et; [destruct (bool_decide _)|].
  2:{ intros [= <- <-]. eapply (own_answer_intro "HTTP/1.1 308 Permanent Redirect"); [decided|].
      apply redirect_reads; [done|by apply Hport|].
      destruct (request_target (take e head)) as [t|] eqn:Ett; [by eapply request_target_in_line|].
      apply in_line_ascii; decided. }
  all: destruct (table !! host) as [b|];
    [|first [by apply Halive | destruct (bool_decide _); [by apply Halive|by apply Hnone]]].
  all: repeat case_match; done.
Qed.

(** C31: The router's own answers are whole HTTP messages that cannot be split by
    the client's text.  Whatever was read, an answer is one of four: a client
    that trusts its content-length reads exactly that status line and the body to
    the last byte, although the Host and the target go into the redirect's
    location and the 404's text; the code counted is the code answered. *)
Theorem own_answers_are_whole table redirect tls d rs out cs :
  Forall read_ok rs -> match redirect with Some r => is_u16 (tls_port r) | None => True end ->
  serve_conn table redirect tls d rs = (Answered out, cs) ->
  exists line code body label, (line, code) ∈ own_answers
    /\ client_reads out = Some (lit line, body) /\ cs = [requests_total label code].
Proof.
  intros Hrs Hp. unfold serve_conn. destruct (read_until_head [] rs) as [[[head e] rest]|] eqn:Er; [|done].
  assert ((0 <= MAX_HEAD)%nat) as H0 by (unfold MAX_HEAD; lia).
  destruct (read_until_head_ok rs Hrs [] head e rest bytes_ok_nil H0 Er) as [Hb Hl].
  apply read_until_head_spec in Er as [He _]; [|done]. by apply demux_answers.
Qed.

Lemma own_answers_are_whole_witness :
  let rs := [Chunk (http_head [lit "GET /x HTTP/1.1"; lit "Host: a" ++ [13] ++ lit "Set-Cookie: b"])] in
  let redirect := Some {| certs_loaded := true; tls_port := 8443 |} in
  exists out, serve_conn ∅ redirect false (demo_dial true) rs
              = (Answered out, [requests_total (lit "unrouted") "308"])
    /\ exists line code body label, (line, code) ∈ own_answers
         /\ client_reads out = Some (lit line, body)
         /\ [requests_total (lit "unrouted") "308"] = [requests_total label code].
Proof.
  intros rs redirect. eexists. split; [reflexivity|].
  apply (own_answers_are_whole ∅ redirect false (demo_dial true) rs);
    [decided|unfold is_u16; cbn; lia|reflexivity].
Defined.
