(* ===== verification/Routes.v ===== *)
(** * The route table ([src/src/router.rs])

    [fetch_table] turns the apiserver's HTTPRoutes into the table of [Router],
    [poll] is a turn of [poll_routes].  [serde_json]'s values are the interface
    [Json], the apiserver's answers a function of the URL. *)

From S2P Require Import Prelude Str Metrics Net Config Health Vips Http Api Router.

(** ** The route table *)

(** [serde_json::Value]: [index] is [v["key"]] and [nth] is [v[i]], null when
    absent; the rest are the accessors of that name. *)
Class Json := {
  Value : Type;
  index : Value -> str -> Value;
  nth : Value -> nat -> Value;
  as_str : Value -> option str;
  as_u64 : Value -> option Z;
  as_array : Value -> option (list Value) }.

Section Routes.
  Context `{J : Json}.

Definition path_of (v : Value) (keys : list string) : Value := foldl (fun v k => index v (lit k)) v keys.

Definition annotation (route : Value) (k : string) : option str :=
  as_str (path_of route ["metadata"; "annotations"; k]%string).

Inductive RouteError := NoBackendRef | NoClusterIp | FetchFailed | BadProtocol (p : str).

(** [trim_start_matches(c)] and [trim_end_matches(c)] of a character. *)
Definition trim_brackets (s : str) : str := trim_end_by (Z.eqb 93) (trim_start_by (Z.eqb 91) s).

Definition with_protocol (route : Value) (addr : str) : RouteError + Backend :=
  match lower <$> annotation route "storm.io/backend-protocol" with
  | None => inr {| b_addr := addr; b_tls := None |}
  | Some p =>
      if bool_decide (p = lit "http") then inr {| b_addr := addr; b_tls := None |}
      else if bool_decide (p = lit "https") then
        let name := match annotation route "storm.io/backend-server-name" with
                    | Some n => n
                    | None => trim_brackets (match rsplit_once 58 addr with Some (h, _) => h | None => addr end)
                    end in
        inr {| b_addr := addr; b_tls := Some name |}
      else inl (BadProtocol p)
  end.

(** [api_get], as the apiserver answers now; [None] is any error. *)
Abbreviation ApiGet := (str -> option Value) (only parsing).

Definition backend_of (api_get : ApiGet) (api ns : str) (route : Value) : RouteError + str :=
  match annotation route "storm.io/backend" with
  | Some b => inr b
  | None =>
      let bref := nth (index (nth (path_of route ["spec"; "rules"]%string) 0) (lit "backendRefs")) 0 in
      match as_str (index bref (lit "name")) with
      | None => inl NoBackendRef
      | Some svc =>
          let port := default 80 (as_u64 (index bref (lit "port"))) in
          let sns := default ns (as_str (index bref (lit "namespace"))) in
          match api_get (api ++ lit "/api/v1/namespaces/" ++ sns ++ lit "/services/" ++ svc) with
          | None => inl FetchFailed
          | Some s =>
              match as_str (path_of s ["spec"; "clusterIP"]%string) with
              | Some ip => if bool_decide (ip = []) || bool_decide (ip = lit "None") then inl NoClusterIp
                           else inr (ip ++ lit ":" ++ dec port)
              | None => inl NoClusterIp
              end
          end
      end
  end.

(** The backend of one route. *)
Definition route_backend (api_get : ApiGet) (api : str) (r : Value) : RouteError + Backend :=
  let ns := default (lit "default") (as_str (path_of r ["metadata"; "namespace"]%string)) in
  match backend_of api_get api ns r with
  | inl e => inl e
  | inr addr => with_protocol r addr
  end.

Definition hostnames (r : Value) : list str :=
  omap (fun h => lower <$> as_str h) (default [] (as_array (path_of r ["spec"; "hostnames"]%string))).

Definition add_route (api_get : ApiGet) (api : str) (out : Table) (r : Value) : Table :=
  match route_backend api_get api r with
  | inl _ => out                                    (* logged, the route skipped *)
  | inr b => foldl (fun out h => <[h := b]> out) out (hostnames r)
  end.

Definition routes_url (api : str) : str := api ++ lit "/apis/gateway.networking.k8s.io/v1/httproutes".

Definition fetch_table (api_get : ApiGet) (api : str) : option Table :=
  list ← api_get (routes_url api);
  Some (foldl (add_route api_get api) ∅ (default [] (as_array (index list (lit "items"))))).

(** ** Identity *)

(** [read_token]: [None] is an error. *)
Definition read_token (read_text : str -> option str) (token_file : option str) : option (option str) :=
  match token_file with
  | None => Some None
  | Some p => t ← read_text p; if bool_decide (trim t = []) then None else Some (Some (trim t))
  end.

Inductive GetError := SendFailed | Denied (with_token : bool) | BadStatus (status : Z) | NotJson.

(** [api_get]: [send] is the request's status and its body as JSON. *)
Definition api_get (send : str -> option str -> option (Z * option Value)) (url : str) (token : option str)
    : GetError + Value :=
  match send url token with
  | None => inl SendFailed
  | Some (status, json) =>
      if (status =? 401) || (status =? 403) then inl (Denied (bool_decide (is_Some token)))
      else if (400 <=? status) && (status <? 600) then inl (BadStatus status)
      else match json with Some v => inr v | None => inl NotJson end
  end.

End Routes.

(** ** The clients *)

(** [reqwest::Client] as the router configures it, and the PEM reader of rustls. *)
Class Clients := {
  CaCert : Type;
  ApiConn : Type;
  pem_bundle : list Z -> option (list CaCert);
  build_client : Z -> option (list CaCert) -> bool -> option ApiConn;
  pem_iter : list Z -> list (option CaCert);
  usable_root : CaCert -> bool }.

Section Polling.
  Context `{J : Json} `{C : Clients}.

(** [api_client]: ten seconds, and either only the file's certificates trusted, or
    [insecure] as configured; [None] an error. *)
Definition api_client (read : str -> option (list Z)) (ca_file : option str) (insecure : bool) : option ApiConn :=
  match ca_file with
  | Some path =>
      pem ← read path; certs ← pem_bundle pem;
      if bool_decide (length certs = 0)%nat then None else build_client 10 (Some certs) false
  | None => build_client 10 None insecure
  end.

(** The loop of [upstream_connector] over the file's certificates. *)
Fixpoint add_roots (cs : list (option CaCert)) (roots : list CaCert) : option (list CaCert) :=
  match cs with
  | [] => Some roots
  | Some c :: cs => if usable_root c then add_roots cs (roots ++ [c]) else None
  | None :: _ => None
  end.

(** The roots a connector to https backends trusts; [None] an error. *)
Definition upstream_connector (read : str -> option (list Z)) (path : str) : option (list CaCert) :=
  pem ← read path; roots ← add_roots (pem_iter pem) [];
  if bool_decide (length roots = 0)%nat then None else Some roots.

(** ** Polling *)

(** What a turn meets: the files' times and contents, and the apiserver as a client
    with a token sees it. *)
Record PollEnv := {
  file_time : str -> option Z;
  file_bytes : str -> option (list Z);
  file_text : str -> option str;
  apiserver : ApiConn -> option str -> str -> option Value }.

(** [CaState]: the modification time of the CA file last loaded. *)
Record CaState := { ca_stamp : option Z; ca_has : bool }.

(** [reload]: the connector that takes the old one's place, if any. *)
Definition reload (e : PollEnv) (path : str) (ca : CaState) : CaState * option (list CaCert) :=
  let stamp := file_time e path in
  if ca_has ca && bool_decide (stamp = ca_stamp ca) then (ca, None)
  else match upstream_connector (file_bytes e) path with
       | Some c => ({| ca_stamp := stamp; ca_has := true |}, Some c)
       | None => (ca, None)
       end.

(** [ApiClient]: the client, and the stamp it was built at. *)
Record ApiClient := { api_conn : option ApiConn; api_stamp : option Z }.

(** [ApiClient::client]: the client of this turn; [None] is an error. *)
Definition api_client_of (cfg : RouterCfg) (e : PollEnv) (c : ApiClient) : ApiClient * option ApiConn :=
  let stamp := p ← r_ca_file cfg; file_time e p in
  match (k ← api_conn c; if bool_decide (stamp = api_stamp c) then Some k else None) with
  | Some k => (c, Some k)
  | None =>
      match api_client (file_bytes e) (r_ca_file cfg) (r_insecure cfg) with
      | Some k => ({| api_conn := Some k; api_stamp := stamp |}, Some k)
      | None => (c, None)
      end
  end.

(** The table, [Upstream] (a connector is the roots it trusts), and the loop's own
    state. *)
Record PollState := {
  table : Table;
  upstream : option (list CaCert);
  ca_state : CaState;
  client_state : ApiClient }.

Definition poll_start : PollState :=
  {| table := ∅; upstream := None; ca_state := {| ca_stamp := None; ca_has := false |};
     client_state := {| api_conn := None; api_stamp := None |} |}.

(** What a turn fetches: with its client and its token. *)
Definition fetched (cfg : RouterCfg) (e : PollEnv) (k : option ApiConn) : option Table :=
  k ← k; t ← read_token (file_text e) (r_token_file cfg); fetch_table (apiserver e k t) (r_apiserver cfg).

Definition poll (cfg : RouterCfg) (e : PollEnv) (s : PollState) : PollState :=
  let '(ca, new) := match r_backend_ca_file cfg with
                    | Some path => reload e path (ca_state s)
                    | None => (ca_state s, None)
                    end in
  let '(cl, k) := api_client_of cfg e (client_state s) in
  {| table := default (table s) (fetched cfg e k);
     upstream := match new with Some c => Some c | None => upstream s end;
     ca_state := ca; client_state := cl |}.

Definition refreshes (result : string) : Count :=
  {| metric := "stormlb_router_route_refreshes_total"; labels := [("result", lit result)]%string |}.

(** What a turn records: the refresh, and the gauge of routes after a good one. *)
Definition poll_report (cfg : RouterCfg) (e : PollEnv) (s : PollState) : Count * option Z :=
  match fetched cfg e (api_client_of cfg e (client_state s)).2 with
  | Some new => (refreshes "ok", Some (Z.of_nat (size new)))
  | None => (refreshes "error", None)
  end.

Definition polls (cfg : RouterCfg) (es : list PollEnv) : PollState := foldl (fun s e => poll cfg e s) poll_start es.

End Polling.

(** ** What the table holds *)

Section Table_spec.
  Context `{J : Json}.

(** The backend a route gives the hosts it claims; none when it is skipped. *)
Definition usable (api_get : str -> option Value) (api : str) (r : Value) : option Backend :=
  match route_backend api_get api r with inr b => Some b | inl _ => None end.

Definition claimed (api_get : str -> option Value) (api : str) (h : str) (r : Value) : option Backend :=
  if bool_decide (h ∈ hostnames r) then usable api_get api r else None.

Lemma lower_lower s : lower (lower s) = lower s.
Proof.
  unfold lower. rewrite map_map. apply map_ext. intros c. unfold lower_char.
  destruct (is_upper c) eqn:E; [|by rewrite E]. destruct (is_upper (c + 32)) eqn:E'; [|done].
  unfold is_upper in *. bool_to_prop. lia.
Qed.

Lemma hostnames_lower r h : h ∈ hostnames r -> lower h = h.
Proof.
  unfold hostnames. intros (v & _ & E)%list_elem_of_omap. destruct (as_str v); [|done].
  injection E as <-. apply lower_lower.
Qed.

Lemma insert_all_lookup (hs : list str) (b : Backend) (t : Table) (h : str) :
  foldl (fun (out : Table) h => <[h := b]> out) t hs !! h = if bool_decide (h ∈ hs) then Some b else t !! h.
Proof.
  revert t. induction hs as [|x hs IH]; intros t; [done|]. cbn [foldl]. rewrite IH.
  destruct (decide (h ∈ hs)).
  - rewrite !bool_decide_true by set_solver. done.
  - rewrite (bool_decide_false (h ∈ hs)) by done. destruct (decide (h = x)) as [->|].
    + rewrite bool_decide_true by set_solver. by rewrite lookup_insert_eq.
    + rewrite bool_decide_false by set_solver. by rewrite lookup_insert_ne.
Qed.

Lemma add_route_lookup api_get api t r h :
  add_route api_get api t r !! h = match claimed api_get api h r with Some b => Some b | None => t !! h end.
Proof.
  unfold add_route, claimed, usable. destruct (route_backend api_get api r) as [e|b].
  - by destruct (bool_decide _).
  - rewrite insert_all_lookup. by destruct (bool_decide _).
Qed.

Lemma add_routes_lookup api_get api items h :
  foldl (add_route api_get api) ∅ items !! h = list.last (omap (claimed api_get api h) items).
Proof.
  induction items as [|r items IH] using rev_ind; [done|].
  rewrite foldl_app, omap_app, last_app. cbn [foldl]. rewrite add_route_lookup, IH. cbn [omap list_omap].
  by destruct (claimed api_get api h r).
Qed.

Lemma fetch_table_Some api_get api list : api_get (routes_url api) = Some list ->
  exists t, fetch_table api_get api = Some t
    /\ forall h, t !! h = list.last (omap (claimed api_get api h) (default [] (as_array (index list (lit "items"))))).
Proof.
  intros H. unfold fetch_table. rewrite H. eexists. split; [done|]. intros h. apply add_routes_lookup.
Qed.

Lemma fetch_table_None api_get api : fetch_table api_get api = None <-> api_get (routes_url api) = None.
Proof. unfold fetch_table. by destruct (api_get (routes_url api)). Qed.

(** What the route table says.  When the list of routes is read, a host's
    backend is that of the last route that claims it, case apart, among the
    routes whose backend can be found; no other host is in the table; and the
    table is refused only when the list itself cannot be read. *)
Theorem fetch_table_spec api_get api :
  (fetch_table api_get api = None <-> api_get (routes_url api) = None)
  /\ forall list t h, api_get (routes_url api) = Some list -> fetch_table api_get api = Some t ->
       let routes := default [] (as_array (index list (lit "items"))) in
       t !! h = list.last (omap (claimed api_get api h) routes)
       /\ (forall b, t !! h = Some b -> lower h = h
             /\ exists r, r ∈ routes /\ h ∈ hostnames r /\ usable api_get api r = Some b).
Proof.
  split; [apply fetch_table_None|]. intros list t h Hl Ht. cbv zeta.
  destruct (fetch_table_Some _ _ _ Hl) as (t' & Ht' & Hlook). rewrite Ht in Ht'. injection Ht' as <-.
  rewrite Hlook. split; [done|].
  intros b Hb. apply last_Some_elem_of, list_elem_of_omap in Hb as (r & Hr & Hc).
  unfold claimed in Hc. case_bool_decide as Hh; [|done]. split; [by eapply hostnames_lower|by exists r].
Qed.
End Table_spec.

(** ** Keeping the last good *)

Section Keeping.
  Context {A : Type}.

(** A value that is loaded again when a time differs, and kept when that fails. *)
Definition renew (seen : option Z * option A) (cur : option (A * option Z)) : option (A * option Z) :=
  match cur with
  | Some (_, t) => if bool_decide (seen.1 = t) then cur else
                   match seen.2 with Some a => Some (a, seen.1) | None => cur end
  | None => (fun a => (a, seen.1)) <$> seen.2
  end.

(** The value in force after these turns: the one a turn loaded, since which every
    turn saw the same time or could not load; none when no turn could load. *)
Definition last_good (turns : list (option Z * option A)) (cur : option A) : Prop :=
  match cur with
  | Some a => exists before t after, turns = before ++ (t, Some a) :: after
                /\ Forall (fun x => x.1 = t \/ x.2 = None) after
  | None => Forall (fun x => x.2 = None) turns
  end.

Lemma renew_last_good turns cur : foldl (fun c x => renew x c) None turns = cur ->
  match cur with
  | Some (a, t) => exists before after, turns = before ++ (t, Some a) :: after
                     /\ Forall (fun x => x.1 = t \/ x.2 = None) after
  | None => Forall (fun x => x.2 = None) turns
  end.
Proof.
  intros <-. induction turns as [|[t l] turns IH] using rev_ind; [constructor|]. rewrite foldl_app. cbn [foldl].
  destruct (foldl _ None turns) as [[a t0]|]; cbn [renew fst snd].
  - destruct IH as (before & after & -> & H).
    assert (forall P : Prop, P -> t = t0 \/ l = None -> exists before0 after0,
      (before ++ (t0, Some a) :: after) ++ [(t, l)] = before0 ++ (t0, Some a) :: after0
      /\ Forall (fun x => x.1 = t0 \/ x.2 = None) after0) as Hk.
    { intros _ _ Hx. exists before, (after ++ [(t, l)]). rewrite <- app_assoc. split; [done|].
      apply Forall_app. split; [done|by constructor]. }
    case_bool_decide; [by apply (Hk True I); left|]. destruct l as [a'|]; [|by apply (Hk True I); right].
    exists (before ++ (t0, Some a) :: after), []. by split.
  - destruct l as [a|]; cbn [fmap option_fmap option_map].
    + exists turns, []. by split.
    + apply Forall_app. split; [done|by constructor].
Qed.

Lemma last_good_renew turns : last_good turns (fst <$> foldl (fun c x => renew x c) None turns).
Proof.
  pose proof (renew_last_good turns _ eq_refl) as H. destruct (foldl _ None turns) as [[a t]|]; [|done].
  destruct H as (before & after & ? & ?). by exists before, t, after.
Qed.

End Keeping.

(** ** Polling *)

Section Poll_spec.
  Context `{J : Json} `{C : Clients}.

(** The client of a turn. *)
Definition client_of (cfg : RouterCfg) (e : PollEnv) (s : PollState) : option ApiConn :=
  (api_client_of cfg e (client_state s)).2.

Lemma poll_table cfg e s : table (poll cfg e s) = default (table s) (fetched cfg e (client_of cfg e s)).
Proof.
  unfold poll, client_of. destruct (match r_backend_ca_file cfg with Some _ => _ | None => _ end) as [ca new].
  by destruct (api_client_of _ _ _) as [cl k].
Qed.

Lemma polls_snoc cfg es e : polls cfg (es ++ [e]) = poll cfg e (polls cfg es).
Proof. unfold polls. by rewrite foldl_app. Qed.

(** What a turn sees of the backends' CA file, and of the apiserver's. *)
Definition ca_seen (path : str) (e : PollEnv) : option Z * option (list CaCert) :=
  (file_time e path, upstream_connector (file_bytes e) path).
Definition api_seen (cfg : RouterCfg) (e : PollEnv) : option Z * option ApiConn :=
  (p ← r_ca_file cfg; file_time e p, api_client (file_bytes e) (r_ca_file cfg) (r_insecure cfg)).

(** What is in force, with the time it was loaded at. *)
Definition ca_in_force (s : PollState) : option (list CaCert * option Z) :=
  (fun c => (c, ca_stamp (ca_state s))) <$> upstream s.
Definition api_in_force (s : PollState) : option (ApiConn * option Z) :=
  (fun c => (c, api_stamp (client_state s))) <$> api_conn (client_state s).

(** The connector is there exactly when a CA file has been loaded. *)
Lemma polls_ready cfg es : ca_has (ca_state (polls cfg es)) = bool_decide (is_Some (upstream (polls cfg es))).
Proof.
  induction es as [|e es IH] using rev_ind; [done|]. rewrite polls_snoc. set (s := polls cfg es) in *. clearbody s.
  unfold poll, reload. destruct (api_client_of _ _ _) as [cl k]. destruct (r_backend_ca_file cfg); [|done].
  destruct (_ && _); [done|]. by destruct (upstream_connector _ _).
Qed.

Lemma poll_ca cfg path e s : r_backend_ca_file cfg = Some path ->
  ca_has (ca_state s) = bool_decide (is_Some (upstream s)) ->
  ca_in_force (poll cfg e s) = renew (ca_seen path e) (ca_in_force s).
Proof.
  intros Hp Hr. unfold poll, reload, ca_in_force, ca_seen, renew. rewrite Hp, Hr.
  destruct (api_client_of _ _ _) as [cl k]. destruct (upstream s) as [c|] eqn:Eu; cbn [fmap option_fmap option_map].
  - rewrite bool_decide_true by done. cbn [andb fst snd].
    destruct (bool_decide (file_time _ _ = _)); [done|]. by destruct (upstream_connector _ _).
  - rewrite bool_decide_false by (by intros []). cbn [andb snd].
    by destruct (upstream_connector _ _).
Qed.

Lemma poll_api cfg e s : api_in_force (poll cfg e s) = renew (api_seen cfg e) (api_in_force s).
Proof.
  unfold poll, api_client_of, api_in_force, api_seen, renew.
  destruct (match r_backend_ca_file cfg with Some _ => _ | None => _ end) as [ca new].
  destruct (api_conn (client_state s)) as [k|] eqn:Ek; cbn [mbind option_bind fmap option_fmap option_map fst snd].
  - destruct (bool_decide _); cbn; [by rewrite ?Ek|]. destruct (api_client _ _ _); cbn; by rewrite ?Ek.
  - destruct (api_client _ _ _); cbn; by rewrite ?Ek.
Qed.

Lemma polls_ca cfg path es : r_backend_ca_file cfg = Some path ->
  last_good (ca_seen path <$> es) (upstream (polls cfg es)).
Proof.
  intros Hp. assert (ca_in_force (polls cfg es) = foldl (fun c x => renew x c) None (ca_seen path <$> es)) as E.
  { induction es as [|e es IH] using rev_ind; [done|]. rewrite polls_snoc, fmap_app, foldl_app. cbn [foldl fmap list_fmap].
    rewrite <- IH. apply poll_ca; [done|apply polls_ready]. }
  pose proof (last_good_renew (ca_seen path <$> es)) as H. rewrite <- E in H. unfold ca_in_force in H.
  by destruct (upstream (polls cfg es)).
Qed.

Lemma polls_api cfg es : last_good (api_seen cfg <$> es) (api_conn (client_state (polls cfg es))).
Proof.
  assert (api_in_force (polls cfg es) = foldl (fun c x => renew x c) None (api_seen cfg <$> es)) as E.
  { induction es as [|e es IH] using rev_ind; [done|]. rewrite polls_snoc, fmap_app, foldl_app. cbn [foldl fmap list_fmap].
    rewrite <- IH. apply poll_api. }
  pose proof (last_good_renew (api_seen cfg <$> es)) as H. rewrite <- E in H. unfold api_in_force in H.
  by destruct (api_conn (client_state (polls cfg es))).
Qed.

(** No file, no connector. *)
Lemma polls_no_ca cfg es : r_backend_ca_file cfg = None -> upstream (polls cfg es) = None.
Proof.
  intros Hp. induction es as [|e es IH] using rev_ind; [done|]. rewrite polls_snoc. unfold poll. rewrite Hp.
  by destruct (api_client_of _ _ _).
Qed.

Lemma add_roots_spec cs roots out : add_roots cs roots = Some out ->
  exists new, out = roots ++ new /\ Some <$> new = cs /\ Forall (fun c => usable_root c = true) new.
Proof.
  revert roots. induction cs as [|[c|] cs IH]; intros roots; cbn [add_roots];
    [|destruct (usable_root c) eqn:Eu; [|done]|done].
  - intros [= <-]. exists []. by rewrite app_nil_r.
  - intros (new & -> & E & H)%IH. exists (c :: new). rewrite <- app_assoc, fmap_cons, E. split_and!;
    [done..|by constructor].
Qed.

(** A configured CA is the only trust.  With [ca_file] a client for the
    apiserver is built, if at all, from that file's certificates, at least one,
    whatever [insecure] says; a file that is missing, no PEM or empty gives no
    client.  A connector to https backends trusts exactly the certificates of its
    file, at least one and each of them usable, or there is none. *)
Theorem configured_ca_is_the_only_trust read path insecure :
  (forall c, api_client read (Some path) insecure = Some c ->
     exists pem certs, read path = Some pem /\ pem_bundle pem = Some certs /\ certs <> []
       /\ build_client 10 (Some certs) false = Some c)
  /\ (forall roots, upstream_connector read path = Some roots ->
     exists pem, read path = Some pem /\ Some <$> roots = pem_iter pem /\ roots <> []
       /\ Forall (fun c => usable_root c = true) roots).
Proof.
  split.
  - intros c. unfold api_client. destruct (read path) as [pem|]; [|done]. cbn [mbind option_bind].
    destruct (pem_bundle pem) as [certs|] eqn:Ep; [|done]. cbn [mbind option_bind]. case_bool_decide as Hl; [done|].
    intros Hb. exists pem, certs. split_and!; try done. by intros ->.
  - intros roots. unfold upstream_connector. destruct (read path) as [pem|]; [|done]. cbn [mbind option_bind].
    destruct (add_roots (pem_iter pem) []) as [rs|] eqn:Er; [|done]. cbn [mbind option_bind].
    case_bool_decide as Hl; [done|]. intros [= ->]. exists pem.
    apply add_roots_spec in Er as (new & -> & E & Hu). split_and!; try done. by intros E0; rewrite E0 in Hl.
Qed.

(** What a turn fetches, by the state it finds. *)
Definition fetches (cfg : RouterCfg) (e : PollEnv) (s : PollState) : option Table :=
  fetched cfg e (client_of cfg e s).

Lemma fetches_spec cfg e s new : fetches cfg e s = Some new -> exists k t list,
  client_of cfg e s = Some k /\ read_token (file_text e) (r_token_file cfg) = Some t
  /\ apiserver e k t (routes_url (r_apiserver cfg)) = Some list
  /\ forall h, new !! h = list.last (omap (claimed (apiserver e k t) (r_apiserver cfg) h)
                                        (default [] (as_array (index list (lit "items"))))).
Proof.
  unfold fetches, fetched. destruct (client_of cfg e s) as [k|]; [|done]. cbn [mbind option_bind].
  destruct (read_token _ _) as [t|]; [|done]. cbn [mbind option_bind]. intros Hf.
  destruct (apiserver e k t (routes_url (r_apiserver cfg))) as [list|] eqn:El.
  2:{ apply fetch_table_None in El. congruence. }
  destruct (fetch_table_Some _ _ _ El) as (t' & E & Hl). exists k, t, list. split_and!; [done..|].
  by simplify_eq.
Qed.

Lemma polls_table cfg es :
  (table (polls cfg es) = ∅ /\ forall a e b, es = a ++ e :: b -> fetches cfg e (polls cfg a) = None)
  \/ exists before e after, es = before ++ e :: after /\ fetches cfg e (polls cfg before) = Some (table (polls cfg es))
       /\ forall a e' b, after = a ++ e' :: b -> fetches cfg e' (polls cfg (before ++ e :: a)) = None.
Proof.
  induction es as [|e es IH] using rev_ind.
  { left. split; [done|]. by intros [] ? ?. }
  rewrite polls_snoc, poll_table. fold (fetches cfg e (polls cfg es)).
  destruct (fetches cfg e (polls cfg es)) as [new|] eqn:Ef; cbn [default from_option].
  { right. exists es, e, []. split_and!; [done|done|]. by intros [] ? ?. }
  assert (forall a e' b (l : list PollEnv), l ++ [e] = a ++ e' :: b ->
    l = a /\ e = e' \/ exists b', l = a ++ e' :: b') as Hsplit.
  { intros a e' b l. destruct b as [|x b _] using rev_ind.
    - intros [-> ->]%app_inj_tail. by left.
    - rewrite app_comm_cons, app_assoc. intros [-> ->]%app_inj_tail. right. by exists b. }
  destruct IH as [[Ht Hn]|(before & e0 & after & -> & Hf & Hn)].
  - left. split; [done|]. intros a e' b [[<- <-]|[b' ->]]%Hsplit; [done|by eapply Hn].
  - right. exists before, e0, (after ++ [e]). rewrite <- app_assoc. split_and!; [done|done|].
    intros a e' b [[<- <-]|[b' ->]]%Hsplit; [done|by eapply Hn].
Qed.

(** C28: The router serves the last good table and trusts the last good CA.  After
    any turns: the table is the one the last turn that could read the list of routes
    made of it, with the routes whose backend it could resolve then (a route whose
    Service cannot be read is left out, see [flapping_service_takes_route_down]);
    empty when no turn could.  The connector to https backends trusts the roots that
    a turn read from [backend_ca_file], since which every turn saw the file with the
    same modification time or unreadable: a file that changed and loads replaces it,
    one that is missing or broken does not; there is none when no turn could load
    one or none is configured.  And the same of the apiserver's client and
    [ca_file]. *)
Theorem poll_keeps_last_good cfg es :
  let s := polls cfg es in
  ((table s = ∅ /\ forall a e b, es = a ++ e :: b -> fetches cfg e (polls cfg a) = None)
   \/ exists before e after k t list, es = before ++ e :: after
        /\ client_of cfg e (polls cfg before) = Some k
        /\ read_token (file_text e) (r_token_file cfg) = Some t
        /\ apiserver e k t (routes_url (r_apiserver cfg)) = Some list
        /\ (forall h, table s !! h = list.last (omap (claimed (apiserver e k t) (r_apiserver cfg) h)
                                              (default [] (as_array (index list (lit "items"))))))
        /\ forall a e' b, after = a ++ e' :: b -> fetches cfg e' (polls cfg (before ++ e :: a)) = None)
  /\ match r_backend_ca_file cfg with
     | Some path => last_good (ca_seen path <$> es) (upstream s)
     | None => upstream s = None
     end
  /\ last_good (api_seen cfg <$> es) (api_conn (client_state s)).
Proof.
  intros s. split; [|split].
  - destruct (polls_table cfg es) as [H|(before & e & after & E & Hf & Hn)]; [by left|]. right.
    destruct (fetches_spec _ _ _ _ Hf) as (k & t & list & Hk & Ht & Hl & Hlook).
    exists before, e, after, k, t, list. done.
  - destruct (r_backend_ca_file cfg) as [path|] eqn:Ep; [by apply polls_ca|by apply polls_no_ca].
  - apply polls_api.
Qed.

(** A flapping apiserver takes a working route down: the list of routes is read,
    reading the Service of the routes that claim a host fails (a timeout, a 500),
    and the host that was served has no backend after the turn. *)
Theorem flapping_service_takes_route_down cfg es e k t list h :
  let s := polls cfg es in
  client_of cfg e s = Some k -> read_token (file_text e) (r_token_file cfg) = Some t ->
  apiserver e k t (routes_url (r_apiserver cfg)) = Some list ->
  (forall r, r ∈ default [] (as_array (index list (lit "items"))) -> h ∈ hostnames r ->
     route_backend (apiserver e k t) (r_apiserver cfg) r = inl FetchFailed) ->
  table (poll cfg e s) !! h = None.
Proof.
  intros s Hg Ht Hl Hr. rewrite poll_table, Hg. unfold fetched. rewrite Ht.
  cbn [mbind option_bind].
  destruct (fetch_table_Some _ _ _ Hl) as (t' & -> & Hlook). cbn [default from_option].
  rewrite Hlook. destruct (list.last _) as [b|] eqn:E; [|done].
  apply last_Some_elem_of, list_elem_of_omap in E as (r & Hin & Hc). unfold claimed, usable in Hc.
  case_bool_decide as Hh; [|done]. by rewrite (Hr r Hin Hh) in Hc.
Qed.

End Poll_spec.

(** ** A concrete JSON *)

Inductive Tree := TNull | TStr (s : str) | TNum (n : Z) | TArr (l : list Tree) | TObj (l : list (str * Tree)).

Definition tree_index (v : Tree) (k : str) : Tree :=
  match v with
  | TObj l => match List.find (fun p => bool_decide (fst p = k)) l with Some (_, v) => v | None => TNull end
  | _ => TNull
  end.
Definition tree_nth (v : Tree) (i : nat) : Tree := match v with TArr l => List.nth i l TNull | _ => TNull end.
Definition tree_str (v : Tree) : option str := match v with TStr s => Some s | _ => None end.
Definition tree_num (v : Tree) : option Z := match v with TNum n => Some n | _ => None end.
Definition tree_arr (v : Tree) : option (list Tree) := match v with TArr l => Some l | _ => None end.

#[local] Instance tree_json : Json :=
  {| Value := Tree; index := tree_index; nth := tree_nth; as_str := tree_str; as_u64 := tree_num;
     as_array := tree_arr |}.

Definition obj (l : list (string * Tree)) : Tree := TObj ((fun p => (lit p.1, p.2)) <$> l).
Definition text (s : string) : Tree := TStr (lit s).

(** Two routes: one by annotation over https, one by its Service. *)
Definition demo_route1 : Tree :=
  obj [("metadata", obj [("annotations", obj [("storm.io/backend", text "127.0.0.1:9094");
                                              ("storm.io/backend-protocol", text "HTTPS")])]);
       ("spec", obj [("hostnames", TArr [text "Console.lan"; text "both.lan"])])]%string.
Definition demo_route2 : Tree :=
  obj [("metadata", obj [("namespace", text "web")]);
       ("spec", obj [("hostnames", TArr [text "both.LAN"]);
                     ("rules", TArr [obj [("backendRefs",
                        TArr [obj [("name", text "site"); ("port", TNum 8080)]])]])])]%string.

Definition demo_routes : Tree := obj [("items", TArr [demo_route1; demo_route2])]%string.
Definition demo_service : Tree := obj [("spec", obj [("clusterIP", text "10.96.0.7")])]%string.

(** An apiserver; [up] is whether it answers for Services. *)
Definition demo_apiserver (up : bool) (url : str) : option Value :=
  if bool_decide (url = routes_url (lit "https://api")) then Some demo_routes
  else if up && bool_decide (url = lit "https://api/api/v1/namespaces/web/services/site") then Some demo_service
  else None.

(** A certificate is a number, a file the certificates it holds, a client the roots
    it is built with. *)
#[local] Instance toy_clients : Clients :=
  {| CaCert := Z; ApiConn := option (list Z);
     pem_bundle := Some; build_client := fun _ roots _ => Some roots;
     pem_iter := fun pem => Some <$> pem; usable_root := fun _ => true |}.

Definition demo_cfg : RouterCfg :=
  RouterCfg_of None (Some (lit "https://api")) None None None None None (Some (lit "ca.crt")).

(** A turn at which the backends' CA file was written at [time] and holds [pem]. *)
Definition demo_turn_with (time : option Z) (pem : option (list Z)) (up : bool) : PollEnv :=
  {| file_time _ := time; file_bytes _ := pem; file_text _ := None; apiserver _ _ := demo_apiserver up |}.

Definition demo_turn (up : bool) : PollEnv := demo_turn_with (Some 1) (Some [7]) up.

Lemma fetch_table_spec_witness :
  exists list t,
    demo_apiserver true (routes_url (lit "https://api")) = Some list
    /\ fetch_table (demo_apiserver true) (lit "https://api") = Some t
    /\ t !! lit "both.lan" = Some {| b_addr := lit "10.96.0.7:8080"; b_tls := None |}
    /\ t !! lit "console.lan" = Some {| b_addr := lit "127.0.0.1:9094"; b_tls := Some (lit "127.0.0.1") |}.
Proof.
  destruct (fetch_table (demo_apiserver true) (lit "https://api")) as [t|] eqn:E;
    [|exfalso; vm_compute in E; discriminate].
  exists demo_routes, t. split; [reflexivity|]. split; [reflexivity|].
  destruct (fetch_table_spec (demo_apiserver true) (lit "https://api")) as [_ H].
  split.
  - rewrite (proj1 (H demo_routes t (lit "both.lan") eq_refl E)). vm_compute. reflexivity.
  - rewrite (proj1 (H demo_routes t (lit "console.lan") eq_refl E)). vm_compute. reflexivity.
Defined.

(** The CA file goes and a broken one comes, with no apiserver: nothing is lost; then
    it is another CA's, which takes its place. *)
Lemma poll_keeps_last_good_witness :
  let down t pem := {| file_time _ := t; file_bytes _ := pem; file_text _ := None; apiserver _ _ _ := None |} in
  let kept := polls demo_cfg [demo_turn true; down None None; down (Some 2) (Some [])] in
  let renewed := polls demo_cfg [demo_turn true; down None None; down (Some 3) (Some [8])] in
  table kept = table (polls demo_cfg [demo_turn true]) /\ is_Some (table kept !! lit "both.lan")
  /\ upstream kept = Some [7] /\ upstream renewed = Some [8]
  /\ last_good (ca_seen (lit "ca.crt") <$> [demo_turn true; down None None; down (Some 3) (Some [8])]) (Some [8]).
Proof.
  intros down kept renewed.
  split; [reflexivity|]. split; [eexists; vm_compute; reflexivity|].
  split; [vm_compute; reflexivity|]. split; [vm_compute; reflexivity|].
  destruct (poll_keeps_last_good demo_cfg [demo_turn true; down None None; down (Some 3) (Some [8])]) as (_ & H & _).
  exact H.
Defined.

(** The route served by its Service is gone after one turn in which only the
    Service could not be read. *)
Lemma flapping_service_takes_route_down_witness :
  let s := polls demo_cfg [demo_turn true] in
  is_Some (table s !! lit "both.lan")
  /\ table (poll demo_cfg {| file_time _ := Some 1; file_bytes _ := Some [7]; file_text _ := None;
                apiserver _ _ := fun u => if bool_decide (u = routes_url (lit "https://api"))
                                        then Some (obj [("items", TArr [demo_route2])]%string) else None |} s)
     !! lit "both.lan" = None.
Proof.
  intros s. split.
  - exists {| b_addr := lit "10.96.0.7:8080"; b_tls := None |}. vm_compute. reflexivity.
  - eapply flapping_service_takes_route_down with (t := None); [vm_compute; reflexivity|done|reflexivity|].
    intros r Hr _. apply list_elem_of_singleton in Hr as ->. vm_compute. reflexivity.
Defined.
