(* ===== verification/Routing.v ===== *)
(** * From an HTTPRoute to a connection ([src/src/router.rs])

    [Routes] makes the table of what the apiserver says, [Router] serves a
    connection by a table.  Together: the requests a router forwards after a poll
    are those the HTTPRoutes of that poll ask for. *)

From S2P Require Import Prelude Str Metrics Net Config Http Api Router Routes.

Section Routing.
  Context `{J : Json} `{C : Clients}.

(** The backend the routes of a list give to a host: the last that claims it and
    can be resolved. *)
Definition asked (api_get : str -> option Value) (api : str) (list : Value) (h : str) : option Backend :=
  list.last (omap (claimed api_get api h) (default [] (as_array (index list (lit "items"))))).

Lemma poll_asked cfg e s k t list : client_of cfg e s = Some k ->
  read_token (file_text e) (r_token_file cfg) = Some t ->
  apiserver e k t (routes_url (r_apiserver cfg)) = Some list ->
  forall h, table (poll cfg e s) !! h = asked (apiserver e k t) (r_apiserver cfg) list h.
Proof.
  intros Hg Ht Hl. destruct (fetch_table_Some _ _ _ Hl) as (t' & E & Hlook).
  rewrite poll_table, Hg. unfold fetched. cbn [mbind option_bind]. rewrite Ht. cbn [mbind option_bind].
  rewrite E. exact Hlook.
Qed.

Lemma asked_by api_get api list h b : asked api_get api list h = Some b ->
  exists r, r ∈ default [] (as_array (index list (lit "items"))) /\ h ∈ hostnames r
    /\ route_backend api_get api r = inr b.
Proof.
  unfold asked. intros (r & Hr & Hc)%last_Some_elem_of%list_elem_of_omap. exists r. unfold claimed, usable in Hc.
  case_bool_decide; [|done]. destruct (route_backend api_get api r); by simplify_eq.
Qed.

(** C16: An HTTPRoute is what the router does.  After a poll that could read the
    list of routes, whatever was polled before: a well-formed request for a host
    that some route with a resolvable backend claims reaches the backend of the
    last such route, whole, when it accepts the connection (and proves its name,
    if the route says https); and conversely any bytes a connection has forwarded
    go to the backend of a route of that list that claims the request's host,
    over TLS exactly if that route says so, which needs a CA loaded. *)
Theorem routes_are_served cfg es e k t list :
  let s := poll cfg e (polls cfg es) in let api := r_apiserver cfg in
  client_of cfg e (polls cfg es) = Some k -> read_token (file_text e) (r_token_file cfg) = Some t ->
  apiserver e k t (routes_url api) = Some list ->
  (forall redirect tls d first hs body chunks more host b,
     Forall line_ok (first :: hs) -> (length (http_head (first :: hs)) <= MAX_HEAD)%nat ->
     mjoin chunks = http_head (first :: hs) ++ body -> host_of (http_head (first :: hs)) = Some host ->
     asked (apiserver e k t) api list host = Some b ->
     https_only redirect tls = false -> connects d (b_addr b) = true -> verified d (b_tls b) ->
     exists bytes left,
       serve_conn (table s) redirect tls d ((Chunk <$> chunks) ++ more)
       = (Forwarded (b_addr b) (b_tls b) bytes ((Chunk <$> left) ++ more), [])
       /\ bytes ++ mjoin left = http_head (if tls then first :: https_header :: kept hs else first :: hs) ++ body)
  /\ (forall redirect tls d rs addr name bytes rest cs, ca_loaded d = bool_decide (is_Some (upstream s)) ->
     serve_conn (table s) redirect tls d rs = (Forwarded addr name bytes rest, cs) ->
     exists chunks i host r,
       rs = (Chunk <$> chunks) ++ rest /\ host_of (take i (mjoin chunks)) = Some host
       /\ r ∈ default [] (as_array (index list (lit "items"))) /\ host ∈ hostnames r
       /\ route_backend (apiserver e k t) api r = inr {| b_addr := addr; b_tls := name |}
       /\ (name <> None -> is_Some (upstream s) /\ handshake d = true)).
Proof.
  intros s api Hg Ht Hl. pose proof (poll_asked cfg e (polls cfg es) k t list Hg Ht Hl) as Htab. split.
  - intros redirect tls d first hs body chunks more host b Hok Hlen Hc Hh Hb. intros.
    apply (serve_conn_reaches (table s) redirect tls d first hs body chunks more host b); try done.
    unfold s. by rewrite Htab.
  - intros redirect tls d rs addr name bytes rest cs Hca E.
    destruct (serve_conn_forwards _ _ _ _ _ _ _ E) as (_ & _ & H).
    destruct (H addr name bytes rest eq_refl) as (chunks & i & host & Hrs & _ & Hh & Hb & Hv & _).
    unfold s in Hb. rewrite Htab in Hb. apply asked_by in Hb as (r & Hr & Hin & Hrb).
    exists chunks, i, host, r. do 5 (split; [done|]). intros Hn. destruct name as [n|]; [|done].
    destruct Hv as (Hv1 & _ & Hv2). rewrite Hca, bool_decide_eq_true in Hv1. done.
Qed.

End Routing.

#[local] Existing Instance tree_json.

(** A request, in two reads, for the host that a route gives its Service. *)
Lemma routes_are_served_witness :
  let d := {| connects _ := true; ca_loaded := true; valid_name_ _ := true; handshake := true |} in
  let hs := [lit "Host: both.lan:80"] in
  let c := http_head (lit "GET / HTTP/1.1" :: hs) in
  exists bytes left,
    serve_conn (table (poll demo_cfg (demo_turn true) (polls demo_cfg [demo_turn false])))
      None false d ((Chunk <$> [take 5 c; drop 5 c]) ++ [])
    = (Forwarded (lit "10.96.0.7:8080") None bytes ((Chunk <$> left) ++ []), [])
    /\ bytes ++ mjoin left = c ++ [].
Proof.
  intros d hs c.
  destruct (routes_are_served demo_cfg [demo_turn false] (demo_turn true) None None demo_routes) as [H _];
    [vm_compute; reflexivity|reflexivity|reflexivity|].
  apply (H None false d (lit "GET / HTTP/1.1") hs [] [take 5 c; drop 5 c] [] (lit "both.lan")
    {| b_addr := lit "10.96.0.7:8080"; b_tls := None |}); try reflexivity; [decided|vm_compute; lia].
Defined.
