(* ===== verification/Front.v ===== *)
(** * The router's front doors ([src/src/router.rs]: [run], [serve_on],
      [serve_tls_on], [forward], [splice])

    Listeners, their accept loops, and a connection from its accept to its end:
    [serve_conn] of [Router], then the two halves of [splice], which run
    concurrently: a schedule says which half takes its next step and whether its
    write succeeds.  What is written to each side, the half-closes, and what is
    counted are the state. *)

From S2P Require Import Prelude Str Metrics Net Config Vips Http Api Router.

(** ** Copying both ways *)

Inductive Half := Up | Down.

Inductive UpState := UpCopying | UpDone (ok : bool).
Inductive DownState := AwaitsFirst | DownCopying | DownDone (ok : bool).

#[export] Instance UpState_eq_dec : EqDecision UpState.
Proof. solve_decision. Defined.
#[export] Instance DownState_eq_dec : EqDecision DownState.
Proof. solve_decision. Defined.

Record Splice := {
  client : list Read; backend : list Read;      (* still to be read of each *)
  to_backend : list Z; to_client : list Z;      (* written to each *)
  up : UpState; down : DownState;
  backend_shut : bool; client_shut : bool;      (* its writing side is shut down *)
  counts : list Count;
  observed_hosts : list str }.                  (* durations observed, by host *)

(** What a write takes: all of it, or so many bytes and then an error. *)
Definition written (b : list Z) (w : option nat) : list Z := match w with None => b | Some n => take n b end.

Definition set_up (client : list Read) (out : list Z) (u : UpState) (shut : bool) (s : Splice) : Splice :=
  {| client := client; backend := backend s; to_backend := to_backend s ++ out; to_client := to_client s;
     up := u; down := down s; backend_shut := shut; client_shut := client_shut s; counts := counts s;
     observed_hosts := observed_hosts s |}.

Definition set_down (backend : list Read) (out : list Z) (d : DownState) (shut : bool) (s : Splice) : Splice :=
  {| client := client s; backend := backend; to_backend := to_backend s; to_client := to_client s ++ out;
     up := up s; down := d; backend_shut := backend_shut s; client_shut := shut; counts := counts s;
     observed_hosts := observed_hosts s |}.

(** [record_first]: the counts of [Router], and the duration of a response. *)
Definition record (host : str) (first : option (list Z)) (s : Splice) : Splice :=
  {| client := client s; backend := backend s; to_backend := to_backend s; to_client := to_client s;
     up := up s; down := down s; backend_shut := backend_shut s; client_shut := client_shut s;
     counts := counts s ++ record_first host first;
     observed_hosts := observed_hosts s ++ match first with Some _ => [host] | None => [] end |}.

(** A step of [tokio::io::copy] to the backend; its end, good or bad, shuts the
    backend's side.  Nothing to read yet: it waits. *)
Definition up_step (w : option nat) (s : Splice) : Splice :=
  match up s, client s with
  | UpDone _, _ | _, [] => s
  | UpCopying, r :: rs =>
      match r with
      | Chunk (x :: b) =>
          match w with
          | None => set_up rs (x :: b) UpCopying (backend_shut s) s
          | Some _ => set_up rs (written (x :: b) w) (UpDone false) true s
          end
      | Chunk [] | Eof => set_up rs [] (UpDone true) true s
      | ReadError => set_up rs [] (UpDone false) true s
      end
  end.

(** A step to the client: the first read is recorded; the client's side is shut
    only after a good end. *)
Definition down_step (host : str) (w : option nat) (s : Splice) : Splice :=
  match down s, backend s with
  | DownDone _, _ | _, [] => s
  | d, r :: rs =>
      let first f := match d with AwaitsFirst => record host f s | _ => s end in
      match r with
      | Chunk (x :: b) =>
          let s := first (Some (x :: b)) in
          match w with
          | None => set_down rs (x :: b) DownCopying (client_shut s) s
          | Some _ => set_down rs (written (x :: b) w) (DownDone false) (client_shut s) s
          end
      | Chunk [] | Eof => set_down rs [] (DownDone true) true (first None)
      | ReadError => let s := first None in set_down rs [] (DownDone false) (client_shut s) s
      end
  end.

Definition splice_step (host : str) (h : Half * option nat) (s : Splice) : Splice :=
  match h with (Up, w) => up_step w s | (Down, w) => down_step host w s end.

Definition splice (host : str) (sched : list (Half * option nat)) (s : Splice) : Splice :=
  foldl (fun s h => splice_step host h s) s sched.

Definition splice_start (head : list Z) (client backend : list Read) : Splice :=
  {| client := client; backend := backend; to_backend := head; to_client := []; up := UpCopying;
     down := AwaitsFirst; backend_shut := false; client_shut := false; counts := []; observed_hosts := [] |}.

(** [join!] is over when both halves are. *)
Definition over (s : Splice) : bool :=
  match up s, down s with UpDone _, DownDone _ => true | _, _ => false end.

(** ** A connection *)

(** What a connection meets: the route table and whether a certificate is loaded
    when it gets there, the TLS handshake of the client, the dial, what the client
    and the backend send, whether the head can be written, and the schedule. *)
Record Arrival := {
  a_table : Table;
  a_certs : bool;
  a_handshake : bool;
  a_dial : Dial;
  a_reads : list Read;
  a_head_written : bool;
  a_replies : list Read;
  a_sched : list (Half * option nat) }.

(** The end of a connection's task: no handshake; [serve_conn] without a backend;
    or a backend, to which the head could not be written, or was. *)
Inductive End := NoHandshake | NoProxy (s : Served) | HeadLost | Proxied (sp : Splice).

Record Task := { t_end : End; t_counts : list Count }.

(** The host of the head the connection sends. *)
Definition host_read (rs : list Read) : option str :=
  '(head, e, _) ← read_until_head [] rs; host_of (take e head).

(** [serve_conn] with the [forward] at its end. *)
Definition conn (redirect : option Z) (tls : bool) (a : Arrival) : Task :=
  let r := (fun port => {| certs_loaded := a_certs a; tls_port := port |}) <$> redirect in
  let '(s, cs) := serve_conn (a_table a) r tls (a_dial a) (a_reads a) in
  match s with
  | Forwarded _ _ head rest =>
      if negb (a_head_written a) then {| t_end := HeadLost; t_counts := cs |} else
      let sp := splice (default [] (host_read (a_reads a))) (a_sched a) (splice_start head rest (a_replies a)) in
      {| t_end := Proxied sp; t_counts := cs ++ counts sp |}
  | s => {| t_end := NoProxy s; t_counts := cs |}
  end.

Definition connections_total (listener : string) : Count :=
  {| metric := "stormlb_router_connections_total"; labels := [("listener", lit listener)]%string |}.

Definition handshake_error : Count :=
  {| metric := "stormlb_router_tls_handshake_errors_total"; labels := [] |}.

(** The tasks [serve_on] and [serve_tls_on] spawn; the active gauge of the
    listener is up while one lasts. *)
Definition http_task (redirect : option Z) (a : Arrival) : Task :=
  let t := conn redirect false a in
  {| t_end := t_end t; t_counts := connections_total "http" :: t_counts t |}.

Definition https_task (a : Arrival) : Task :=
  if a_handshake a then
    let t := conn None true a in
    {| t_end := t_end t; t_counts := connections_total "https" :: t_counts t |}
  else {| t_end := NoHandshake; t_counts := [connections_total "https"; handshake_error] |}.

(** What [accept] yields. *)
Inductive Accept := AcceptError | Accepted (a : Arrival).

(** [serve_on]: the tasks, and whether it returned, with the error. *)
Fixpoint serve_on (redirect : option Z) (l : list Accept) : list Task * bool :=
  match l with
  | [] => ([], false)
  | AcceptError :: _ => ([], true)
  | Accepted a :: l => let '(ts, e) := serve_on redirect l in (http_task redirect a :: ts, e)
  end.

Fixpoint serve_tls_on (l : list Accept) : list Task :=
  match l with
  | [] => []
  | AcceptError :: l => serve_tls_on l
  | Accepted a :: l => https_task a :: serve_tls_on l
  end.

(** ** Start *)

(** What [run] serves: the plain listeners, the first of which it runs itself, the
    TLS listeners, and the port plain HTTP is sent to.  A listener is the address it
    was bound with; on port 0 the kernel's choice does not show, as it does not in
    [run], which redirects to the configured port. *)
Record Doors := { plain : list str; secure : list str; to_https : option Z }.

(** [run]; [None] is an error.  The ports that can be bound are asked twice. *)
Definition run (cfg : RouterCfg) (probe : option str) (can_bind can_bind_tls : str -> bool) : option Doors :=
  plain ← bind_listeners (r_listen cfg) probe can_bind;
  match r_tls cfg with
  | None => Some {| plain := plain; secure := []; to_https := None |}
  | Some t =>
      match bind_listeners (t_listen t) probe can_bind_tls with
      | Some ls => Some {| plain := plain; secure := ls;
                           to_https := if t_redirect t then Some (redirect_port (t_listen t)) else None |}
      | None => Some {| plain := plain; secure := []; to_https := None |}       (* logged *)
      end
  end.

(** [run] from there on: what the process serves of the connections of each
    listener, and whether it returned. *)
Definition serve (d : Doors) (plain_conns secure_conns : list (list Accept)) : list Task * bool :=
  match (serve_on (to_https d) <$> plain_conns) with
  | [] => (mjoin (serve_tls_on <$> secure_conns), false)
  | (ts, ended) :: others => (ts ++ mjoin others.*1 ++ mjoin (serve_tls_on <$> secure_conns), ended)
  end.

(** ** Specification *)

(** What a side sends: its bytes up to its end. *)
Fixpoint sends (rs : list Read) : list Z :=
  match rs with
  | Chunk (x :: b) :: rs => (x :: b) ++ sends rs
  | _ => []
  end.

(** The first bytes of a side, and whether there is a first read at all. *)
Definition first_bytes (rs : list Read) : option (list Z) :=
  match rs with Chunk (x :: b) :: _ => Some (x :: b) | _ => None end.

Definition ups (sched : list (Half * option nat)) : nat :=
  length (List.filter (fun h => match h.1 with Up => true | Down => false end) sched).
Definition downs (sched : list (Half * option nat)) : nat :=
  length (List.filter (fun h => match h.1 with Up => false | Down => true end) sched).

(** The side's end is among what it sends. *)
Definition ends (rs : list Read) : bool := existsb (fun r => match r with Chunk (_ :: _) => false | _ => true end) rs.

Definition is_request (c : Count) : bool := bool_decide (metric c = "stormlb_router_requests_total"%string).
Definition requests (cs : list Count) : nat := length (List.filter is_request cs).

(** ** One half at a time *)

Definition up_inv (head : list Z) (sent : list Read) (s : Splice) : Prop :=
  match up s with
  | UpCopying => to_backend s ++ sends (client s) = head ++ sends sent /\ backend_shut s = false
  | UpDone true => to_backend s = head ++ sends sent /\ backend_shut s = true
  | UpDone false => to_backend s `prefix_of` head ++ sends sent /\ backend_shut s = true
  end.

Definition down_inv (host : str) (replies : list Read) (s : Splice) : Prop :=
  match down s with
  | AwaitsFirst => backend s = replies /\ to_client s = [] /\ counts s = [] /\ observed_hosts s = []
                   /\ client_shut s = false
  | DownCopying => to_client s ++ sends (backend s) = sends replies
                   /\ counts s = record_first host (first_bytes replies) /\ client_shut s = false
  | DownDone true => to_client s = sends replies /\ counts s = record_first host (first_bytes replies)
                     /\ client_shut s = true
  | DownDone false => to_client s `prefix_of` sends replies
                      /\ counts s = record_first host (first_bytes replies) /\ client_shut s = false
  end.

Lemma written_prefix b w rs t : t ++ b ++ sends rs = t ++ b ++ sends rs
  -> t ++ written b w `prefix_of` t ++ b ++ sends rs.
Proof.
  intros _. apply prefix_app. destruct w as [n|]; cbn [written]; [|by apply prefix_app_r].
  apply prefix_app_r. exists (drop n b). by rewrite take_drop.
Qed.

Lemma up_step_inv head sent w s : up_inv head sent s -> up_inv head sent (up_step w s).
Proof.
  unfold up_inv, up_step. destruct (up s) eqn:Eu; [|by rewrite Eu].
  destruct (client s) as [|[[|x b]| |] rs] eqn:Ec; cbn [sends]; rewrite ?app_nil_r; intros [H Hs]; cbn.
  - by rewrite Eu, Ec, app_nil_r.
  - by rewrite app_nil_r.
  - destruct w as [n|]; cbn; [|by rewrite <- app_assoc].
    split; [|done]. rewrite <- H. by apply (written_prefix (x :: b) (Some n) rs).
  - by rewrite app_nil_r.
  - rewrite app_nil_r, H. done.
Qed.

Lemma down_step_inv host replies w s : down_inv host replies s -> down_inv host replies (down_step host w s).
Proof.
  unfold down_inv, down_step. destruct (down s) eqn:Ed; [| |by rewrite Ed].
  - destruct (backend s) as [|[[|x b]| |] rs] eqn:Eb; intros (<- & Ht & Hc & Ho & Hs); cbn.
    + by rewrite Ed, Eb.
    + by rewrite Ht, Hc.
    + destruct w as [n|]; cbn; rewrite Ht, Hc; split_and!; try done.
      exact (written_prefix (x :: b) (Some n) rs [] eq_refl).
    + by rewrite Ht, Hc.
    + rewrite Ht, Hc. split_and!; done.
  - destruct (backend s) as [|[[|x b]| |] rs] eqn:Eb; cbn [sends]; rewrite ?app_nil_r; intros (H & Hc & Hs); cbn.
    + by rewrite Ed, Eb, app_nil_r.
    + by rewrite app_nil_r.
    + destruct w as [n|]; cbn; [|by rewrite <- app_assoc].
      split; [|done]. rewrite <- H. by apply (written_prefix (x :: b) (Some n) rs).
    + by rewrite app_nil_r.
    + rewrite app_nil_r, H. done.
Qed.

(** A half leaves the other's part alone. *)
Lemma up_step_frame w s : let s' := up_step w s in
  backend s' = backend s /\ to_client s' = to_client s /\ down s' = down s /\ client_shut s' = client_shut s
  /\ counts s' = counts s /\ observed_hosts s' = observed_hosts s.
Proof. unfold up_step. destruct (up s); [|done]. destruct (client s) as [|[[|]| |]]; try done. by destruct w. Qed.

Lemma down_step_frame host w s : let s' := down_step host w s in
  client s' = client s /\ to_backend s' = to_backend s /\ up s' = up s /\ backend_shut s' = backend_shut s.
Proof.
  unfold down_step. destruct (down s); [| |done]; (destruct (backend s) as [|[[|]| |]]; try done; by destruct w).
Qed.

Lemma splice_step_inv host head sent replies h s :
  up_inv head sent s /\ down_inv host replies s ->
  up_inv head sent (splice_step host h s) /\ down_inv host replies (splice_step host h s).
Proof.
  intros [Hu Hd]. destruct h as [[|] w]; cbn [splice_step].
  - split; [by apply up_step_inv|]. destruct (up_step_frame w s) as (E1 & E2 & E3 & E4 & E5 & E6).
    unfold down_inv. by rewrite E1, E2, E3, E4, E5, E6.
  - split; [|by apply down_step_inv]. destruct (down_step_frame host w s) as (E1 & E2 & E3 & E4).
    unfold up_inv. by rewrite E1, E2, E3, E4.
Qed.

Lemma splice_inv host head sent replies sched :
  let s := splice host sched (splice_start head sent replies) in up_inv head sent s /\ down_inv host replies s.
Proof.
  intros s. subst s. unfold splice.
  assert (up_inv head sent (splice_start head sent replies) /\ down_inv host replies (splice_start head sent
    replies)) as H
    by done.
  revert H. generalize (splice_start head sent replies). induction sched as [|h sched IH]; intros s H; [done|].
  by apply IH, splice_step_inv.
Qed.

Lemma steps_commute host w w' s : up_step w (down_step host w' s) = down_step host w' (up_step w s).
Proof.
  destruct s as [c b tb tc u d bs cs co oh]. unfold up_step, down_step. cbn [up down client backend].
  destruct u, d, c as [|[[|]| |]], b as [|[[|]| |]], w, w'; reflexivity.
Qed.

Definition is_up (h : Half * option nat) : bool := match h.1 with Up => true | Down => false end.

Lemma splice_app host a b s : splice host (a ++ b) s = splice host b (splice host a s).
Proof. unfold splice. by rewrite foldl_app. Qed.

Lemma up_past_downs host w l s : Forall (fun h => is_up h = false) l ->
  splice host l (up_step w s) = up_step w (splice host l s).
Proof.
  intros H. revert s. induction H as [|[[|] w'] l Hh _ IH]; intros s; [done|done|].
  cbn. change (foldl _ ?x l) with (splice host l x). rewrite <- steps_commute. apply IH.
Qed.

(** Downs first, then ups: any schedule can be so ordered. *)
Lemma splice_sorted host sched s :
  splice host sched s = splice host (List.filter (fun h => negb (is_up h)) sched ++ List.filter is_up sched) s.
Proof.
  revert s. induction sched as [|[h w] sched IH]; intros s; [done|].
  change (splice host ((h, w) :: sched) s) with (splice host sched (splice_step host (h, w) s)). rewrite IH.
  destruct h; cbn [List.filter is_up fst negb splice_step]; [|done].
  rewrite !splice_app, up_past_downs; [done|]. apply list.Forall_forall. intros x Hx.
  apply list_elem_of_In, List.filter_In in Hx as [_ Hx]. by apply negb_true_iff.
Qed.

(** C18: Neither direction of a proxied connection waits for the other.  Two runs
    in which each half makes the same steps, interleaved in any way, are in the
    same state: the same bytes are with each side, the same sides are shut and
    the same is counted; a body is not held back for a response nor a response
    for a body. *)
Theorem halves_are_independent host a b s :
  List.filter is_up a = List.filter is_up b ->
  List.filter (fun h => negb (is_up h)) a = List.filter (fun h => negb (is_up h)) b ->
  splice host a s = splice host b s.
Proof. intros Hu Hd. by rewrite (splice_sorted host a), (splice_sorted host b), Hu, Hd. Qed.

(** C19: What each side gets of a proxied connection.  Whatever the schedule and
    the failures: the backend has had nothing but the head and what the client
    sent, in order, all of it when that half ended well, and its side is shut
    exactly when the half is over; the client has had nothing but what the
    backend sent, likewise; and the request is counted by the backend's first
    bytes, once they are there and never again. *)
Theorem splice_copies host head sent replies sched :
  let s := splice host sched (splice_start head sent replies) in
  to_backend s `prefix_of` head ++ sends sent
  /\ (up s = UpDone true -> to_backend s = head ++ sends sent)
  /\ (backend_shut s = true <-> up s <> UpCopying)
  /\ to_client s `prefix_of` sends replies
  /\ (down s = DownDone true -> to_client s = sends replies)
  /\ (client_shut s = true <-> down s = DownDone true)
  /\ (down s = AwaitsFirst -> to_client s = [] /\ counts s = [])
  /\ (down s <> AwaitsFirst -> counts s = record_first host (first_bytes replies)).
Proof.
  intros s. destruct (splice_inv host head sent replies sched) as [Hu Hd]. fold s in Hu, Hd. clearbody s.
  unfold up_inv, down_inv in Hu, Hd.
  assert (to_backend s `prefix_of` head ++ sends sent
          /\ (up s = UpDone true -> to_backend s = head ++ sends sent)
          /\ (backend_shut s = true <-> up s <> UpCopying)) as (H1 & H2 & H3).
  { destruct (up s) as [|[|]]; destruct Hu as [H ->]; (split; [|split; [done|by split]]); [|by rewrite H|done].
    rewrite <- H. by apply prefix_app_r. }
  split_and!; try done;
    (destruct (down s) as [| |[|]]; [destruct Hd as (_ & Ht & Hc & _ & Hs)|destruct Hd as (Ht & Hc & Hs)..]; try done).
  - rewrite Ht. apply prefix_nil.
  - rewrite <- Ht. by apply prefix_app_r.
  - by rewrite Ht.
  - by rewrite Hs.
  - by rewrite Hs.
  - by rewrite Hs.
Qed.

(** ** It ends *)

Lemma splice_ups host sched s : ends (client s) = true -> (length (client s) <= ups sched)%nat ->
  up (splice host sched s) <> UpCopying.
Proof.
  revert s. induction sched as [|[h w] sched IH]; intros s He Hl.
  { destruct (client s) eqn:Ec; [by unfold ends in He|cbn in Hl; lia]. }
  change (splice host ((h, w) :: sched) s) with (splice host sched (splice_step host (h, w) s)).
  assert (forall s', up s' <> UpCopying -> up (splice host sched s') <> UpCopying) as Hdone.
  { clear. unfold splice. induction sched as [|[[|] w] sched IH]; intros s' H; [done|apply IH..]; cbn [splice_step].
    - unfold up_step. by destruct (up s') eqn:E; [|rewrite E].
    - destruct (down_step_frame host w s') as (_ & _ & -> & _). done. }
  destruct h; cbn [splice_step].
  - unfold ups in Hl. cbn in Hl. unfold up_step. destruct (up s) eqn:Eu; [|apply Hdone; congruence].
    destruct (client s) as [|[[|x b]| |] rs] eqn:Ec; [by unfold ends in He|by apply Hdone| |by apply Hdone..].
    destruct w; [by apply Hdone|]. apply IH; cbn in *; [done|unfold ups; lia].
  - destruct (down_step_frame host w s) as (E & _). apply IH; rewrite E; [done|]. exact Hl.
Qed.

Definition down_open (s : Splice) : bool := match down s with DownDone _ => false | _ => true end.

Lemma splice_downs host sched s : ends (backend s) = true -> (length (backend s) <= downs sched)%nat ->
  down_open (splice host sched s) = false.
Proof.
  revert s. induction sched as [|[h w] sched IH]; intros s He Hl.
  { destruct (backend s) eqn:Ec; [by unfold ends in He|cbn in Hl; lia]. }
  change (splice host ((h, w) :: sched) s) with (splice host sched (splice_step host (h, w) s)).
  assert (forall s', down_open s' = false -> down_open (splice host sched s') = false) as Hdone.
  { clear. unfold splice. induction sched as [|[[|] w] sched IH]; intros s' H; [done|apply IH..]; cbn [splice_step];
      unfold down_open in *.
    - destruct (up_step_frame w s') as (_ & _ & -> & _). done.
    - unfold down_step. by destruct (down s') eqn:E; [done|done|rewrite E]. }
  destruct h; cbn [splice_step].
  - destruct (up_step_frame w s) as (E & _). apply IH; rewrite E; [done|]. exact Hl.
  - unfold downs in Hl. cbn in Hl. unfold down_step. destruct (down s) eqn:Ed.
    3: { apply Hdone. unfold down_open. by rewrite Ed. }
    all: destruct (backend s) as [|[[|x b]| |] rs] eqn:Eb; [by unfold ends in He|by apply Hdone| |by apply Hdone..].
    all: destruct w; [by apply Hdone|]; apply IH; cbn in *; [done|unfold downs; lia].
Qed.

(** C20: A proxied connection ends when both sides do.  If the client's and the
    backend's streams end (close or fail), every schedule that gives each half as
    many turns as its side has reads is over, whatever writes fail and in
    whatever order; nothing more happens after. *)
Theorem splice_ends host head sent replies sched :
  ends sent = true -> ends replies = true ->
  (length sent <= ups sched)%nat -> (length replies <= downs sched)%nat ->
  let s := splice host sched (splice_start head sent replies) in
  over s = true /\ forall more, splice host more s = s.
Proof.
  intros H1 H2 L1 L2 s.
  pose proof (splice_ups host sched (splice_start head sent replies) H1 L1) as Hu. fold s in Hu.
  pose proof (splice_downs host sched (splice_start head sent replies) H2 L2) as Hd. fold s in Hd.
  clearbody s. unfold down_open in Hd. unfold over.
  destruct (up s) as [|o] eqn:Eu; [done|]. destruct (down s) as [| |o'] eqn:Ed; [done|done|]. split; [done|].
  intros more. unfold splice. induction more as [|[[|] w] more IH]; [done|..]; cbn [foldl splice_step];
    [unfold up_step; by rewrite Eu|unfold down_step; by rewrite Ed].
Qed.

(** ** Counts *)

Lemma requests_app a b : requests (a ++ b) = (requests a + requests b)%nat.
Proof. unfold requests. by rewrite List.filter_app, length_app. Qed.

Lemma record_first_one host first : requests (record_first host first) = 1%nat.
Proof. by destruct first. Qed.

(** [serve_conn]'s own counts: one for what it answers; none for what it
    forwards. *)
Lemma demux_requests table redirect tls d head e rest : find_head_end head = Some e ->
  match demux table redirect tls d head e rest with
  | (Answered _, cs) => requests cs = 1%nat
  | (Forwarded _ _ _ _, cs) => cs = []
  | (_, cs) => (requests cs <= 1)%nat
  end.
Proof.
  intros He. apply head_end_bound in He. destruct (demux _ _ _ _ _ _ _) as [s cs] eqn:Ed. revert Ed.
  unfold demux. rewrite slice_Some by lia.
  destruct (host_of _) as [host|]; [|by intros [= <- <-]].
  destruct (match redirect with Some r => _ | None => None end); [destruct (bool_decide _); [|by intros [= <- <-]]|];
    (destruct (table !! host) as [b|]; [|by repeat case_match; intros [= <- <-]]);
    cbv zeta; destruct (connects d (b_addr b)); cbn [negb]; [|by intros [= <- <-];
      apply Nat.leb_le| |by intros [= <- <-]; apply Nat.leb_le];
    (destruct (if tls then _ else _); [|by intros [= <- <-]; apply Nat.leb_le]);
    (destruct (b_tls b) as [name|]; [|by intros [= <- <-]]);
    destruct (ca_loaded d), (valid_name_ d name), (handshake d); cbn [negb]; intros [= <- <-];
      done || by apply Nat.leb_le.
Qed.

(** A TLS backend that answers, with a CA loaded, under a name that is no server
    name. *)
Definition unnameable (d : Dial) (b : Backend) : bool :=
  match b_tls b with
  | Some name => connects d (b_addr b) && ca_loaded d && negb (valid_name_ d name)
  | None => false
  end.

(** What a connection's request is worth: nothing before a whole head, nothing
    when the head is lost or the backend has not been heard yet, and nothing when
    it is dropped for the name of its own host's backend. *)
Definition silent (a : Arrival) (t : Task) : Prop :=
  read_until_head [] (a_reads a) = None
  \/ t_end t = HeadLost
  \/ (exists sp, t_end t = Proxied sp /\ down sp = AwaitsFirst)
  \/ (t_end t = NoProxy Router.Dropped
      /\ exists host b, host_read (a_reads a) = Some host /\ a_table a !! host = Some b
           /\ unnameable (a_dial a) b = true).

Lemma demux_dropped table redirect tls d head e rest cs : find_head_end head = Some e ->
  demux table redirect tls d head e rest = (Router.Dropped, cs) ->
  exists host b, host_of (take e head) = Some host /\ table !! host = Some b
    /\ requests cs = if unnameable d b then 0%nat else 1%nat.
Proof.
  intros He. apply head_end_bound in He. unfold demux. rewrite slice_Some by lia. rewrite drop_0, Nat.sub_0_r.
  destruct (host_of _) as [host|]; [|done]. intros H. exists host.
  assert (exists b, table !! host = Some b /\ requests cs = if unnameable d b then 0%nat else 1%nat) as (b & ? & ?);
    [|by exists b]. revert H. unfold unnameable.
  repeat (case_match; try done); simplify_eq; intros [= <-]; eexists; split; try done;
    repeat match goal with
           | H : negb _ = true |- _ => apply negb_true_iff in H
           | H : negb _ = false |- _ => apply negb_false_iff in H
           | H : b_tls _ = _ |- _ => rewrite H
           | H : connects _ _ = _ |- _ => rewrite H
           | H : ca_loaded _ = _ |- _ => rewrite H
           | H : valid_name_ _ _ = _ |- _ => rewrite H
           end; try done; by destruct (b_tls _).
Qed.

(** C29: A request is counted once.  On every connection, whatever the routes, the
    dial, the peers and the schedule, one request is counted; none when the
    connection ended before a whole head, when the head could not be written to the
    backend, while the backend has not been heard, and when the connection is
    dropped because the name of the backend of its own host, which answers and for
    which a CA is loaded, is no server name. *)
Theorem requests_counted_once redirect tls a :
  let t := conn redirect tls a in
  (silent a t -> requests (t_counts t) = 0%nat)
  /\ (~ silent a t -> requests (t_counts t) = 1%nat).
Proof.
  unfold conn, serve_conn, silent, host_read.
  destruct (read_until_head [] (a_reads a)) as [[[head e] rest]|] eqn:Er; cbv zeta.
  2:{ split; [done|]. intros H. destruct H. by left. }
  apply read_until_head_spec in Er as Hr; [|done]. destruct Hr as [He _]. cbn [mbind option_bind].
  set (r := _ <$> redirect). pose proof (demux_requests (a_table a) r tls (a_dial a) head e rest He) as Hq.
  destruct (demux (a_table a) r tls (a_dial a) head e rest) as [s cs] eqn:Ed. destruct s as [out|addr name b rs| |].
  - cbn [t_counts t_end]. rewrite Hq. split; [naive_solver|done].
  - subst cs. destruct (a_head_written a); cbn [negb t_counts t_end].
    2:{ split; [done|]. intros H. destruct H. right. by left. }
    cbn [app]. set (sp := splice _ _ _).
    destruct (splice_inv (default [] (host_of (take e head))) b rs (a_replies a) (a_sched a)) as [_ Hd].
    fold sp in Hd. unfold down_inv in Hd. destruct (down sp) eqn:Edn.
    + destruct Hd as (_ & _ & -> & _). split; [done|]. intros H. destruct H. right. right. left. by exists sp.
    + destruct Hd as (_ & -> & _). rewrite record_first_one. split; [|done].
      intros [?|[?|[(? & [= <-] & ?)|[? _]]]]; congruence.
    + destruct ok; destruct Hd as (_ & -> & _); rewrite record_first_one; (split; [|done]);
        intros [?|[?|[(? & [= <-] & ?)|[? _]]]]; congruence.
  - cbn [t_counts t_end]. destruct (demux_dropped _ _ _ _ _ _ _ _ He Ed) as (host & b & Hh & Hb & ->).
    rewrite Hh. destruct (unnameable (a_dial a) b) eqn:Eu.
    + split; [done|]. intros H. destruct H. right. right. right.
      split; [done|]. by exists host, b.
    + split; [|done]. intros [?|[?|[(? & ? & _)|[_ (h0 & b0 & [= <-] & Hb0 & Hu)]]]]; congruence.
  - pose proof (demux_safe (a_table a) r tls (a_dial a) head e rest He) as H. by rewrite Ed in H.
Qed.

Lemma requests_counted_once_witness :
  let head := http_head [lit "GET /x HTTP/1.1"; lit "Host: a.lan" ++ [13]] in
  let a := {| a_table := {[ lit "a.lan" := {| b_addr := lit "127.0.0.1:80"; b_tls := None |} ]};
              a_certs := false; a_handshake := true;
              a_dial := {| connects := fun _ => true; ca_loaded := false; valid_name_ := fun _ => true;
                handshake := true |};
              a_reads := [Chunk head; Eof]; a_head_written := true;
              a_replies := [Chunk (lit "HTTP/1.1 200 OK"); Eof]; a_sched := [(Down, None); (Up, None);
                (Down, Some 3%nat)] |} in
  requests (t_counts (conn None false a)) = 1%nat
  /\ t_counts (conn None false a) = [{| metric := "stormlb_router_requests_total";
        labels := [("host", lit "a.lan"); ("code", lit "200")]%string |}].
Proof.
  intros head a. split; [|vm_compute; reflexivity]. apply (requests_counted_once None false a).
  intros [H|[H|[(sp & H & Hd)|[H _]]]]; [vm_compute in H; discriminate..| |vm_compute in H; discriminate].
  vm_compute in H. injection H as <-. discriminate.
Defined.

(** A backend that is gone before the head is written is counted nowhere: no
    request, no upstream error. *)
Theorem lost_head_is_not_counted redirect tls a addr name head rest cs :
  serve_conn (a_table a) ((fun port => {| certs_loaded := a_certs a; tls_port := port |}) <$> redirect) tls
    (a_dial a) (a_reads a) = (Forwarded addr name head rest, cs) ->
  a_head_written a = false -> t_counts (conn redirect tls a) = [].
Proof.
  intros H Hw. unfold conn. rewrite H, Hw. cbn [negb t_counts]. revert H. unfold serve_conn.
  destruct (read_until_head [] (a_reads a)) as [[[h e] r]|] eqn:Er; [|done].
  apply read_until_head_spec in Er as [He _]; [|done]. intros H.
  pose proof (demux_requests (a_table a) ((fun port => {| certs_loaded := a_certs a; tls_port := port |}) <$> redirect)
                tls (a_dial a) h e r He) as Hq. by rewrite H in Hq.
Qed.

(** ** Doors *)

Lemma port_of_no_colon l : 58 ∉ port_of l.
Proof.
  unfold port_of. destruct (rsplit_once 58 l) as [[a b]|] eqn:E; [by apply rsplit_once_Some in E as [_ ?]|].
  by apply rsplit_once_None.
Qed.

Lemma port_of_join x l : port_of (x ++ lit ":" ++ port_of l) = port_of l.
Proof.
  unfold port_of at 1. change (lit ":" ++ port_of l) with (58 :: port_of l).
  by rewrite rsplit_once_last by apply port_of_no_colon.
Qed.

(** Every address bound for [listen] is one that can be bound and has its port. *)
Lemma bind_listeners_ports listen probe can_bind ls : bind_listeners listen probe can_bind = Some ls ->
  ls <> [] /\ Forall (fun l => can_bind l = true /\ port_of l = port_of listen) ls.
Proof.
  unfold bind_listeners. destruct (bind_addrs listen probe) as [addrs|] eqn:Ea.
  - case_bool_decide as Hb; [done|]. intros [= <-]. split; [done|]. apply list.Forall_forall. intros l Hl.
    apply list_elem_of_In, List.filter_In in Hl as [Hl Hc]. split; [done|]. unfold bind_addrs in Ea.
    destruct (negb _); [done|]. destruct probe as [ip|]; [|done]. cbn [mbind option_bind] in Ea.
    destruct (_ || _); [done|]. injection Ea as <-. destruct Hl as [<-|[<-|[]]]; [apply port_of_join|].
    apply (port_of_join (lit "127.0.0.1")).
  - destruct (can_bind _) eqn:Ec; [|done]. intros [= <-]. split; [done|]. constructor; [|constructor]. split; [done|].
    destruct (starts_with _ _); [|done]. apply (port_of_join (lit "0.0.0.0")).
Qed.

(** The address of an [address:port]. *)
Definition host_part (l : str) : str := match rsplit_once 58 l with Some (h, _) => h | None => l end.

Lemma host_part_join x l : host_part (x ++ lit ":" ++ port_of l) = x.
Proof.
  unfold host_part. change (lit ":" ++ port_of l) with (58 :: port_of l).
  by rewrite rsplit_once_last by apply port_of_no_colon.
Qed.

(** The addresses [auto] stands for: this node's and loopback, or the wildcard. *)
Definition auto_hosts (probe : option str) : list str :=
  match bind_addrs (lit "auto:0") probe with
  | Some _ => match probe with Some ip => [ip; lit "127.0.0.1"] | None => [] end
  | None => [lit "0.0.0.0"]
  end.

(** [auto] listeners are bound on the addresses [auto] stands for, as far as they can be. *)
Lemma bind_auto listen probe can_bind ls : starts_with (lit "auto") listen = true ->
  bind_listeners listen probe can_bind = Some ls ->
  ls = List.filter can_bind ((fun h => h ++ lit ":" ++ port_of listen) <$> auto_hosts probe).
Proof.
  intros Ha. unfold bind_listeners, auto_hosts, bind_addrs. rewrite Ha. change (starts_with _ (lit "auto:0")) with true.
  change (lit "0.0.0.0:" ++ port_of listen) with (lit "0.0.0.0" ++ lit ":" ++ port_of listen).
  change (lit "127.0.0.1:" ++ port_of listen) with (lit "127.0.0.1" ++ lit ":" ++ port_of listen).
  cbn [negb]. destruct probe as [ip|]; cbn [mbind option_bind].
  2:{ destruct (can_bind _) eqn:Ec; [|done]. intros [= <-]. cbn [fmap list_fmap List.filter]. by rewrite Ec. }
  destruct (starts_with _ ip || _ || _).
  { destruct (can_bind _) eqn:Ec; [|done]. intros [= <-]. cbn [fmap list_fmap List.filter]. by rewrite Ec. }
  case_bool_decide; [done|]. by intros [= <-].
Qed.

(** Two [auto] listeners, of which every address of the second can be bound: each
    door of the first has one of the second beside it. *)
Lemma auto_doors listen listen' probe can_bind can_bind' ls ls' :
  starts_with (lit "auto") listen = true -> starts_with (lit "auto") listen' = true ->
  (forall l, port_of l = port_of listen' -> can_bind' l = true) ->
  bind_listeners listen probe can_bind = Some ls -> bind_listeners listen' probe can_bind' = Some ls' ->
  forall l, l ∈ ls -> exists l', l' ∈ ls' /\ host_part l' = host_part l.
Proof.
  intros Ha Ha' Hb E E' l Hl. rewrite (bind_auto _ _ _ _ Ha E) in Hl. rewrite (bind_auto _ _ _ _ Ha' E').
  apply list_elem_of_In, List.filter_In in Hl as [Hl _]. apply list_elem_of_In, list_elem_of_fmap in Hl as (h & -> & Hh).
  exists (h ++ lit ":" ++ port_of listen'). rewrite !host_part_join. split; [|done].
  apply list_elem_of_In, List.filter_In. split; [|apply Hb, port_of_join].
  apply list_elem_of_In, list_elem_of_fmap. eauto.
Qed.

(** The request a plain door may send to https, its host and its target: a whole
    head with a host, for another path than [/healthz]. *)
Definition asks (a : Arrival) : option (str * str) :=
  '(head, e, _) ← read_until_head [] (a_reads a); host ← host_of (take e head);
  if bool_decide (request_path (take e head) = Some (lit "/healthz")) then None
  else Some (host, default (lit "/") (request_target (take e head))).

(** The TLS section plain HTTP redirects by: redirects are asked for, and a TLS
    listener is bound. *)
Definition redirects_by (cfg : RouterCfg) (d : Doors) : option TlsCfg :=
  t ← r_tls cfg; if t_redirect t && negb (bool_decide (secure d = [])) then Some t else None.

Lemma run_to_https cfg probe can_bind can_bind_tls d : run cfg probe can_bind can_bind_tls = Some d ->
  to_https d = (fun t => redirect_port (t_listen t)) <$> redirects_by cfg d
  /\ bind_listeners (r_listen cfg) probe can_bind = Some (plain d)
  /\ forall t, r_tls cfg = Some t -> secure d = default [] (bind_listeners (t_listen t) probe can_bind_tls).
Proof.
  unfold run, redirects_by. destruct (bind_listeners (r_listen cfg) probe can_bind) as [pl|]; [|done].
  cbn [mbind option_bind]. destruct (r_tls cfg) as [t|]; [|by intros [= <-]].
  destruct (bind_listeners (t_listen t) probe can_bind_tls) as [ls|] eqn:El; intros [= <-]; cbn [mbind option_bind].
  - apply bind_listeners_ports in El as Hp. destruct Hp as [Hne _]. cbn [secure to_https plain].
    rewrite bool_decide_false by done. rewrite andb_true_r. split_and!; [by destruct (t_redirect t)|done|].
    intros t' [= <-]. by rewrite El.
  - cbn [secure to_https plain]. rewrite bool_decide_true by done. rewrite andb_false_r. split_and!; [done..|].
    intros t' [= <-]. by rewrite El.
Qed.

Lemma http_task_redirect port a : http_task (Some port) a =
  match asks a, a_certs a with
  | Some (host, target), true =>
      {| t_end := NoProxy (Answered (redirect_to host port target));
         t_counts := [connections_total "http";
                      requests_total (match a_table a !! host with Some _ => host | None => lit "unrouted" end) "308"] |}
  | _, _ => http_task None a
  end.
Proof.
  unfold http_task, conn, serve_conn, asks.
  destruct (read_until_head [] (a_reads a)) as [[[head e] rest]|] eqn:Er; cbn [mbind option_bind]; [|done].
  apply read_until_head_spec in Er as [He%head_end_bound _]; [|done]. unfold demux.
  rewrite !slice_Some, drop_0, Nat.sub_0_r by lia. destruct (host_of _) as [host|]; cbn [mbind option_bind]; [|done].
  cbn [fmap option_fmap option_map negb andb certs_loaded tls_port].
  by destruct (bool_decide (request_path _ = _)), (a_certs a).
Qed.

(** C30: What plain HTTP sends to https.  Once the router runs, a plain door answers
    a request with a redirect exactly when redirects are asked for, a TLS listener
    is bound on at least one address, a certificate is loaded, and the request is
    whole, has a host and is not for /healthz: to that host and target, at the
    configured TLS port (443 when it is no number).  Every other connection is
    served as if there were no TLS.  The TLS doors are at that port and can be
    bound; and when both listeners are [auto] and the TLS port is free on every
    address, each plain door has a TLS door at its own address. *)
Theorem plain_http_redirects cfg probe can_bind can_bind_tls d :
  run cfg probe can_bind can_bind_tls = Some d ->
  (forall a, http_task (to_https d) a =
     match redirects_by cfg d, asks a, a_certs a with
     | Some t, Some (host, target), true =>
         {| t_end := NoProxy (Answered (redirect_to host (redirect_port (t_listen t)) target));
            t_counts := [connections_total "http";
              requests_total (match a_table a !! host with Some _ => host | None => lit "unrouted" end) "308"] |}
     | _, _, _ => http_task None a
     end)
  /\ forall t, r_tls cfg = Some t ->
       (forall l, l ∈ secure d -> can_bind_tls l = true /\ port_of l = port_of (t_listen t))
       /\ (starts_with (lit "auto") (r_listen cfg) = true -> starts_with (lit "auto") (t_listen t) = true ->
           (forall l, port_of l = port_of (t_listen t) -> can_bind_tls l = true) -> secure d <> [] ->
           forall l, l ∈ plain d -> exists l', l' ∈ secure d /\ host_part l' = host_part l).
Proof.
  intros Hr. destruct (run_to_https _ _ _ _ _ Hr) as (Hto & Hpl & Hse). split.
  - intros a. rewrite Hto. destruct (redirects_by cfg d) as [t|]; [|done]. cbn [fmap option_fmap option_map].
    apply http_task_redirect.
  - intros t Ht. specialize (Hse t Ht).
    destruct (bind_listeners (t_listen t) probe can_bind_tls) as [ls|] eqn:El; cbn in Hse; rewrite Hse.
    2:{ split; [by intros l ?%not_elem_of_nil|done]. }
    split.
    + apply bind_listeners_ports in El as [_ Hf]. by apply list.Forall_forall.
    + intros Ha Ha' Hb _. by apply (auto_doors _ _ _ _ _ _ _ Ha Ha' Hb Hpl El).
Qed.

Definition demo_cfg (tls : string) : RouterCfg :=
  RouterCfg_of (Some (lit "auto:80")) None None None None None (Some (TlsCfg_of (Some (lit tls)) None None None)) None.

Definition demo_arrival : Arrival :=
  {| a_table := ∅; a_certs := true; a_handshake := true;
     a_dial := {| connects := fun _ => true; ca_loaded := false; valid_name_ := fun _ => true; handshake := true |};
     a_reads := [Chunk (http_head [lit "GET /x HTTP/1.1"; lit "Host: a.lan" ++ [13]])]; a_head_written := true;
     a_replies := []; a_sched := [] |}.

Lemma plain_http_redirects_witness :
  let d := {| plain := [lit "10.0.0.5:80"; lit "127.0.0.1:80"];
              secure := [lit "10.0.0.5:8443"; lit "127.0.0.1:8443"]; to_https := Some 8443 |} in
  run (demo_cfg "auto:8443") (Some (lit "10.0.0.5")) (fun _ => true) (fun _ => true) = Some d
  /\ t_end (http_task (to_https d) demo_arrival) = NoProxy (Answered (redirect_to (lit "a.lan") 8443 (lit "/x")))
  /\ exists l', l' ∈ secure d /\ host_part l' = lit "10.0.0.5".
Proof.
  intros d. split; [vm_compute; reflexivity|].
  destruct (plain_http_redirects (demo_cfg "auto:8443") (Some (lit "10.0.0.5")) (fun _ => true) (fun _ => true) d
              ltac:(vm_compute; reflexivity)) as [H1 H2].
  split; [rewrite H1; vm_compute; reflexivity|].
  destruct (H2 (TlsCfg_of (Some (lit "auto:8443")) None None None) ltac:(vm_compute; reflexivity)) as [_ H].
  apply (H ltac:(vm_compute; reflexivity) ltac:(vm_compute; reflexivity) ltac:(done) ltac:(done) (lit "10.0.0.5:80")).
  left.
Defined.

(** Where a redirect leads to no door: a TLS [auto] listener that is bound on
    loopback only counts as bound, so the clients of this node's address are sent
    to a port on which nothing listens there; and the port of a listener on a port
    of the kernel's choice (0) is taken to be 0. *)
Theorem redirect_to_a_closed_port :
  (let only_loopback l := bool_decide (l = lit "127.0.0.1:8443") in
   let d := {| plain := [lit "10.0.0.5:80"; lit "127.0.0.1:80"]; secure := [lit "127.0.0.1:8443"];
               to_https := Some 8443 |} in
   run (demo_cfg "auto:8443") (Some (lit "10.0.0.5")) (fun _ => true) only_loopback = Some d
   /\ (forall l, l ∈ secure d -> host_part l <> lit "10.0.0.5")
   /\ t_end (http_task (to_https d) demo_arrival) = NoProxy (Answered (redirect_to (lit "a.lan") 8443 (lit "/x"))))
  /\ (to_https <$> run (demo_cfg "auto:0") (Some (lit "10.0.0.5")) (fun _ => true) (fun _ => true)) = Some (Some 0).
Proof.
  split; [|vm_compute; reflexivity]. split; [vm_compute; reflexivity|]. split; [|vm_compute; reflexivity].
  intros l. cbn [secure]. intros ->%list_elem_of_singleton. by vm_compute.
Qed.

(** ** Accept errors *)

(** One error of [accept] closes a plain listener for good, and the first
    listener's ends the whole router; the TLS listeners log it and go on. *)
Theorem accept_error_closes_plain_door d l l' :
  Forall (fun x => x <> AcceptError) l ->
  serve_on (to_https d) (l ++ AcceptError :: l') = ((serve_on (to_https d) l).1, true)
  /\ (forall others secures, (serve d ((l ++ AcceptError :: l') :: others) secures).2 = true)
  /\ serve_tls_on (l ++ AcceptError :: l') = serve_tls_on l ++ serve_tls_on l'.
Proof.
  intros H. assert (serve_on (to_https d) (l ++ AcceptError :: l') = ((serve_on (to_https d) l).1, true)) as E.
  { induction H as [|[|a] l Ha _ IH]; [done..|]. cbn [app serve_on]. rewrite IH.
    by destruct (serve_on (to_https d) l). }
  split; [done|]. split; [intros others secures; unfold serve; rewrite fmap_cons, E; done|].
  clear E. induction H as [|[|a] l Ha _ IH]; [done..|]. cbn [app serve_tls_on]. by rewrite IH.
Qed.

Lemma halves_are_independent_witness :
  let s := splice_start (lit "GET") [Chunk (lit "body"); Eof] [Chunk (lit "HTTP/1.1 200 OK"); Eof] in
  let a := [(Up, None); (Down, None); (Up, None); (Down, Some 1%nat)] in
  let b := [(Down, None); (Down, Some 1%nat); (Up, None); (Up, None)] in
  splice (lit "h") a s = splice (lit "h") b s /\ to_backend (splice (lit "h") a s) = lit "GETbody".
Proof. intros s a b. split; [apply halves_are_independent; reflexivity|vm_compute; reflexivity]. Defined.

Lemma splice_ends_witness :
  let sched := [(Down, None); (Up, None); (Up, Some 2%nat); (Down, None)] in
  over (splice (lit "h") sched (splice_start (lit "GET") [Chunk (lit "body"); ReadError] [Chunk (lit "x");
    Eof])) = true.
Proof.
  intros sched. refine (proj1 (splice_ends (lit "h") (lit "GET") [Chunk (lit "body"); ReadError]
    [Chunk (lit "x"); Eof] sched _ _ _ _)); [reflexivity|reflexivity|vm_compute; lia|vm_compute; lia].
Defined.
