(* ===== verification/MetricsPage.v ===== *)
(** * The metrics page ([src/src/metrics.rs]: [CATALOG], [render], [scrape_series],
      [process_series], [serve])

    The text exposition of the registry and the connection that serves it.  What
    the kernel says of the process ([/proc], [sysconf], [getrlimit]) and the VRRP
    state of each VIP are arguments.  The reader of [Exposition] gives the page its
    meaning: the page is exactly the recorded series, each once. *)

From stdpp Require Import sorting.
From S2P Require Import Prelude Str Float Metrics Exposition Net Pool Balancer Config Vips Tls Http Api Router Routes Front.

(** ** The catalog *)

Record Metric := { m_name : string; m_type : string; m_help : string }.

Local Notation metric_ n t h := {| m_name := n; m_type := t; m_help := h |}.

Definition CATALOG : list Metric :=
  [metric_ "stormlb_build_info" "gauge" "Always 1; the version is the label.";
   metric_ "stormlb_router_connections_total" "counter" "Connections accepted by the router, by listener (http, https).";
   metric_ "stormlb_router_connections_active" "gauge" "Router connections open now, by listener.";
   metric_ "stormlb_router_requests_total" "counter" "Requests by route host (or unrouted) and status code: the first request of each connection, which is what the router routes. code=error: the backend gave no response.";
   metric_ "stormlb_router_request_duration_seconds" "histogram" "From the request being sent to the backend to its first response byte, by route host.";
   metric_ "stormlb_router_upstream_errors_total" "counter" "Backend failures by route host and kind (connect, no_response).";
   metric_ "stormlb_router_tls_handshake_errors_total" "counter" "TLS handshakes that failed or timed out.";
   metric_ "stormlb_router_routes" "gauge" "Hostnames in the route table.";
   metric_ "stormlb_router_route_refreshes_total" "counter" "Route-table refreshes from the apiserver, by result (ok, error).";
   metric_ "stormlb_router_tls_certificates_loaded" "gauge" "Certificate/key pairs loaded for the TLS listener.";
   metric_ "stormlb_router_tls_reloads_total" "counter" "Certificate pairs (re)loaded from changed files, by result (ok, error).";
   metric_ "stormlb_vip_connections_total" "counter" "Connections accepted on a VIP's L4 listener.";
   metric_ "stormlb_vip_connections_active" "gauge" "Connections open through a VIP now.";
   metric_ "stormlb_vip_no_healthy_backend_total" "counter" "Connections dropped because a VIP had no healthy backend.";
   metric_ "stormlb_vip_upstream_connect_errors_total" "counter" "Connections dropped because the chosen backend refused or failed.";
   metric_ "stormlb_vip_backend_healthy" "gauge" "1 if a VIP's backend passes its health check, else 0.";
   metric_ "stormlb_vip_vrrp_master" "gauge" "1 while this node is the VRRP Master for the VIP, else 0 (absent without VRRP).";
   metric_ "process_resident_memory_bytes" "gauge" "Resident memory of this stormlb process.";
   metric_ "process_open_fds" "gauge" "Open file descriptors of this stormlb process.";
   metric_ "process_max_fds" "gauge" "This process's open-file limit.";
   metric_ "process_cpu_seconds_total" "counter" "User and system CPU time of this stormlb process.";
   metric_ "process_start_time_seconds" "gauge" "When this process started, in seconds since the Unix epoch."]%string.

(** ** Rendering *)

(** The order of [BTreeMap<(&str, String), _>]. *)
Definition series_le {A} (x y : Key * A) : Prop :=
  x.1.1 <> y.1.1 /\ str_leb x.1.1 y.1.1 = true \/ x.1.1 = y.1.1 /\ str_leb x.1.2 y.1.2 = true.

#[export] Instance series_le_dec {A} : RelDecision (@series_le A).
Proof. intros x y. unfold series_le. apply _. Defined.

(** The series of one metric, in order: [iter().filter(..)]. *)
Definition of_name {A} (name : str) (m : gmap Key A) : list (Key * A) :=
  List.filter (fun kv => bool_decide (kv.1.1 = name)) (merge_sort series_le (map_to_list m)).

(** A [writeln!] of one sample. *)
Definition sample_line (n l v : str) : str := n ++ l ++ [32] ++ v ++ [10].

Definition plain_lines (l : list (Key * spec_float)) : str :=
  mjoin ((fun kv => sample_line kv.1.1 kv.1.2 (show_f64 kv.2)) <$> l).

(** [with]: the series' labels joined by [le]. *)
Definition with_le (l le : str) : str :=
  match l with
  | [] => lit "{le=" ++ [34] ++ le ++ [34] ++ lit "}"
  | _ => take (length l - 1) l ++ lit ",le=" ++ [34] ++ le ++ [34] ++ lit "}"
  end.

(** [b.to_string()] of a bound. *)
Definition bound_text (b : Z) : str := show_f64 (f64_milli b).

Definition hist_lines (kh : Key * Hist) : str :=
  let '((n, l), h) := kh in
  mjoin (zip_with (fun b c => sample_line (n ++ lit "_bucket") (with_le l (bound_text b)) (dec c)) BUCKETS (buckets h))
  ++ sample_line (n ++ lit "_bucket") (with_le l (lit "+Inf")) (dec (count h))
  ++ sample_line (n ++ lit "_sum") l (show_f64 (sum h))
  ++ sample_line (n ++ lit "_count") l (dec (count h)).

(** A series computed at scrape time. *)
Record Extra := { x_name : string; x_labels : str; x_value : spec_float }.

Definition is_counter (name : string) : bool :=
  existsb (fun c => bool_decide (m_name c = name) && bool_decide (m_type c = "counter"%string)) CATALOG.

(** The copies of counters and gauges, with the extra series put in. *)
Definition add_extra (cg : gmap Key spec_float * gmap Key spec_float) (x : Extra) :=
  let k := (lit (x_name x), x_labels x) in
  if is_counter (x_name x) then (<[k := x_value x]> cg.1, cg.2) else (cg.1, <[k := x_value x]> cg.2).

Definition values (extra : list Extra) (m : Metrics) : gmap Key spec_float * gmap Key spec_float :=
  foldl add_extra (f64_of_Z <$> counters m, f64_of_Z <$> gauges m) extra.

(** The body of one metric. *)
Definition body_of (cg : gmap Key spec_float * gmap Key spec_float) (hs : gmap Key Hist) (c : Metric) : str :=
  if bool_decide (m_type c = "counter"%string) then plain_lines (of_name (lit (m_name c)) cg.1)
  else if bool_decide (m_type c = "gauge"%string) then plain_lines (of_name (lit (m_name c)) cg.2)
  else mjoin (hist_lines <$> of_name (lit (m_name c)) hs).

Definition render_one cg hs (c : Metric) : str :=
  let body := body_of cg hs c in
  if bool_decide (body = []) then [] else
  lit "# HELP " ++ lit (m_name c) ++ [32] ++ lit (m_help c) ++ [10]
  ++ lit "# TYPE " ++ lit (m_name c) ++ [32] ++ lit (m_type c) ++ [10]
  ++ body.

Definition render (extra : list Extra) (m : Metrics) : str :=
  mjoin (render_one (values extra m) (hists m) <$> CATALOG).

(** ** The series of a scrape *)

(** What the kernel says of the process; [None] where the call fails. *)
Record Proc := {
  page : Z; tick : Z;                            (* [sysconf] *)
  statm : option str; fds : option Z;            (* [/proc/self/statm], the entries of [/proc/self/fd] *)
  nofile : option Z;                             (* [getrlimit] *)
  stat : option str; proc_stat : option str }.   (* [/proc/self/stat], [/proc/stat] *)

Definition plain_series (name : string) (v : spec_float) : Extra :=
  {| x_name := name; x_labels := []; x_value := v |}.

Definition some_series (name : string) (v : option spec_float) : list Extra :=
  match v with Some v => [plain_series name v] | None => [] end.

(** The [i]-th field of [/proc/self/stat], counted from 1, among those after the
    command's name. *)
Definition stat_field (stat : str) (i : nat) : option spec_float :=
  let rest := match rsplit_once 41 stat with Some (_, r) => split_whitespace r | None => [] end in
  v ← rest !! (i - 3)%nat; parse_f64 v.

(** [lines().find_map(..)]: the boot time. *)
Definition btime (t : str) : option spec_float :=
  head (omap (fun l => r ← strip_prefix (lit "btime ") l; parse_f64 (trim r)) (split_on 10 t)).

Definition process_series (p : Proc) : list Extra :=
  let page := f64_of_Z (page p) in
  let tick := f64_of_Z (tick p) in
  some_series "process_resident_memory_bytes"
    (t ← statm p; v ← split_whitespace t !! 1%nat; rss ← parse_f64 v; Some (f64_mul rss page))
  ++ some_series "process_open_fds" (f64_of_Z <$> fds p)
  ++ some_series "process_max_fds" (f64_of_Z <$> nofile p)
  ++ match stat p with
     | Some stat =>
         some_series "process_cpu_seconds_total"
           (u ← stat_field stat 14; s ← stat_field stat 15; Some (f64_div (f64_add u s) tick))
         ++ some_series "process_start_time_seconds"
              (start ← stat_field stat 22; boot ← (t ← proc_stat p; btime t);
               Some (f64_add boot (f64_div start tick)))
     | None => []
     end.

(** The series of one VIP; [vrrp] is the state its VRRP thread is in. *)
Definition vip_series (vrrp : str -> str) (v : VipView) : list Extra :=
  ((fun b => {| x_name := "stormlb_vip_backend_healthy";
                x_labels := labels_text [(lit "vip", view_name v);
                                         (lit "backend", bs_address b ++ [58] ++ dec (bs_port b))];
                x_value := f64_of_Z (if bs_healthy b then 1 else 0) |}) <$> view_backends v)
  ++ (if has_vrrp v then
        [{| x_name := "stormlb_vip_vrrp_master"; x_labels := labels_text [(lit "vip", view_name v)];
            x_value := f64_of_Z (if bool_decide (vrrp (view_name v) = lit "master") then 1 else 0) |}]
      else []).

(** [CARGO_PKG_VERSION] *)
Definition version : str := lit "0.1.0".

Definition scrape_series `{R : Health.Reqwest} (p : Proc) (vrrp : str -> str) (reg : option Registry) : list Extra :=
  [{| x_name := "stormlb_build_info"; x_labels := labels_text [(lit "version", version)]; x_value := f64_of_Z 1 |}]
  ++ process_series p
  ++ mjoin (vip_series vrrp <$> match reg with Some r => list_views r | None => [] end).

(** ** Serving *)

(** The read loop: the bytes once the head is whole or 8192 are there; [None] at
    the end, an error or ten seconds. *)
Fixpoint read_scrape (head : list Z) (rs : list Read) : option (list Z) :=
  if bool_decide (head_end head = None) && bool_decide (length head < 8192)%nat then
    match rs with
    | Chunk b :: rs => if bool_decide (b = []) then None else read_scrape (head ++ b) rs
    | _ => None
    end
  else Some head.

(** [split(' ')] of the first line: method and path, without the query. *)
Definition request_line (head : list Z) : str * str :=
  let line := utf8_lossy (default [] (List.hd_error (split_on 13 head))) in
  let parts := split_on 32 line in
  let method := default [] (parts !! 0%nat) in
  let path := default [] (parts !! 1%nat) in
  (method, default [] (split_on 63 path !! 0%nat)).

(** The page of one scrape. *)
Definition scraped (extra : list Extra) (m : Metrics) (head : list Z) : str * str * str :=
  let '(method, path) := request_line head in
  if bool_decide (method = lit "GET") then
    if bool_decide (path = lit "/metrics") then
      (lit "200 OK", lit "text/plain; version=0.0.4; charset=utf-8", render extra m)
    else if bool_decide (path = lit "/healthz") then (lit "200 OK", lit "text/plain", lit "ok" ++ [10])
    else (lit "404 Not Found", lit "text/plain", lit "metrics are at /metrics" ++ [10])
  else (lit "405 Method Not Allowed", lit "text/plain", lit "GET only" ++ [10]).

Definition page_answer (status ctype body : str) : list Z :=
  let bytes := utf8_encode body in
  utf8_encode (lit "HTTP/1.1 " ++ status ++ crlf ++ lit "content-type: " ++ ctype ++ crlf
    ++ lit "content-length: " ++ dec (Z.of_nat (length bytes)) ++ crlf
    ++ lit "connection: close" ++ crlf ++ crlf) ++ bytes.

(** One connection: what is written. *)
Definition scrape_conn (extra : list Extra) (m : Metrics) (rs : list Read) : list Z :=
  match read_scrape [] rs with
  | None => []
  | Some head => let '(status, ctype, body) := scraped extra m head in page_answer status ctype body
  end.

(** [serve] over what [accept] yields: an error, which is logged, or a connection,
    with the registry and the series as they are when its head is there. *)
Definition serve (l : list (option (list Extra * Metrics * list Read))) : list (list Z) :=
  omap (fun c => '(extra, m, rs) ← c; Some (scrape_conn extra m rs)) l.

(** [run]: the listeners served, [None] when none can be bound. *)
Definition run (cfg : MetricsCfg) (probe : option str) (can_bind : str -> bool) : option (list str) :=
  bind_listeners (m_listen cfg) probe can_bind.

(** ** Specification: what a page holds *)

Definition hist_samples (kh : Key * Hist) : list (Key * str) :=
  let '((n, l), h) := kh in
  zip_with (fun b c => ((n ++ lit "_bucket", with_le l (bound_text b)), dec c)) BUCKETS (buckets h)
  ++ [((n ++ lit "_bucket", with_le l (lit "+Inf")), dec (count h));
      ((n ++ lit "_sum", l), show_f64 (sum h)); ((n ++ lit "_count", l), dec (count h))].

(** What is to be on the page of [c], and on the whole page. *)
Definition samples_of (cg : gmap Key spec_float * gmap Key spec_float) (hs : gmap Key Hist) (c : Metric)
    : list (Key * str) :=
  if bool_decide (m_type c = "counter"%string) then (fun kv => (kv.1, show_f64 kv.2)) <$> of_name (lit (m_name c)) cg.1
  else if bool_decide (m_type c = "gauge"%string) then
    (fun kv => (kv.1, show_f64 kv.2)) <$> of_name (lit (m_name c)) cg.2
  else of_name (lit (m_name c)) hs ≫= hist_samples.

Definition exported (extra : list Extra) (m : Metrics) : list (Key * str) :=
  CATALOG ≫= samples_of (values extra m) (hists m).

(** A sample of a reader shows a series: its name, the labels its text stands for,
    and its value. *)
Definition good_names (ps : list (str * str)) : Prop := Forall (fun p => label_name p.1 = true) ps.

Definition shows (s : Sample) (kv : Key * str) : Prop :=
  s_name s = kv.1.1 /\ kv.1.2 = labels_text (s_labels s) /\ good_names (s_labels s) /\ s_value s = kv.2.

(** Labels as the code writes them. *)
Definition good_labels (l : str) : Prop := exists ps : list (str * str), l = labels_text ps /\ good_names ps.

Definition page_ok (extra : list Extra) (m : Metrics) : Prop :=
  map_Forall (fun k _ => good_labels k.2) (counters m) /\ map_Forall (fun k _ => good_labels k.2) (gauges m)
  /\ map_Forall (fun k _ => good_labels k.2) (hists m) /\ Forall (fun x => good_labels (x_labels x)) extra.

(** ** Text *)

Lemma escape_no_newline v : 10 ∉ escape v.
Proof.
  induction v as [|c v IH]; [apply not_elem_of_nil|].
  change (escape (c :: v)) with (escape_char c ++ escape v). rewrite not_elem_of_app. split; [|done].
  unfold escape_char. repeat case_match; rewrite ?not_elem_of_cons; split_and?;
    try apply not_elem_of_nil; try done.
  apply Z.eqb_neq. rewrite Z.eqb_sym. done.
Qed.

Lemma good_labels_no_newline l : good_labels l -> 10 ∉ l.
Proof.
  intros (ps & -> & Hps). destruct ps as [|p ps]; [apply not_elem_of_nil|]. unfold labels_text.
  rewrite !not_elem_of_app. split_and!; [decided| |decided].
  generalize true. induction Hps as [|q qs (_ & Hq & _)%label_name_ok _ IH]; intros b; [apply not_elem_of_nil|].
  cbn [label_pairs]. unfold label_pair. rewrite !not_elem_of_app. split_and!; [destruct b;
    decided|done|decided|decided| |decided|apply IH].
  apply escape_no_newline.
Qed.

(** Labels joined by [le] are the labels with one more. *)
Lemma with_le_labels ps le : escape le = le -> with_le (labels_text ps) le = labels_text (ps ++ [(lit "le", le)]).
Proof.
  intros Hle. destruct ps as [|p ps].
  { unfold with_le, labels_text. cbn [label_pairs app]. unfold label_pair. cbn [fst snd].
    rewrite Hle, app_nil_r, <- !app_assoc. cbn [app]. rewrite <- ?app_assoc. done. }
  cbn [app]. unfold labels_text. set (qs := p :: ps). change (p :: ps ++ _) with (qs ++ [(lit "le", le)]).
  assert (qs <> []) as Hne by done. clearbody qs. clear p ps.
  unfold with_le. cbn [app]. rewrite length_cons, length_app. cbn [length].
  replace (S _ - 1)%nat with (S (length (label_pairs true qs))) by lia. cbn [take].
  rewrite take_app_length. f_equal.
  assert (forall b, label_pairs b (qs ++ [(lit "le", le)])
    = label_pairs b qs ++ (if b then match qs with [] => [] | _ => [44] end else [44]) ++ label_pair (lit "le",
      le)) as ->.
  { clear Hne. induction qs as [|q qs IH]; intros b.
    - cbn [label_pairs app]. rewrite app_nil_r. by destruct b.
    - cbn [app label_pairs]. rewrite IH, <- !app_assoc. by destruct b. }
  destruct qs; [done|]. unfold label_pair. cbn [fst snd]. rewrite Hle, <- !app_assoc. done.
Qed.

(** What a number is made of. *)
Definition num_char (c : Z) : Prop := is_digit c = true \/ c ∈ lit "-.infNa".

Lemma dec_loop_chars fuel : forall n acc, Forall num_char acc -> Forall num_char (dec_loop fuel n acc).
Proof.
  induction fuel as [|fuel IH]; intros n acc Ha; [done|]. cbn [dec_loop].
  assert (Forall num_char ((48 + n mod 10) :: acc)) as H.
  { constructor; [|done]. left. unfold is_digit. apply andb_true_intro. split; apply Z.leb_le; zdiv. }
  destruct (n / 10 =? 0); [done|]. by apply IH.
Qed.

Lemma lit_chars s : forallb (fun c => bool_decide (c ∈ lit "-.infNa" ++ lit "0123456789")) (lit s) = true ->
  Forall num_char (lit s).
Proof.
  rewrite forallb_forall, list.Forall_forall. intros H c Hc. apply list_elem_of_In, H, bool_decide_eq_true in Hc.
  apply elem_of_app in Hc as [Hc|Hc]; [by right|left].
  assert (Forall (fun c => is_digit c = true) (lit "0123456789")) as Hd by decided.
  rewrite list.Forall_forall in Hd. by apply Hd.
Qed.

Lemma place_chars d n k : Forall num_char (place d n k).
Proof.
  unfold place. set (s := replicate _ 48 ++ dec d).
  assert (forall n, Forall num_char (replicate n 48)) as H0 by (intros; apply Forall_replicate; by left).
  assert (Forall num_char s) as Hs by (apply Forall_app; split; [done|by apply dec_loop_chars]).
  assert (forall t, Forall num_char t -> Forall num_char (rev (trim_start_by (Z.eqb 48) (rev t)))) as Ht.
  { intros t. rewrite !list.Forall_forall. intros H c. rewrite rev_reverse, elem_of_reverse.
    intros Hc%trim_start_by_sub. rewrite rev_reverse, elem_of_reverse in Hc. by apply H. }
  clearbody s. destruct (_ <=? 0); [|destruct (_ <=? _)].
  - apply Forall_app. split; [by apply (lit_chars "0.")|]. apply Ht, Forall_app. done.
  - by apply Forall_app.
  - apply Forall_app. split; [by apply Forall_take|]. case_bool_decide; [done|].
    constructor; [right; decided|]. apply Ht. by apply Forall_drop.
Qed.

Lemma show_f64_chars x : Forall num_char (show_f64 x).
Proof.
  destruct x as [s|s| |s m e]; cbn [show_f64]; [| | |apply Forall_app; split].
  - destruct s; [by apply (lit_chars "-0")|by apply (lit_chars "0")].
  - destruct s; [by apply (lit_chars "-inf")|by apply (lit_chars "inf")].
  - by apply (lit_chars "NaN").
  - destruct s; [by apply (lit_chars "-")|done].
  - unfold show_pos, show_digits. repeat case_match; apply place_chars.
Qed.

(** A number holds no blank and no newline. *)
Lemma num_chars_sep s : Forall num_char s -> 32 ∉ s /\ 10 ∉ s.
Proof.
  rewrite list.Forall_forall. intros H.
  split; intros Hc; apply H in Hc as [Hc|Hc]; [done| |done|]; revert Hc; decided.
Qed.

(** ** Reading back *)

Definition lines (ls : list str) : str := mjoin ((fun l => l ++ [10]) <$> ls).

Lemma mjoin_cons {A} (l : list A) ls : mjoin (l :: ls) = l ++ mjoin ls.
Proof. done. Qed.

Lemma lines_cons l ls : lines (l :: ls) = l ++ 10 :: lines ls.
Proof. unfold lines. rewrite fmap_cons, mjoin_cons. by rewrite <- app_assoc. Qed.

Definition sample_ok (kv : Key * str) : Prop :=
  metric_name kv.1.1 = true /\ good_labels kv.1.2 /\ Forall num_char kv.2.

Definition line_of (kv : Key * str) : str := kv.1.1 ++ kv.1.2 ++ 32 :: kv.2.

Lemma read_line_of kv : sample_ok kv -> 10 ∉ line_of kv /\ no_sample (line_of kv) = false
  /\ exists s, read_sample (line_of kv) = Some s /\ shows s kv.
Proof.
  intros (Hn & Hl & [H32 H10]%num_chars_sep). destruct (metric_name_ok _ Hn) as (Hne & Hn10 & Hn35 & _).
  pose proof (good_labels_no_newline _ Hl) as Hl10. destruct Hl as (ps & El & Hps).
  destruct kv as [[n l] v]. unfold line_of in *. cbn [fst snd] in *. split_and!.
  - rewrite !not_elem_of_app, not_elem_of_cons. done.
  - destruct n as [|c n]; [done|]. cbn [app no_sample]. apply Z.eqb_neq. intros ->. apply Hn35. by left.
  - subst l. eexists. split; [by apply read_sample_text|done].
Qed.

Lemma read_page_line l t : 10 ∉ l -> read_page (lines [l] ++ t) =
  if no_sample l then read_page t else s ← read_sample l; ss ← read_page t; Some (s :: ss).
Proof.
  intros Hl. unfold read_page. rewrite lines_cons, <- app_assoc. cbn [app]. by rewrite split_on_line.
Qed.

Lemma lines_app a b : lines (a ++ b) = lines a ++ lines b.
Proof. unfold lines. by rewrite fmap_app, join_app. Qed.

Lemma read_samples kvs : Forall sample_ok kvs -> exists ss, Forall2 shows ss kvs
  /\ forall t rest, read_page t = Some rest -> read_page (lines (line_of <$> kvs) ++ t) = Some (ss ++ rest).
Proof.
  induction 1 as [|kv kvs H _ (ss & IH & IH')]; [by exists []|].
  destruct (read_line_of kv H) as (H10 & Hn & s & Hs & Hk). exists (s :: ss). split; [by constructor|].
  intros t rest Ht. rewrite fmap_cons. change (?x :: ?y) with ([x] ++ y). rewrite lines_app, <- app_assoc.
  rewrite read_page_line, Hn, Hs by done. cbn [mbind option_bind]. by rewrite (IH' t rest Ht).
Qed.

(** ** The rendered text is those lines *)

Lemma sample_line_lines n l v : sample_line n l v = lines [line_of ((n, l), v)].
Proof. unfold sample_line, lines, line_of. cbn. by rewrite app_nil_r, <- !app_assoc. Qed.

Lemma plain_lines_lines l : plain_lines l = lines (line_of <$> ((fun kv => (kv.1, show_f64 kv.2)) <$> l)).
Proof.
  unfold plain_lines. induction l as [|[[n t] v] l IH]; [done|]. rewrite !fmap_cons. rewrite mjoin_cons.
  rewrite IH, sample_line_lines, <- lines_app. done.
Qed.

Lemma hist_lines_lines kh : hist_lines kh = lines (line_of <$> hist_samples kh).
Proof.
  destruct kh as [[n l] h]. unfold hist_lines, hist_samples.
  rewrite fmap_app, lines_app. f_equal; [|by rewrite !sample_line_lines, <- !lines_app].
  generalize (buckets h) as cs. induction BUCKETS as [|b bs IH]; intros [|c cs]; try done.
  cbn [zip_with]. rewrite fmap_cons. rewrite mjoin_cons, IH, sample_line_lines, <- lines_app. done.
Qed.

Lemma body_of_lines cg hs c : body_of cg hs c = lines (line_of <$> samples_of cg hs c).
Proof.
  unfold body_of, samples_of. repeat case_bool_decide; try apply plain_lines_lines.
  induction (of_name _ hs) as [|kh l IH]; [done|]. rewrite fmap_cons, bind_cons, fmap_app, lines_app.
  rewrite mjoin_cons. by rewrite IH, hist_lines_lines.
Qed.

Definition text_ok (c : Metric) : Prop :=
  metric_name (lit (m_name c)) = true /\ 10 ∉ lit (m_type c) /\ 10 ∉ lit (m_help c).

#[export] Instance text_ok_dec c : Decision (text_ok c).
Proof. unfold text_ok. apply _. Defined.

Lemma CATALOG_text : Forall text_ok CATALOG.
Proof. decided. Qed.

Lemma read_render_one cg hs c : text_ok c -> Forall sample_ok (samples_of cg hs c) ->
  exists ss, Forall2 shows ss (samples_of cg hs c)
  /\ forall t rest, read_page t = Some rest -> read_page (render_one cg hs c ++ t) = Some (ss ++ rest).
Proof.
  intros (Hn & Ht & Hh) Hs. destruct (metric_name_ok _ Hn) as (_ & Hn10 & _).
  destruct (read_samples _ Hs) as (ss & Hss & Hr). exists ss. split; [done|]. intros t rest E. unfold render_one.
  rewrite body_of_lines. case_bool_decide as Hb.
  { rewrite <- (Hr t rest E), Hb. done. }
  set (help := lit "# HELP " ++ lit (m_name c) ++ [32] ++ lit (m_help c)).
  set (ty := lit "# TYPE " ++ lit (m_name c) ++ [32] ++ lit (m_type c)).
  assert (forall x, x = lines [help] ++ lines [ty] ++ lines (line_of <$> samples_of cg hs c) ->
    read_page (x ++ t) = Some (ss ++ rest)) as H.
  { intros x ->. rewrite <- !app_assoc, !read_page_line by
      (unfold help, ty; rewrite !not_elem_of_app; split_and!; decided || done). by apply Hr. }
  apply H. rewrite !lines_cons. unfold help, ty, lines. cbn [fmap list_fmap mjoin list_join].
  rewrite <- !app_assoc. done.
Qed.

(** ** The series are good *)

Lemma elem_of_of_name {A} (n : str) (m : gmap Key A) (k : Key) (v : A) : (k, v) ∈ of_name n m <-> k.1 = n
  /\ m !! k = Some v.
Proof.
  unfold of_name. rewrite list_elem_of_In, List.filter_In, <- list_elem_of_In, bool_decide_eq_true.
  rewrite merge_sort_Permutation, elem_of_map_to_list. naive_solver.
Qed.

Lemma bound_texts : Forall (fun b => escape (bound_text b) = bound_text b) BUCKETS.
Proof. repeat constructor. Qed.

Lemma good_with_le l le : escape le = le -> good_labels l -> good_labels (with_le l le).
Proof.
  intros He (ps & -> & Hps). exists (ps ++ [(lit "le", le)]). split; [by apply with_le_labels|].
  apply Forall_app. split; [done|]. constructor; [|constructor]. done.
Qed.

Definition good_map {A} (m : gmap Key A) : Prop := map_Forall (fun k _ => good_labels k.2) m.

Lemma hist_samples_ok n l h : metric_name n = true -> good_labels l -> Forall sample_ok (hist_samples ((n, l), h)).
Proof.
  intros Hn Hl. unfold hist_samples.
  assert (forall s, forallb metric_char (lit s) = true -> metric_name (n ++ lit s) = true) as Hc
    by (intros; by apply metric_name_app).
  assert (forall x, Forall num_char (dec x)) as Hd by (intros; by apply dec_loop_chars).
  apply Forall_app. split.
  - pose proof bound_texts as H. generalize (buckets h) as cs. induction H as [|b bs Hb _ IH]; intros [|c cs];
    try constructor.
    + split_and!; cbn [fst snd]; [apply (Hc "_bucket"%string); reflexivity|by apply good_with_le|apply Hd].
    + apply IH.
  - repeat apply Forall_cons_2; [| | |constructor]; split_and!; cbn [fst snd]; try done;
      try apply show_f64_chars; try (apply good_with_le; [reflexivity|done]).
    + apply (Hc "_bucket"%string); reflexivity.
    + apply (Hc "_sum"%string); reflexivity.
    + apply (Hc "_count"%string); reflexivity.
Qed.

Lemma samples_ok cg hs c : text_ok c -> good_map cg.1 -> good_map cg.2 -> good_map hs ->
  Forall sample_ok (samples_of cg hs c).
Proof.
  intros [Hn _] H1 H2 H3. unfold samples_of.
  assert (forall m : gmap Key spec_float, good_map m ->
    Forall sample_ok ((fun kv => (kv.1, show_f64 kv.2)) <$> of_name (lit (m_name c)) m)) as Hp.
  { intros m Hm. apply Forall_fmap, list.Forall_forall. intros [k v] [Hk Hv]%elem_of_of_name.
    split_and!; cbn [fst snd]; [by rewrite Hk|by eapply Hm|apply show_f64_chars]. }
  repeat case_bool_decide; try by apply Hp.
  apply list.Forall_forall. intros kv ([[n l] h] & Hkv & [Hk Hv]%elem_of_of_name)%list_elem_of_bind.
  cbn in Hk. subst n. assert (Forall sample_ok (hist_samples ((lit (m_name c), l), h))) as H'
    by (apply hist_samples_ok; [done|by eapply (H3 (lit (m_name c), l))]).
  rewrite list.Forall_forall in H'. by apply H'.
Qed.

Lemma values_good extra m : page_ok extra m -> good_map (values extra m).1 /\ good_map (values extra m).2.
Proof.
  intros (Hc & Hg & _ & Hx). unfold values.
  assert (good_map (f64_of_Z <$> counters m)) as H1 by (by apply map_Forall_fmap).
  assert (good_map (f64_of_Z <$> gauges m)) as H2 by (by apply map_Forall_fmap).
  revert H1 H2. generalize (f64_of_Z <$> counters m) (f64_of_Z <$> gauges m). clear Hc Hg.
  induction Hx as [|x xs Hx _ IH]; intros c g H1 H2; cbn [foldl]; [done|].
  unfold add_extra at 2 4. cbn [fst snd]. destruct (is_counter _); apply IH; try done;
    apply map_Forall_insert_2; done.
Qed.

Lemma exported_ok extra m : page_ok extra m -> Forall sample_ok (exported extra m).
Proof.
  intros H. pose proof (values_good extra m H) as [H1 H2]. destruct H as (_ & _ & H3 & _).
  apply list.Forall_forall. intros kv (c & Hkv & Hc)%list_elem_of_bind.
  pose proof CATALOG_text as Ht. rewrite list.Forall_forall in Ht.
  pose proof (samples_ok (values extra m) (hists m) c (Ht c Hc) H1 H2 H3) as H'.
  rewrite list.Forall_forall in H'. by apply H'.
Qed.

Lemma read_render extra m : page_ok extra m ->
  exists page, read_page (render extra m) = Some page /\ Forall2 shows page (exported extra m).
Proof.
  intros H. pose proof (values_good extra m H) as [H1 H2]. destruct H as (_ & _ & H3 & _).
  unfold render, exported. pose proof CATALOG_text as Ht. induction Ht as [|c cs Hc _ (page & IH & IH')].
  { exists []. by split. }
  destruct (read_render_one (values extra m) (hists m) c Hc) as (ss & Hss & Hr); [by apply samples_ok|].
  exists (ss ++ page). rewrite fmap_cons, bind_cons, mjoin_cons. split; [by apply Hr|by apply Forall2_app].
Qed.

(** ** Each series once *)

#[export] Instance Metric_eq_dec : EqDecision Metric.
Proof. solve_decision. Defined.

Lemma good_names_ok ps : good_names ps -> Forall (fun p => name_ok p.1) ps.
Proof.
  unfold good_names. rewrite !list.Forall_forall. intros H p Hp. by destruct (label_name_ok _ (H p Hp)).
Qed.

Lemma with_le_inj l l' b b' : good_labels l -> good_labels l' -> escape b = b -> escape b' = b' ->
  with_le l b = with_le l' b' -> l = l' /\ b = b'.
Proof.
  intros (ps & -> & Hps) (qs & -> & Hqs) Hb Hb'. rewrite !with_le_labels by done. intros E.
  assert (forall (ps : list (str * str)) x, good_names ps ->
    Forall (fun p => name_ok p.1) (ps ++ [(lit "le", x)])) as Hok.
  { intros ps' x H. apply good_names_ok, Forall_app. split; [done|by repeat constructor]. }
  apply labels_text_inj in E; [|by apply Hok..]. apply app_inj_tail in E as [-> E]. by simplify_eq.
Qed.

(** The names of a metric's samples. *)
Definition names_of (c : Metric) : list str :=
  let n := lit (m_name c) in
  if bool_decide (m_type c = "counter"%string) || bool_decide (m_type c = "gauge"%string) then [n]
  else [n ++ lit "_bucket"; n ++ lit "_sum"; n ++ lit "_count"].

Lemma hist_sample_keys n l h k v : (k, v) ∈ hist_samples ((n, l), h) ->
  (k.1 = n ++ lit "_bucket" /\ exists b, b ∈ (bound_text <$> BUCKETS) ++ [lit "+Inf"] /\ k.2 = with_le l b)
  \/ (k.1 = n ++ lit "_sum" \/ k.1 = n ++ lit "_count") /\ k.2 = l.
Proof.
  unfold hist_samples. rewrite elem_of_app, !elem_of_cons.
  intros [H|[[= -> _]|[[= -> _]|[[= -> _]|[]%not_elem_of_nil]]]]; [|left|right; eauto..].
  - left. apply elem_of_lookup_zip_with in H as (i & b & c & [= -> _] & Hb & _). split; [done|].
    exists (bound_text b). split; [|done]. apply elem_of_app. left. apply list_elem_of_fmap. exists b. split; [done|].
    by eapply list_elem_of_lookup_2.
  - split; [done|]. exists (lit "+Inf"). split; [|done]. apply elem_of_app. right. by apply list_elem_of_singleton.
Qed.

Lemma sample_names cg hs c k v : (k, v) ∈ samples_of cg hs c -> k.1 ∈ names_of c.
Proof.
  unfold samples_of, names_of. repeat case_bool_decide; cbn [orb];
    try (intros ([k' v'] & [= -> _] & [Hk _]%elem_of_of_name)%list_elem_of_fmap; by apply list_elem_of_singleton).
  intros ([[n l] h] & [[E _]|[[E|E] _]]%hist_sample_keys & [Hn _]%elem_of_of_name)%list_elem_of_bind;
    cbn in Hn; subst n;
    rewrite E, !elem_of_cons; naive_solver.
Qed.

Lemma names_apart : Forall (fun c => Forall (fun d => c = d \/ Forall (fun n => n ∉ names_of d) (names_of c))
  CATALOG) CATALOG.
Proof. decided. Qed.

Lemma NoDup_keys_bind {A B K} (f : A -> list (K * B)) l : NoDup l ->
  (forall x, x ∈ l -> NoDup (f x).*1) ->
  (forall x y k, x ∈ l -> y ∈ l -> k ∈ (f x).*1 -> k ∈ (f y).*1 -> x = y) -> NoDup (l ≫= f).*1.
Proof.
  intros Hl Hx Hd. induction Hl as [|x l Hxl _ IH]; [constructor|]. rewrite bind_cons, fmap_app.
  apply list.NoDup_app. split_and!; [apply Hx; set_solver| |apply IH; set_solver].
  intros k Hk ([k' v] & -> & (y & Hy & Hyl)%list_elem_of_bind)%list_elem_of_fmap. cbn [fst] in *.
  assert (x = y) as ->; [|done].
  apply (Hd x y k'); [set_solver|set_solver|done|]. apply list_elem_of_fmap. by exists (k', v).
Qed.

Lemma NoDup_of_name {A} (n : str) (m : gmap Key A) : NoDup (of_name n m).*1.
Proof.
  unfold of_name. assert (NoDup (merge_sort series_le (map_to_list m)).*1) as H
    by (rewrite merge_sort_Permutation; apply NoDup_fst_map_to_list).
  induction (merge_sort series_le (map_to_list m)) as [|kv l IH]; [constructor|]. cbn [List.filter].
  rewrite fmap_cons, list.NoDup_cons in H. destruct H as [Hk H]. case_bool_decide; [|by apply IH].
  rewrite fmap_cons. constructor; [|by apply IH].
  intros (x & Ex & [Hx _]%list_elem_of_In%List.filter_In)%list_elem_of_fmap. apply Hk, list_elem_of_fmap.
  exists x. split; [done|by apply list_elem_of_In].
Qed.

Lemma le_texts : NoDup ((bound_text <$> BUCKETS) ++ [lit "+Inf"])
  /\ Forall (fun b => escape b = b) ((bound_text <$> BUCKETS) ++ [lit "+Inf"]).
Proof. decided. Qed.

Lemma bucket_keys n l (le : list str) bs cs : NoDup ((bound_text <$> bs) ++ le) ->
  Forall (fun b => escape b = b) ((bound_text <$> bs) ++ le) -> good_labels l ->
  NoDup ((zip_with (fun b c => ((n ++ lit "_bucket", with_le l (bound_text b)), dec c)) bs cs).*1
         ++ ((fun b => (n ++ lit "_bucket", with_le l b)) <$> le)).
Proof.
  intros Hnd Hesc Hl.
  assert (NoDup (((fun b : str => (n ++ lit "_bucket", with_le l b)) <$> ((bound_text <$> bs) ++ le)))) as H.
  { rewrite list.Forall_forall in Hesc. induction Hnd as [|b t Hb _ IH]; [constructor|]. rewrite fmap_cons.
    constructor; [|apply IH; set_solver].
    intros (b' & [= E] & Hb')%list_elem_of_fmap. apply with_le_inj in E as [_ ->]; [done|done|done|apply Hesc;
      set_solver..]. }
  rewrite fmap_app in H. apply list.NoDup_app in H as (H1 & H2 & H3).
  assert (forall k, k ∈ (zip_with (fun b c => ((n ++ lit "_bucket", with_le l (bound_text b)), dec c)) bs cs).*1 ->
    k ∈ ((fun b : str => (n ++ lit "_bucket", with_le l b)) <$> (bound_text <$> bs))) as Hsub.
  { intros k ([k' v] & -> & (i & b & c & [= -> _] & Hb & _)%elem_of_lookup_zip_with)%list_elem_of_fmap.
    cbn [fst]. apply (list_elem_of_fmap_2 (fun b : str => (n ++ lit "_bucket", with_le l b))), list_elem_of_fmap_2.
    by eapply list_elem_of_lookup_2. }
  apply list.NoDup_app. split_and!; [|by intros k Hk%Hsub; apply H2|done].
  clear H2 H3 Hnd Hesc Hsub. revert cs H1. induction bs as [|b bs IH]; intros [|c cs] H1; try constructor.
  - cbn [fst]. rewrite !fmap_cons in H1. apply list.NoDup_cons in H1 as [Hn _].
    intros ([k' v] & E & (i & b' & c' & [= -> _] & Hb & _)%elem_of_lookup_zip_with)%list_elem_of_fmap. cbn [fst] in E.
    apply Hn. rewrite E. apply (list_elem_of_fmap_2 (fun b : str => (n ++ lit "_bucket", with_le l b))),
      list_elem_of_fmap_2.
    by eapply list_elem_of_lookup_2.
  - rewrite !fmap_cons in H1. apply list.NoDup_cons in H1 as [_ H1]. by apply IH.
Qed.

Lemma suffix_ne (n : str) s t : lit s <> lit t -> n ++ lit s <> n ++ lit t.
Proof. by intros H E%app_inv_head. Qed.

Lemma NoDup_hist_samples n l h : good_labels l -> NoDup (hist_samples ((n, l), h)).*1.
Proof.
  intros Hl. destruct le_texts as [Hn He]. pose proof (bucket_keys n l [lit "+Inf"] BUCKETS (buckets h) Hn He Hl) as H.
  assert (forall k, k ∈ (zip_with (fun b c => ((n ++ lit "_bucket", with_le l (bound_text b)),
    dec c)) BUCKETS (buckets h)).*1
     ++ ((fun b => (n ++ lit "_bucket", with_le l b)) <$> [lit "+Inf"]) -> k.1 = n ++ lit "_bucket") as Hk.
  { intros k [([k' v] & -> & (i & b & c & [= -> _] & _)%elem_of_lookup_zip_with)%list_elem_of_fmap
              |(b & -> & _)%list_elem_of_fmap]%elem_of_app; done. }
  unfold hist_samples. rewrite fmap_app. cbn [fmap list_fmap fst] in H, Hk |- *.
  change [?a; ?b; ?c] with ([a] ++ [b; c]). rewrite app_assoc. apply list.NoDup_app. split_and!; [done| |].
  - intros k Hk'%Hk. rewrite !elem_of_cons. intros [->|[->|[]%not_elem_of_nil]]; cbn [fst] in Hk';
      by apply suffix_ne in Hk'.
  - constructor; [|constructor; [apply not_elem_of_nil|constructor]].
    intros [= E]%list_elem_of_singleton. by apply app_inv_head in E.
Qed.

Lemma NoDup_samples cg hs c : good_map hs -> NoDup (samples_of cg hs c).*1.
Proof.
  intros Hg. unfold samples_of.
  assert (forall m : gmap Key spec_float, NoDup ((fun kv => (kv.1,
    show_f64 kv.2)) <$> of_name (lit (m_name c)) m).*1) as Hp.
  { intros m. rewrite <- list_fmap_compose. apply (NoDup_of_name (lit (m_name c)) m). }
  repeat case_bool_decide; try by apply Hp.
  apply NoDup_keys_bind.
  - eapply (NoDup_fmap_1 fst), NoDup_of_name.
  - intros [[n l] h] [_ Hv]%elem_of_of_name. apply NoDup_hist_samples. exact (Hg (n, l) h Hv).
  - intros [[n l] h] [[n' l'] h'] k [Hn Hv]%elem_of_of_name [Hn' Hv']%elem_of_of_name. cbn in Hn, Hn'. subst n n'.
    intros ([k1 v1] & -> & H1%hist_sample_keys)%list_elem_of_fmap ([k2 v2] & E & H2%hist_sample_keys)%list_elem_of_fmap.
    cbn [fst] in *. subst k2. pose proof (Hg _ _ Hv) as Gl. pose proof (Hg _ _ Hv') as Gl'. cbn [snd] in Gl, Gl'.
    assert (l = l') as ->; [|by simplify_eq].
    destruct le_texts as [_ He]. rewrite list.Forall_forall in He.
    destruct H1 as [(E1 & b & Hb & E1')|[E1 E1']], H2 as [(E2 & b' & Hb' & E2')|[E2 E2']].
    + rewrite E1' in E2'. by apply with_le_inj in E2' as [? _]; [|done|done|apply He..].
    + rewrite E1 in E2. destruct E2 as [E2|E2]; by apply suffix_ne in E2.
    + rewrite E2 in E1. destruct E1 as [E1|E1]; by apply suffix_ne in E1.
    + by subst.
Qed.

Lemma NoDup_exported extra m : page_ok extra m -> NoDup (exported extra m).*1.
Proof.
  intros (_ & _ & Hg & _). apply NoDup_keys_bind; [decided|intros; by apply NoDup_samples|].
  intros c d k Hc Hd ([k1 v1] & -> & H1%sample_names)%list_elem_of_fmap ([k2 v2] & E &
    H2%sample_names)%list_elem_of_fmap.
  cbn [fst] in *. subst k2. pose proof names_apart as H. rewrite list.Forall_forall in H. specialize (H c Hc).
  rewrite list.Forall_forall in H. destruct (H d Hd) as [|H']; [done|]. rewrite list.Forall_forall in H'.
    by destruct (H' _ H1).
Qed.

Lemma shown_by page kvs s : Forall2 shows page kvs -> s ∈ page -> exists kv, kv ∈ kvs /\ shows s kv.
Proof.
  intros H (i & Hi)%list_elem_of_lookup_1. destruct (Forall2_lookup_l _ _ _ _ _ H Hi) as (kv & Hkv & Hs).
  exists kv. split; [by eapply list_elem_of_lookup_2|done].
Qed.

Lemma NoDup_shown page kvs : Forall2 shows page kvs -> NoDup kvs.*1 ->
  NoDup ((fun s => (s_name s, s_labels s)) <$> page).
Proof.
  induction 1 as [|s kv page kvs (En & El & _) Hp IH]; [constructor|]. rewrite !fmap_cons, !list.NoDup_cons.
  intros [Hk Hn]. split; [|by apply IH]. intros (s' & [= E1 E2] & Hs')%list_elem_of_fmap. apply Hk.
  destruct (shown_by _ _ _ Hp Hs') as (kv' & Hin & En' & El' & _). apply list_elem_of_fmap. exists kv'.
  split; [|done]. destruct kv as [[n l] v], kv' as [[n' l'] v']. cbn [fst snd] in *. congruence.
Qed.

(** What is exported is on the page, under its own labels. *)
Lemma shown_on page kvs n ps v : Forall2 shows page kvs -> good_names ps -> ((n, labels_text ps), v) ∈ kvs ->
  {| s_name := n; s_labels := ps; s_value := v |} ∈ page.
Proof.
  intros H Hps (i & Hi)%list_elem_of_lookup_1.
  destruct (Forall2_lookup_r _ _ _ _ _ H Hi) as ([n' ps' v'] & Hs%list_elem_of_lookup_2 & En & El & Hps' & Ev).
  cbn [s_name s_labels s_value fst snd] in *. subst.
  apply labels_text_inj in El as <-; [done|by apply good_names_ok..].
Qed.

(** ** Values *)

(** No extra series takes the place of [k]. *)
Definition untouched (extra : list Extra) (k : Key) : Prop :=
  Forall (fun x => (lit (x_name x), x_labels x) <> k) extra.

Lemma values_untouched extra m k : untouched extra k ->
  (values extra m).1 !! k = f64_of_Z <$> counters m !! k /\ (values extra m).2 !! k = f64_of_Z <$> gauges m !! k.
Proof.
  intros H. rewrite <- !lookup_fmap. unfold values. generalize (f64_of_Z <$> counters m) (f64_of_Z <$> gauges m).
  induction H as [|x xs Hx _ IH]; intros c g; [done|]. cbn [foldl]. unfold add_extra at 2 4. cbn [fst snd].
  destruct (is_counter _);
    match goal with |- context [foldl _ (?c, ?g) xs] => destruct (IH c g) as [-> ->] end;
    by rewrite ?lookup_insert_ne by done.
Qed.

Lemma exported_value extra m c k x : c ∈ CATALOG -> k.1 = lit (m_name c) ->
  m_type c = "counter"%string /\ (values extra m).1 !! k = Some x
    \/ m_type c = "gauge"%string /\ (values extra m).2 !! k = Some x ->
  (k, show_f64 x) ∈ exported extra m.
Proof.
  intros Hc Hk H. apply list_elem_of_bind. exists c. split; [|done]. unfold samples_of.
  destruct H as [[Ht Hx]|[Ht Hx]]; rewrite Ht; cbn;
    (apply list_elem_of_fmap; exists (k, x); split; [done|]; by apply elem_of_of_name).
Qed.

Lemma exported_hist extra m c k h : c ∈ CATALOG -> k.1 = lit (m_name c) -> m_type c = "histogram"%string ->
  hists m !! k = Some h -> forall kv, kv ∈ hist_samples (k, h) -> kv ∈ exported extra m.
Proof.
  intros Hc Hk Ht Hh kv Hkv. apply list_elem_of_bind. exists c. split; [|done]. unfold samples_of. rewrite Ht.
  cbn. apply list_elem_of_bind. exists (k, h). split; [done|]. by apply elem_of_of_name.
Qed.

(** C26: The page is the registry.  Whatever is recorded, under any label values
    (quotes, backslashes and newlines included), a reader of the exposition format,
    which parses each sample's name, its quoted and escaped labels and its value,
    accepts the page and finds exactly the series there are, each once: every
    counter and every gauge of the catalog that the scrape does not compute itself
    under its own labels (their names are the format's) with its value as a whole
    number (from 0 to 2^53), and of every histogram each bucket, under its labels and
    [le], and the total. *)
Theorem page_reads_back extra m :
  page_ok extra m ->
  exists page, read_page (render extra m) = Some page
  /\ Forall2 shows page (exported extra m)
  /\ NoDup ((fun s => (s_name s, s_labels s)) <$> page)
  /\ (forall c ps v, c ∈ CATALOG -> good_names ps -> untouched extra (lit (m_name c), labels_text ps) ->
      0 <= v < 2 ^ 53 ->
      m_type c = "counter"%string /\ counters m !! (lit (m_name c), labels_text ps) = Some v
        \/ m_type c = "gauge"%string /\ gauges m !! (lit (m_name c), labels_text ps) = Some v ->
      {| s_name := lit (m_name c); s_labels := ps; s_value := dec v |} ∈ page)
  /\ (forall c ps h, c ∈ CATALOG -> good_names ps -> m_type c = "histogram"%string ->
      hists m !! (lit (m_name c), labels_text ps) = Some h ->
      let bucket le n := {| s_name := lit (m_name c) ++ lit "_bucket"; s_labels := ps ++ [(lit "le", le)];
                            s_value := dec n |} in
      {| s_name := lit (m_name c) ++ lit "_count"; s_labels := ps; s_value := dec (count h) |} ∈ page
      /\ bucket (lit "+Inf") (count h) ∈ page
      /\ forall i b n, BUCKETS !! i = Some b -> buckets h !! i = Some n -> bucket (bound_text b) n ∈ page).
Proof.
  intros Hok. destruct (read_render extra m Hok) as (page & E & Hp). exists page. split; [done|]. split; [done|].
  split; [by eapply NoDup_shown, NoDup_exported|]. split.
  - intros c ps v Hc Hps Hu Hv H. rewrite <- show_f64_int by done.
    eapply (shown_on page _ _ ps _ Hp); [done|].
    destruct (values_untouched extra m _ Hu) as [E1 E2]. apply (exported_value extra m c); [done|done|].
    rewrite E1, E2. destruct H as [[Ht ->]|[Ht ->]]; [by left|by right].
  - intros c ps h Hc Hps Ht Hh bucket. pose proof (exported_hist extra m c (_, _) h Hc eq_refl Ht Hh) as Hin.
    assert (forall le, good_names (ps ++ [(lit "le", le)])) as Hle
      by (intros le; apply Forall_app; split; [done|by repeat constructor]).
    unfold bucket. split_and!; [|eapply (shown_on _ _ _ _ _ Hp); [apply Hle|]
      |intros i b n Hb Hn; eapply (shown_on _ _ _ _ _ Hp); [apply Hle|]].
    + eapply (shown_on _ _ _ _ _ Hp); [done|]. apply Hin. unfold hist_samples. rewrite elem_of_app, !elem_of_cons.
      naive_solver.
    + rewrite <- with_le_labels by reflexivity. apply Hin. unfold hist_samples. rewrite elem_of_app, !elem_of_cons.
      naive_solver.
    + pose proof bound_texts as Hbt. rewrite list.Forall_forall in Hbt.
      rewrite <- with_le_labels by (by eapply Hbt, list_elem_of_lookup_2). apply Hin. unfold hist_samples.
      rewrite elem_of_app, elem_of_lookup_zip_with. left. by exists i, b, n.
Qed.

(** The label value holds a backslash, a quote, a newline and a blank. *)
Lemma page_reads_back_witness :
  let ps := [(lit "host", [92; 34; 10; 32; 35]); (lit "code", lit "200")] in
  let m := inc (lit "stormlb_router_requests_total") ps
             (observe (lit "stormlb_router_request_duration_seconds") [(lit "host",
               lit "a")] 30000000 Metrics_default) in
  page_ok [] m
  /\ exists page, read_page (render [] m) = Some page
       /\ {| s_name := lit "stormlb_router_requests_total"; s_labels := ps; s_value := lit "1" |} ∈ page
       /\ length page = 15%nat.
Proof.
  intros ps m. assert (page_ok [] m) as H.
  { split_and!; [| | |constructor].
    - apply map_Forall_insert_2; [|by apply map_Forall_empty].
      exists ps. split; [reflexivity|by repeat constructor].
    - by apply map_Forall_empty.
    - apply map_Forall_insert_2; [|by apply map_Forall_empty].
      exists [(lit "host", lit "a")]. split; [reflexivity|by repeat constructor]. }
  split; [exact H|]. destruct (page_reads_back [] m H) as (page & E & _ & _ & Hv & _). exists page.
  split; [exact E|]. split; [|vm_compute in E; injection E as <-; reflexivity].
  set (c := List.nth 3 CATALOG (metric_ "x" "x" "x")). change (lit "stormlb_router_requests_total") with (lit (m_name c)).
  apply (Hv c ps 1); [decided|by repeat constructor|constructor|lia|left; split; reflexivity].
Defined.

(** ** A scrape *)

Lemma read_scrape_chunks i cs tail : (i <= 8192)%nat -> Forall (fun b => b <> []) cs -> forall buf,
  head_end (buf ++ mjoin cs) = Some i ->
  exists head t, read_scrape buf ((Chunk <$> cs) ++ tail) = Some head /\ buf ++ mjoin cs = head ++ t
                 /\ head_end head = Some i.
Proof.
  intros Hi Hcs. induction Hcs as [|b cs Hb _ IH]; intros buf H.
  - cbn [mjoin list_join] in H. rewrite app_nil_r in H. exists buf, []. split_and!; [|done|done].
    cbn [fmap list_fmap app]. destruct tail; cbn [read_scrape]; by rewrite bool_decide_false by congruence.
  - rewrite fmap_cons. cbn [app read_scrape]. destruct (head_end buf) as [j|] eqn:Ej.
    { rewrite bool_decide_false by done. cbn [andb]. exists buf, (mjoin (b :: cs)). split_and!; [done|done|].
      rewrite (head_end_app _ _ _ Ej) in H. by rewrite Ej. }
    pose proof (head_end_None_lt _ _ _ Ej H). rewrite bool_decide_true by done.
    rewrite bool_decide_true by lia. cbn [andb]. rewrite bool_decide_false by done.
    rewrite mjoin_cons, app_assoc in H |- *. by apply IH.
Qed.

Lemma head_end_has_cr b i : head_end b = Some i -> 13 ∈ b.
Proof.
  revert i. induction b as [|x b IH]; intros i H; [done|]. rewrite head_end_cons in H. case_bool_decide as Hx.
  - destruct b as [|y b]; [done|]. injection Hx as -> _. set_solver.
  - apply fmap_Some in H as (j & Hj & _). apply elem_of_cons. right. by eapply IH.
Qed.

Lemma first_line_prefix c (a t : str) : c ∈ a -> List.hd_error (split_on c (a ++ t)) = List.hd_error (split_on c a).
Proof.
  intros (u & v & -> & Hu)%list_elem_of_split_l. rewrite <- app_assoc. cbn [app]. by rewrite !split_on_line.
Qed.

Lemma request_line_prefix a t : 13 ∈ a -> request_line (a ++ t) = request_line a.
Proof. intros H. unfold request_line. by rewrite first_line_prefix. Qed.

Lemma scraped_known extra m head :
  let '(status, ctype, _) := scraped extra m head in
  (status = lit "200 OK" \/ status = lit "404 Not Found" \/ status = lit "405 Method Not Allowed")
  /\ (ctype = lit "text/plain" \/ ctype = lit "text/plain; version=0.0.4; charset=utf-8").
Proof. unfold scraped. destruct (request_line head). repeat case_bool_decide; auto. Qed.

(** A scrape means the same however the network cuts it and is answered whole.
    For any request whose head ends within the first 8192 bytes, delivered in any
    chunks: the connection's answer is the one for the request as a whole, and a
    client that trusts its content-length reads the status line and the body to
    the last byte; for [GET /metrics] with or without a query that body is the
    page. *)
Theorem scrape_is_whole extra m cs tail i status ctype body :
  Forall (fun b => b <> []) cs -> head_end (mjoin cs) = Some i -> (i <= 8192)%nat ->
  scraped extra m (mjoin cs) = (status, ctype, body) -> Z.of_nat (length (utf8_encode body)) <= USIZE_MAX ->
  client_reads (scrape_conn extra m ((Chunk <$> cs) ++ tail)) = Some (lit "HTTP/1.1 " ++ status, utf8_encode body)
  /\ (request_line (mjoin cs) = (lit "GET", lit "/metrics") -> body = render extra m).
Proof.
  intros Hcs Hi Hle Hs Hlen. destruct (read_scrape_chunks i cs tail Hle Hcs [] Hi) as (head & t & Hr & E & Hh).
  cbn [app] in E. unfold scrape_conn. rewrite Hr. apply head_end_has_cr in Hh.
  assert (scraped extra m head = (status, ctype, body)) as ->.
  { rewrite <- Hs, E. unfold scraped. by rewrite request_line_prefix. }
  split.
  - pose proof (scraped_known extra m (mjoin cs)) as H. rewrite Hs in H. destruct H as [Hst Hct].
    apply answer_reads; [| | |done]; [destruct Hst as [->|[->| ->]]|destruct Hst as [->|[->| ->]]|destruct Hct
      as [-> | ->]];
      try (apply in_line_ascii; decided); done.
  - unfold scraped in Hs. intros Hrl. rewrite Hrl in Hs. cbn in Hs. by injection Hs.
Qed.

Lemma scrape_is_whole_witness :
  let m := inc (lit "stormlb_vip_connections_total") [(lit "vip", lit "web")] Metrics_default in
  let cs := [lit "GET /met"; lit "rics?x=1 HTTP/1.1" ++ [13]; [10; 13]; [10]] in
  client_reads (scrape_conn [] m ((Chunk <$> cs) ++ [Eof]))
  = Some (lit "HTTP/1.1 " ++ lit "200 OK", utf8_encode (render [] m)).
Proof.
  intros m cs.
  refine (proj1 (scrape_is_whole [] m cs [Eof] 29 (lit "200 OK") (lit
    "text/plain; version=0.0.4; charset=utf-8") (render [] m) _ _ _ _ _));
    [decided|reflexivity|by apply Nat.leb_le|reflexivity|vm_compute; discriminate].
Defined.

(** ** What the program counts is on the page *)

(** The counts of the parts of the program. *)
Inductive counted_by : Count -> Prop :=
| by_http redirect a c : c ∈ t_counts (http_task redirect a) -> counted_by c
| by_https a c : c ∈ t_counts (https_task a) -> counted_by c
| by_routes `{Json} `{Clients} cfg e s : counted_by (poll_report cfg e s).1
| by_certs `{Pki} fs p slot err c : c ∈ (reload_one fs p slot err).2 -> counted_by c
| by_balancer vip as_ p c : c ∈ (serve_vip vip as_ p).2 -> counted_by c.

(** A counter of the catalog that no scrape computes, with labels a page can show. *)
Definition catalogued (c : Count) : Prop :=
  is_counter (metric c) = true /\ metric c <> "process_cpu_seconds_total"%string
  /\ Forall (fun p => label_name (lit p.1) = true) (labels c).

Lemma catalogued_intro m l : is_counter m = true -> m <> "process_cpu_seconds_total"%string ->
  forallb (fun p => label_name (lit p.1)) l = true ->
  catalogued {| metric := m; labels := l |}.
Proof.
  intros Hm Hn Hl. split_and!; [done|done|]. cbn [labels]. rewrite forallb_forall in Hl.
  apply list.Forall_forall. intros p Hp. by apply list_elem_of_In, Hl in Hp.
Qed.

(** A count of the code's: the names are literals. *)
Ltac catalogued := apply catalogued_intro; [reflexivity|discriminate|reflexivity].

Lemma demux_catalogued table redirect tls d head e rest : Forall catalogued (demux table redirect tls d head e rest).2.
Proof.
  unfold demux. destruct (slice head 0 e); [|constructor].
  assert (forall h c, catalogued (requests_total h c)) as Hr by (intros; catalogued).
  assert (forall h k, Forall catalogued [upstream_error h k; requests_total h "error"]) as Hf
    by (intros; constructor; [catalogued|constructor; [apply Hr|constructor]]).
  repeat case_match; cbn [snd]; try apply Hf; repeat (constructor; [apply Hr|]); constructor.
Qed.

Lemma record_first_catalogued host first : Forall catalogued (record_first host first).
Proof. destruct first; repeat (constructor; [catalogued|]); constructor. Qed.

Lemma conn_catalogued redirect tls a : Forall catalogued (t_counts (conn redirect tls a)).
Proof.
  unfold conn, serve_conn. destruct (read_until_head [] (a_reads a)) as [[[h e] r]|]; [|constructor].
  set (rd := _ <$> redirect). pose proof (demux_catalogued (a_table a) rd tls (a_dial a) h e r) as H.
  destruct (demux _ _ _ _ _ _ _) as [s cs]. cbn [snd] in H.
  destruct s as [out|addr name b rs| |]; cbn [t_counts]; [done| |done..].
  destruct (a_head_written a); cbn [negb t_counts]; [|done]. apply Forall_app. split; [done|].
  set (host := default _ _).
  destruct (splice_inv host b rs (a_replies a) (a_sched a)) as [_ Hd]. unfold down_inv in Hd.
  destruct (down _) as [| |[|]]; [destruct Hd as (_ & _ & -> & _)|destruct Hd as (_ & -> & _)..];
    [constructor|apply record_first_catalogued..].
Qed.

Lemma serve_vip_catalogued vip as_ p : Forall catalogued (serve_vip vip as_ p).2.
Proof.
  revert p. induction as_ as [|[|h c|bs] as_ IH]; intros p; cbn [serve_vip]; [constructor|apply IH| |apply IH].
  destruct (serve_one vip c h p) as [[p1 s] cs] eqn:E. specialize (IH p1).
  destruct (serve_vip vip as_ p1) as [[p2 ss] cs']. cbn [snd] in *. apply Forall_app. split; [|done].
  unfold serve_one in E. repeat case_match; simplify_eq; repeat (constructor; [catalogued|]); constructor.
Qed.

Lemma counted_catalogued c : counted_by c -> catalogued c.
Proof.
  assert (forall l c, Forall catalogued l -> c ∈ l -> catalogued c) as Hin
    by (intros l x Hl Hx; rewrite list.Forall_forall in Hl; by apply Hl).
  intros [redirect a x Hx|a x Hx|J C cfg e s|P fs p slot err x Hx|vip as_ p x Hx].
  - revert Hx. apply Hin. cbn [t_counts]. constructor; [catalogued|apply conn_catalogued].
  - revert Hx. apply Hin. unfold https_task. destruct (a_handshake a); cbn [t_counts];
      (constructor; [catalogued|]); [apply conn_catalogued|constructor; [catalogued|constructor]].
  - unfold poll_report. destruct (fetched _ _ _); catalogued.
  - revert Hx. apply Hin. unfold reload_one. repeat case_match; cbn [snd]; repeat (constructor; [catalogued|]);
    constructor.
  - revert Hx. apply Hin, serve_vip_catalogued.
Qed.

(** ** Counting *)

Definition label_texts (c : Count) : list (str * str) := (fun p => (lit p.1, p.2)) <$> labels c.

Definition key_of (c : Count) : Key := (lit (metric c), labels_text ((fun p => (lit p.1, p.2)) <$> labels c)).

(** How often the series of [c] is counted among [cs]. *)
Definition times (c : Count) (cs : list Count) : Z :=
  Z.of_nat (length (List.filter (fun c' => bool_decide (key_of c' = key_of c)) cs)).

Definition recorded (cs : list Count) (m : Metrics) : Metrics := foldl (fun m c => Metrics.record c m) m cs.

Lemma recorded_counters cs c : Z.of_nat (length cs) < 2 ^ 64 ->
  default 0 (counters (recorded cs Metrics_default) !! key_of c) = times c cs
  /\ (c ∈ cs -> is_Some (counters (recorded cs Metrics_default) !! key_of c)).
Proof.
  unfold recorded, times. induction cs as [|x cs IH] using rev_ind; intros Hl; [split;
    [done|by intros ?%not_elem_of_nil]|].
  rewrite length_app in Hl. cbn [length] in Hl. destruct IH as [IH IH']; [lia|].
  rewrite foldl_app, List.filter_app, length_app. cbn [foldl List.filter]. unfold Metrics.record at 1 3, inc.
  cbn [counters]. fold (key_of x).
  pose proof (List.filter_length_le (fun c' => bool_decide (key_of c' = key_of c)) cs) as Hle.
  destruct (decide (key_of x = key_of c)) as [E|E].
  - rewrite E, lookup_insert_eq, IH, bool_decide_true by done. cbn [default length].
    unfold wrap64. rewrite Z.mod_small by lia. split; [cbn; lia|by eexists].
  - rewrite lookup_insert_ne, bool_decide_false by done. cbn [length]. rewrite Nat.add_0_r. split; [done|].
    intros [Hc| ->%list_elem_of_singleton]%elem_of_app; [by apply IH'|done].
Qed.

Lemma recorded_ok cs : Forall catalogued cs -> good_map (counters (recorded cs Metrics_default))
  /\ gauges (recorded cs Metrics_default) = ∅ /\ hists (recorded cs Metrics_default) = ∅.
Proof.
  unfold recorded. induction cs as [|x cs IH] using rev_ind; intros H; [done|].
  apply Forall_app in H as [H Hx]. destruct (IH H) as (Hg & E1 & E2). rewrite foldl_app. cbn [foldl].
  unfold Metrics.record at 1 3 5, inc. cbn [counters gauges hists]. split; [|done].
  apply map_Forall_insert_2; [|done]. cbn [snd]. eexists. split; [done|].
  apply Forall_cons_iff in Hx as [(_ & _ & Hx) _]. apply Forall_fmap. exact Hx.
Qed.

Lemma is_counter_spec m : is_counter m = true -> exists c, c ∈ CATALOG /\ m_name c = m /\ m_type c = "counter"%string.
Proof.
  unfold is_counter. intros (c & Hc & H)%existsb_exists. apply andb_prop in H as [H1 H2].
  exists c. split_and!; [by apply list_elem_of_In|by eapply bool_decide_eq_true..].
Qed.

(** The extra series of a scrape, whose names are no counter but the CPU time. *)
Definition scrape_like (extra : list Extra) : Prop :=
  Forall (fun x => (is_counter (x_name x) = false \/ x_name x = "process_cpu_seconds_total"%string)
                   /\ good_labels (x_labels x)) extra.

Lemma scrape_series_like `{R : Health.Reqwest} p vrrp reg : scrape_like (scrape_series p vrrp reg).
Proof.
  assert (forall n (l : list (string * str)) v, (is_counter n = false \/ n = "process_cpu_seconds_total"%string) ->
    forallb (fun p => label_name (lit p.1)) l = true ->
    scrape_like [{| x_name := n; x_labels := labels_text ((fun p => (lit p.1, p.2)) <$> l); x_value := v |}]) as H1.
  { intros n l v Hn Hl. constructor; [|constructor]. split; [done|]. eexists. split; [done|]. apply Forall_fmap.
    rewrite forallb_forall in Hl. apply list.Forall_forall. intros q Hq.
    by apply list_elem_of_In, Hl in Hq. }
  assert (forall n v, (is_counter n = false \/ n = "process_cpu_seconds_total"%string)
    -> scrape_like (some_series n v)) as H2.
  { intros n [v|] Hn; [|constructor]. apply (H1 n []); [done|done]. }
  unfold scrape_series, process_series. unfold scrape_like. rewrite !Forall_app. split_and!.
  - apply (H1 "stormlb_build_info"%string [("version"%string, version)]); [by left|done].
  - apply H2. by left.
  - apply H2. by left.
  - apply H2. by left.
  - destruct (stat p); [|constructor]. apply Forall_app. split; apply H2; [by right|by left].
  - apply Forall_join, Forall_fmap, list.Forall_forall. intros v _. apply Forall_app. split.
    + apply Forall_fmap, list.Forall_forall. intros b _.
      pose proof (H1 "stormlb_vip_backend_healthy"%string [("vip"%string, view_name v);
        ("backend"%string, bs_address b ++ [58] ++ dec (bs_port b))] (f64_of_Z (if bs_healthy b then 1 else 0))
        (or_introl eq_refl) eq_refl) as H. by apply Forall_cons_iff in H as [H _].
    + destruct (has_vrrp v); [|constructor].
      apply (H1 "stormlb_vip_vrrp_master"%string [("vip"%string, view_name v)]); [by left|done].
Qed.

(** C25: What the program counts is what is scraped.  Whatever the router's doors,
    the route polls, the certificate checks and the VIPs' listeners count, in any
    number and order (fewer than 2^53): a reader accepts the page, and every series
    among the counts is on it, once, under its labels, with the number of times it
    was counted. *)
Theorem counts_reach_the_page `{R : Health.Reqwest} cs p vrrp reg c :
  Forall counted_by cs -> Z.of_nat (length cs) < 2 ^ 53 -> c ∈ cs ->
  exists page, read_page (render (scrape_series p vrrp reg) (recorded cs Metrics_default)) = Some page
    /\ {| s_name := lit (metric c); s_labels := label_texts c; s_value := dec (times c cs) |} ∈ page
    /\ NoDup ((fun s => (s_name s, s_labels s)) <$> page).
Proof.
  intros Hcs Hn Hc. pose proof (scrape_series_like p vrrp reg) as Hx. set (extra := scrape_series p vrrp reg) in *.
  clearbody extra. assert (Forall catalogued cs) as Hcat.
  { rewrite list.Forall_forall in Hcs |- *. intros x Hxc. by apply counted_catalogued, Hcs. }
  destruct (recorded_ok cs Hcat) as (Hg & Eg & Eh). destruct (recorded_counters cs c) as [Hv Hs]; [lia|].
  destruct (Hs Hc) as [v Ev]. rewrite Ev in Hv. cbn [default from_option id] in Hv. subst v.
  rewrite list.Forall_forall in Hcat. destruct (Hcat c Hc) as (Hm & Hne & Hnames).
  destruct (is_counter_spec _ Hm) as (k & Hk & Ek & Et). unfold key_of in *. rewrite <- Ek in *.
  assert (page_ok extra (recorded cs Metrics_default)) as Hok.
  { unfold page_ok. rewrite Eg, Eh. split_and!; [done|apply map_Forall_empty..|].
    rewrite list.Forall_forall. intros x Hxe. unfold scrape_like in Hx. rewrite list.Forall_forall in Hx. by apply Hx. }
  destruct (read_render _ _ Hok) as (page & E & Hp). exists page. split; [done|].
  split; [|by eapply NoDup_shown, NoDup_exported]. eapply (shown_on _ _ _ _ _ Hp); [by apply Forall_fmap|].
  set (key := (lit (m_name k), _)) in *.
  assert (0 <= times c cs < 2 ^ 53) as Hb.
  { unfold times. pose proof (List.filter_length_le (fun c' => bool_decide (key_of c' = key_of c)) cs). lia. }
  rewrite <- show_f64_int by done. apply (exported_value extra _ k); [done|done|]. left. split; [done|].
  assert (untouched extra key) as Hu; [|by rewrite (proj1 (values_untouched extra _ key Hu)), Ev].
  unfold scrape_like in Hx. unfold untouched. rewrite list.Forall_forall in Hx |- *. intros x Hxe [= Exn _].
  apply lit_inj in Exn. destruct (Hx x Hxe) as [[H|H] _]; congruence.
Qed.

Lemma counts_reach_the_page_witness :
  let a := {| a_table := ∅; a_certs := false; a_handshake := true;
              a_dial := {| connects := fun _ => true; ca_loaded := false; valid_name_ := fun _ => true;
                handshake := true |};
              a_reads := [Chunk (http_head [lit "GET /x HTTP/1.1"; lit "Host: a.lan" ++ [13]])]; a_head_written := true;
              a_replies := []; a_sched := [] |} in
  let cs := t_counts (http_task None a) ++ t_counts (http_task None a) in
  let c := requests_total (lit "unrouted") "404" in
  let p := {| page := 4096; tick := 100; statm := Some (lit "100 25 3"); fds := Some 7; nofile := None;
              stat := None; proc_stat := None |} in
  let vrrp (_ : str) := lit "init" in
  exists page, read_page (render (scrape_series (R := Health.demo_reqwest) p vrrp None) (recorded cs Metrics_default))
                 = Some page
    /\ {| s_name := lit "stormlb_router_requests_total";
          s_labels := [(lit "host", lit "unrouted"); (lit "code", lit "404")]; s_value := lit "2" |} ∈ page.
Proof.
  intros a cs c p vrrp.
  destruct (counts_reach_the_page (R := Health.demo_reqwest) cs p vrrp None c) as (page & E & Hin & _);
    [| | |exists page; split; [exact E|exact Hin]].
  - apply Forall_app. split; apply list.Forall_forall; intros x Hx; by apply (by_http None a).
  - vm_compute. reflexivity.
  - vm_compute. right. left.
Defined.
