(* ===== verification/Main.v ===== *)
(** * The process ([src/src/main.rs])

    What [main] starts and in which order, and how it ends.  The parts are those of
    the other files, the router's [run] and the API's included; what the outside
    answers during the start is a [World]. *)

From S2P Require Import Prelude Str Api Router Front Net Vrrp VrrpLoop Bgp Config Pool Health Vips.

Section Main.
  Context `{R : Reqwest} `{J : StateJson}.

(** The configuration file and its parser, the outside of [start_config], that of
    each VIP [load_state] puts, whether the state file can be read, the files, where
    the API can be bound, the source address the kernel would use, and where the
    router's plain and TLS listeners can be bound. *)
Record World := {
  w_read : str -> option str;
  w_toml : str -> option Config;
  w_env : Env;
  w_envs : str -> Env;
  w_readable : bool;
  w_disk : gmap str str;
  w_can_bind_api : SocketAddr * Z -> bool;
  w_probe : option str;
  w_can_bind_plain : str -> bool;
  w_can_bind_tls : str -> bool }.

Inductive StartError :=
| ConfigError (e : Config.LoadError)
| NothingToDo
| VipError (e : ApplyError)
| BgpNeedsIpv4
| ApiError (e : Api.RunError)
| RouterError.

Record Started := {
  st_cfg : Config;
  st_registry : Registry;
  st_metrics : option str;                          (* where [/metrics] is tried *)
  st_bgp : list (Peer * SessionCfg);
  st_bgp_disabled : option PreflightError;          (* logged *)
  st_loaded : option (Vips.LoadError + nat);        (* what [load_state] said; logged *)
  st_router : option (option Doors);                (* [None] inside: logged, and beside others *)
  st_api : option (SocketAddr * Z) }.

(** [expect] in [main] is a panic. *)
Inductive Start := Exits (e : StartError) | PanicsAtStart | Starts (s : Started).

(** [Registry::pool]. *)
Definition pool_of (r : Registry) (name : str) : option Pool :=
  e ← vips r !! name; core ← cores r !! e_core e; Some (pool core).

(** The BGP part of the start: an error, a panic, or the sessions, or why there
    are none. *)
Definition start_bgp (cfg : Config) (r : Registry) : StartError + option (list (Peer * SessionCfg) * option
  PreflightError) :=
  match bgp_enabled (bgp cfg), vip cfg with
  | true, Some v =>
      match parse_ipv4 (v_address v) with
      | None => inl BgpNeedsIpv4
      | Some ip =>
          match preflight (bgp cfg) with
          | inl e => inr (Some ([], Some e))
          | inr next_hop =>
              match pool_of r CONFIG_VIP with
              | None => inr None
              | Some _ => inr (Some (Bgp.spawn (bgp cfg) ip next_hop, None))
              end
          end
      end
  | _, _ => inr (Some ([], None))
  end.

(** The [vip] part: the VIP of the file, if there is one, served as [default]. *)
Definition start_vip (cfg : Config) (env : Env) (r : Registry) : Registry * option ApplyError :=
  match config_spec cfg with
  | None => (r, None)
  | Some spec => match start_config env spec r with (r, inl e) => (r, Some e) | (r, inr _) => (r, None) end
  end.

(** The saved VIPs, when there is an API. *)
Definition load_saved (cfg : Config) (w : World) (r : Registry) : Registry * option (Vips.LoadError + nat) :=
  match api cfg with
  | None => (r, None)
  | Some _ => let '(r, x) := load_state (w_envs w) (w_readable w) r in (r, Some x)
  end.

(** The router's end is the process's only when it runs alone. *)
Definition router_alone (cfg : Config) : bool :=
  match vip cfg, api cfg with None, None => true | _, _ => false end.

(** What [select!] meets first: the router's doors and the API's listener, or the
    error that ends the process, the API's, or the router's when it is alone (they
    are never both configured then). *)
Definition open_fronts (cfg : Config) (w : World)
    : StartError + (option (option Doors) * option (SocketAddr * Z)) :=
  let doors := (fun rcfg => Front.run rcfg (w_probe w) (w_can_bind_plain w) (w_can_bind_tls w)) <$> router cfg in
  match doors, router_alone cfg with
  | Some None, true => inl RouterError
  | _, _ =>
      match Api.run (w_can_bind_api w) <$> api cfg with
      | Some (inl e) => inl (ApiError e)
      | Some (inr a) => inr (doors, Some a)
      | None => inr (doors, None)
      end
  end.

(** [main] until it serves. *)
Definition main (path : str) (w : World) : Start :=
  match Config.load (w_read w) (w_toml w) path with
  | inl e => Exits (ConfigError e)
  | inr cfg =>
      match vip cfg, router cfg, api cfg with
      | None, None, None => Exits NothingToDo
      | _, _, _ =>
          let r := Vips.new (a ← api cfg; Config.state_file a) (w_disk w) in
          let '(r, refused) := start_vip cfg (w_env w) r in
          match refused with
          | Some e => Exits (VipError e)
          | None =>
              match start_bgp cfg r with
              | inl e => Exits e
              | inr None => PanicsAtStart
              | inr (Some (sessions, disabled)) =>
                  let '(r, loaded) := load_saved cfg w r in
                  match open_fronts cfg w with
                  | inl e => Exits e
                  | inr (doors, api_at) =>
                      Starts {| st_cfg := cfg; st_registry := r; st_metrics := m_listen <$> metrics cfg;
                                st_bgp := sessions; st_bgp_disabled := disabled; st_loaded := loaded;
                                st_router := doors; st_api := api_at |}
                  end
              end
          end
      end
  end.

(** ** The end *)

(** [select!] from there on, from what the router's listeners accept: whether the
    process has returned, with an error.  The API never returns once it listens. *)
Definition ends (s : Started) (plain_conns secure_conns : list (list Accept)) : bool :=
  match st_router s with
  | Some (Some d) => router_alone (st_cfg s) && (Front.serve d plain_conns secure_conns).2
  | _ => false
  end.

(** ** The feed of the BGP sessions *)

(** [send_if_modified]: what the watch channel carries, from the healthy counts
    sampled every 250 ms. *)
Fixpoint health_feed (current : bool) (counts : list nat) : list bool :=
  match counts with
  | [] => []
  | n :: counts =>
      let healthy := bool_decide (0 < n)%nat in
      if Bool.eqb healthy current then health_feed current counts else healthy :: health_feed healthy counts
  end.

(** The value a session last saw. *)
Definition current_health (counts : list nat) : bool := List.last (health_feed false counts) false.

End Main.

Section Start.
  Context `{R : Reqwest} `{J : StateJson}.

Lemma config_spec_Some cfg : is_Some (config_spec cfg) <-> is_Some (Config.vip cfg).
Proof. unfold config_spec. destruct (Config.vip cfg); by split; intros []. Qed.

(** An entry of a registry that is reached has a pool. *)
Lemma reaches_pool ok file disk r n : reaches ok file disk r -> is_Some (vips r !! n) -> is_Some (pool_of r n).
Proof.
  intros Hr [e He]. destruct (reaches_inv _ _ _ _ Hr) as [Hok _].
  destruct (Hok _ _ He) as (_ & _ & _ & core & _ & _ & _ & _ & Hcore & _).
  unfold pool_of. rewrite He. cbn [mbind option_bind]. rewrite Hcore. by eexists.
Qed.

(** The start of the file's VIP: it is there unless it is refused. *)
Lemma start_vip_spec cfg env r file disk : reaches any_env file disk r ->
  let '(r', e) := start_vip cfg env r in
  reaches any_env file disk r'
  /\ (e = None -> is_Some (Config.vip cfg) -> is_Some (pool_of r' CONFIG_VIP)).
Proof.
  intros Hr. unfold start_vip. pose proof (config_spec_Some cfg) as Hc.
  destruct (config_spec cfg) as [spec|]; [|split; [done|]; intros _ H; by destruct (proj2 Hc H)].
  unfold start_config. destruct (put env CONFIG_VIP spec true r) as [r' x] eqn:Ep.
  assert (reaches any_env file disk r') as Hr'.
  { eapply reaches_step; [exact Hr|]. pose proof (step_start_config any_env env spec r I) as H.
    unfold start_config in H. by rewrite Ep in H. }
  destruct x as [e|b]; split; [done..|]. intros _ _. apply put_changes in Ep as (_ & _ & _ & e & Hv & _).
  apply (reaches_pool _ _ _ _ _ Hr'). rewrite Hv, lookup_insert_eq. by eexists.
Qed.

Lemma put_keeps_names env m s fc r n : is_Some (vips r !! n) -> is_Some (vips (put env m s fc r).1 !! n).
Proof.
  destruct (put env m s fc r) as [r1 [e|b]] eqn:Ep; cbn [fst]; intros H.
  - apply put_refused_stands in Ep as (_ & Hm & _).
    assert (stands <$> vips r1 !! n = stands <$> vips r !! n) as E by (by rewrite <- !lookup_fmap, Hm).
    destruct H as [x Hx]. rewrite Hx in E. by destruct (vips r1 !! n).
  - apply put_changes in Ep as (_ & _ & _ & e & -> & _).
    destruct (decide (m = n)) as [->|Hne]; [rewrite lookup_insert_eq; by eexists|by rewrite lookup_insert_ne].
Qed.

Lemma load_all_keeps envs l r n : is_Some (vips r !! n) -> is_Some (vips (load_all envs l r).1 !! n).
Proof.
  revert r. induction l as [|[m s] l IH]; intros r H; [done|]. cbn [load_all].
  pose proof (put_keeps_names (envs m) m s false r n H) as Hp.
  destruct (put (envs m) m s false r) as [r1 [e|b]]; [by apply IH|].
  destruct (load_all envs l r1) as [r2 k] eqn:El. change r2 with (r2, k).1. rewrite <- El. by apply IH.
Qed.

Lemma load_saved_spec cfg w r file disk : reaches any_env file disk r ->
  let '(r', _) := load_saved cfg w r in
  reaches any_env file disk r' /\ (is_Some (pool_of r CONFIG_VIP) -> is_Some (pool_of r' CONFIG_VIP)).
Proof.
  intros Hr. unfold load_saved. destruct (api cfg); [|done].
  pose proof (step_load any_env (w_envs w) (w_readable w) r (fun _ => I)) as Hs.
  destruct (load_state (w_envs w) (w_readable w) r) as [r' x] eqn:El. cbn [fst] in Hs.
  assert (reaches any_env file disk r') as Hr' by (by eapply reaches_step). split; [done|]. intros Hp.
  apply (reaches_pool _ _ _ _ _ Hr'). unfold pool_of in Hp.
  assert (is_Some (vips r !! CONFIG_VIP)) as Hv by (destruct (vips r !! CONFIG_VIP); [by eexists|by destruct Hp]).
  change r' with (r', x).1. rewrite <- El. unfold load_state.
  destruct (state_file r); [|done]. destruct (files r !! _); [|done]. destruct (negb _); [done|].
  destruct (from_json _) as [saved|]; [|done].
  pose proof (load_all_keeps (w_envs w) (btree saved) r CONFIG_VIP Hv) as H.
  by destruct (load_all (w_envs w) (btree saved) r).
Qed.

Definition something_to_do (cfg : Config) : Prop :=
  is_Some (Config.vip cfg) \/ is_Some (router cfg) \/ is_Some (api cfg).

Lemma main_configured path w cfg : Config.load (w_read w) (w_toml w) path = inr cfg -> something_to_do cfg ->
  main path w =
  (let r := Vips.new (a ← api cfg; Config.state_file a) (w_disk w) in
   let '(r, refused) := start_vip cfg (w_env w) r in
   match refused with
   | Some e => Exits (VipError e)
   | None =>
       match start_bgp cfg r with
       | inl e => Exits e
       | inr None => PanicsAtStart
       | inr (Some (sessions, disabled)) =>
           let '(r, loaded) := load_saved cfg w r in
           match open_fronts cfg w with
           | inl e => Exits e
           | inr (doors, api_at) =>
               Starts {| st_cfg := cfg; st_registry := r; st_metrics := m_listen <$> metrics cfg;
                         st_bgp := sessions; st_bgp_disabled := disabled; st_loaded := loaded;
                         st_router := doors; st_api := api_at |}
           end
       end
   end).
Proof.
  unfold something_to_do. intros Hl Hs. unfold main. rewrite Hl.
  destruct (Config.vip cfg), (router cfg), (api cfg); try done. by destruct Hs as [[]|[[]|[]]].
Qed.

Lemma start_bgp_spec cfg r : (is_Some (Config.vip cfg) -> is_Some (pool_of r CONFIG_VIP)) ->
  match start_bgp cfg r with
  | inl e => e = BgpNeedsIpv4 /\ bgp_enabled (bgp cfg) = true /\ exists v, Config.vip cfg = Some v
    /\ parse_ipv4 (v_address v) = None
  | inr None => False
  | inr (Some (sessions, _)) => forall p c, (p, c) ∈ sessions -> bgp_enabled (bgp cfg) = true
      /\ exists v, Config.vip cfg = Some v /\ parse_ipv4 (v_address v) = Some (Bgp.vip c)
  end.
Proof.
  intros Hp. unfold start_bgp. destruct (bgp_enabled (bgp cfg)); [|by intros p c ?%not_elem_of_nil].
  destruct (Config.vip cfg) as [v|]; [|by intros p c ?%not_elem_of_nil].
  destruct (parse_ipv4 (v_address v)) as [ip|] eqn:Ei; [|split_and!; [done|done|by exists v]].
  destruct (preflight (bgp cfg)) as [pe|hop]; [by intros p c ?%not_elem_of_nil|].
  destruct (Hp ltac:(by eexists)) as [pl ->]. intros p c Hin. split; [done|]. exists v. split; [done|].
  unfold Bgp.spawn in Hin. apply list_elem_of_omap in Hin as (peer & _ & E).
  destruct (parse_ipv4 (bp_address peer)); [|done]. injection E as <- <-. done.
Qed.

(** A plain listener returns only by an error of [accept]. *)
Lemma serve_on_ends redirect l : (serve_on redirect l).2 = true -> AcceptError ∈ l.
Proof.
  induction l as [|[|a] l IH]; cbn [serve_on]; [done|by left|].
  destruct (serve_on redirect l) as [ts e]. intros H. right. by apply IH.
Qed.

Lemma ends_alone s ps ss : ends s ps ss = true -> router_alone (st_cfg s) = true
  /\ exists first others, ps = first :: others /\ AcceptError ∈ first.
Proof.
  unfold ends. destruct (st_router s) as [[d|]|]; [|done..]. intros [Ha H]%andb_prop. split; [done|].
  unfold Front.serve in H. destruct ps as [|first others]; [done|]. rewrite fmap_cons in H.
  pose proof (serve_on_ends (to_https d) first) as He.
  destruct (serve_on (to_https d) first) as [ts e]. exists first, others. split; [done|]. by apply He.
Qed.

(** How the fronts open: what they serve, or the error of the one that cannot. *)
Definition fronts_open (cfg : Config) (w : World)
    (x : StartError + (option (option Doors) * option (SocketAddr * Z))) : Prop :=
  let doors rcfg := Front.run rcfg (w_probe w) (w_can_bind_plain w) (w_can_bind_tls w) in
  match x with
  | inl RouterError =>
      exists rcfg, router cfg = Some rcfg /\ Config.vip cfg = None /\ api cfg = None /\ doors rcfg = None
  | inl (ApiError e) => exists a, api cfg = Some a /\ Api.run (w_can_bind_api w) a = inl e
  | inl _ => False
  | inr (ds, api_at) =>
      ds = doors <$> router cfg
      /\ (Config.vip cfg = None -> api cfg = None -> ds <> Some None)
      /\ match api cfg with
         | Some a => exists at_, api_at = Some at_ /\ Api.run (w_can_bind_api w) a = inr at_
         | None => api_at = None
         end
  end.

Lemma open_fronts_spec cfg w : fronts_open cfg w (open_fronts cfg w).
Proof.
  unfold fronts_open, open_fronts, router_alone.
  destruct (router cfg) as [rcfg|] eqn:Er, (Config.vip cfg) as [v|] eqn:Ev, (api cfg) as [a|] eqn:Ea;
    cbn [fmap option_fmap option_map andb].
  all: try destruct (Front.run rcfg _ _ _) as [d|] eqn:Ed; try destruct (Api.run _ a) as [e|x] eqn:Erun; naive_solver.
Qed.

(** C27: How the process starts.  A start never panics.  It fails for six reasons
    only: the configuration cannot be read or parsed; there is nothing to do; the
    VIP of the file is refused; BGP is wanted for a VIP that is no IPv4 address; the
    API cannot be served (its address does not parse, is not loopback and has no
    token file, or cannot be bound); or a router that is all there is cannot bind
    its plain listener.  A port for metrics, BGP settings that do not pass, a state
    file that cannot be read and a router's listener beside a VIP or the API do not
    stop it.  What it serves is a registry reached by its operations, whatever the
    outside answered, with the VIP of the file in it; the API if it is configured;
    and BGP sessions only for the VIP of the file, with its address.  After that,
    only a router that is alone ends the process, when [accept] fails on its first
    listener. *)
Theorem start_outcomes path w :
  match main path w with
  | PanicsAtStart => False
  | Exits (ConfigError e) => Config.load (w_read w) (w_toml w) path = inl e
  | Exits NothingToDo => exists cfg, Config.load (w_read w) (w_toml w) path = inr cfg /\ ~ something_to_do cfg
  | Exits (VipError e) =>
      exists cfg spec, Config.load (w_read w) (w_toml w) path = inr cfg /\ config_spec cfg = Some spec
        /\ (start_config (w_env w) spec (Vips.new (a ← api cfg; Config.state_file a) (w_disk w))).2 = inl e
  | Exits BgpNeedsIpv4 =>
      exists cfg v, Config.load (w_read w) (w_toml w) path = inr cfg /\ bgp_enabled (bgp cfg) = true
        /\ Config.vip cfg = Some v /\ parse_ipv4 (v_address v) = None
  | Exits e =>
      exists cfg, Config.load (w_read w) (w_toml w) path = inr cfg /\ fronts_open cfg w (inl e)
  | Starts s =>
      Config.load (w_read w) (w_toml w) path = inr (st_cfg s) /\ something_to_do (st_cfg s)
      /\ reaches any_env (a ← api (st_cfg s); Config.state_file a) (w_disk w) (st_registry s)
      /\ (is_Some (Config.vip (st_cfg s)) -> is_Some (pool_of (st_registry s) CONFIG_VIP))
      /\ (forall p c, (p, c) ∈ st_bgp s -> bgp_enabled (bgp (st_cfg s)) = true
           /\ exists v, Config.vip (st_cfg s) = Some v /\ parse_ipv4 (v_address v) = Some (Bgp.vip c))
      /\ fronts_open (st_cfg s) w (inr (st_router s, st_api s))
      /\ forall ps ss, ends s ps ss = true -> router_alone (st_cfg s) = true
           /\ exists first others, ps = first :: others /\ AcceptError ∈ first
  end.
Proof.
  destruct (Config.load (w_read w) (w_toml w) path) as [e|cfg] eqn:El.
  { unfold main. by rewrite El. }
  destruct (decide (is_Some (Config.vip cfg) \/ is_Some (router cfg) \/ is_Some (api cfg))) as [Hs|Hs].
  2:{ unfold main. rewrite El. destruct (Config.vip cfg) eqn:E1, (router cfg) eqn:E2, (api cfg) eqn:E3;
        try (destruct Hs; by eauto). exists cfg. split; [done|]. unfold something_to_do. by rewrite E1, E2, E3. }
  rewrite (main_configured path w cfg El Hs). cbv zeta.
  set (file := a ← api cfg; Config.state_file a). set (r0 := Vips.new file (w_disk w)).
  assert (reaches any_env file (w_disk w) r0) as Hr0 by constructor.
  pose proof (start_vip_spec cfg (w_env w) r0 file (w_disk w) Hr0) as Hv.
  destruct (start_vip cfg (w_env w) r0) as [r1 refused] eqn:Esv. destruct Hv as [Hr1 Hp].
  destruct refused as [e|].
  { unfold start_vip in Esv. destruct (config_spec cfg) as [spec|] eqn:Ec; [|done]. exists cfg, spec.
    split_and!; [done|done|]. fold file r0. destruct (start_config (w_env w) spec r0) as [r' [e'|b]]; by simplify_eq. }
  specialize (Hp eq_refl). pose proof (start_bgp_spec cfg r1 Hp) as Hb.
  destruct (start_bgp cfg r1) as [e|[[sessions disabled]|]]; [|clear Esv|done].
  { destruct Hb as (-> & ? & v & ? & ?). by exists cfg, v. }
  pose proof (load_saved_spec cfg w r1 file (w_disk w) Hr1) as Hl.
  destruct (load_saved cfg w r1) as [r2 loaded]. destruct Hl as [Hr2 Hp2].
  pose proof (open_fronts_spec cfg w) as Hf. destruct (open_fronts cfg w) as [e|[doors api_at]].
  { destruct e; solve [done|by exists cfg]. }
  cbn [st_cfg st_registry st_bgp st_router st_api]. split_and!; [done|done|done|auto|done|done|].
  intros ps ss He. by apply ends_alone in He.
Qed.

(** ** The feed *)

Lemma last_cons_ne {A} (x : A) l d : l <> [] -> List.last (x :: l) d = List.last l d.
Proof. by destruct l. Qed.

Lemma health_feed_last counts b :
  List.last (health_feed b counts) b = match counts with [] => b | _ => bool_decide (0 < List.last counts 0)%nat end.
Proof.
  revert b. induction counts as [|n counts IH]; intros b; [done|]. cbn [health_feed].
  assert (forall h, match counts with [] => h | _ => bool_decide (0 < List.last counts 0)%nat end
    = match counts with [] => h | _ => bool_decide (0 < List.last (n :: counts) 0)%nat end) as E by (by
      destruct counts).
  destruct (Bool.eqb_spec (bool_decide (0 < n)%nat) b) as [<-|Hne].
  - rewrite IH. by destruct counts.
  - destruct (health_feed (bool_decide (0 < n)%nat) counts) as [|h l] eqn:Ef.
    + specialize (IH (bool_decide (0 < n)%nat)). rewrite Ef in IH. cbn [List.last] in IH |- *. rewrite IH.
      by destruct counts.
    + rewrite last_cons_ne by done. specialize (IH (bool_decide (0 < n)%nat)). rewrite Ef in IH.
      transitivity (List.last (h :: l) (bool_decide (0 < n)%nat)); [|rewrite IH; by destruct counts].
      clear. revert h. induction l as [|x l IH]; intros h; [done|]. rewrite !(last_cons_ne h) by done. apply IH.
Qed.

(** Consecutive values differ. *)
Fixpoint changes (b : bool) (l : list bool) : Prop :=
  match l with [] => True | x :: l => x <> b /\ changes x l end.

(** What BGP hears of the backends.  The sessions' health is that of the last
    sample (false before any), and the feed tells them of changes only: it starts
    with the first healthy sample and alternates, so no session announces or
    withdraws twice for one change. *)
Theorem feed_follows_health counts :
  current_health counts = match counts with [] => false | _ => bool_decide (0 < List.last counts 0)%nat end
  /\ changes false (health_feed false counts).
Proof.
  split; [apply health_feed_last|]. generalize false.
  induction counts as [|n counts IH]; intros b; [done|]. cbn [health_feed].
  destruct (Bool.eqb_spec (bool_decide (0 < n)%nat) b) as [E|E]; [apply IH|]. split; [done|apply IH].
Qed.

End Start.

#[local] Existing Instance Health.demo_reqwest.
#[local] Existing Instance Vips.demo_json.

Lemma start_outcomes_witness :
  let cfg := {| Config.vip := Some {| v_address := lit "10.0.0.9"; v_port := 6443; v_bind := lit "127.0.0.1" |};
                Config.backends := [{| be_address := lit "10.0.0.2"; be_port := 6443 |}]; health := HealthSpec_default;
                vrrp := VrrpCfg_default;
                bgp := BgpCfg_of (Some true) (Some 65001) (Some (lit "10.0.0.1"))
                         (Some [BgpPeer_of (lit "10.0.0.254") 65000 None]);
                router := Some (RouterCfg_of (Some (lit "127.0.0.1:80")) None None None None None None None);
                api := Some {| Config.listen := lit "127.0.0.1:7000"; Config.token_file := None;
                               Config.state_file := None |};
                metrics := None |} in
  let w := {| w_read := fun _ => Some []; w_toml := fun _ => Some cfg; w_env := good_env; w_envs := fun _ => good_env;
              w_readable := true; w_disk := ∅; w_can_bind_api := fun _ => true; w_probe := None;
              w_can_bind_plain := fun _ => false; w_can_bind_tls := fun _ => false |} in
  exists s, main (lit "stormlb.toml") w = Starts s /\ length (st_bgp s) = 1%nat
    /\ is_Some (pool_of (st_registry s) CONFIG_VIP) /\ st_router s = Some None /\ is_Some (st_api s).
Proof.
  intros cfg w. pose proof (start_outcomes (lit "stormlb.toml") w) as H.
  destruct (main (lit "stormlb.toml") w) as [e| |s] eqn:E; [vm_compute in E; discriminate|done|].
  exists s. split; [reflexivity|]. destruct H as (_ & _ & _ & Hp & _ & Hf & _).
  assert (st_cfg s = cfg /\ length (st_bgp s) = 1%nat /\ st_router s = Some None) as (Ec & E1 & E2)
    by (vm_compute in E; injection E as <-; split_and!; reflexivity).
  rewrite Ec in Hp, Hf. split_and!; [exact E1|apply Hp; by eexists|exact E2|].
  destruct Hf as (_ & _ & at_ & -> & _). by eexists.
Defined.
