(* ===== verification/UnitTests.v ===== *)
(** * The program's own unit tests, on the model

    Each [#[test]] of the sources whose subject is modelled, translated line by
    line: a module per source file, a definition per test with the test's name,
    its value the conjunction of the assertions.  What a test takes from outside
    (a listening port, a temporary file, the running process) is an argument of
    the model given here.  The text of the TOML fixtures is left out (their tables
    are here), and so is the one test that asks the running kernel for its
    loopback interface. *)

From S2P Require Import Prelude Str Float Metrics Net.
From S2P Require Vrrp Pool Bgp Netlink Controller Config Health Router Routes Http Front MetricsPage.

Definition asserts (l : list bool) : bool := forallb id l.

(** [a == b]. *)
Definition eq {A} `{EqDecision A} (a b : A) : bool := bool_decide (a = b).

(** [str::contains]. *)
Fixpoint contains (s pat : str) : bool :=
  starts_with pat s || match s with [] => false | _ :: s => contains s pat end.

(** The byte string of a literal with [\r\n] written [|]. *)
Definition http (s : string) : list Z := mjoin ((fun c => if c =? 124 then Http.crlf else [c]) <$> lit s).

Definition ok {A B} (r : A + B) : bool := match r with inr _ => true | inl _ => false end.
Definition some {A} (o : option A) : bool := match o with Some _ => true | None => false end.

#[local] Instance OnAdvert_eq_dec : EqDecision Vrrp.OnAdvert.
Proof. solve_decision. Defined.
#[local] Instance Advert_eq_dec : EqDecision Vrrp.Advert.
Proof. solve_decision. Defined.
#[local] Instance Link_eq_dec : EqDecision Netlink.Link.
Proof. solve_decision. Defined.

(** ** [vrrp.rs] *)

Module VrrpTests.
Import Vrrp.

Definition A : Ipv4Addr := Ipv4 192 168 8 10.
Definition B : Ipv4Addr := Ipv4 192 168 8 20.

(** The first component is the router, the second whether the helper's own
    assertion holds. *)
Definition master (prio : Z) (preempt : bool) : VirtualRouter * bool :=
  on_master_down_timeout true (start true (new 51 prio preempt 1)).1.

Definition address_owner_starts_master_only_when_healthy : bool := asserts [
  eq (start true (new 51 255 true 1)).2 Master;
  eq (start false (new 51 255 true 1)).2 Backup;
  eq (start true (new 51 100 true 1)).2 Backup].

Definition backup_takes_over_on_timeout_only_when_healthy : bool :=
  let vr := (start true (new 51 100 true 1)).1 in
  let '(vr1, t1) := on_master_down_timeout false vr in
  let '(vr2, t2) := on_master_down_timeout true vr1 in
  let '(_, t3) := on_master_down_timeout true vr2 in
  asserts [negb t1; eq (state vr1) Backup; t2; eq (state vr2) Master; negb t3].

Definition demoted (r : OnAdvert) : bool := match r with Demoted _ => true | _ => false end.
Definition reset_timer (r : OnAdvert) : bool := match r with ResetTimer _ => true | _ => false end.

Definition a_backup_preempts_a_lower_priority_master : bool :=
  let vr := (start true (new 51 200 true 1)).1 in
  let '(vr, r1) := on_advertisement 100 A B 100 vr in
  let '(vr, r2) := on_advertisement 200 A B 100 vr in
  let d2 := master_down_interval_centis vr in
  let '(vr, r3) := on_advertisement 250 A B 100 vr in
  let d3 := master_down_interval_centis vr in
  let '(_, t) := on_master_down_timeout true vr in
  let '(old, made) := master 100 true in
  let '(old, r4) := on_advertisement 200 B A 100 old in
  asserts [eq r1 Ignore; eq r2 (ResetTimer d2); eq r3 (ResetTimer d3); t; made; demoted r4; eq (state old) Backup].

Definition without_preempt_a_backup_waits_for_any_master : bool :=
  let vr := (start true (new 51 200 false 1)).1 in
  asserts [reset_timer (on_advertisement 100 A B 100 vr).2].

Definition a_backup_learns_the_masters_interval : bool :=
  let vr := (start true (new 51 100 true 1)).1 in
  let '(vr, r) := on_advertisement 200 A B 300 vr in
  let '(vr2, t) := on_master_down_timeout true vr in
  asserts [eq r (ResetTimer 1082); eq (master_adver_interval_centis vr) 300; t;
           eq (master_adver_interval_centis vr2) 100].

Definition priority_zero_cuts_a_backups_wait_to_skew_time : bool :=
  let vr := (start true (new 51 100 true 1)).1 in
  let '(m, made) := master 100 true in
  let '(m, r) := on_advertisement 0 A B 100 m in
  asserts [eq (on_advertisement 0 A B 100 vr).2 (ResetTimer 60); made; eq r AdvertiseNow; eq (state m) Master].

Definition a_master_with_no_healthy_backend_resigns : bool :=
  let '(m, made) := master 200 true in
  let '(m, h1) := on_health true m in
  let '(m1, h2) := on_health false m in
  let '(m2, h3) := on_health false m1 in
  asserts [made; negb h1; h2; eq (state m1) Backup; negb h3; (on_master_down_timeout true m2).2].

Definition a_master_yields_to_higher_priority_and_ties_on_address : bool :=
  let '(m, made) := master 100 true in
  let '(m1, r1) := on_advertisement 50 B A 100 m in
  let '(_, r2) := on_advertisement 100 B A 100 m1 in
  let '(_, r3) := on_advertisement 100 A B 100 m in
  asserts [made; eq r1 Ignore; eq (state m1) Master; demoted r2; eq r3 Ignore].

Definition master_down_interval_matches_rfc : bool :=
  eq (master_down_interval_centis (new 51 100 true 1)) 360.

Definition datagram (vrrp : list Z) (src : Ipv4Addr) (ttl : Z) : list Z :=
  [0x45] ++ replicate 7 0 ++ [ttl] ++ replicate 3 0 ++ octets src ++ replicate 4 0 ++ vrrp.

(** [None]: parsed, and dropped. *)
Definition is_none (r : option (option Advert)) : bool := match r with Some None => true | _ => false end.

Definition parses_advertisement_from_raw_datagram : bool :=
  let src := Ipv4 192 168 8 11 in
  let vrrp := encode_advertisement 51 200 100 [Ipv4 192 168 8 50] src in
  let dg := datagram vrrp src 255 in
  asserts [
    eq (parse_advertisement dg 51)
       (Some (Some {| adv_priority := 200; adv_src := src; adv_interval_centis := 100 |}));
    is_none (parse_advertisement dg 99);
    is_none (parse_advertisement (take 10 dg) 51);
    is_none (parse_advertisement (datagram vrrp src 254) 51);
    is_none (parse_advertisement (datagram vrrp (Ipv4 192 168 8 12) 255) 51)].

Definition advertisement_encodes_with_a_pseudo_header_checksum : bool :=
  let src := Ipv4 192 168 8 11 in
  let pkt := encode_advertisement 51 200 100 [Ipv4 192 168 8 50] src in
  asserts [
    eq (pkt !! 0%nat) (Some 0x31); eq (pkt !! 1%nat) (Some 51); eq (pkt !! 2%nat) (Some 200);
    eq (pkt !! 3%nat) (Some 1);
    eq (x ← pkt !! 4%nat; y ← pkt !! 5%nat; Some (of_be16 x y)) (Some 100);
    eq (slice pkt 8 12) (Some [192; 168; 8; 50]);
    eq (ones_complement_checksum (with_pseudo_header pkt src)) 0;
    negb (eq (ones_complement_checksum pkt) 0)].

Definition all : bool := asserts [
  address_owner_starts_master_only_when_healthy; backup_takes_over_on_timeout_only_when_healthy;
  a_backup_preempts_a_lower_priority_master; without_preempt_a_backup_waits_for_any_master;
  a_backup_learns_the_masters_interval; priority_zero_cuts_a_backups_wait_to_skew_time;
  a_master_with_no_healthy_backend_resigns; a_master_yields_to_higher_priority_and_ties_on_address;
  master_down_interval_matches_rfc; parses_advertisement_from_raw_datagram;
  advertisement_encodes_with_a_pseudo_header_checksum].
End VrrpTests.

(** ** [pool.rs] *)

Module PoolTests.
Import Pool.

Definition addr (p : Z) : SocketAddr := SockAddr (V4 (Ipv4 127 0 0 1)) p.

Definition port_at (h : Heap) (l : option loc) : option Z := l ← l; b ← h !! l; Some (sa_port (Pool.addr b)).

Definition empty_pool_picks_nothing : bool :=
  let '(p, h) := Pool_new [] [] in asserts [negb (some (pick p h).1)].

Definition skips_unhealthy_and_round_robins_healthy : bool :=
  let '(p, h0) := Pool_new [addr 1; addr 2; addr 3] [] in
  let '(r, p) := pick p h0 in
  let b := backends p in
  let h := set_healthy (nth 2 b 0%nat) true (set_healthy (nth 0 b 0%nat) true h0) in
  let seen := port_at h <$> picks 10 p h in
  asserts [
    negb (some r); forallb (fun p => eq p (Some 1) || eq p (Some 3)) seen;
    existsb (eq (Some 1)) seen; existsb (eq (Some 3)) seen; eq (healthy_count p h) 2%nat].

Definition all_unhealthy_returns_none : bool :=
  let '(p, h) := Pool_new [addr 1; addr 2] [] in
  let first := nth 0 (backends p) 0%nat in
  let h := set_healthy first true h in
  let '(r1, p) := pick p h in
  let h := set_healthy first false h in
  asserts [some r1; negb (some (pick p h).1)].

Definition replacing_members_keeps_the_health_of_those_that_stay : bool :=
  let '(p, h) := Pool_new [addr 1; addr 2] [] in
  let h := foldl (fun h l => set_healthy l true h) h (backends p) in
  let '(p, h) := set_addrs [addr 3; addr 1; addr 3] p h in
  let b := backends p in
  let '(r, p1) := pick p h in
  let '(p2, h2) := set_addrs [] p1 h in
  asserts [
    eq (member_addrs p h) [Some (addr 3); Some (addr 1)];
    negb (is_healthy h (nth 0 b 9%nat)); is_healthy h (nth 1 b 9%nat);
    eq (port_at h r) (Some 1); negb (some (pick p2 h2).1)].

Definition all : bool := asserts [
  empty_pool_picks_nothing; skips_unhealthy_and_round_robins_healthy; all_unhealthy_returns_none;
  replacing_members_keeps_the_health_of_those_that_stay].
End PoolTests.

(** ** [bgp.rs] *)

Module BgpTests.
Import Bgp.

Definition header_framing_is_correct : bool :=
  let m := keepalive_msg in
  asserts [
    eq (length m) 19%nat; eq (slice m 0 16) (Some (replicate 16 0xff));
    eq (x ← m !! 16%nat; y ← m !! 17%nat; Some (of_be16 x y)) (Some 19); eq (m !! 18%nat) (Some KEEPALIVE)].

Definition open_has_version_asn_hold_id : bool :=
  let m := open_msg 64512 180 (Ipv4 192 168 8 51) in
  let body := drop 19 m in
  asserts [
    eq (m !! 18%nat) (Some OPEN); eq (body !! 0%nat) (Some 4);
    eq (x ← body !! 1%nat; y ← body !! 2%nat; Some (of_be16 x y)) (Some 64512);
    eq (x ← body !! 3%nat; y ← body !! 4%nat; Some (of_be16 x y)) (Some 180);
    eq (slice body 5 9) (Some [192; 168; 8; 51]); eq (body !! 9%nat) (Some 0)].

Definition announce_carries_attrs_and_nlri : bool :=
  match update_announce 64512 (Ipv4 192 168 8 51) (Ipv4 192 168 8 50) 32 with
  | None => false
  | Some m =>
      let body := drop 19 m in
      match (x ← body !! 2%nat; y ← body !! 3%nat; Some (Z.to_nat (of_be16 x y))) with
      | None => false
      | Some attr_len =>
          asserts [
            eq (m !! 18%nat) (Some UPDATE);
            eq (x ← body !! 0%nat; y ← body !! 1%nat; Some (of_be16 x y)) (Some 0);
            eq (slice_from body (4 + attr_len)) (Some [32; 192; 168; 8; 50]);
            match slice body 4 (4 + attr_len) with Some a => contains a [192; 168; 8; 51] | None => false end]
      end
  end.

Definition withdraw_lists_the_prefix : bool :=
  match update_withdraw (Ipv4 192 168 8 50) 32 with
  | None => false
  | Some m =>
      let body := drop 19 m in
      match (x ← body !! 0%nat; y ← body !! 1%nat; Some (Z.to_nat (of_be16 x y))) with
      | None => false
      | Some wlen =>
          asserts [
            eq (slice body 2 (2 + wlen)) (Some [32; 192; 168; 8; 50]);
            eq (x ← body !! (2 + wlen)%nat; y ← body !! (3 + wlen)%nat; Some (of_be16 x y)) (Some 0)]
      end
  end.

Definition open_ (ver asn hold : Z) : list Z := <[0%nat := ver]> (drop 19 (open_msg asn hold (Ipv4 10 0 0 1))).

Definition refused_with (sub : Z) (r : option (Z * Z + Z)) : bool :=
  match r with Some (inl (_, s)) => s =? sub | _ => false end.

Definition the_peers_open_is_checked : bool := asserts [
  eq (check_open (open_ 4 64512 90) 64512) (Some (inr 90));
  eq (check_open (open_ 4 64512 0) 64512) (Some (inr 0));
  refused_with ERR_OPEN_VERSION (check_open (open_ 3 64512 90) 64512);
  refused_with ERR_OPEN_PEER_AS (check_open (open_ 4 64513 90) 64512);
  refused_with ERR_OPEN_HOLD (check_open (open_ 4 64512 2) 64512);
  match check_open [4; 0] 64512 with Some (inl _) => true | _ => false end;
  eq (slice_from (notification_msg 4 0) 18) (Some [NOTIFICATION; 4; 0])].

Definition encode_prefix_uses_significant_bytes : bool := asserts [
  eq (encode_prefix (Ipv4 10 1 2 3) 32) (Some [32; 10; 1; 2; 3]);
  eq (encode_prefix (Ipv4 10 1 0 0) 16) (Some [16; 10; 1]);
  eq (encode_prefix (Ipv4 10 0 0 0) 8) (Some [8; 10])].

Definition all : bool := asserts [
  header_framing_is_correct; open_has_version_asn_hold_id; announce_carries_attrs_and_nlri;
  withdraw_lists_the_prefix; the_peers_open_is_checked; encode_prefix_uses_significant_bytes].
End BgpTests.

(** ** [vip.rs], for either byte order of the machine *)

Module VipTests.
Import Netlink.

Definition mock_records_claim_and_release : bool :=
  let '(m, ok1) := Controller.mock_claim (lit "192.168.8.50") (lit "eth0") [] in
  let '(ev, ok2) := Controller.mock_release (lit "192.168.8.50") (lit "eth0") m in
  asserts [ok1; ok2; eq ev [lit "claim 192.168.8.50 eth0"; lit "release 192.168.8.50 eth0"]].

Definition an_address_request_is_a_32_with_local_and_address (little : bool) : bool :=
  let p := addr_payload little 7 (Ipv4 192 168 8 50) in
  let a := b ← slice_from p 8; attrs little b in
  let m := nl_msg little RTM_NEWADDR (Z.lor (Z.lor NLM_F_CREATE NLM_F_EXCL) NLM_F_ACK) 1 p in
  asserts [
    eq (slice p 0 4) (Some [AF_INET; 32; 0; 0]); eq (u32_at little p 4) (Some 7);
    eq a (Some [(IFA_LOCAL, [192; 168; 8; 50]); (IFA_ADDRESS, [192; 168; 8; 50])]);
    eq (u32_at little m 0) (Some (Z.of_nat (16 + length p))); eq (u16_at little m 4) (Some RTM_NEWADDR);
    eq (u16_at little m 6)
       (Some (Z.lor (Z.lor (Z.lor NLM_F_REQUEST NLM_F_CREATE) NLM_F_EXCL) NLM_F_ACK));
    eq (length m mod 4)%nat 0%nat].

(** An attribute as the test writes it. *)
Definition put_attr (little : bool) (l : list Z) (td : Z * list Z) : list Z :=
  let l := l ++ ne little (be16 (Z.of_nat (4 + length td.2))) ++ ne little (be16 td.1) ++ td.2 in
  resize (Z.to_nat (align (Z.of_nat (length l)))) 0 l.

Definition links_and_addresses_parse_from_messages (little : bool) : bool :=
  let l := foldl (put_attr little) (replicate 4 0 ++ ne little (be32 3) ++ replicate 8 0)
             [(IFLA_IFNAME, lit "eth0" ++ [0]); (IFLA_ADDRESS, [2; 0; 0; 0; 0; 9])] in
  let msgs := [(RTM_NEWLINK, l)] in
  let addr idx ip len := (RTM_NEWADDR, <[1%nat := len]> (addr_payload little idx ip)) in
  let msgs2 := [addr 3 (Ipv4 10 0 0 50) 32; addr 4 (Ipv4 10 1 0 1) 24; addr 3 (Ipv4 10 0 0 5) 24] in
  asserts [
    eq (parse_links little msgs (lit "eth0")) (Some (Some {| index := 3; mac := [2; 0; 0; 0; 0; 9] |}));
    eq (parse_links little msgs (lit "eth")) (Some None);
    eq (parse_addrs little msgs2 3) (Some [(Ipv4 10 0 0 50, 32); (Ipv4 10 0 0 5, 24)])].

Definition the_gratuitous_arp_is_a_reply_from_and_to_the_vip : bool :=
  let f := garp_frame [2; 0; 0; 0; 0; 9] (Ipv4 192 168 8 50) in
  asserts [
    eq (slice f 0 8) (Some [0; 1; 8; 0; 6; 4; 0; 2]); eq (slice f 8 14) (Some [2; 0; 0; 0; 0; 9]);
    eq (slice f 14 18) (Some [192; 168; 8; 50]); eq (slice f 24 28) (Some [192; 168; 8; 50])].

Definition all (little : bool) : bool := asserts [
  mock_records_claim_and_release; an_address_request_is_a_32_with_local_and_address little;
  links_and_addresses_parse_from_messages little; the_gratuitous_arp_is_a_reply_from_and_to_the_vip].
End VipTests.

(** ** [router.rs] *)

Module RouterTests.
Import Router Routes.
#[local] Existing Instance tree_json.

Definition the_host_header_is_found_case_insensitively_and_port_stripped : bool :=
  eq (host_of (http "GET / HTTP/1.1|User-Agent: x|HOST: Console.Storm1.G8.lo:80||"))
     (Some (lit "console.storm1.g8.lo")).

Definition a_missing_host_is_none_not_a_panic : bool :=
  eq (host_of (http "GET / HTTP/1.1|Accept: */*||")) None.

Definition the_healthz_path_is_read_from_the_request_line : bool := asserts [
  eq (request_path (http "GET /healthz HTTP/1.1|Host: x||")) (Some (lit "/healthz"));
  eq (request_path (http "GET /healthz?v=1 HTTP/1.1||")) (Some (lit "/healthz"))].

(** [Front::plain] with an empty table; the connection's one write arrives whole. *)
Definition healthz_on_an_unclaimed_host_is_crlf_on_the_wire : bool :=
  let d := {| connects _ := false; ca_loaded := false; valid_name_ _ := false; handshake := false |} in
  match serve_conn ∅ None false d [Api.Chunk (http "GET /healthz HTTP/1.1|Host: 127.0.0.1||")] with
  | (Answered got, _) =>
      eq got (http "HTTP/1.1 200 OK|content-type: text/plain|content-length: 13|connection: close||router alive"
                ++ [10])
  | _ => false
  end.

Definition the_request_target_keeps_the_query : bool := asserts [
  eq (request_target (http "GET /a/b?c=1 HTTP/1.1||")) (Some (lit "/a/b?c=1"));
  eq (request_target (http "CONNECT x:443 HTTP/1.1||")) None].

Definition tls_requests_say_https_and_a_clients_claim_is_dropped : bool :=
  let head := http "GET / HTTP/1.1|Host: a|x-forwarded-proto: http|Accept: */*||BODY" in
  eq (e ← find_head_end head; forwarded_https head e)
     (Some (http "GET / HTTP/1.1|X-Forwarded-Proto: https|Host: a|Accept: */*||BODY")).

Definition the_status_code_is_read_from_a_status_line : bool := asserts [
  eq (status_code (http "HTTP/1.1 200 OK|")) (Some (lit "200"));
  eq (status_code (http "HTTP/1.0 404 Not Found")) (Some (lit "404"));
  eq (status_code (http "HTTP/1.1 101 Switching")) (Some (lit "101"));
  eq (status_code (http "SSH-2.0-OpenSSH")) None;
  eq (status_code (http "HTTP/1.1 2")) None].

(** A route with these annotations, and its backend. *)
Definition annotated (a : list (string * Tree)) : Tree := obj [("metadata", obj [("annotations", obj a)])]%string.

Definition tls_of (a : list (string * Tree)) (addr : string) : option (option str) :=
  match with_protocol (annotated a) (lit addr) with inr b => Some (b_tls b) | inl _ => None end.

Definition the_backend_protocol_and_name_come_from_annotations : bool :=
  let protocol (p : string) := [("storm.io/backend-protocol"%string, text p)] in
  let named := protocol "https"%string ++ [("storm.io/backend-server-name"%string, text "cadvisor.node")] in
  asserts [
    eq (tls_of [] "10.0.0.1:80") (Some None);
    eq (tls_of (protocol "HTTP"%string) "10.0.0.1:80") (Some None);
    eq (tls_of (protocol "https"%string) "127.0.0.1:9096") (Some (Some (lit "127.0.0.1")));
    eq (tls_of (protocol "https"%string) "[::1]:9096") (Some (Some (lit "::1")));
    eq (tls_of named "127.0.0.1:9096") (Some (Some (lit "cadvisor.node")));
    eq (tls_of (protocol "h2c"%string) "1.2.3.4:5") None].

Definition the_head_end_is_the_blank_line : bool := asserts [
  eq (find_head_end (http "GET / HTTP/1.1||body")) (Some 18%nat);
  eq (find_head_end (http "GET / HTTP/1.1|")) None].

Definition all : bool := asserts [
  the_host_header_is_found_case_insensitively_and_port_stripped; a_missing_host_is_none_not_a_panic;
  the_healthz_path_is_read_from_the_request_line; healthz_on_an_unclaimed_host_is_crlf_on_the_wire;
  the_request_target_keeps_the_query; tls_requests_say_https_and_a_clients_claim_is_dropped;
  the_status_code_is_read_from_a_status_line; the_backend_protocol_and_name_come_from_annotations;
  the_head_end_is_the_blank_line].
End RouterTests.

(** ** [config.rs]: the tables the fixtures declare, their text aside *)

Module ConfigTests.
Import Config.

(** Every table absent. *)
Definition empty : Config :=
  {| vip := None; backends := []; health := HealthSpec_default; vrrp := VrrpCfg_default;
     bgp := BgpCfg_of None None None None; router := None; api := None; metrics := None |}.

Definition parses_a_full_config : bool :=
  let cfg :=
    {| vip := Some {| v_address := lit "192.168.8.50"; v_port := 6443; v_bind := default default_bind None |};
       backends := [{| be_address := lit "192.168.8.98"; be_port := 6443 |};
                    {| be_address := lit "192.168.8.99"; be_port := 6443 |}];
       health := HealthSpec_of (Some Https) (Some (lit "/readyz")) (Some 1) None (Some [200]) None;
       vrrp := VrrpCfg_of (Some true) (Some (lit "eth0")) (Some 51) (Some 200) None None;
       bgp := bgp empty; router := None; api := None; metrics := None |} in
  match vip cfg with
  | None => false
  | Some v => asserts [
      eq (v_port v) 6443; eq (v_bind v) (lit "0.0.0.0"); eq (length (backends cfg)) 2%nat;
      eq (b ← backends cfg !! 1%nat; a ← socket_addr b; Some (sa_port a)) (Some 6443);
      eq (mode (health cfg)) Https; vc_enabled (vrrp cfg); eq (vc_priority (vrrp cfg)) 200;
      vc_preempt (vrrp cfg); negb (bgp_enabled (bgp cfg))]
  end.

Definition api_defaults_to_loopback_with_no_token_or_state : bool :=
  let cfg :=
    {| vip := None; backends := []; health := health empty; vrrp := vrrp empty; bgp := bgp empty; router := None;
       api := Some {| listen := default default_api_listen None; token_file := None; state_file := None |};
       metrics := None |} in
  match api cfg with
  | None => false
  | Some a => asserts [
      eq (listen a) (lit "127.0.0.1:9103"); negb (some (token_file a)) && negb (some (state_file a));
      negb (some (vip cfg)) && negb (some (router cfg))]
  end.

Definition health_takes_a_ca_file : bool :=
  eq (ca_file (HealthSpec_of (Some Https) None None None None (Some (lit "/data/stormcert/ca.crt"))))
     (Some (lit "/data/stormcert/ca.crt")).

Definition health_defaults_to_tcp : bool := asserts [
  eq (mode (health empty)) Tcp; eq (interval_secs (health empty)) 2].

Definition all : bool := asserts [
  parses_a_full_config; api_defaults_to_loopback_with_no_token_or_state; health_takes_a_ca_file;
  health_defaults_to_tcp].
End ConfigTests.

(** ** [health.rs], over any HTTP library *)

Module HealthTests.
Import Config Health.

Section Tests.
  Context `{R : Reqwest}.

(** One address listens, no other does. *)
Definition tcp_check_up_and_down (listening unused : SocketAddr) : bool :=
  let spec := HealthSpec_of (Some Tcp) None None (Some 1) None None in
  let net := {| read_file _ := None; tcp_connects _ a := bool_decide (a = listening); get _ _ := None |} in
  asserts [check net listening spec None; negb (check net unused spec None)].

(** [files] has the file that holds no certificate, and not the other two. *)
Definition a_missing_or_empty_ca_file_is_refused (files : str -> option (list Z)) (empty : str) : bool :=
  let spec f := HealthSpec_of (Some Https) None None None None (Some f) in
  asserts [
    match Checker_new files (spec (lit "/nonexistent/ca.crt")) with inl CaUnreadable => true | _ => false end;
    negb (ok (Checker_new files (spec empty)));
    ok (Checker_new files (HealthSpec_of None None None None None (Some (lit "/nonexistent"))))].

Lemma health_tests_hold listening unused files empty pem :
  unused <> listening -> files (lit "/nonexistent/ca.crt") = None -> files empty = Some pem ->
  from_pem_bundle pem = None \/ from_pem_bundle pem = Some [] ->
  tcp_check_up_and_down listening unused = true /\ a_missing_or_empty_ca_file_is_refused files empty = true.
Proof.
  intros Hne Hm He Hp. split.
  - unfold tcp_check_up_and_down, asserts, check. cbn.
    by rewrite bool_decide_true, bool_decide_false.
  - unfold a_missing_or_empty_ca_file_is_refused, asserts, Checker_new, client. cbn [forallb id].
    cbn -[lit]. rewrite Hm, He. by destruct Hp as [-> | ->].
Qed.

End Tests.
End HealthTests.

(** ** [metrics.rs], the recorded series *)

Module MetricsTests.
Import Metrics MetricsPage.

Definition q (s : string) : str := (fun c => if c =? 39 then 34 else c) <$> lit s.

(** A process the kernel tells of. *)
Definition proc : Proc :=
  {| page := 4096; tick := 100; statm := Some (lit "9000 3100 1200 1 0 900 0"); fds := Some 12; nofile := Some 1024;
     stat := Some (lit "7 (stormlb) S 1 7 7 0 -1 4194560 900 0 0 0 131 42 0 0 20 0 9 0 5123 36864000 3100");
     proc_stat := Some (lit "cpu 1 2 3" ++ [10] ++ lit "btime 1760000000" ++ [10]) |}.

(** The value of the sample line that starts with [n] and a space. *)
Definition value_of (page : str) (n : string) : option spec_float :=
  head (omap (fun l => r ← strip_prefix (lit n) l; v ← strip_prefix [32] r; parse_f64 v) (split_on 10 page)).

(** [v(a) > b] and [v(a) >= b]; an absent value fails the test. *)
Definition above (v : option spec_float) (b : Z) : bool :=
  match v with Some v => SFltb (f64_of_Z b) v | None => false end.
Definition at_least (v b : option spec_float) : bool :=
  match v, b with Some v, Some b => SFleb b v | _, _ => false end.

Definition the_exposition_has_help_type_and_escaped_labels (p : Proc) : bool :=
  let l (ps : list (string * str)) := (fun p => (lit p.1, p.2)) <$> ps in
  let requests := lit "stormlb_router_requests_total" in
  let a_test code := l [("host", lit "a.test"); ("code", lit code)]%string in
  let m := inc requests (a_test "200"%string) (inc requests (a_test "200"%string) Metrics_default) in
  let m := inc requests (l [("host", q "we'ird\"); ("code", lit "404")]%string) m in
  let m := observe (lit "stormlb_router_request_duration_seconds") (l [("host", lit "a.test")]%string) 30000000 m in
  let '(g, guard) := active (lit "stormlb_router_connections_active") (l [("listener", lit "http")]%string)
                       Metrics_default in
  let version := {| x_name := "stormlb_build_info"; x_labels := labels_text (l [("version", lit "9.9.9")]%string);
                    x_value := f64_of_Z 1 |} in
  let t := render [version] m in
  let has s := contains t (q s ++ [10]) in
  let p := render (process_series p) m in
  let v := value_of p in
  asserts [
    contains (render [] g) (q "stormlb_router_connections_active{listener='http'} 1" ++ [10]);
    contains (render [] (guard_drop guard g)) (q "stormlb_router_connections_active{listener='http'} 0" ++ [10]);
    has "# TYPE stormlb_router_requests_total counter"%string;
    has "stormlb_router_requests_total{host='a.test',code='200'} 2"%string;
    has "stormlb_router_requests_total{host='we\'ird\\',code='404'} 1"%string;
    has "stormlb_build_info{version='9.9.9'} 1"%string;
    has "stormlb_router_request_duration_seconds_bucket{host='a.test',le='0.025'} 0"%string;
    has "stormlb_router_request_duration_seconds_bucket{host='a.test',le='0.05'} 1"%string;
    has "stormlb_router_request_duration_seconds_bucket{host='a.test',le='+Inf'} 1"%string;
    has "stormlb_router_request_duration_seconds_count{host='a.test'} 1"%string;
    above (v "process_resident_memory_bytes"%string) 100000;
    at_least (v "process_open_fds"%string) (Some (f64_of_Z 3));
    at_least (v "process_max_fds"%string) (v "process_open_fds"%string);
    at_least (v "process_cpu_seconds_total"%string) (Some (f64_of_Z 0));
    above (v "process_start_time_seconds"%string) 1700000000;
    contains p (lit "# TYPE process_cpu_seconds_total counter" ++ [10]);
    negb (contains t (lit "stormlb_vip_connections_total"));
    forallb (fun line =>
      match line with
      | [] => true                                  (* what follows the last line's end *)
      | 35 :: _ => true
      | _ => match rsplit_once 32 line with
             | Some (series, value) => some (parse_f64 value) && starts_with (lit "stormlb_") series
             | None => false
             end
      end) (split_on 10 t)].

End MetricsTests.

(** Every test of the modelled files passes on the model. *)
Theorem unit_tests_pass :
  VrrpTests.all && PoolTests.all && BgpTests.all && VipTests.all true && VipTests.all false && RouterTests.all
  && ConfigTests.all && MetricsTests.the_exposition_has_help_type_and_escaped_labels MetricsTests.proc = true.
Proof. vm_compute. reflexivity. Qed.
