(* ===== verification/IntegrationTests.v ===== *)
(** * The program's integration tests, on the model

    The tests of [src/tests] whose subject is one process's logic, translated step by
    step: a module per file, a definition per test with the test's name, its value the
    conjunction of the assertions.  Sockets become what they carry: a fake peer is the
    bytes it writes, a client of the API a request's bytes and the answer, a backend an
    address that accepts.  Where a test waits for the health loop, the loop takes a
    turn.  The proxied bytes and the texts of JSON are left out.  The router's are in
    [RouterTests]. *)

From S2P Require Import Prelude Str Net UnitTests.
From S2P Require Pool Balancer Bgp Config Health Vips Api.

(** ** [tests/balancer.rs] *)

Module BalancerIT.
Import Pool Balancer.

Definition a : SocketAddr := SockAddr (V4 (Ipv4 127 0 0 1)) 40001.
Definition b : SocketAddr := SockAddr (V4 (Ipv4 127 0 0 1)) 40002.

(** [n] connections, with both backends accepting. *)
Definition who (n : nat) (h : list Backend) (p : Pool) : Pool * list Served :=
  let '(p, ss, _) := serve (replicate n (Accepted h (fun _ => true))) p in (p, ss).

Definition round_robins_and_fails_over : bool :=
  let '(p, h) := Pool_new [a; b] [] in
  let h := set_healthy 1 true (set_healthy 0 true h) in
  let '(p, seen) := who 8 h p in
  let h1 := set_healthy 0 false h in
  let '(p, failed) := who 6 h1 p in
  let h2 := set_healthy 1 false h1 in
  let '(p, dropped) := who 1 h2 p in
  asserts [
    existsb (eq (Proxied 0)) seen; existsb (eq (Proxied 1)) seen;
    forallb (eq (Proxied 1)) failed;
    eq dropped [NoBackend]].

End BalancerIT.

(** ** [tests/bgp.rs] *)

Module BgpIT.
Import Config Bgp.

Definition VIP : Ipv4Addr := Ipv4 10 9 0 100.

Definition msg (t : Z) (b : list Z) : list Z := replicate 16 0xff ++ be16 (19 + Z.of_nat (length b)) ++ [t] ++ b.
Definition open (asn hold : Z) : list Z := msg OPEN ([4] ++ be16 asn ++ be16 hold ++ [10; 0; 0; 2; 0]).

Definition speaker (port peer_asn : Z) : BgpCfg :=
  {| bgp_enabled := true; bgp_local_asn := 64512; bgp_router_id := lit "10.0.0.1";
     bgp_peers := [{| bp_address := lit "127.0.0.1"; bp_asn := peer_asn; bp_port := port |}] |}.

(** The session [spawn] starts. *)
Definition the_session : option SessionCfg :=
  match spawn (speaker 1790 65001) VIP (Ipv4 10 0 0 1) with [(_, c)] => Some c | _ => None end.

(** The fake peer's OPEN and KEEPALIVE, as our reader delivers them at [t]. *)
Definition fake_peer (asn hold t : Z) : list Input :=
  match reader (open asn hold ++ msg KEEPALIVE []) with
  | Some (ms, _) => (fun m => at_time t (Recvd m.1 m.2)) <$> ms
  | None => []
  end.

(** What the peer sees: the messages of the bytes it is sent. *)
Definition sees (sent : list (list Z)) : list (Z * list Z) :=
  match reader (mjoin sent) with Some (ms, _) => ms | None => [] end.

Definition of_type (t : Z) (ms : list (Z * list Z)) : list (list Z) :=
  snd <$> List.filter (fun m : Z * list Z => m.1 =? t) ms.

(** An UPDATE's withdrawn-routes and NLRI parts. *)
Definition update_parts (body : list Z) : list Z * list Z :=
  let at_ i := nth i body 0 in
  let wl := Z.to_nat (of_be16 (at_ 0%nat) (at_ 1%nat)) in
  let al := Z.to_nat (of_be16 (at_ (2 + wl)%nat) (at_ (3 + wl)%nat)) in
  (take wl (drop 2 body), drop (4 + wl + al) body).

Definition announces_only_when_established_then_follows_health_at_once : bool :=
  match the_session with
  | None => false
  | Some c =>
      let peer := fake_peer 65001 9 (secs 1 + secs 1 / 2) in
      let ins := peer ++ [at_time (secs 1 + secs 1 / 2) (Advertise true); at_time (secs 2) (Advertise false);
                          at_time (secs 3) (Advertise true)] in
      let seen n := sees (session c true true (take n ins)).1 in
      let first := default [] (head (of_type OPEN (seen 0%nat))) in
      let updates n := update_parts <$> of_type UPDATE (seen n) in
      asserts [
        eq (take 2 (drop 1 first)) (be16 64512); eq (take 2 (drop 3 first)) (be16 180);
        eq (updates 1%nat) []; eq (updates 2%nat) [];
        eq (snd <$> updates 3%nat) [[32; 10; 9; 0; 100]];
        eq (fst <$> drop 1 (updates 4%nat)) [[32; 10; 9; 0; 100]];
        eq (snd <$> drop 2 (updates 5%nat)) [[32; 10; 9; 0; 100]]]
  end.

(** Its ticker and its hold timer, with nothing read after the KEEPALIVE. *)
Definition a_silent_peer_is_dropped_at_the_hold_time : bool :=
  match the_session with
  | None => false
  | Some c =>
      let ins := fake_peer 65001 3 0
                 ++ [at_time (secs 1) Tick; at_time (secs 2) Tick; at_time (secs 3 - 200000000) HoldTimer;
                     at_time (secs 3) HoldTimer] in
      let '(sent, o) := session c true true ins in
      asserts [
        eq (ticker_period 3) (secs 1);
        eq ((fun b => take 2 b) <$> of_type NOTIFICATION (sees sent)) [[4; 0]];
        (3 <=? length (of_type KEEPALIVE (sees sent)))%nat;
        match o with Ended => true | _ => false end;
        eq (of_type NOTIFICATION (sees (session c true true (take 5 ins)).1)) []]
  end.

Definition a_peer_with_the_wrong_as_is_refused : bool :=
  match the_session with
  | None => false
  | Some c =>
      let '(sent, o) := session c true true (fake_peer 65002 90 0 ++ [at_time 0 (Advertise true)]) in
      asserts [
        eq ((fun b => take 2 b) <$> of_type NOTIFICATION (sees sent)) [[2; 2]];
        eq (of_type UPDATE (sees sent)) []]
  end.

End BgpIT.

(** ** [tests/vips.rs] *)

Module VipsIT.
Import Config Health Vips Api.

#[local] Existing Instance demo_reqwest.
#[local] Existing Instance demo_json.

Definition local_ (p : Z) : SocketAddr := SockAddr (V4 (Ipv4 127 0 0 1)) p.

(** The outside: every port is free but those of [taken], the files of [fs]. *)
Definition outside (taken : list Z) (files_ : str -> option (list Z)) : Env :=
  {| can_bind a := negb (bool_decide (sa_port a ∈ taken)); fs := files_; fs_again := files_;
     mkdir_ok := true; write_fails := None; rename_ok := true |}.

Definition free : Env := outside [] (fun _ => None).

(** A body with what serde makes of it. *)
Record Body := { text : str; meaning : option VipSpec }.

Definition no_body : Body := {| text := []; meaning := None |}.

(** [spec]: a VIP on [port] with backends on these ports, checked by TCP every second. *)
Definition spec_of (port : Z) (backends : list Z) : VipSpec :=
  VipSpec_of (lit "127.0.0.1") port None
    (Some ((fun p => {| b_address := lit "127.0.0.1"; b_port := p |}) <$> backends))
    (Some {| mode := Tcp; path := default_path; interval_secs := 1; timeout_secs := 1;
             expect_status := default_expect; ca_file := None |}) None.

Definition spec (port : Z) (backends : list Z) : Body :=
  {| text := lit "the spec"; meaning := Some (spec_of port backends) |}.

(** One request to the API, over a connection: the registry after it, the status and
    the answer; [0] when there is none. *)
Definition call (env : Env) (token : option (str * str)) (r : Registry) (method path : string) (b : Body)
    (bearer : option string) : Registry * (Z * Answer) :=
  let auth := match bearer with Some t => lit "authorization: Bearer " ++ lit t ++ [13; 10] | None => [] end in
  let req := lit method ++ lit " " ++ lit path ++ lit " HTTP/1.1" ++ [13; 10] ++ lit "host: x" ++ [13; 10] ++ auth
             ++ lit "content-length: " ++ dec (Z.of_nat (length (text b))) ++ [13; 10; 13; 10] ++ text b in
  let e := {| reg_env := env; read_text p := (fun t : str * str => t.2) <$> token;
              parse_spec body := if bool_decide (body = text b) then meaning b else None |} in
  match read_request [Chunk req] with
  | Got q _ => default (r, (0, StatusOk)) (handle e (fst <$> token) q r)
  | _ => (r, (0, StatusOk))
  end.

Definition status (x : Registry * (Z * Answer)) : Z := x.2.1.

Definition viewed (x : Registry * (Z * Answer)) : option VipView := match x.2.2 with Vip_ v => v | _ => None end.

(** A turn of every health loop; [up] are the ports that accept. *)
Definition checked (up : list Z) (r : Registry) : Registry :=
  let net := {| read_file _ := None; tcp_connects _ a := bool_decide (sa_port a ∈ up); Health.get _ _ := None |} in
  foldl (fun r i => match cores r !! i with
                    | Some core =>
                        let '(h, ck) := round net (pool core) (checker core) (heap r) in
                        set_cores h (<[i := {| pool := pool core; checker := ck;
                                               health_aborted := health_aborted core |}]> (cores r)) r
                    | None => r
                    end) r (seq 0 (length (cores r))).

(** The port of the backend a connection through the VIP reaches; [None] when nothing
    listens there, or it is dropped. *)
Definition who (vip : Z) (r : Registry) : Registry * option Z :=
  match List.find (fun sv => eq (s_listen sv) (local_ vip) && negb (s_aborted sv)) (serves r) with
  | None => (r, None)
  | Some sv =>
      match cores r !! s_core sv with
      | None => (r, None)
      | Some core =>
          let '(p, s, _) := Balancer.serve_one (s_vip sv) (fun _ => true) (heap r) (pool core) in
          (set_cores (heap r) (<[s_core sv := {| pool := p; checker := checker core;
                                                 health_aborted := health_aborted core |}]> (cores r)) r,
           match s with
           | Balancer.Proxied l => sa_port <$> Pool.addr_at (heap r) l
           | _ => None
           end)
      end
  end.

Definition listens (vip : Z) (r : Registry) : bool :=
  existsb (fun sv => eq (s_listen sv) (local_ vip) && negb (s_aborted sv)) (serves r).

Definition healthy_in (v : option VipView) : list bool :=
  match v with Some v => bs_healthy <$> view_backends v | None => [] end.

Definition a_vip_is_created_its_backends_changed_and_removed : bool :=
  let up := [1; 2] in
  let put r bs := call free None r "PUT" "/api/v1/vips/api" (spec 6443 bs) None in
  let created := put (new None ∅) [1] in
  let r1 := checked up created.1 in
  let got := call free None r1 "GET" "/api/v1/vips/api" no_body None in
  let to_b := put r1 [2] in
  let r2 := checked up to_b.1 in
  let '(r3, w1) := who 6443 r2 in
  let '(r4, w2) := who 6443 r3 in
  let both := put r4 [2; 1] in
  let r5 := checked up both.1 in
  let listed := call free None r5 "GET" "/api/v1/vips" no_body None in
  let removed := call free None r5 "DELETE" "/api/v1/vips/api" no_body None in
  asserts [
    status created =? 201;
    eq (source_config <$> viewed created) (Some false); eq (listening <$> viewed created) (Some (lit "127.0.0.1:6443"));
    eq (who 6443 created.1).2 None; eq (who 6443 r1).2 (Some 1);
    status got =? 200; eq (view_healthy <$> viewed got) (Some 1%nat);
    eq ((fun v => bs_port <$> view_backends v) <$> viewed got) (Some [1]); eq (healthy_in (viewed got)) [true];
    status to_b =? 200; eq w1 (Some 2); eq w2 (Some 2);
    status both =? 200; eq (healthy_in (viewed both)) [true; false];
    eq (view_healthy <$> Vips.get (lit "api") r5) (Some 2%nat);
    status listed =? 200; match listed.2.2 with Vips_ l => (length l =? 1)%nat | _ => false end;
    status removed =? 200; negb (listens 6443 removed.1);
    status (call free None removed.1 "DELETE" "/api/v1/vips/api" no_body None) =? 404;
    status (call free None removed.1 "GET" "/api/v1/vips/api" no_body None) =? 404].

(** The cases of [bad_requests_are_refused_and_change_nothing]: path, body, status. *)
Definition bad_cases : list (string * Body * Z) :=
  let body a p bs h v := {| text := lit "a spec"; meaning := Some (VipSpec_of (lit a) p None bs h v) |} in
  [("/api/v1/vips/two", body "nope" 1 None None None, 400);
   ("/api/v1/vips/two", body "127.0.0.1" 0 None None None, 400);
   ("/api/v1/vips/two", {| text := lit "bogus"; meaning := None |}, 400);
   ("/api/v1/vips/two", body "127.0.0.1" 1 (Some [{| b_address := lit "master1"; b_port := 6443 |}]) None None, 400);
   ("/api/v1/vips/two", body "127.0.0.1" 1 None
      (Some (HealthSpec_of (Some Https) None None None None (Some (lit "/nonexistent/ca.crt")))) None, 400);
   ("/api/v1/vips/two", body "::1" 1 None None (Some (VrrpSpec_of (lit "lo") None None None None)), 400);
   ("/api/v1/vips/Two", spec 7000 [1], 400);
   ("/api/v1/vips/two", spec 6443 [1], 409)]%string.

Definition bad_requests_are_refused_and_change_nothing : bool :=
  let r := (call free None (new None ∅) "PUT" "/api/v1/vips/one" (spec 6443 [1]) None).1 in
  let r := foldl (fun r c => (call free None r "PUT" c.1.1 c.1.2 None).1) r bad_cases in
  let zero := call free None r "PUT" "/api/v1/vips/one" (spec 0 []) None in
  asserts [
    forallb (fun c => status (call free None r "PUT" c.1.1 c.1.2 None) =? c.2) bad_cases;
    status zero =? 400;
    eq ((fun v => port (view_spec v)) <$> Vips.get (lit "one") zero.1) (Some 6443);
    (length (list_views zero.1) =? 1)%nat;
    status (call free None r "POST" "/api/v1/vips/one" {| text := lit "{}"; meaning := None |} None) =? 405;
    status (call free None r "GET" "/api/v1/other" no_body None) =? 404].

Definition moving_the_listener_binds_the_new_port_before_closing_the_old : bool :=
  let put env r p := call env None r "PUT" "/api/v1/vips/m" (spec p [1]) None in
  let made := put free (new None ∅) 7001 in
  let r := checked [1] made.1 in
  let refused := put (outside [7777] (fun _ => None)) r 7777 in
  let moved := put free refused.1 7002 in
  asserts [
    status made =? 201; eq (who 7001 r).2 (Some 1);
    status refused =? 409; eq (who 7001 refused.1).2 (Some 1);
    status moved =? 200; eq (who 7002 moved.1).2 (Some 1); negb (listens 7001 moved.1)].

Definition a_token_file_guards_the_api_but_not_healthz : bool :=
  let at_ file path bearer := status (call free (Some (lit "/token", file)) (new None ∅) "GET" path no_body bearer) in
  let was := lit "s3cret" ++ [10] in
  asserts [
    at_ was "/api/v1/vips"%string None =? 401; at_ was "/api/v1/vips"%string (Some "wrong"%string) =? 401;
    at_ was "/api/v1/vips"%string (Some "s3cret"%string) =? 200; at_ was "/healthz"%string None =? 200;
    at_ (lit "n3w"%string) "/api/v1/vips"%string (Some "s3cret"%string) =? 401;
    at_ (lit "n3w"%string) "/api/v1/vips"%string (Some "n3w"%string) =? 200].

Definition off_loopback_the_api_needs_a_token_file : bool :=
  let cfg := {| listen := lit "0.0.0.0:0"; Config.token_file := None; Config.state_file := None |} in
  match Api.run (fun _ => true) cfg with
  | inl NeedsToken => true
  | _ => false
  end.

Definition vips_made_through_the_api_are_saved_and_served_after_a_restart : bool :=
  let state := lit "/data/sub/vips.json" in
  let saved r := files r !! state ≫= from_json in
  let made := call free None (new (Some state) ∅) "PUT" "/api/v1/vips/kept" (spec 6443 [1]) None in
  let stopped := stop_all made.1 in
  let '(r, loaded) := load_state (fun _ => free) true (new (Some state) (files stopped)) in
  let r := checked [1] r in
  let gone := Vips.remove free (lit "kept") r in
  asserts [
    status made =? 201;
    eq ((fun s => port <$> (s !! lit "kept")) <$> saved made.1) (Some (Some 6443));
    negb (listens 6443 stopped);
    match loaded with inr n => (n =? 1)%nat | inl _ => false end;
    eq (who 6443 r).2 (Some 1);
    match gone.2 with None => true | Some _ => false end;
    eq (saved gone.1) (Some ∅)].

Definition the_config_files_vip_is_read_only_through_the_api : bool :=
  let cfg := {| vip := Some {| v_address := lit "127.0.0.1"; v_port := 6443; v_bind := lit "127.0.0.1" |};
                Config.backends := [{| be_address := lit "127.0.0.1"; be_port := 1 |}];
                Config.health := HealthSpec_default; vrrp := VrrpCfg_default;
                bgp := BgpCfg_of None None None None; router := None; api := None; metrics := None |} in
  match config_spec cfg with
  | None => false
  | Some s =>
      let r := (start_config free s (new None ∅)).1 in
      let got := call free None r "GET" "/api/v1/vips/default" no_body None in
      asserts [
        status got =? 200; eq (source_config <$> viewed got) (Some true);
        status (call free None r "PUT" "/api/v1/vips/default" (spec 7000 [1]) None) =? 409;
        status (call free None r "DELETE" "/api/v1/vips/default" no_body None) =? 409;
        eq (who 6443 (checked [1] r)).2 (Some 1)]
  end.

(** The CAs are the bytes of their files; the backend answers a client that trusts the
    one that signed its certificate. *)
Definition https_health_checks_verify_against_the_ca_file : bool :=
  let files_ p := if eq p (lit "ca.crt") then Some [1] else if eq p (lit "other-ca.crt") then Some [2] else None in
  let net := {| read_file := files_; tcp_connects _ _ := true;
                Health.get c _ := if bool_decide (trusted c = Some [[1]]) then Some 200 else None |} in
  let made ca := Checker_new files_ (HealthSpec_of (Some Https) (Some (lit "/readyz")) (Some 1) (Some 1) (Some [200])
                                       (Some (lit ca))) in
  let marks ca :=
    match made ca with
    | inr ck => let '(p, h) := Pool.Pool_new [local_ 1] [] in Pool.healthy_count p (round net p ck h).1
    | inl _ => 7%nat
    end in
  asserts [eq (marks "ca.crt"%string) 1%nat; eq (marks "other-ca.crt"%string) 0%nat].

Definition all : bool := asserts [
  a_vip_is_created_its_backends_changed_and_removed;
  bad_requests_are_refused_and_change_nothing;
  moving_the_listener_binds_the_new_port_before_closing_the_old;
  a_token_file_guards_the_api_but_not_healthz;
  off_loopback_the_api_needs_a_token_file;
  vips_made_through_the_api_are_saved_and_served_after_a_restart;
  the_config_files_vip_is_read_only_through_the_api;
  https_health_checks_verify_against_the_ca_file].

End VipsIT.

(** Every one passes on the model. *)
Theorem integration_tests_pass :
  BalancerIT.round_robins_and_fails_over
  && BgpIT.announces_only_when_established_then_follows_health_at_once
  && BgpIT.a_silent_peer_is_dropped_at_the_hold_time && BgpIT.a_peer_with_the_wrong_as_is_refused
  && VipsIT.all = true.
Proof. vm_compute. reflexivity. Qed.
