(* ===== verification/RouterTests.v ===== *)
(** * The router's integration tests, on the model

    The tests of [src/tests] that run the whole router against a fake apiserver and
    fake backends: [metrics.rs], [router_identity.rs], [router_upstream_tls.rs] and
    [router_tls.rs], a module per file and a definition per test, its value the
    conjunction of the assertions.  A fake peer is what it answers; where a test
    waits for a poll or a reload, there is one.  Certificates are the names they carry
    and who signed them. *)

From S2P Require Import Prelude Str Metrics Net UnitTests.
From S2P Require Exposition Config Vips Api Router Routes Tls Front MetricsPage.

(** ** The router under test *)

Module Harness.
Import Config Vips Api Router Routes Front.

#[export] Existing Instance tree_json.
#[export] Existing Instance toy_clients.

Definition api_url : str := lit "https://api".

(** A route as the fake apiservers hold it: its host, its backend, annotations beyond
    [storm.io/backend]. *)
Record Route := { host : string; at_ : string; extra : list (string * string) }.

Definition route_json (r : Route) : Tree :=
  obj [("metadata", obj [("namespace", text "t"); ("name", text (host r));
                         ("annotations", obj (("storm.io/backend", text (at_ r))
                                              :: ((fun kv : string * string => (kv.1, text kv.2)) <$> extra r)))]);
       ("spec", obj [("hostnames", TArr [text (host r)])])]%string.

Definition items_of (rs : list Route) : Tree := obj [("items", TArr (route_json <$> rs))]%string.

(** An apiserver that answers everyone with these routes. *)
Definition fake_api (rs : list Route) (url : str) : option Tree :=
  if bool_decide (url = routes_url api_url) then Some (items_of rs) else None.

(** A router for that apiserver, with these files. *)
Definition router_cfg (ca_file token_file backend_ca_file : option string) : RouterCfg :=
  RouterCfg_of None (Some api_url) (Some 1) (Some true) (lit <$> ca_file) (lit <$> token_file) None
    (lit <$> backend_ca_file).

Definition plain_cfg : RouterCfg := router_cfg None None None.

(** No files. *)
Definition poll_of (rs : list Route) : PollEnv :=
  {| file_time _ := None; file_bytes _ := None; file_text _ := None; apiserver _ _ := fake_api rs |}.

(** The backends: what the one at an address answers to these bytes, over TLS or not. *)
Abbreviation Backends := (str -> bool -> list Z -> list Z) (only parsing).

Definition replies (bs : Backends) (s : Served) : list Read :=
  match s with
  | Forwarded addr name bytes rest =>
      match bs addr (some name) (bytes ++ sends rest) with [] => [Eof] | b => [Chunk b; Eof] end
  | _ => []
  end.

(** A client that writes [req] in these pieces and closes once it has read to the end. *)
Definition arrives (t : PollState) (certs : bool) (redirect : option Z) (tls : bool) (d : Dial) (bs : Backends)
    (req : list (list Z)) : Arrival :=
  let reads := (Chunk <$> req) ++ [Eof] in
  let r := (fun port => {| certs_loaded := certs; tls_port := port |}) <$> redirect in
  {| a_table := table t; a_certs := certs; a_handshake := true; a_dial := d; a_reads := reads;
     a_head_written := true; a_replies := replies bs (serve_conn (table t) r tls d reads).1;
     a_sched := ((fun _ => (Up, None)) <$> req) ++ [(Down, None); (Down, None); (Up, None)] |}.

(** What it reads; nothing when the connection is closed unanswered. *)
Definition answer (t : Task) : list Z :=
  match t_end t with Proxied sp => to_client sp | NoProxy (Answered b) => b | _ => [] end.

Definition plain_dial : Dial :=
  {| connects _ := true; ca_loaded := false; valid_name_ _ := true; handshake := false |}.

Definition request (host path : string) : list Z :=
  http "GET " ++ lit path ++ http " HTTP/1.1|Host: " ++ lit host ++ http "||".

(** A 200 that ends with the connection. *)
Definition ok_with (body : list Z) : list Z :=
  http "HTTP/1.1 200 OK|content-length: " ++ dec (Z.of_nat (length body)) ++ http "|connection: close||" ++ body.

Definition starts (p : string) (s : list Z) : bool := starts_with (lit p) s.
Definition ends_in (p : string) (s : list Z) : bool := starts_with (rev (lit p)) (rev s).

End Harness.

(** ** [tests/metrics.rs] *)

Module MetricsIT.
Import Exposition Config Api Router Routes Front MetricsPage Harness.

(** It answers once the body it announces is whole, with how much it got. *)
Definition sink_backend (bytes : list Z) : list Z :=
  match find_head_end bytes with
  | None => []
  | Some e =>
      let len := omap (fun l => v ← strip_prefix (lit "content-length:") l; parse_uint USIZE_MAX (trim v))
                      (split_on 10 (lower (take e bytes))) in
      let got := Z.of_nat (length (drop e bytes)) in
      if got <? default 0 (head len) then [] else
      http "HTTP/1.1 201 Created|content-length: " ++ dec (Z.of_nat (length (dec got)))
      ++ http "|connection: close||" ++ dec got
  end.

Definition routes : list Route :=
  [{| host := "app.test"; at_ := "127.0.0.1:9001"; extra := [] |};
   {| host := "dead.test"; at_ := "127.0.0.1:9002"; extra := [] |}]%string.

(** Nothing listens on the second port. *)
Definition dial : Dial :=
  {| connects a := bool_decide (a = lit "127.0.0.1:9001"); ca_loaded := false; valid_name_ _ := true;
     handshake := false |}.

Definition send (t : PollState) (req : list (list Z)) : Task :=
  http_task None (arrives t false None false dial (fun _ _ => sink_backend) req).

(** The registry over a connection's task: the gauge while it lasts, its counts and
    the duration of its response, a millisecond. *)
Definition measured (m : Metrics) (t : Task) : Metrics :=
  let '(m, guard) := active (lit "stormlb_router_connections_active") [(lit "listener", lit "http")] m in
  let m := foldl (fun m c => Metrics.record c m) m (t_counts t) in
  let hosts := match t_end t with Proxied sp => observed_hosts sp | _ => [] end in
  guard_drop guard (foldl (fun m h => observe (lit "stormlb_router_request_duration_seconds")
                                        [(lit "host", h)] (secs 1 / 1000) m) m hosts).

(** The registry after a poll. *)
Definition polled (e : PollEnv) (s : PollState) (m : Metrics) : Metrics :=
  let '(c, gauge) := poll_report plain_cfg e s in
  let m := Metrics.record c m in
  match gauge with Some n => gauge_set (lit "stormlb_router_routes") [] n m | None => m end.

Definition build_info : list Extra :=
  [{| x_name := "stormlb_build_info"; x_labels := labels_text [(lit "version", version)];
      x_value := Float.f64_of_Z 1 |}].

Definition scrape (m : Metrics) (req : list Z) : list Z := scrape_conn build_info m [Chunk req].

(** A sample of the page: its value, a whole number. *)
Definition sample_of (page : list Z) (name : string) (ls : list (string * string)) : option Z :=
  let text := match find_head_end page with Some e => drop e page | None => [] end in
  let ls := (fun p : string * string => (lit p.1, lit p.2)) <$> ls in
  ss ← read_page text;
  s ← List.find (fun s => eq (s_name s) (lit name) && eq (s_labels s) ls) ss;
  parse_uint USIZE_MAX (s_value s).

(** The upload is 20 KiB, more than a head may be, instead of 8 MiB. *)
Definition metrics_count_what_the_router_did : bool :=
  let e := poll_of routes in
  let t0 := poll_start in
  let t := poll plain_cfg e t0 in
  let get host path := [request host path] in
  let m0 := measured Metrics_default (send t0 (get "app.test" "/"))%string in
  let up := send t (get "app.test" "/")%string in
  let m1 := measured (polled e t0 m0) up in
  let before := scrape m1 (request "x" "/metrics") in
  let x := send t (get "app.test" "/x")%string in
  let body := replicate 5 (replicate 4096 120) in
  let head := http "POST /up HTTP/1.1|Host: app.test|content-length: 20480||" in
  let upload := send t (head :: body) in
  let nobody := send t (get "nobody.test" "/")%string in
  let no_host := send t [http "GET / HTTP/1.1||"] in
  let healthz := send t (get "127.0.0.1" "/healthz")%string in
  let dead := send t (get "dead.test" "/")%string in
  let m2 := foldl measured m1 [x; upload; nobody; no_host; healthz; dead] in
  let after := scrape m2 (request "x" "/metrics") in
  let s := sample_of after in
  let d name ls := (fun v => v - default 0 (sample_of before name ls)) <$> s name ls in
  let total host code := d "stormlb_router_requests_total"%string [("host", host); ("code", code)]%string in
  asserts [
    starts "HTTP/1.1 201" (answer up); starts "HTTP/1.1 201" (answer x);
    starts "HTTP/1.1 201" (answer upload); ends_in "20480" (answer upload);
    starts "HTTP/1.1 404" (answer nobody); starts "HTTP/1.1 400" (answer no_host);
    starts "HTTP/1.1 200" (answer healthz); eq (answer dead) [];
    starts "HTTP/1.1 200" after; contains after (lit "text/plain; version=0.0.4");
    eq (total "app.test" "201") (Some 2); eq (total "unrouted" "404") (Some 1);
    eq (total "unrouted" "400") (Some 1); eq (total "unrouted" "200") (Some 1);
    eq (total "dead.test" "error") (Some 1);
    eq (d "stormlb_router_upstream_errors_total" [("host", "dead.test"); ("kind", "connect")]) (Some 1);
    eq (d "stormlb_router_request_duration_seconds_count" [("host", "app.test")]) (Some 2);
    eq (d "stormlb_router_request_duration_seconds_bucket" [("host", "app.test"); ("le", "+Inf")]) (Some 2);
    eq (d "stormlb_router_connections_total" [("listener", "http")]) (Some 6);
    eq (s "stormlb_router_routes" []) (Some 2);
    eq (s "stormlb_router_route_refreshes_total" [("result", "ok")]) (Some 1);
    contains after (lit "stormlb_build_info{version=" ++ [34]);
    negb (contains after (lit "nobody.test"));
    eq (s "stormlb_router_connections_active" [("listener", "http")]) (Some 0);
    starts "HTTP/1.1 404" (scrape m2 (request "x" "/"));
    starts "HTTP/1.1 405" (scrape m2 (http "POST /metrics HTTP/1.1|content-length: 0||"))]%string.

End MetricsIT.

(** ** [tests/router_identity.rs] *)

Module IdentityIT.
Import Config Router Routes Front Harness.

Definition cluster_ca : Z := 1.
Definition other_ca : Z := 2.

Definition ca_files (p : str) : option (list Z) :=
  if bool_decide (p = lit "ca.crt") then Some [cluster_ca]
  else if bool_decide (p = lit "other.crt") then Some [other_ca] else None.

(** The fake apiserver, its certificate signed by the cluster's CA: 403 unless the
    token is the one it wants; nothing to a client that does not trust it. *)
Definition fake_api (want : string) (client : option (list Z)) (url : str) (token : option str)
    : option (Z * option Tree) :=
  match client with
  | Some roots =>
      if negb (bool_decide (cluster_ca ∈ roots)) then None
      else if bool_decide (token = Some (lit want)) then
        Some (if bool_decide (url = routes_url api_url)
              then (200, Some (items_of [{| host := "app.test"; at_ := "127.0.0.1:9001"; extra := [] |}]%string))
              else (404, None))
      else Some (403, Some (obj [("kind", text "Status"); ("code", TNum 403)]%string))
  | None => None
  end.

(** The token the router sends in a poll: what the apiserver last saw. *)
Definition last_auth (file : option str) : option (option str) := read_token (fun _ => file) (Some (lit "token")).

Definition cfg_with (ca : string) : RouterCfg := router_cfg (Some ca) (Some "token"%string) None.

(** One poll, with the token's file as it is then. *)
Definition poll_as (want : string) (file : option str) : PollEnv :=
  {| file_time _ := Some 1; file_bytes := ca_files; file_text _ := file;
     apiserver c t url := match api_get (fake_api want c) url t with inr v => Some v | inl _ => None end |}.

Definition backend (_ : str) (_ : bool) (_ : list Z) : list Z := ok_with (lit "ok").

Definition get (cfg : RouterCfg) (es : list PollEnv) : list Z :=
  answer (http_task None (arrives (polls cfg es) false None false plain_dial backend [request "app.test" "/"])).

(** Whether the apiserver served the list in the last of these polls. *)
Definition served (cfg : RouterCfg) (es : list PollEnv) (e : PollEnv) : bool :=
  eq (labels (poll_report cfg e (polls cfg es)).1) [("result", lit "ok")]%string.

Definition the_router_reads_routes_as_itself_over_a_verified_connection : bool :=
  let cfg := cfg_with "ca.crt" in
  let no_token := [poll_as "s3cret" None] in
  let wrong := no_token ++ [poll_as "s3cret" (Some (lit "wrong" ++ [10]))] in
  let right := wrong ++ [poll_as "s3cret" (Some (lit "s3cret" ++ [10]))] in
  let refused := right ++ [poll_as "n3w" (Some (lit "s3cret" ++ [10]))] in
  let rotated := poll_as "n3w" (Some (lit "n3w")) in
  asserts [
    starts "HTTP/1.1 404" (get cfg []);
    starts "HTTP/1.1 404" (get cfg no_token); negb (served cfg [] (poll_as "s3cret" None));
    eq (last_auth (Some (lit "wrong" ++ [10]))) (Some (Some (lit "wrong")));
    match api_get (fake_api "s3cret" (Some [cluster_ca])) (routes_url api_url) (Some (lit "wrong")) with
    | inl (Denied true) => true | _ => false end;
    starts "HTTP/1.1 404" (get cfg wrong);
    ends_in "ok" (get cfg right);
    ends_in "ok" (get cfg refused); negb (served cfg right (poll_as "n3w" (Some (lit "s3cret"))));
    served cfg refused rotated; eq (last_auth (Some (lit "n3w"))) (Some (Some (lit "n3w")));
    starts "HTTP/1.1 404" (get (cfg_with "other.crt") [rotated])].

End IdentityIT.

(** ** [tests/router_upstream_tls.rs] *)

Module UpstreamTlsIT.
Import Config Router Routes Front Harness.

Definition good : str := lit "127.0.0.1:9001".
Definition rogue : str := lit "127.0.0.1:9002".
Definition plain_ : str := lit "127.0.0.1:9003".

Definition https : string * string := ("storm.io/backend-protocol", "https")%string.
Definition server_name (n : string) : string * string := ("storm.io/backend-server-name"%string, n).

Definition routes : list Route :=
  [{| host := "ip.test"; at_ := "127.0.0.1:9001"; extra := [https] |};
   {| host := "name.test"; at_ := "127.0.0.1:9001"; extra := [https; server_name "svc.test"] |};
   {| host := "wrongname.test"; at_ := "127.0.0.1:9001"; extra := [https; server_name "nope.test"] |};
   {| host := "rogue.test"; at_ := "127.0.0.1:9002"; extra := [https] |};
   {| host := "tlsport.test"; at_ := "127.0.0.1:9001"; extra := [] |};
   {| host := "plain.test"; at_ := "127.0.0.1:9003"; extra := [] |}]%string.

(** Who signed the certificate of the backend at an address, and the names in it. *)
Definition certificate (a : str) : option (Z * list str) :=
  let names := [lit "127.0.0.1"; lit "svc.test"] in
  if bool_decide (a = good) then Some (IdentityIT.cluster_ca, names)
  else if bool_decide (a = rogue) then Some (IdentityIT.other_ca, names) else None.

(** The backends echo the head they got; a TLS port answers plain bytes with an alert. *)
Definition backends (a : str) (over_tls : bool) (bytes : list Z) : list Z :=
  match certificate a, over_tls with
  | Some _, true => ok_with (take (default 0%nat (find_head_end bytes)) bytes)
  | Some _, false => [21; 3; 3; 0; 2; 2; 10]
  | None, _ => ok_with (lit "plain")
  end.

(** The dial of a host's backend: the handshake succeeds with a certificate signed by
    a root that the connector in force trusts and carrying the name. *)
Definition dial (t : PollState) (host : string) : Dial :=
  {| connects _ := true; ca_loaded := some (upstream t); valid_name_ _ := true;
     handshake := match table t !! lit host with
                  | Some {| b_addr := a; b_tls := Some name |} =>
                      match upstream t, certificate a with
                      | Some roots, Some (signer, names) => bool_decide (signer ∈ (roots : list Z) /\ name ∈ names)
                      | _, _ => false
                      end
                  | _ => false
                  end |}.

Definition task (t : PollState) (host : string) : Task :=
  http_task None (arrives t false None false (dial t host) backends [request host "/p"]).

Definition tls_error (host : string) (t : Task) : bool :=
  existsb (fun c => eq (metric c) "stormlb_router_upstream_errors_total"%string
                    && eq (labels c) [("host", lit host); ("kind", lit "tls")]%string) (t_counts t).

Definition https_backends_are_verified_against_the_ca_or_not_reached : bool :=
  let cfg := router_cfg None None (Some "trust.crt"%string) in
  let poll_with file stamp : PollEnv :=
    {| file_time _ := stamp; file_bytes _ := file; file_text _ := None; apiserver _ _ := fake_api routes |} in
  let missing := poll_with None None in
  let there := poll_with (Some [IdentityIT.cluster_ca]) (Some 1) in
  let t2 := polls cfg [missing; there] in
  let early := task (polls cfg [missing]) in
  let get host := answer (task t2 host) in
  asserts [
    ends_in "plain" (answer (early "plain.test"%string));
    eq (answer (early "ip.test"%string)) []; tls_error "ip.test" (early "ip.test"%string);
    starts "HTTP/1.1 200" (get "ip.test"%string);
    contains (get "ip.test"%string) (http "GET /p HTTP/1.1|Host: ip.test|");
    contains (get "name.test"%string) (lit "Host: name.test");
    eq (get "wrongname.test"%string) []; eq (get "rogue.test"%string) [];
    tls_error "wrongname.test" (task t2 "wrongname.test");
    tls_error "rogue.test" (task t2 "rogue.test");
    negb (starts "HTTP/1.1 200" (get "tlsport.test"%string));
    ends_in "plain" (get "plain.test"%string)].

End UpstreamTlsIT.

(** ** [tests/router_tls.rs] *)

Module RouterTlsIT.
Import Config Router Routes Tls Front Harness.

(** A leaf certificate of the test CA: its names, and the key it is for. *)
Record LeafCert := { san : list str; for_key : Z }.

#[export] Instance LeafCert_eq_dec : EqDecision LeafCert.
Proof. solve_decision. Defined.

(** A name in a certificate covers itself; [*.] and a domain covers that domain's
    names with one more label. *)
Definition covers_name (n : str) (pattern : str) : bool :=
  eq n pattern
  || match split_once 46 n with
     | Some (label, domain) => negb (eq label []) && eq pattern (lit "*." ++ domain)
     | None => false
     end.

#[local] Instance test_pki : Pki :=
  {| Cert := LeafCert; PrivateKey := Z; Signer := Z; Tls.ServerName := str;
     Tls.server_name := fun s => if bool_decide (s = []) then None else Some s;
     any_supported_type := inr;
     keys_match := fun chain k => match chain with
                                  | c :: _ => if for_key c =? k then None else Some (lit "mismatch")
                                  | [] => Some (lit "empty")
                                  end;
     end_entity := fun _ => None;
     valid_for := fun c n => existsb (covers_name n) (san c) |}.

(** A pair's two files: when they were made, the certificate, [None] when its file
    holds none, and the key. *)
Record Made := { name_ : string; made : Z; cert : option LeafCert; priv : Z }.

(** The test's directory. *)
Definition dir (ms : list Made) : Files :=
  let find p := List.find (fun m => starts_with (lit (name_ m)) p) ms in
  let missing := lit "No such file or directory" in
  {| mtime p := made <$> find p;
     pem_chain p := match find p with Some m => inr (inr (option_list (cert m))) | None => inl missing end;
     pem_key p := match find p with Some m => inr (priv m) | None => inl missing end |}.

Definition pair (n : string) : CertPair := {| cert_file := lit n ++ lit ".crt"; key_file := lit n ++ lit ".key" |}.

Definition wild : LeafCert := {| san := [lit "*.storm1.test"; lit "127.0.0.1"]; for_key := 1 |}.
Definition other : LeafCert := {| san := [lit "other.example"]; for_key := 2 |}.
Definition renewed : LeafCert := {| san := [lit "other.example"; lit "renewed.example"]; for_key := 3 |}.

(** A client that verifies the certificate it is served for [name]; an IP sends no
    SNI.  The leaf, or none when it refuses. *)
Definition tls (c : Certs) (name : string) : option LeafCert :=
  let n := lit name in
  match resolve (resolver (server_config c)) (if eq n (lit "127.0.0.1") then None else Some n) with
  | Some {| chain := l :: _ |} => if existsb (covers_name n) (san l) then Some l else None
  | _ => None
  end.

(** Answers with the request head it received. *)
Definition echo_backend (_ : str) (_ : bool) (bytes : list Z) : list Z :=
  ok_with (take (default 0%nat (find_head_end bytes)) bytes).

Definition asks (host path : string) : list Z :=
  http "GET " ++ lit path ++ http " HTTP/1.1|Host: " ++ lit host ++ http "|X-Forwarded-Proto: http||".

Definition cfg : RouterCfg :=
  {| r_listen := lit "127.0.0.1:8080"; r_apiserver := lit "http://127.0.0.1:1"; r_poll_secs := 1; r_insecure := true;
     r_tls := Some {| t_listen := lit "127.0.0.1:8443"; t_certs := [pair "wild"; pair "other"]; t_redirect := true;
                      t_reload_secs := 1 |};
     r_backend_ca_file := None; r_ca_file := None; r_token_file := None |}.

(** The certificates after these reloads of the directory. *)
Definition certs (first : list Made) (later : list (list Made)) : option Certs :=
  '(c, _, _) ← Certs_new (dir first) [pair "wild"; pair "other"]; reloads_all (dir <$> later) c.

Definition the_router_terminates_tls_picks_certificates_by_sni_and_redirects : bool :=
  let port := d ← Front.run cfg None (fun _ => true) (fun _ => true); to_https d in
  let e := poll_of [{| host := "app.storm1.test"; at_ := "127.0.0.1:9001"; extra := [] |}]%string in
  let t := polls plain_cfg [e] in
  let loaded c := negb (cert_count c =? 0)%nat in
  let plain c host path :=
    answer (http_task port (arrives t (loaded c) port false plain_dial echo_backend [asks host path])) in
  let secure host path := answer (https_task (arrives t true None true plain_dial echo_backend [asks host path])) in
  let w := {| name_ := "wild"; made := 1; cert := Some wild; priv := 1 |} in
  let o := {| name_ := "other"; made := 1; cert := Some other; priv := 2 |} in
  let r := {| name_ := "other"; made := 2; cert := Some renewed; priv := 3 |} in
  let broken := {| name_ := "other"; made := 3; cert := None; priv := 3 |} in
  match certs [] [], certs [] [[w; o]], certs [] [[w; o]; [w; r]], certs [] [[w; o]; [w; r]; [w; broken]] with
  | Some none, Some c, Some c_renewed, Some c_broken =>
      let moved := plain c "app.storm1.test" "/x?y=1" in
      let health := plain c "127.0.0.1" "/healthz" in
      let body := secure "app.storm1.test" "/x?y=1" in
      asserts [
        eq port (Some 8443);
        starts "HTTP/1.1 200" (plain none "app.storm1.test" "/x?y=1");
        eq (tls c "app.storm1.test") (Some wild);
        starts "HTTP/1.1 200" body; contains body (http "X-Forwarded-Proto: https|");
        negb (contains (lower body) (http "x-forwarded-proto: http|"));
        eq (tls c "other.example") (Some other); eq (tls c "127.0.0.1") (Some wild);
        eq (tls c "nope.example") None; eq (tls c "a.b.storm1.test") None;
        starts "HTTP/1.1 308" moved; contains moved (http "location: https://app.storm1.test:8443/x?y=1|");
        starts "HTTP/1.1 200" health; ends_in "alive" (take (length health - 1) health);
        eq (tls c "renewed.example") None; eq (tls c_renewed "renewed.example") (Some renewed);
        eq (tls c_broken "renewed.example") (Some renewed)]
  | _, _, _, _ => false
  end%string.

Definition a_key_that_is_not_the_certificates_is_refused : bool :=
  let files := dir [{| name_ := "a"; made := 1; cert := Some wild; priv := 1 |};
                    {| name_ := "b"; made := 1; cert := Some other; priv := 2 |}] in
  match Certs_new files [{| cert_file := lit "a.crt"; key_file := lit "b.key" |}] with
  | Some (c, _, n) => eq (cert_count c) 0%nat && eq n 0%nat
  | None => false
  end.

End RouterTlsIT.

(** Every one passes on the model. *)
Theorem router_tests_pass :
  MetricsIT.metrics_count_what_the_router_did
  && IdentityIT.the_router_reads_routes_as_itself_over_a_verified_connection
  && UpstreamTlsIT.https_backends_are_verified_against_the_ca_or_not_reached
  && RouterTlsIT.the_router_terminates_tls_picks_certificates_by_sni_and_redirects
  && RouterTlsIT.a_key_that_is_not_the_certificates_is_refused = true.
Proof. vm_compute. reflexivity. Qed.
